(* ===== verification/_CoqProject ===== *)
-Q . S2P
Prelude.v
Bits.v
Results.v
Machine.v
PageAllocator.v
KernelHeap.v
Paging.v
Bytes.v
Endian.v
Strings.v
StringObjects.v
Containers.v
LinkedLists.v
Pointers.v
Templates.v
HashMap.v
Fat.v
FatDirectory.v
Files.v
Vfs.v
Processes.v
AddressSpace.v
Boot.v
Sbi.v
Trap.v
Logger.v
Runtime.v
Mmio.v
Plic.v
Syscalls.v
Devices.v
Init.v
Console.v
VirtIO.v
QueueArrays.v
DeviceTree.v
FdtReport.v
Drivers.v
Startup.v
Elf.v
Loader.v
Interrupts.v
Keyboard.v
UserCalls.v
Shell.v
