(* ===== verification/Prelude.v ===== *)
(** MatteOS, a 64-bit RISC-V kernel in C++ ([src/src]), modelled and verified.

    * The program

    The firmware jumps to [_start], which jumps to [kmain] ([Kernel/Init.cpp]).
    [kmain] sets up physical pages and the kernel's page table, the kernel heap, a
    trap frame and a stack for every hart, parses the device tree, finds devices
    and drivers through it, mounts the FAT32 file system of the first block
    device, creates two processes and starts the scheduler.  From then on the
    kernel runs only in traps: the assembly of [trap.S] saves the context of the
    running thread in its trap frame, [handle_interrupt] serves a timer interrupt
    (schedule), a device interrupt (interrupt controller, device manager, driver)
    or a system call (dispatch, handlers on files, processes and the log), and the
    assembly goes on with the thread whose frame comes back.  User programs reach
    the kernel through the wrappers of [API/Syscall.h]; the console program is one.

    * Conventions

    A function that can stop in an assertion, leave the defined behaviour of C++ or
    not terminate returns an [outcome] (below): [Ret], [Halted], [Undef], [NoFuel].
    [Halted] is the first failed assertion: its last call, [CPU::halt], is one [wfi]
    instruction, and what the caller does when an interrupt ends it is not followed
    ([Runtime.v] has the assertion itself, with both possibilities).
    [ErrorOr] is a sum type and [Results.v] shows that the objects of the source
    are one.  State is passed explicitly; objects with identity (nodes, threads,
    devices, requests, strings) live in stores by address, 0 being the null
    pointer, so that sharing is in the model.  Machine words are integers with
    their wrap-around written out ([u64], [u32], [u8]); memory that the hardware or
    assembly also sees is a map of 64-bit words ([Machine.v]), memory that only C++
    code sees a list of bytes ([Bytes.v]).  What lies outside of the sources
    (devices, firmware, the compiled form of [handle_interrupt]) is a parameter or
    the operations of a class ([Bus], [Firmware], [BlockReader], [SyscallWorld]), and
    properties are proved against its laws.

    Loops without a structural measure carry fuel.  Theorems conclude with [Ret],
    which a run without enough fuel is not, so each of them proves termination
    too; the fuel they ask for is the number of threads of the run queue
    ([Processes.v]), the length of a cluster chain ([Fat.v]), of a string
    ([Syscalls.v]) or of the input ([DeviceTree.v]: four per byte, a bound on the
    chains of iterations that a nested node and what follows it share, since the number
    of all iterations can be exponential), the number of chunks of the heap ([KernelHeap.v]), and for polling ([VirtIO.v]) the
    number of polls after which the device answers, which no program can bound.
    Where a loop of the source does not end, that it does not is stated for every
    fuel.

    * The files and what they show

    Data and utilities.  [Prelude]: outcomes, errors, words, lists.  [Bits]:
    bit-field members of words.  [Results]: [Utils/Errors/ErrorOr.h], objects and
    [TRY] as a sum type.  [Machine]: physical memory.  [Bytes]: [Utils/Memory.cpp],
    [Utils/Basic.cpp]; [atoi] inverts [itoa], comparisons are what they should be.
    [Endian]: [Utils/Endian.h].  [Strings], [StringObjects]: [Utils/Strings]; values
    of strings, splitting, formatting, and [String] objects as values although
    they point to shared, mutable buffers; a [String] made from a view shares the
    buffer of the view.  [Containers],
    [LinkedLists]: [Utils/Arrays], [Utils/Optional.h]; refinement of lists and
    queues, life times of elements.  [Pointers]: [Utils/Pointers]; reference counts
    are exact, nothing is used after its deletion.  [Templates]: [Utils/Traits.h],
    [Variant.h], [Callable.h]; types as terms and traits as functions on them, which
    values of a variant are destroyed, copies of a function object.  [HashMap]:
    [Utils/Maps], [Utils/Hashing]; a finite map as long as buckets do not collide.
    [Runtime]: [Utils/Assertions.cpp], [cxx.cpp], the report of
    [MemoryManager::debug_output], and the managers that exist once: [kmain] asks
    for none before it is made.

    Memory.  [PageAllocator]: [Kernel/Memory/MemoryManager.cpp], [Page.cpp]; lowest
    first fit, and that clients with any sequence of requests hold disjoint,
    aligned blocks.  [KernelHeap]: [KernelMemoryAllocator.cpp]; the words of the heap
    implement first fit with splitting and coalescing on a list of chunks, contents
    of other blocks are kept.  [Paging]: [PageTable.cpp] and the mapping part of the
    manager; on a tree of tables [map] is insertion and [translate] lookup.
    [AddressSpace]: [init_memory], [map_system_defaults], [create_dummy_process];
    exactly which addresses the kernel and each process see, with which rights, that
    the kernel heap gets pages of its own, and that processes do not share frames and
    stacks.

    Files.  [Fat], [FatDirectory]: [FileSystem/FATFS]; on a device that reads whole
    sectors, as [BlockIODriver] does, reading a file is a slice of its cluster chain, directories list and find their entries.  [Files]:
    descriptors, requests, open files.  [Vfs]: [FileSystem.cpp], [RAMFS],
    [VirtualFileSystem.cpp]; opening by path, mount points.

    Processes and traps.  [Processes]: [Kernel/Process]; process table, round robin.
    [Boot], [Init], [Sbi]: [System.cpp], [Init.cpp], [SBI.cpp]; what the kernel's
    memory, harts and mounted file systems are after the start, and what can be
    opened when there is no disk.  [Startup]: [kmain] from the search for devices to
    the first switch, all components on one machine, with the drivers of [Console] and
    the base of the interrupt controller from the device tree.  [Trap]: [trap.S] and
    [CPU.cpp] as instructions on a hart behind the memory management unit; saving
    and restoring contexts is transparent, a new thread starts as it should, a
    fault of the kernel before the first process never reaches its handler.
    [Syscalls]: [Kernel/Syscalls]; each handler on all branches.  [Interrupts]:
    [Interrupts.cpp], [Timer.cpp].  [UserCalls]: the wrappers of [API/Syscall.h]
    composed with [Trap], [Interrupts] and [Syscalls] from the user's [ecall] to its
    answer.  [Shell]: the console program [Process/Console] and [dummy_process_main]
    as interaction trees over their system calls, equivalent to a session on a table
    of commands and to a program that only reports that it is alive.

    Devices.  [Mmio]: registers of devices.  [Plic]: the interrupt controller and
    [InterruptManager.cpp].  [Logger]: [Logger.cpp], [DebugConsole.cpp].  [Devices],
    [Drivers]: [Kernel/Devices], [Kernel/Drivers]; which devices are found and get
    which driver.  [Console]: console device and UART; lines are queued, readers
    woken.  [VirtIO]: the block device; the rings refine a queue of requests, up to
    a number of requests after which they do not.  [QueueArrays]: the object that
    owns the queues, its move and its destructor.  [Keyboard]: a key from the UART
    through the interrupt controller and the trap to the line that the waiting reader
    gets: [Console], [Plic], [Interrupts] and [Syscalls] on one board.  [DeviceTree]:
    [Kernel/Firmware]; the parser ends on every input and inverts flattening.
    [FdtReport]: what the nodes and the reserved regions print.  [Elf], [Loader]:
    [Process/Loader]; the structures of a file have the layout of their fields,
    checks of the header, module information.

    * Where the code is wrong

    Theorems state what the code does.  Where that is not what it means to do, the
    theorem says so (the 43rd request, long path names, colliding keys, the first
    trap) or a lemma next to the definition computes it; the properties of the
    normal case then have the condition under which it holds as a hypothesis.

    * Not modelled

    [boot.S], [mem.S] and [linker.ld]: an entry of a few instructions, and symbols,
    which are the record [Layout] of [AddressSpace].  The constants of [ELFDefs.h]
    that nothing uses (a quarter of all lines).  The functions of [cxx.cpp] without a
    body, and [kmalloc.h], which forwards to the heap.  [Observable.h], both
    [Locked.h], [Pair.h], [Function.h]: not complete or not used, or plain pairs and
    functions here.  [Memory/VirtualMemory], whose functions have no bodies;
    credentials, which nothing looks at; the table of kernel symbols, which a
    script generates; user programs without code; most
    of the messages that only print.  Declarations in headers have their model at
    the definition.  Caches of translations, floating-point status and interleavings
    of several harts are left out: the kernel starts one hart. *)
From stdpp Require Export base numbers list option gmap strings.
From Stdlib Require Export ZArith Lia.

#[global] Open Scope Z_scope.

(** * Outcomes of kernel code

    C++ code either returns, stops in [runtime_assert] (which prints a message
    and executes [wfi] in [CPU::halt], [src/Utils/Assertions.cpp]), or leaves
    the defined behaviour of the language (a null or wild access, a missing
    return).  Loops that are not structural carry fuel; running out of it is an
    outcome of its own, so that a theorem that concludes with [Ret] is a
    theorem about termination too. *)
Inductive outcome (A : Type) : Type :=
| Ret (a : A)
| Halted
| Undef
| NoFuel.
Arguments Ret {A} a.
Arguments Halted {A}.
Arguments Undef {A}.
Arguments NoFuel {A}.

Definition obind {A B : Type} (e : outcome A) (f : A → outcome B) : outcome B :=
  match e with
  | Ret a => f a
  | Halted => Halted
  | Undef => Undef
  | NoFuel => NoFuel
  end.

Declare Scope matte_scope.
Delimit Scope matte_scope with matte.
Notation "'let!' x := e 'in' k" := (obind e (fun x => k))
  (at level 10, x binder, e at level 200, k at level 200) : matte_scope.
#[global] Open Scope matte_scope.

Definition runtime_assert {A : Type} (condition : bool) (k : outcome A) : outcome A :=
  if condition then k else Halted.

(** A read that must find something: [None] is an access the language does not define. *)
Definition defined {A : Type} (o : option A) : outcome A :=
  match o with Some a => Ret a | None => Undef end.

Lemma obind_Ret {A B} (e : outcome A) (f : A → outcome B) b :
  obind e f = Ret b ↔ ∃ a, e = Ret a ∧ f a = Ret b.
Proof.
  split.
  - destruct e as [a'| | |]; simpl; try discriminate. by exists a'.
  - by intros (a & -> & Hf).
Qed.

Lemma obind_assoc {A B C} (e : outcome A) (f : A → outcome B) (g : B → outcome C) :
  obind (obind e f) g = obind e (fun a => obind (f a) g).
Proof. by destruct e. Qed.

Lemma runtime_assert_Ret {A} c (k : outcome A) a :
  runtime_assert c k = Ret a ↔ c = true ∧ k = Ret a.
Proof. destruct c; simpl; intuition congruence. Qed.

Lemma defined_Ret {A} (o : option A) a : defined o = Ret a ↔ o = Some a.
Proof. destruct o; simpl; split; congruence. Qed.

(** Invert every bind, assertion and defined read that is known to return. *)
Ltac inv_outcome :=
  repeat match goal with
  | H : obind _ _ = Ret _ |- _ =>
      let H1 := fresh "Hret" in let H2 := fresh "Hret" in
      apply obind_Ret in H; destruct H as (? & H1 & H2)
  | H : runtime_assert _ _ = Ret _ |- _ =>
      let H1 := fresh "Hassert" in let H2 := fresh "Hret" in
      apply runtime_assert_Ret in H; destruct H as [H1 H2]
  | H : defined _ = Ret _ |- _ => apply defined_Ret in H
  | H : Ret _ = Ret _ |- _ => injection H as H; subst
  | H : Halted = Ret _ |- _ => discriminate H
  | H : Undef = Ret _ |- _ => discriminate H
  | H : NoFuel = Ret _ |- _ => discriminate H
  end.

(** * Errors as values: [Utils::Error] and [Utils::ErrorOr] *)
Record Error : Type := mkError { m_message : string; m_code : Z }.

Definition create_from_string (message : string) : Error := mkError message 1.
Definition create_from_errno (error : Z) : Error := mkError EmptyString error.

Inductive ErrorOr (T E : Type) : Type :=
| Value (result : T)
| Failure (error : E).
Arguments Value {T E} result.
Arguments Failure {T E} error.

Definition has_value {T E} (r : ErrorOr T E) : bool :=
  match r with Value _ => true | Failure _ => false end.
Definition has_error {T E} (r : ErrorOr T E) : bool := negb (has_value r).

Definition fail_with {T} (message : string) : ErrorOr T Error :=
  Failure (create_from_string message).
#[global] Arguments fail_with {T} message%_string.

(** * Machine words *)
Definition wrap (w x : Z) : Z := x mod 2 ^ w.
#[global] Arguments wrap : simpl never.
Abbreviation u8 := (wrap 8).
Abbreviation u16 := (wrap 16).
Abbreviation u32 := (wrap 32).
Abbreviation u64 := (wrap 64).

Definition in_word (w x : Z) : Prop := 0 ≤ x < 2 ^ w.

#[global] Instance in_word_dec w x : Decision (in_word w x).
Proof. unfold in_word. apply _. Defined.

Create HintDb words.
Create Rewrite HintDb words.

Lemma wrap_bound w x : 0 ≤ w → in_word w (wrap w x).
Proof. intros. apply Z.mod_pos_bound. by apply Z.pow_pos_nonneg. Qed.

Lemma wrap_small w x : in_word w x → wrap w x = x.
Proof. apply Z.mod_small. Qed.

Lemma wrap_wrap w x : wrap w (wrap w x) = wrap w x.
Proof. apply Zmod_mod. Qed.

Lemma wrap_add_l w x y : wrap w (wrap w x + y) = wrap w (x + y).
Proof. apply Zplus_mod_idemp_l. Qed.

Lemma wrap_add_r w x y : wrap w (x + wrap w y) = wrap w (x + y).
Proof. apply Zplus_mod_idemp_r. Qed.

Lemma wrap_mul_l w x y : wrap w (wrap w x * y) = wrap w (x * y).
Proof. apply Zmult_mod_idemp_l. Qed.

Lemma wrap_add_cancel w x y : 0 ≤ w → wrap w (x + y * 2 ^ w) = wrap w x.
Proof.
  intros. unfold wrap. rewrite Z_mod_plus_full. done.
Qed.

Lemma wrap_testbit w x i :
  0 ≤ w → 0 ≤ i → Z.testbit (wrap w x) i = bool_decide (i < w) && Z.testbit x i.
Proof.
  intros. unfold wrap. case_bool_decide; simpl.
  - by rewrite Z.mod_pow2_bits_low by lia.
  - by rewrite Z.mod_pow2_bits_high by lia.
Qed.

#[export] Hint Resolve wrap_bound : words.
#[export] Hint Rewrite wrap_wrap wrap_add_l wrap_add_r wrap_mul_l : words.

(** * Lists updated by index *)

(** Looking up in a list into which [k] was written from index [i] on. *)
Lemma lookup_inserts {A} (l k : list A) (i j : nat) :
  (i + length k ≤ length l)%nat →
  list_inserts i k l !! j =
    if decide (i ≤ j < i + length k)%nat then k !! (j - i)%nat else l !! j.
Proof.
  intros Hlen. case_decide as Hj.
  - apply list_lookup_inserts; lia.
  - destruct (decide (j < i)%nat).
    + by rewrite list_lookup_inserts_lt.
    + rewrite list_lookup_inserts_ge by lia. done.
Qed.

(** Writing the same values back gives the original list. *)
Lemma list_inserts_id {A} (l k k' : list A) (i : nat) :
  length k = length k' → (i + length k ≤ length l)%nat →
  (∀ j, (j < length k')%nat → l !! (i + j)%nat = k' !! j) →
  list_inserts i k' (list_inserts i k l) = l.
Proof.
  intros Hk Hlen Heq. apply list_eq. intros j.
  rewrite lookup_inserts by (rewrite length_inserts; lia).
  case_decide; [rewrite <- Heq by lia; f_equal; lia|].
  rewrite lookup_inserts by lia. by rewrite decide_False by lia.
Qed.

(** Case split on every [decide] of the goal, closing the impossible cases. *)
Ltac case_decides := repeat (case_decide; try lia).
