(* ===== verification/Bits.v ===== *)
(** Bit-fields of machine words: the C++ structs with bit-field members
    ([AllocHeader], [PageTableEntry], [VirtualAddress], [SATP], ...) are words
    whose members are read and written through [bf_get] and [bf_set]. *)
From S2P Require Import Prelude.

(** The member of [w] bits that starts at bit [lo]. *)
Definition bf_get (lo w v : Z) : Z := Z.land (Z.shiftr v lo) (Z.ones w).

(** Assigning to that member: the other bits of the word are kept. *)
Definition bf_set (lo w f v : Z) : Z :=
  Z.lor (Z.ldiff v (Z.shiftl (Z.ones w) lo)) (Z.shiftl (Z.land f (Z.ones w)) lo).

#[global] Arguments bf_get : simpl never.
#[global] Arguments bf_set : simpl never.

Create Rewrite HintDb bits.
#[export] Hint Rewrite Z.land_spec Z.lor_spec Z.ldiff_spec Z.lxor_spec Z.testbit_0_l : bits.
#[export] Hint Rewrite Z.shiftr_spec Z.shiftl_spec Z.testbit_ones Z.lnot_spec
  wrap_testbit using lia : bits.

(** Equality of words bit by bit. *)
Ltac bit_ext i Hi := apply Z.bits_inj'; intros i Hi; autorewrite with bits.

(** Case analysis on the integer comparisons of the goal. *)
Ltac split_cmp :=
  repeat match goal with
  | |- context [Z.leb ?a ?b] => destruct (Z.leb_spec a b); try lia; simpl
  | |- context [Z.ltb ?a ?b] => destruct (Z.ltb_spec a b); try lia; simpl
  | |- context [Z.eqb ?a ?b] => destruct (Z.eqb_spec a b); try lia; simpl
  | |- context [bool_decide ?P] => case_bool_decide; try lia; simpl
  end.

Ltac bool_crush := repeat match goal with |- context [Z.testbit ?x ?i] => destruct (Z.testbit x i) end;
  simpl; try done.

Lemma bf_get_spec lo w v i :
  0 ≤ lo → 0 ≤ w → 0 ≤ i →
  Z.testbit (bf_get lo w v) i = (i <? w) && Z.testbit v (i + lo).
Proof. intros. unfold bf_get. autorewrite with bits. split_cmp; bool_crush. Qed.

Lemma bf_set_spec lo w f v i :
  0 ≤ lo → 0 ≤ w → 0 ≤ i →
  Z.testbit (bf_set lo w f v) i =
    if (lo <=? i) && (i <? lo + w) then Z.testbit f (i - lo) else Z.testbit v i.
Proof.
  intros. unfold bf_set. autorewrite with bits.
  destruct (Z.leb_spec lo i); simpl; split_cmp; rewrite ?andb_true_r, ?andb_false_r, ?orb_false_r; done.
Qed.
#[export] Hint Rewrite bf_get_spec bf_set_spec using lia : bits.

(** Rewrite with the bits of every operation, split on the positions, and go on
    below the operations that the positions now select. *)
Ltac bits_auto :=
  repeat (progress (autorewrite with bits; split_cmp; rewrite ?andb_true_r, ?andb_false_r)); try done;
  try (f_equal; lia).

Lemma bf_get_bound lo w v : 0 ≤ w → in_word w (bf_get lo w v).
Proof.
  intros. unfold bf_get. rewrite Z.land_ones by lia.
  apply Z.mod_pos_bound. by apply Z.pow_pos_nonneg.
Qed.

Lemma bf_get_div lo w v : 0 ≤ lo → 0 ≤ w → bf_get lo w v = (v / 2 ^ lo) mod 2 ^ w.
Proof. intros. unfold bf_get. by rewrite Z.land_ones, Z.shiftr_div_pow2 by lia. Qed.

(** Reading back the member just written: the value truncated to its width. *)
Lemma bf_get_set_eq lo w f v : 0 ≤ lo → 0 ≤ w → bf_get lo w (bf_set lo w f v) = wrap w f.
Proof.
  intros. bit_ext i Hi. split_cmp; try done. f_equal; lia.
Qed.

(** Reading a member that does not overlap the one written. *)
Lemma bf_get_set_ne lo w lo' w' f v :
  0 ≤ lo → 0 ≤ w → 0 ≤ lo' → 0 ≤ w' → lo' + w' ≤ lo ∨ lo + w ≤ lo' →
  bf_get lo' w' (bf_set lo w f v) = bf_get lo' w' v.
Proof. intros. bit_ext i Hi. split_cmp; done. Qed.

Lemma bf_set_same lo w f v :
  0 ≤ lo → 0 ≤ w → bf_get lo w v = wrap w f → bf_set lo w f v = v.
Proof.
  intros ?? Hget. bit_ext i Hi. split_cmp; try done.
  assert (Z.testbit (bf_get lo w v) (i - lo) = Z.testbit (wrap w f) (i - lo)) as Hb by congruence.
  autorewrite with bits in Hb. revert Hb. split_cmp. intros <-. f_equal; lia.
Qed.

Lemma in_word_bits w x :
  0 ≤ w → in_word w x ↔ 0 ≤ x ∧ ∀ i, w ≤ i → Z.testbit x i = false.
Proof.
  intros. split.
  - intros Hx. split; [apply Hx|]. intros i Hi.
    rewrite <- (wrap_small w x) by done. rewrite wrap_testbit by lia.
    by rewrite bool_decide_false by lia.
  - intros [Hpos Hhigh]. replace x with (wrap w x); [by apply wrap_bound|].
    bit_ext i Hi. case_bool_decide; simpl; [done|]. rewrite Hhigh; [done|lia].
Qed.

Lemma bf_set_bound n lo w f v :
  0 ≤ lo → 0 ≤ w → lo + w ≤ n → in_word n v → in_word n (bf_set lo w f v).
Proof.
  intros ??? Hv. apply in_word_bits in Hv as [Hpos Hhigh]; [|lia].
  apply in_word_bits; [lia|]. split.
  - unfold bf_set. apply Z.lor_nonneg. split.
    + apply Z.ldiff_nonneg. by left.
    + apply Z.shiftl_nonneg, Z.land_nonneg. right. rewrite Z.ones_equiv. pose proof (Z.pow_pos_nonneg 2 w). lia.
  - intros i Hi. rewrite bf_set_spec by lia. split_cmp; by apply Hhigh.
Qed.
#[export] Hint Resolve bf_get_bound bf_set_bound : words.

Lemma lor_bound n x y : 0 ≤ n → in_word n x → in_word n y → in_word n (Z.lor x y).
Proof.
  intros ? [Hx Hx']%in_word_bits [Hy Hy']%in_word_bits; try lia.
  apply in_word_bits; [lia|]. split; [apply Z.lor_nonneg; lia|].
  intros i Hi. rewrite Z.lor_spec, Hx', Hy' by lia. done.
Qed.
#[export] Hint Resolve lor_bound : words.

(** ** Rounding to a power of two *)

(** [(value + o) & ~o] with [o = 2^order - 1], on 64-bit words. *)
Definition align_up (value order : Z) : Z :=
  Z.ldiff (u64 (value + Z.ones order)) (Z.ones order).

(** [value & ~(2^order - 1)]. *)
Definition align_down (value order : Z) : Z := Z.ldiff value (Z.ones order).

Lemma ldiff_ones x n : 0 ≤ n → Z.ldiff x (Z.ones n) = x / 2 ^ n * 2 ^ n.
Proof. intros. rewrite Z.ldiff_ones_r, Z.shiftr_div_pow2, Z.shiftl_mul_pow2 by lia. done. Qed.

Lemma align_down_spec v n :
  0 ≤ n → align_down v n ≤ v < align_down v n + 2 ^ n ∧ (2 ^ n | align_down v n).
Proof.
  intros. unfold align_down. rewrite ldiff_ones by done.
  pose proof (Z.pow_pos_nonneg 2 n). pose proof (Z.mod_pos_bound v (2 ^ n)).
  pose proof (Z.div_mod v (2 ^ n)). split; [nia|]. apply Z.divide_factor_r.
Qed.

Lemma align_up_spec v n :
  0 ≤ n → 0 ≤ v → v + 2 ^ n ≤ 2 ^ 64 →
  v ≤ align_up v n < v + 2 ^ n ∧ (2 ^ n | align_up v n).
Proof.
  intros. unfold align_up. rewrite ldiff_ones by done.
  pose proof (Z.pow_pos_nonneg 2 n). rewrite Z.ones_equiv.
  rewrite wrap_small by (unfold in_word; lia).
  replace (v + Z.pred (2 ^ n)) with (v + 2 ^ n - 1) by lia.
  pose proof (Z.mod_pos_bound (v + 2 ^ n - 1) (2 ^ n)).
  pose proof (Z.div_mod (v + 2 ^ n - 1) (2 ^ n)). split; [nia|]. apply Z.divide_factor_r.
Qed.

Lemma align_up_aligned v n :
  0 ≤ n → 0 ≤ v → v + 2 ^ n ≤ 2 ^ 64 → (2 ^ n | v) → align_up v n = v.
Proof.
  intros ??? Hdiv. pose proof (align_up_spec v n) as [? [k Hk]]; try done.
  destruct Hdiv as [j Hj]. pose proof (Z.pow_pos_nonneg 2 n).
  assert (j ≤ k ∧ k < j + 1) by nia. assert (k = j) by lia. by subst.
Qed.
