(* ===== verification/Results.v ===== *)
(** The storage of results: [ErrorOr], [ErrorOr<void>] and the macro [TRY] of
    [Utils/Errors/ErrorOr.h].

    A result object has room for a value and for an error, placed there by hand,
    and a flag that tells which of the two lives.  The other files use the sum
    type [ErrorOr] of [Prelude.v] for it; here the objects are shown to behave as
    that sum.  An access to a place where nothing lives is [Undef]. *)
From S2P Require Import Prelude.

(** * [class ErrorOr] *)
Record storage (T E : Type) : Type := mkStorage {
  m_result_data : option T;
  m_error_data : option E;
  m_has_value : bool
}.
Arguments mkStorage {T E} _ _ _.
Arguments m_result_data {T E} _.
Arguments m_error_data {T E} _.
Arguments m_has_value {T E} _.

Section ErrorOr.
Context {T E : Type}.

(** An object before its constructor places anything. *)
Definition raw (has_value : bool) : storage T E := mkStorage None None has_value.

Definition construct_result_type (this : storage T E) (value : T) : storage T E :=
  mkStorage (Some value) (m_error_data this) (m_has_value this).
Definition construct_error_type (this : storage T E) (error : E) : storage T E :=
  mkStorage (m_result_data this) (Some error) (m_has_value this).

Definition destroy_result_type (this : storage T E) : outcome (storage T E) :=
  let! _ := defined (m_result_data this) in Ret (mkStorage None (m_error_data this) (m_has_value this)).
Definition destroy_error_type (this : storage T E) : outcome (storage T E) :=
  let! _ := defined (m_error_data this) in Ret (mkStorage (m_result_data this) None (m_has_value this)).

(** The constructors from a value and from an error, and [create] and [create_error]. *)
Definition from_value (value : T) : storage T E := construct_result_type (raw true) value.
Definition from_error (error : E) : storage T E := construct_error_type (raw false) error.

Definition is_value (this : storage T E) : bool := m_has_value this.
Definition is_error (this : storage T E) : bool := negb (m_has_value this).

Definition get_value (this : storage T E) : outcome T := defined (m_result_data this).
Definition get_error (this : storage T E) : outcome E := defined (m_error_data this).

(** [get_unique], whose caller moves the value out: [take] gives what it gets and
    what is left behind. *)
Definition get_unique (take : T → T * T) (this : storage T E) : outcome (T * storage T E) :=
  let! v := get_value this in
  Ret ((take v).1, mkStorage (Some (take v).2) (m_error_data this) (m_has_value this)).

(** The content of [other] in an object that holds nothing. *)
Definition construct_from (this other : storage T E) : outcome (storage T E) :=
  let this := mkStorage (m_result_data this) (m_error_data this) (m_has_value other) in
  if m_has_value this then let! v := get_value other in Ret (construct_result_type this v)
  else let! e := get_error other in Ret (construct_error_type this e).

(** [ErrorOr(const ErrorOr &other)] *)
Definition copy (other : storage T E) : outcome (storage T E) := construct_from (raw false) other.

(** [~ErrorOr()] *)
Definition destroy (this : storage T E) : outcome (storage T E) :=
  if m_has_value this then destroy_result_type this else destroy_error_type this.

(** [operator=] on the objects at two addresses: the test for self-assignment is inverted. *)
Definition assign (objects : gmap Z (storage T E)) (this other : Z) : outcome (gmap Z (storage T E)) :=
  if this =? other then
    let! t := defined (objects !! this) in
    let! t := destroy t in
    let objects := <[this := t]> objects in
    let! o := defined (objects !! other) in
    let! t := construct_from t o in
    Ret (<[this := t]> objects)
  else Ret objects.
End ErrorOr.

(** The parts that live in an object.  When the storage of an object ends, those
    that its destructor has not destroyed are never destroyed: they leak. *)
Definition parts {T E : Type} (this : storage T E) : list (T + E) :=
  option_list (inl <$> m_result_data this) ++ option_list (inr <$> m_error_data this).

Definition end_of_life {T E : Type} (this : storage T E) : outcome (list (T + E)) :=
  let! this := destroy this in Ret (parts this).

(** [TRY(expr)] in a function that returns a result, in front of the rest [k] of
    the function; the temporary object is destroyed when the macro ends.  The
    second component is what leaks of it. *)
Definition TRY {T U E : Type} (expr : outcome (storage T E)) (k : T → outcome (storage U E)) : outcome (storage U E * list (T + E)) :=
  let! _temporary_result := expr in
  if is_error _temporary_result then
    let! e := get_error _temporary_result in
    let! lost := end_of_life _temporary_result in
    Ret (from_error e, lost)
  else
    let! v := get_value _temporary_result in
    let! lost := end_of_life _temporary_result in
    let! r := k v in Ret (r, lost).

Definition TRY_RETURN {T E : Type} (expr : outcome (storage T E)) : outcome (storage T E * list (T + E)) :=
  TRY expr (λ v, Ret (from_value v)).

(** [ErrorOr<void>] is a result whose value is the [Empty] object. *)
Inductive Empty : Type := EmptyObject.
Definition success {E : Type} : storage Empty E := from_value EmptyObject.

(** * Specification *)
Definition object {T E : Type} (r : ErrorOr T E) : storage T E :=
  match r with Value v => from_value v | Failure e => from_error e end.

(** The continuation of a result, which an error ends. *)
Definition and_then {T U E : Type} (r : ErrorOr T E) (k : T → ErrorOr U E) : ErrorOr U E :=
  match r with Value v => k v | Failure e => Failure e end.

(** Exactly the part that the flag names lives. *)
Definition well_formed {T E : Type} (this : storage T E) : Prop :=
  if m_has_value this then is_Some (m_result_data this) ∧ m_error_data this = None
  else m_result_data this = None ∧ is_Some (m_error_data this).

Lemma well_formed_object {T E : Type} (this : storage T E) : well_formed this ↔ ∃ r, this = object r.
Proof.
  split.
  - destruct this as [[v|] [e|] [|]]; intros [H1 H2]; cbn in H1, H2;
      first [by destruct H1|by destruct H2|by exists (Value v)|by exists (Failure e)].
  - intros [[v|e] ->]; cbv; split; try reflexivity; eexists; reflexivity.
Qed.

(** Operations on the objects of a function, by address; an object is made where
    there is none. *)
Inductive operation (T E : Type) : Type :=
| Create (x : Z) (v : T)
| CreateError (x : Z) (e : E)
| Copy (x y : Z)
| Assign (x y : Z)
| Destroy (x : Z).
Arguments Create {T E} x v.
Arguments CreateError {T E} x e.
Arguments Copy {T E} x y.
Arguments Assign {T E} x y.
Arguments Destroy {T E} x.

(** The objects, and the parts that leaked. *)
Definition place {T E : Type} (w : gmap Z (storage T E) * list (T + E)) (x : Z) (o : storage T E)
    : outcome (gmap Z (storage T E) * list (T + E)) :=
  if bool_decide (w.1 !! x = None) then Ret (<[x := o]> w.1, w.2) else Undef.

Definition step {T E : Type} (w : gmap Z (storage T E) * list (T + E)) (op : operation T E)
    : outcome (gmap Z (storage T E) * list (T + E)) :=
  match op with
  | Create x v => place w x (from_value v)
  | CreateError x e => place w x (from_error e)
  | Copy x y => let! o := defined (w.1 !! y) in let! c := copy o in place w x c
  | Assign x y => let! objects := assign w.1 x y in Ret (objects, w.2)
  | Destroy x => let! o := defined (w.1 !! x) in let! lost := end_of_life o in Ret (delete x w.1, w.2 ++ lost)
  end.

Fixpoint steps {T E : Type} (w : gmap Z (storage T E) * list (T + E)) (ops : list (operation T E))
    : outcome (gmap Z (storage T E) * list (T + E)) :=
  match ops with [] => Ret w | op :: ops' => let! w := step w op in steps w ops' end.

(** What the operations mean for results; an assignment changes nothing. *)
Definition spec_place {T E : Type} (results : gmap Z (ErrorOr T E)) (x : Z) (r : ErrorOr T E) : option (gmap Z (ErrorOr T E)) :=
  if bool_decide (results !! x = None) then Some (<[x := r]> results) else None.

Definition spec {T E : Type} (results : gmap Z (ErrorOr T E)) (op : operation T E) : option (gmap Z (ErrorOr T E)) :=
  match op with
  | Create x v => spec_place results x (Value v)
  | CreateError x e => spec_place results x (Failure e)
  | Copy x y => r ← results !! y; spec_place results x r
  | Assign x y => if bool_decide (x = y) then None else Some results
  | Destroy x => _ ← results !! x; Some (delete x results)
  end.

Fixpoint specs {T E : Type} (results : gmap Z (ErrorOr T E)) (ops : list (operation T E)) : option (gmap Z (ErrorOr T E)) :=
  match ops with [] => Some results | op :: ops' => results ← spec results op; specs results ops' end.

Section properties.
Context {T E : Type}.
Implicit Types r : ErrorOr T E.

Lemma copy_object r : copy (object r) = Ret (object r).
Proof. by destruct r. Qed.

Lemma end_of_object r : end_of_life (object r) = Ret [].
Proof. by destruct r. Qed.

Lemma accessors_object r :
  is_value (object r) = has_value r ∧ is_error (object r) = has_error r ∧
  get_value (object r) = match r with Value v => Ret v | Failure _ => Undef end ∧
  get_error (object r) = match r with Value _ => Undef | Failure e => Ret e end.
Proof. by destruct r. Qed.

(** [operator=] has no effect, or is a use of an object that was destroyed. *)
Lemma assign_other (objects : gmap Z (storage T E)) this other :
  this ≠ other → assign objects this other = Ret objects.
Proof. intros Hne. unfold assign. by rewrite (proj2 (Z.eqb_neq this other)). Qed.

Lemma assign_self (results : gmap Z (ErrorOr T E)) this : assign (object <$> results) this this = Undef.
Proof.
  unfold assign. rewrite Z.eqb_refl, lookup_fmap. destruct (results !! this) as [r|]; [|reflexivity].
  cbn [fmap option_fmap option_map defined obind].
  destruct r; cbn [object destroy from_value from_error construct_result_type construct_error_type raw m_has_value
    destroy_result_type destroy_error_type m_result_data m_error_data defined obind]; by rewrite lookup_insert_eq.
Qed.

Lemma place_object (results : gmap Z (ErrorOr T E)) lost x r :
  place (object <$> results, lost) x (object r) =
    match spec_place results x r with Some results' => Ret (object <$> results', lost) | None => Undef end.
Proof.
  unfold place, spec_place. cbn [fst snd]. rewrite lookup_fmap.
  destruct (results !! x); cbn; [done|]. by rewrite fmap_insert.
Qed.

Lemma step_object (results : gmap Z (ErrorOr T E)) op :
  step (object <$> results, []) op = match spec results op with Some results' => Ret (object <$> results', []) | None => Undef end.
Proof.
  destruct op as [x v|x e|x y|x y|x]; cbn [step spec fst snd].
  - exact (place_object results [] x (Value v)).
  - exact (place_object results [] x (Failure e)).
  - rewrite lookup_fmap. destruct (results !! y) as [r|]; [|reflexivity]. cbn [fmap option_fmap option_map defined obind mbind option_bind].
    rewrite copy_object. cbn [obind]. apply place_object.
  - case_bool_decide as Hxy; [subst y; by rewrite assign_self|]. by rewrite assign_other.
  - rewrite lookup_fmap. destruct (results !! x) as [r|]; [|reflexivity]. cbn [fmap option_fmap option_map defined obind mbind option_bind].
    rewrite end_of_object. cbn [obind app]. by rewrite fmap_delete.
Qed.

Lemma steps_object ops : ∀ results : gmap Z (ErrorOr T E),
  steps (object <$> results, []) ops = match specs results ops with Some results' => Ret (object <$> results', []) | None => Undef end.
Proof.
  induction ops as [|op ops IH]; intros results; [done|]. cbn [steps specs]. rewrite step_object.
  destruct (spec results op) as [results'|]; [|done]. cbn [obind mbind option_bind]. apply IH.
Qed.
End properties.

(** * Properties *)

(** C8: Result objects are the sum of a value and an error.  The objects in which
    exactly the part that the flag names lives are those of the sum.  Whatever a
    function does with its results (creation, copies, assignments, destruction),
    its objects are those of the sum types that the same operations give, and no
    value and no error leaks: what lives in an object when its storage ends was
    destroyed.  It is undefined exactly where the sum is (a copy or a destruction
    of nothing, an object in a place that is taken) and for the assignment of an
    object to itself, while an assignment of another one is without effect.  The
    accessors answer with the content and are undefined on the other part, and
    [TRY] continues with the value or returns the error, and leaks nothing of its
    temporary object. *)
Theorem results_are_sums {T U E : Type} :
  (∀ this : storage T E, well_formed this ↔ ∃ r, this = object r) ∧
  (∀ ops : list (operation T E),
    steps (∅, []) ops = match specs ∅ ops with Some results => Ret (object <$> results, []) | None => Undef end) ∧
  (∀ r : ErrorOr T E,
    is_error (object r) = has_error r ∧
    get_value (object r) = match r with Value v => Ret v | Failure _ => Undef end ∧
    get_error (object r) = match r with Value _ => Undef | Failure e => Ret e end) ∧
  (∀ (r : ErrorOr T E) (k : T → ErrorOr U E),
    TRY (Ret (object r)) (λ v, Ret (object (k v))) = Ret (object (and_then r k), [])) ∧
  (∀ r : ErrorOr T E, TRY_RETURN (Ret (object r)) = Ret (object r, [])).
Proof.
  split; [intros; apply well_formed_object|]. split.
  - intros ops. pose proof (steps_object (T := T) (E := E) ops ∅) as H. by rewrite fmap_empty in H.
  - split; [intros r; apply accessors_object|]. split; [intros [v|e] k; reflexivity|]. by intros [v|e].
Qed.
