(* ===== verification/Machine.v ===== *)
(** Physical memory as the kernel sees it: a finite map from 8-byte aligned
    addresses to 64-bit words (RISC-V is little-endian).  An access to an
    address that is not in the map, a null pointer in particular, or to a
    misaligned word is undefined behaviour of the C++ program. *)
From S2P Require Import Prelude Bits.

Abbreviation memory := (gmap Z Z).

Definition word_aligned (a : Z) : bool := a mod 8 =? 0.

Definition read64 (m : memory) (a : Z) : outcome Z :=
  if word_aligned a then defined (m !! a) else Undef.

Definition write64 (m : memory) (a v : Z) : outcome memory :=
  if word_aligned a then
    match m !! a with Some _ => Ret (<[a := u64 v]> m) | None => Undef end
  else Undef.

(** [ptr->member = ...]: read the word, write it back changed. *)
Definition update64 (m : memory) (ptr : Z) (f : Z → Z) : outcome memory :=
  let! h := read64 m ptr in write64 m ptr (f h).

(** A byte store changes one of the eight bytes of its word. *)
Definition write8 (m : memory) (a v : Z) : outcome memory :=
  let base := align_down a 3 in
  let! w := defined (m !! base) in
  Ret (<[base := bf_set (8 * (a - base)) 8 v w]> m).

Definition read8 (m : memory) (a : Z) : outcome Z :=
  let base := align_down a 3 in
  let! w := defined (m !! base) in
  Ret (bf_get (8 * (a - base)) 8 w).

(** [mapped m a n]: the [n] consecutive words from [a] are memory. *)
Definition mapped (m : memory) (a : Z) (n : nat) : Prop :=
  word_aligned a = true ∧ ∀ i : nat, (i < n)%nat → is_Some (m !! (a + 8 * Z.of_nat i)).

(** Every word of the memory is a 64-bit value. *)
Definition mem_words (m : memory) : Prop := map_Forall (λ _ v, in_word 64 v) m.

Lemma word_aligned_iff a : word_aligned a = true ↔ (8 | a).
Proof. unfold word_aligned. rewrite Z.eqb_eq. by apply Z.mod_divide. Qed.

Lemma word_aligned_add a k : (8 | k) → word_aligned (a + k) = word_aligned a.
Proof.
  intros [j ->]. unfold word_aligned. by rewrite Z_mod_plus_full.
Qed.

Lemma word_aligned_add8 a i : word_aligned (a + 8 * i) = word_aligned a.
Proof. apply word_aligned_add. apply Z.divide_factor_l. Qed.
#[export] Hint Rewrite word_aligned_add8 : words.

Lemma read64_Ret m a v : read64 m a = Ret v ↔ word_aligned a = true ∧ m !! a = Some v.
Proof. unfold read64. destruct (word_aligned a); [rewrite defined_Ret|]; intuition congruence. Qed.

Lemma write64_Ret m a v m' :
  write64 m a v = Ret m' ↔ word_aligned a = true ∧ is_Some (m !! a) ∧ m' = <[a := u64 v]> m.
Proof.
  unfold write64. destruct (word_aligned a); [|intuition congruence].
  destruct (m !! a); split.
  - intros [= <-]. eauto.
  - by intros (_ & _ & ->).
  - done.
  - by intros (_ & [? [=]] & _).
Qed.

Lemma update64_Ret m a h f :
  (8 | a) → m !! a = Some h → update64 m a f = Ret (<[a := u64 (f h)]> m).
Proof.
  intros Ha Hh. unfold update64.
  assert (read64 m a = Ret h) as -> by (apply read64_Ret; by rewrite word_aligned_iff).
  cbn [obind]. apply write64_Ret. rewrite word_aligned_iff. eauto.
Qed.

Lemma read64_mapped m a n i :
  mapped m a n → (i < n)%nat →
  ∃ v, m !! (a + 8 * Z.of_nat i) = Some v ∧ read64 m (a + 8 * Z.of_nat i) = Ret v.
Proof.
  intros [Hal Hm] Hi. destruct (Hm i Hi) as [v Hv]. exists v. split; [done|].
  apply read64_Ret. by autorewrite with words.
Qed.

Lemma mem_words_insert m a v : mem_words m → in_word 64 v → mem_words (<[a := v]> m).
Proof. intros. by apply map_Forall_insert_2. Qed.

Lemma write64_words m a v m' : mem_words m → write64 m a v = Ret m' → mem_words m'.
Proof.
  intros Hm (_ & _ & ->)%write64_Ret. apply mem_words_insert; [done|]. by apply wrap_bound.
Qed.

(** ** Filling consecutive words *)

(** [for(size_t i = 0; i < n; i++) *(bigPtr + i) = 0;] *)
Fixpoint zero_words (m : memory) (a : Z) (n : nat) : outcome memory :=
  match n with
  | O => Ret m
  | S n' => let! m' := write64 m a 0 in zero_words m' (a + 8) n'
  end.

Lemma mapped_insert m a n b v : mapped m a n → mapped (<[b := v]> m) a n.
Proof.
  intros [Hal Hm]. split; [done|]. intros i Hi.
  rewrite lookup_insert. case_decide; [done|]. by apply Hm.
Qed.

Lemma mapped_tail m a n : mapped m a (S n) → mapped m (a + 8) n.
Proof.
  intros [Hal Hm]. split.
  - by rewrite word_aligned_add by (by exists 1).
  - intros i Hi. replace (a + 8 + 8 * Z.of_nat i) with (a + 8 * Z.of_nat (S i)) by lia.
    apply Hm. lia.
Qed.

Lemma mapped_le m a n n' : (n' ≤ n)%nat → mapped m a n → mapped m a n'.
Proof. intros ? [? Hm]. split; [done|]. intros i Hi. apply Hm. lia. Qed.

(** Zeroing mapped words succeeds, writes 0 to each of them and nothing else. *)
Lemma zero_words_spec n : ∀ m a,
  mapped m a n →
  ∃ m', zero_words m a n = Ret m' ∧
    (∀ i : nat, (i < n)%nat → m' !! (a + 8 * Z.of_nat i) = Some 0) ∧
    (∀ b, (∀ i : nat, (i < n)%nat → b ≠ a + 8 * Z.of_nat i) → m' !! b = m !! b) ∧
    (∀ b k, mapped m b k → mapped m' b k) ∧
    (mem_words m → mem_words m').
Proof.
  induction n as [|n IH]; intros m a Hmap; simpl.
  { exists m. split_and!; try done. intros; lia. }
  destruct (read64_mapped m a (S n) 0 Hmap) as (v & Hv & _); [lia|].
  rewrite Z.add_0_r in Hv. destruct Hmap as [Hal Hm].
  assert (write64 m a 0 = Ret (<[a := 0]> m)) as ->.
  { apply write64_Ret. split_and!; eauto. }
  simpl. destruct (IH (<[a := 0]> m) (a + 8)) as (m' & -> & Hz & Hframe & Hmapped & Hwords).
  { apply mapped_insert, mapped_tail. by split. }
  exists m'. split; [done|]. split_and!.
  - intros [|i] Hi.
    + rewrite Hframe by (intros; lia). rewrite Z.add_0_r. apply lookup_insert_eq.
    + replace (a + 8 * Z.of_nat (S i)) with (a + 8 + 8 * Z.of_nat i) by lia. apply Hz. lia.
  - intros b Hb. rewrite Hframe.
    + apply lookup_insert_ne. specialize (Hb 0%nat). lia.
    + intros i Hi. specialize (Hb (S i)). lia.
  - intros b k Hbk. apply Hmapped. by apply mapped_insert.
  - intros Hw. apply Hwords. apply mem_words_insert; [done|]. by split.
Qed.
