(* ===== verification/PageAllocator.v ===== *)
(** The physical page allocator: [Kernel/Memory/Page.{h,cpp}] and the
    allocation part of [Kernel/Memory/MemoryManager.{h,cpp}].

    The descriptor table [m_first_page[0 .. m_number_of_pages-1]] is the list
    [m_pages]; reading or writing a descriptor outside of it is [Undef]. *)
From S2P Require Import Prelude Bits Machine.

(** * Page descriptors *)
Inductive PageStatus : Type := Free | Taken | Last.

#[global] Instance PageStatus_eq_dec : EqDecision PageStatus.
Proof. solve_decision. Defined.

Definition is_free (s : PageStatus) : bool := match s with Free => true | _ => false end.
Definition is_taken (s : PageStatus) : bool := match s with Taken => true | _ => false end.
Definition is_last (s : PageStatus) : bool := match s with Last => true | _ => false end.

Definition PAGE_ORDER : Z := 12.
Definition PAGE_SIZE : Z := Z.shiftl 1 12.
Definition sizeof_Page : Z := 1.

(** [MemoryManager::align_value]. *)
Definition align_value (value order : Z) : Z :=
  let o := u64 (Z.shiftl 1 order - 1) in
  Z.ldiff (u64 (value + o)) o.

Record MemoryManager : Type := mkMM {
  m_heap_start : Z;
  m_heap_size : Z;
  m_first_page : Z;
  m_number_of_pages : Z;
  m_alloc_start : Z;
  m_pages : list PageStatus
}.

Definition with_pages (mm : MemoryManager) (t : list PageStatus) : MemoryManager :=
  mkMM (m_heap_start mm) (m_heap_size mm) (m_first_page mm) (m_number_of_pages mm)
       (m_alloc_start mm) t.

(** [m_first_page[j]] and [m_first_page[j].set_status(s)]. *)
Definition page_at (t : list PageStatus) (j : Z) : outcome PageStatus :=
  if 0 <=? j then defined (t !! Z.to_nat j) else Undef.

Definition set_status (t : list PageStatus) (j : Z) (s : PageStatus) : outcome (list PageStatus) :=
  let! _ := page_at t j in Ret (<[Z.to_nat j := s]> t).

(** [MemoryManager::init]: the first page holds the manager itself. *)
Fixpoint clear_from (t : list PageStatus) (i : Z) (n : nat) : outcome (list PageStatus) :=
  match n with
  | O => Ret t
  | S n' => let! t' := set_status t i Free in clear_from t' (i + 1) n'
  end.

Definition init (heap_start heap_size : Z) (raw : list PageStatus) : outcome MemoryManager :=
  let numberOfPages := heap_size / PAGE_SIZE in
  let allocStart := align_value (u64 (heap_start + u64 (numberOfPages * sizeof_Page))) PAGE_ORDER in
  let! t := set_status raw 0 Last in
  let! t := clear_from t 1 (Z.to_nat (numberOfPages - 1)) in
  Ret (mkMM heap_start heap_size heap_start numberOfPages allocStart t).

(** ** [MemoryManager::alloc] *)

(** The iterations of [for(size_t j = lo; j < hi; j++)]. *)
Definition iterations (lo hi : Z) : nat := Z.to_nat (hi - lo).

Fixpoint run_is_free (t : list PageStatus) (j : Z) (n : nat) : outcome bool :=
  match n with
  | O => Ret true
  | S n' =>
      let! s := page_at t j in
      if is_free s then run_is_free t (j + 1) n' else Ret false
  end.

Fixpoint take_run (t : list PageStatus) (k : Z) (n : nat) : outcome (list PageStatus) :=
  match n with
  | O => Ret t
  | S n' => let! t' := set_status t k Taken in take_run t' (k + 1) n'
  end.

Fixpoint alloc_from (mm : MemoryManager) (pages i : Z) (n : nat) : outcome (Z * MemoryManager) :=
  match n with
  | O => Ret (0, mm)
  | S n' =>
      let! s := page_at (m_pages mm) i in
      let! found :=
        if is_free s then run_is_free (m_pages mm) i (iterations i (u64 (i + pages))) else Ret false in
      if found : bool then
        let! t := take_run (m_pages mm) i (iterations i (u64 (i + pages - 1))) in
        let! t := set_status t (u64 (i + pages - 1)) Last in
        Ret (u64 (m_alloc_start mm + PAGE_SIZE * i), with_pages mm t)
      else alloc_from mm pages (i + 1) n'
  end.

Definition alloc (mm : MemoryManager) (pages : Z) : outcome (Z * MemoryManager) :=
  alloc_from mm pages 0 (Z.to_nat (m_number_of_pages mm)).

(** [MemoryManager::zalloc]: [size] words of 8 bytes are cleared. *)
Definition zalloc (mm : MemoryManager) (m : memory) (pages : Z) : outcome (Z * MemoryManager * memory) :=
  let! r := alloc mm pages in
  let '(allocated, mm') := r in
  if allocated =? 0 then Ret (0, mm', m)
  else
    let size := u64 (PAGE_SIZE * pages) / 8 in
    let! m' := zero_words m allocated (Z.to_nat size) in
    Ret (allocated, mm', m').

(** ** [MemoryManager::dealloc]

    [page] is the index of the descriptor the address stands for.  A step of
    the [while] loop moves to the next descriptor, so as many steps as there
    are descriptors always suffice. *)
Fixpoint release_run (t : list PageStatus) (page : Z) (fuel : nat) : outcome (list PageStatus) :=
  match fuel with
  | O => NoFuel
  | S fuel' =>
      let! s := page_at t page in
      if is_taken s then
        let! t' := set_status t page Free in release_run t' (page + 1) fuel'
      else set_status t page Free
  end.

Definition dealloc (mm : MemoryManager) (ptr : Z) : outcome MemoryManager :=
  if ptr =? 0 then Ret mm
  else
    let addr := u64 (m_heap_start mm + u64 (ptr - m_alloc_start mm) / PAGE_SIZE) in
    let! t := release_run (m_pages mm) (addr - m_first_page mm) (S (length (m_pages mm))) in
    Ret (with_pages mm t).

(** [MemoryManager::get_statistics]. *)
Record Statistics : Type := mkStatistics { total_pages : Z; free_pages : Z; used_pages : Z }.

Definition count_used (t : list PageStatus) : Z :=
  Z.of_nat (length (filter (λ s, is_free s = false) t)).

Definition get_statistics (mm : MemoryManager) : Statistics :=
  let allocated := count_used (take (Z.to_nat (m_number_of_pages mm)) (m_pages mm)) in
  mkStatistics (m_number_of_pages mm) (u64 (m_number_of_pages mm - allocated)) allocated.

(** * Specification vocabulary *)

(** The [p] descriptors from [i] on are free. *)
Definition free_run (t : list PageStatus) (i p : nat) : Prop :=
  ∀ k, (k < p)%nat → t !! (i + k)%nat = Some Free.

(** [i] is the lowest index at which [p] free pages start. *)
Definition first_fit (t : list PageStatus) (p i : nat) : Prop :=
  free_run t i p ∧ ∀ i', (i' < i)%nat → ¬ free_run t i' p.

(** What an allocation of [p] pages writes: [p - 1] times Taken, then Last. *)
Definition block (p : nat) : list PageStatus := replicate (p - 1) Taken ++ [Last].

(** The [p] descriptors from [i] on hold exactly one allocation. *)
Definition block_at (t : list PageStatus) (i p : nat) : Prop :=
  (1 ≤ p)%nat ∧ (∀ k, (k < p - 1)%nat → t !! (i + k)%nat = Some Taken) ∧
  t !! (i + (p - 1))%nat = Some Last.

(** The manager describes its table, and the pages have 64-bit addresses. *)
Record wf_manager (mm : MemoryManager) : Prop := {
  wf_length : m_number_of_pages mm = Z.of_nat (length (m_pages mm));
  wf_first : m_first_page mm = m_heap_start mm;
  wf_base : 0 < m_alloc_start mm;
  wf_heap : 0 ≤ m_heap_start mm;
  wf_top : m_alloc_start mm + PAGE_SIZE * m_number_of_pages mm < 2 ^ 64;
  wf_table_top : m_heap_start mm + m_number_of_pages mm < 2 ^ 64
}.

(** The address of page [i]. *)
Definition page_address (mm : MemoryManager) (i : nat) : Z :=
  m_alloc_start mm + PAGE_SIZE * Z.of_nat i.

(** A client of the allocator: the manager and the blocks it holds, by address. *)
Inductive client_step : MemoryManager * gmap Z nat → MemoryManager * gmap Z nat → Prop :=
| step_alloc mm live p a mm' :
    (1 ≤ p)%nat → Z.of_nat p < 2 ^ 63 → alloc mm (Z.of_nat p) = Ret (a, mm') → a ≠ 0 →
    client_step (mm, live) (mm', <[a := p]> live)
| step_alloc_null mm live p mm' :
    (1 ≤ p)%nat → Z.of_nat p < 2 ^ 63 → alloc mm (Z.of_nat p) = Ret (0, mm') →
    client_step (mm, live) (mm', live)
| step_dealloc mm live a p mm' :
    live !! a = Some p → dealloc mm a = Ret mm' →
    client_step (mm, live) (mm', delete a live).

(** What every reachable client state satisfies. *)
Record client_inv (mm : MemoryManager) (live : gmap Z nat) : Prop := {
  inv_wf : wf_manager mm;
  inv_manager_page : m_pages mm !! 0%nat = Some Last;
  inv_blocks : ∀ a p, live !! a = Some p →
    ∃ i, (1 ≤ i)%nat ∧ a = page_address mm i ∧ block_at (m_pages mm) i p;
  inv_disjoint : ∀ i p j q,
    live !! page_address mm i = Some p → live !! page_address mm j = Some q →
    i ≠ j → (i + p ≤ j ∨ j + q ≤ i)%nat;
  inv_owned : ∀ j s, m_pages mm !! j = Some s → s ≠ Free → j ≠ 0%nat →
    ∃ i p, live !! page_address mm i = Some p ∧ (i ≤ j < i + p)%nat
}.

(** * Descriptors by index *)
Lemma page_at_nat t (j : nat) : page_at t (Z.of_nat j) = defined (t !! j).
Proof. unfold page_at. rewrite (proj2 (Z.leb_le _ _)) by lia. by rewrite Nat2Z.id. Qed.

Lemma set_status_nat t (j : nat) s :
  (j < length t)%nat → set_status t (Z.of_nat j) s = Ret (<[j := s]> t).
Proof.
  intros [x Hx]%lookup_lt_is_Some_2. unfold set_status.
  by rewrite page_at_nat, Hx, Nat2Z.id.
Qed.

Lemma free_run_length t i p : (1 ≤ p)%nat → free_run t i p → (i + p ≤ length t)%nat.
Proof.
  intros ? Hrun. specialize (Hrun (p - 1)%nat). apply lookup_lt_Some in Hrun; lia.
Qed.

Lemma free_run_S t i p : free_run t i (S p) ↔ t !! i = Some Free ∧ free_run t (S i) p.
Proof.
  split.
  - intros H. split; [rewrite <- (Nat.add_0_r i); apply H; lia|].
    intros k ?. replace (S i + k)%nat with (i + S k)%nat by lia. apply H. lia.
  - intros [H0 H] [|k] ?; [by rewrite Nat.add_0_r|].
    replace (i + S k)%nat with (S i + k)%nat by lia. apply H. lia.
Qed.

#[global] Instance free_run_dec t i p : Decision (free_run t i p).
Proof.
  revert i. induction p as [|p IH]; intros i; [left; intros k; lia|].
  destruct (decide (t !! i = Some Free ∧ free_run t (S i) p)) as [H|H].
  - left. by apply free_run_S.
  - right. by rewrite free_run_S.
Defined.

(** The inner scan decides [free_run], as long as it stays inside the table. *)
Lemma run_is_free_true p : ∀ t i, free_run t i p → run_is_free t (Z.of_nat i) p = Ret true.
Proof.
  induction p as [|p IH]; intros t i; [done|]. rewrite free_run_S. intros [H0 H]. simpl.
  rewrite page_at_nat, H0. simpl. replace (Z.of_nat i + 1) with (Z.of_nat (S i)) by lia. auto.
Qed.

Lemma run_is_free_false p : ∀ t i,
  ¬ free_run t i p → (i + p ≤ length t)%nat → run_is_free t (Z.of_nat i) p = Ret false.
Proof.
  induction p as [|p IH]; intros t i; [intros []; intros k; lia|].
  rewrite free_run_S. intros H Hlen. simpl. rewrite page_at_nat.
  destruct (lookup_lt_is_Some_2 t i) as [s Hs]; [lia|]. rewrite Hs in *. simpl.
  destruct s; [|done..]. simpl. replace (Z.of_nat i + 1) with (Z.of_nat (S i)) by lia.
  apply IH; [naive_solver|lia].
Qed.

(** A scan that meets only free pages up to the end of the table leaves it. *)
Lemma run_is_free_overrun p : ∀ t i,
  (i ≤ length t)%nat → (length t < i + p)%nat →
  (∀ k, (i ≤ k)%nat → (k < length t)%nat → t !! k = Some Free) →
  run_is_free t (Z.of_nat i) p = Undef.
Proof.
  induction p as [|p IH]; intros t i Hi Hlen Hfree; [lia|]. simpl. rewrite page_at_nat.
  destruct (decide (i = length t)) as [->|].
  - by rewrite lookup_ge_None_2.
  - rewrite Hfree by lia. simpl. replace (Z.of_nat i + 1) with (Z.of_nat (S i)) by lia.
    apply IH; [lia..|]. intros; apply Hfree; lia.
Qed.

Lemma take_run_spec n : ∀ t k,
  (k + n ≤ length t)%nat → take_run t (Z.of_nat k) n = Ret (list_inserts k (replicate n Taken) t).
Proof.
  induction n as [|n IH]; intros t k Hk; simpl; [done|].
  rewrite set_status_nat by lia. simpl.
  replace (Z.of_nat k + 1) with (Z.of_nat (S k)) by lia. rewrite IH.
  - f_equal. by rewrite list_insert_inserts_lt by lia.
  - rewrite length_insert. lia.
Qed.

(** * [alloc] *)

(** A page at which no run starts is skipped. *)
Lemma alloc_from_skip mm p i n :
  (1 ≤ p)%nat → ¬ free_run (m_pages mm) i p → (i + p ≤ length (m_pages mm))%nat →
  Z.of_nat (i + p) < 2 ^ 64 →
  alloc_from mm (Z.of_nat p) (Z.of_nat i) (S n) = alloc_from mm (Z.of_nat p) (Z.of_nat (S i)) n.
Proof.
  intros Hp Hrun Hlen Hw. cbn [alloc_from]. rewrite page_at_nat.
  destruct (lookup_lt_is_Some_2 (m_pages mm) i) as [s Hs]; [lia|]. rewrite Hs. cbn [defined obind].
  rewrite wrap_small by (unfold in_word; lia).
  replace (iterations (Z.of_nat i) (Z.of_nat i + Z.of_nat p)) with p by (unfold iterations; lia).
  rewrite run_is_free_false by done. replace (Z.of_nat (S i)) with (Z.of_nat i + 1) by lia.
  by destruct (is_free s).
Qed.

(** A page at which a run starts is taken. *)
Lemma alloc_from_take mm p i n :
  (1 ≤ p)%nat → free_run (m_pages mm) i p → Z.of_nat (i + p) < 2 ^ 64 →
  alloc_from mm (Z.of_nat p) (Z.of_nat i) (S n) =
    Ret (u64 (page_address mm i), with_pages mm (list_inserts i (block p) (m_pages mm))).
Proof.
  intros Hp Hrun Hw. pose proof (free_run_length _ _ _ Hp Hrun).
  assert (m_pages mm !! i = Some Free) as Hi.
  { rewrite <- (Nat.add_0_r i). apply Hrun. lia. }
  cbn [alloc_from]. rewrite page_at_nat, Hi. cbn [defined obind is_free].
  rewrite !wrap_small with (w := 64) (x := Z.of_nat i + _) by (unfold in_word; lia).
  rewrite wrap_small with (w := 64) (x := Z.of_nat i + _ - 1) by (unfold in_word; lia).
  replace (iterations (Z.of_nat i) (Z.of_nat i + Z.of_nat p)) with p by (unfold iterations; lia).
  replace (iterations (Z.of_nat i) (Z.of_nat i + Z.of_nat p - 1)) with (p - 1)%nat
    by (unfold iterations; lia).
  rewrite run_is_free_true by done. cbn [obind]. rewrite take_run_spec by lia. cbn [obind].
  replace (Z.of_nat i + Z.of_nat p - 1) with (Z.of_nat (i + (p - 1))) by lia.
  rewrite set_status_nat by (rewrite length_inserts; lia). cbn [obind].
  do 3 f_equal. unfold block. rewrite list_inserts_app_l, length_replicate. simpl.
  by rewrite (Nat.add_comm i).
Qed.

(** Skipping every index below [j] at which no run starts. *)
Lemma alloc_from_skips mm p d : ∀ i n,
  (1 ≤ p)%nat → Z.of_nat (length (m_pages mm)) < 2 ^ 64 →
  (∀ k, (i ≤ k)%nat → (k < i + d)%nat →
        ¬ free_run (m_pages mm) k p ∧ (k + p ≤ length (m_pages mm))%nat) →
  alloc_from mm (Z.of_nat p) (Z.of_nat i) (d + n) =
    alloc_from mm (Z.of_nat p) (Z.of_nat (i + d)) n.
Proof.
  induction d as [|d IH]; intros i n Hp Hw Hk; [by rewrite Nat.add_0_r|].
  destruct (Hk i) as [Hrun Hlen]; [lia..|].
  change (S d + n)%nat with (S (d + n)). rewrite alloc_from_skip by (done || lia).
  rewrite IH; [f_equal; lia|lia..|]. intros; apply Hk; lia.
Qed.

Lemma wf_lengths mm : wf_manager mm → Z.of_nat (length (m_pages mm)) < 2 ^ 52.
Proof.
  intros [Hlen _ Hb _ Htop _]. rewrite <- Hlen. change PAGE_SIZE with 4096 in Htop. lia.
Qed.

Lemma page_address_word mm i :
  wf_manager mm → (i < length (m_pages mm))%nat → u64 (page_address mm i) = page_address mm i.
Proof.
  intros [Hlen _ Hb _ Htop _] Hi. apply wrap_small. unfold page_address, in_word in *.
  change PAGE_SIZE with 4096 in *. lia.
Qed.

(** The first-fit search succeeds exactly at the first fit. *)
Lemma alloc_takes mm p i :
  wf_manager mm → (1 ≤ p)%nat → first_fit (m_pages mm) p i →
  alloc mm (Z.of_nat p) =
    Ret (page_address mm i, with_pages mm (list_inserts i (block p) (m_pages mm))).
Proof.
  intros Hwf Hp [Hrun Hfirst]. pose proof (free_run_length _ _ _ Hp Hrun) as Hlen.
  pose proof (wf_lengths _ Hwf). unfold alloc. rewrite (wf_length _ Hwf), Nat2Z.id.
  replace (length (m_pages mm)) with (i + S (length (m_pages mm) - i - 1))%nat by lia.
  change 0 with (Z.of_nat 0). rewrite alloc_from_skips; [|lia..|intros; split; [apply Hfirst|]; lia].
  rewrite alloc_from_take by (done || lia). by rewrite page_address_word by (done || lia).
Qed.

(** The scan stops at a page in use before it can leave the table. *)
Lemma run_is_free_stops p : ∀ t i,
  (∃ k s, (i ≤ k)%nat ∧ t !! k = Some s ∧ s ≠ Free) → ¬ free_run t i p →
  run_is_free t (Z.of_nat i) p = Ret false.
Proof.
  induction p as [|p IH]; intros t i (k & s & Hk & Hs & Hns); [intros []; intros j; lia|].
  rewrite free_run_S. intros H. simpl. rewrite page_at_nat.
  pose proof (lookup_lt_Some _ _ _ Hs).
  destruct (lookup_lt_is_Some_2 t i) as [s' Hs']; [lia|]. rewrite Hs' in *. simpl.
  destruct s'; [|done..]. simpl. replace (Z.of_nat i + 1) with (Z.of_nat (S i)) by lia.
  apply IH; [|naive_solver]. exists k, s. split_and!; [|done..].
  destruct (decide (i = k)); [congruence|lia].
Qed.

(** One iteration of the outer loop when no run starts at [i] and the scan stops. *)
Lemma alloc_from_stop mm p i n :
  Z.of_nat (i + p) < 2 ^ 64 → (∃ k s, (i ≤ k)%nat ∧ m_pages mm !! k = Some s ∧ s ≠ Free) →
  ¬ free_run (m_pages mm) i p →
  alloc_from mm (Z.of_nat p) (Z.of_nat i) (S n) = alloc_from mm (Z.of_nat p) (Z.of_nat (S i)) n.
Proof.
  intros Hw Hstop Hrun. cbn [alloc_from]. rewrite page_at_nat.
  destruct (lookup_lt_is_Some_2 (m_pages mm) i) as [s Hs].
  { destruct Hstop as (? & ? & ? & ?%lookup_lt_Some & _). lia. }
  rewrite Hs. cbn [defined obind]. rewrite wrap_small by (unfold in_word; lia).
  replace (iterations (Z.of_nat i) (Z.of_nat i + Z.of_nat p)) with p by (unfold iterations; lia).
  rewrite run_is_free_stops by done.
  replace (Z.of_nat (S i)) with (Z.of_nat i + 1) by lia. by destruct (is_free s).
Qed.

Lemma alloc_from_stops mm p d : ∀ i n,
  Z.of_nat (i + d + p) < 2 ^ 64 →
  (∀ i', (i ≤ i' < i + d)%nat →
     (∃ k s, (i' ≤ k)%nat ∧ m_pages mm !! k = Some s ∧ s ≠ Free) ∧ ¬ free_run (m_pages mm) i' p) →
  alloc_from mm (Z.of_nat p) (Z.of_nat i) (d + n) =
    alloc_from mm (Z.of_nat p) (Z.of_nat (i + d)) n.
Proof.
  induction d as [|d IH]; intros i n Hw Hd; [by rewrite Nat.add_0_r|].
  change (S d + n)%nat with (S (d + n)). destruct (Hd i); [lia|].
  rewrite alloc_from_stop by (done || lia).
  rewrite IH; [f_equal; lia|lia|]. intros; apply Hd; lia.
Qed.

(** No run, and the last page is in use: every index is rejected inside the table. *)
Lemma alloc_null mm p :
  wf_manager mm → Z.of_nat p < 2 ^ 63 →
  (∃ s, last (m_pages mm) = Some s ∧ s ≠ Free) → (∀ k, ¬ free_run (m_pages mm) k p) →
  alloc mm (Z.of_nat p) = Ret (0, mm).
Proof.
  intros Hwf Hp (s & Hs & Hns) Hno. pose proof (wf_lengths _ Hwf).
  unfold alloc. rewrite (wf_length _ Hwf), Nat2Z.id. change 0 with (Z.of_nat 0) at 1.
  rewrite <- (Nat.add_0_r (length (m_pages mm))). rewrite alloc_from_stops; [done|lia|].
  intros i' Hi'. split; [|apply Hno]. rewrite last_lookup in Hs.
  eexists _, s. split_and!; [|done..]. lia.
Qed.

(** The free pages at the end of the table. *)
Lemma trailing_free t :
  ∃ i0, (i0 ≤ length t)%nat ∧ (∀ k, (i0 ≤ k)%nat → (k < length t)%nat → t !! k = Some Free) ∧
    (i0 = 0%nat ∨ ∃ s, t !! (i0 - 1)%nat = Some s ∧ s ≠ Free).
Proof.
  induction t as [|s t IH] using rev_ind; [exists 0%nat; split_and!; [done|intros; simpl in *; lia|by left]|].
  rewrite length_app; simpl. destruct (decide (s = Free)) as [->|Hs].
  - destruct IH as (i0 & Hi0 & Hfree & Hstop). exists i0. split_and!; [lia| |].
    + intros k Hk Hlt. destruct (decide (k = length t)) as [->|].
      * by rewrite lookup_app_r, Nat.sub_diag.
      * rewrite lookup_app_l by lia. apply Hfree; lia.
    + destruct Hstop as [|(s & Hs & ?)]; [by left|right]. exists s.
      split; [|done]. by apply lookup_app_l_Some.
  - exists (S (length t)). split_and!; [lia|intros; lia|right]. exists s. split; [|done].
    simpl. rewrite Nat.sub_0_r. by rewrite lookup_app_r, Nat.sub_diag.
Qed.

(** No run, and the last page is free: the scan reads past the descriptor table. *)
Lemma alloc_overruns mm p :
  wf_manager mm → Z.of_nat p < 2 ^ 63 →
  last (m_pages mm) = Some Free → (∀ k, ¬ free_run (m_pages mm) k p) →
  alloc mm (Z.of_nat p) = Undef.
Proof.
  intros Hwf Hp Hlast Hno. pose proof (wf_lengths _ Hwf).
  destruct (trailing_free (m_pages mm)) as (i0 & Hi0 & Hfree & Hstop).
  assert (i0 < length (m_pages mm))%nat as Hlt.
  { rewrite last_lookup in Hlast. destruct (decide (i0 = length (m_pages mm))) as [->|]; [|lia].
    destruct Hstop as [Hz|(s & Hs & Hns)].
    - by rewrite Hz in Hlast; apply lookup_lt_Some in Hlast; simpl in Hlast; lia.
    - rewrite <- Nat.sub_1_r in Hlast. congruence. }
  unfold alloc. rewrite (wf_length _ Hwf), Nat2Z.id. change 0 with (Z.of_nat 0).
  replace (length (m_pages mm)) with (i0 + S (length (m_pages mm) - i0 - 1))%nat by lia.
  rewrite alloc_from_stops; [|lia|].
  - cbn [alloc_from]. rewrite page_at_nat, Hfree by lia. cbn [Nat.add defined obind is_free].
    rewrite wrap_small by (unfold in_word; lia).
    replace (iterations (Z.of_nat i0) (Z.of_nat i0 + Z.of_nat p)) with p by (unfold iterations; lia).
    rewrite run_is_free_overrun; [done|lia| |intros; apply Hfree; lia].
    destruct (decide (length (m_pages mm) < i0 + p)%nat); [done|]. exfalso. apply (Hno i0).
    intros k Hk. apply Hfree; lia.
  - intros i' Hi'. split; [|apply Hno]. destruct Hstop as [->|(s & Hs & Hns)]; [lia|].
    exists (i0 - 1)%nat, s. split_and!; [lia|done..].
Qed.

(** A first fit exists as soon as some run does. *)
Lemma first_fit_exists t p : (∃ i, free_run t i p) → ∃ i, first_fit t p i.
Proof.
  intros [i Hi]. induction i as [i IH] using lt_wf_ind.
  destruct (decide (Exists (λ i', free_run t i' p) (seq 0 i))) as [He|Hn].
  - apply Exists_exists in He as (i' & Hin%elem_of_seq & Hrun). apply (IH i'); [lia|done].
  - exists i. split; [done|]. intros i' Hlt Hrun. apply Hn. apply Exists_exists.
    exists i'. split; [|done]. apply elem_of_seq. lia.
Qed.

(** Whatever [alloc] returns, it is a first fit or the null pointer. *)
Lemma alloc_inv mm p a mm' :
  wf_manager mm → (1 ≤ p)%nat → Z.of_nat p < 2 ^ 63 → alloc mm (Z.of_nat p) = Ret (a, mm') →
  (∃ i, first_fit (m_pages mm) p i ∧ a = page_address mm i ∧
        mm' = with_pages mm (list_inserts i (block p) (m_pages mm))) ∨
  ((∀ k, ¬ free_run (m_pages mm) k p) ∧ a = 0 ∧ mm' = mm).
Proof.
  intros Hwf Hp Hw Ha.
  destruct (decide (Exists (λ i, free_run (m_pages mm) i p) (seq 0 (length (m_pages mm)))))
    as [He|Hn].
  - left. destruct (first_fit_exists (m_pages mm) p) as [i Hi].
    { apply Exists_exists in He as (i & _ & ?). by exists i. }
    rewrite (alloc_takes _ _ i) in Ha by done. exists i. naive_solver.
  - right. assert (∀ k, ¬ free_run (m_pages mm) k p) as Hno.
    { intros k Hrun. apply Hn, Exists_exists. exists k. split; [|done].
      apply elem_of_seq. pose proof (free_run_length _ _ _ Hp Hrun). lia. }
    split; [done|]. destruct (last (m_pages mm)) as [s|] eqn:Hlast.
    + destruct (decide (s = Free)) as [->|].
      * by rewrite alloc_overruns in Ha.
      * rewrite alloc_null in Ha by eauto. naive_solver.
    + apply last_None in Hlast. unfold alloc in Ha. rewrite (wf_length _ Hwf), Hlast in Ha.
      simpl in Ha. naive_solver.
Qed.

(** * [dealloc] *)
Lemma block_at_SS t i p :
  block_at t i (S (S p)) ↔ t !! i = Some Taken ∧ block_at t (S i) (S p).
Proof.
  unfold block_at. simpl. rewrite !Nat.sub_0_r. split.
  - intros (_ & Ht & Hl). split_and!; [|lia| |].
    + rewrite <- (Nat.add_0_r i). apply Ht. lia.
    + intros k ?. rewrite plus_n_Sm. apply Ht. lia.
    + by rewrite plus_n_Sm.
  - intros (H0 & _ & Ht & Hl). split_and!; [lia| |].
    + intros [|k] ?; [by rewrite Nat.add_0_r|]. rewrite <- plus_n_Sm. apply Ht. lia.
    + by rewrite <- plus_n_Sm.
Qed.

Lemma block_at_length t i p : block_at t i p → (i + p ≤ length t)%nat.
Proof. intros (Hp & _ & ?%lookup_lt_Some). lia. Qed.

Lemma length_block p : (1 ≤ p)%nat → length (block p) = p.
Proof. intros. unfold block. rewrite length_app, length_replicate. simpl. lia. Qed.

Lemma block_lookup p k :
  (k < p)%nat → block p !! k = Some (if decide (k = p - 1)%nat then Last else Taken).
Proof.
  intros. unfold block. case_decide.
  - rewrite lookup_app_r by (rewrite length_replicate; lia). rewrite length_replicate.
    by replace (k - (p - 1))%nat with 0%nat by lia.
  - rewrite lookup_app_l by (rewrite length_replicate; lia). apply lookup_replicate. split; [done|lia].
Qed.

Lemma release_run_block p : ∀ t i fuel,
  block_at t i (S p) → (p < fuel)%nat →
  release_run t (Z.of_nat i) fuel = Ret (list_inserts i (replicate (S p) Free) t).
Proof.
  induction p as [|p IH]; intros t i [|fuel] Hb Hf; try lia; cbn [release_run];
    rewrite page_at_nat; pose proof (block_at_length _ _ _ Hb).
  - destruct Hb as (_ & _ & Hl). simpl in Hl. rewrite Nat.add_0_r in Hl. rewrite Hl. simpl.
    rewrite set_status_nat; [done|]. lia.
  - apply block_at_SS in Hb as [Ht Hb]. rewrite Ht. cbn [defined obind is_taken].
    rewrite set_status_nat by lia. cbn [obind].
    replace (Z.of_nat i + 1) with (Z.of_nat (S i)) by lia.
    rewrite IH; [|split_and!|lia].
    + f_equal. change (replicate (S (S p)) Free) with (Free :: replicate (S p) Free).
      cbn [list_inserts]. by rewrite list_insert_inserts_lt by lia.
    + lia.
    + intros k ?. rewrite list_lookup_insert_ne by lia. apply Hb. lia.
    + rewrite list_lookup_insert_ne by lia. apply Hb.
Qed.

(** Releasing a block frees its pages and touches no other descriptor. *)
Lemma dealloc_frees mm i p :
  wf_manager mm → block_at (m_pages mm) i p →
  dealloc mm (page_address mm i) =
    Ret (with_pages mm (list_inserts i (replicate p Free) (m_pages mm))).
Proof.
  intros Hwf Hb. pose proof (block_at_length _ _ _ Hb) as Hlen.
  pose proof (wf_lengths _ Hwf). destruct Hwf as [Hn Hf Hbase Hheap Htop Htt].
  assert (1 ≤ p)%nat by apply Hb. unfold dealloc, page_address in *.
  change PAGE_SIZE with 4096 in *. rewrite (proj2 (Z.eqb_neq _ _)) by lia.
  rewrite Hf.
  replace (m_alloc_start mm + 4096 * Z.of_nat i - m_alloc_start mm) with (Z.of_nat i * 4096) by lia.
  rewrite wrap_small with (x := Z.of_nat i * 4096) by (unfold in_word; lia).
  rewrite Z.div_mul by lia. rewrite wrap_small by (unfold in_word; lia).
  replace (m_heap_start mm + Z.of_nat i - m_heap_start mm) with (Z.of_nat i) by lia.
  destruct p as [|p]; [lia|]. rewrite release_run_block with (p := p); [done|done|lia].
Qed.

(** * The allocator and its clients *)

Lemma page_address_inj mm i j : page_address mm i = page_address mm j → i = j.
Proof. unfold page_address. change PAGE_SIZE with 4096. lia. Qed.

Lemma page_address_nonzero mm i : wf_manager mm → page_address mm i ≠ 0.
Proof. intros [_ _ Hb _ _ _]. unfold page_address. change PAGE_SIZE with 4096. lia. Qed.

Lemma wf_with_pages mm t :
  wf_manager mm → length t = length (m_pages mm) → wf_manager (with_pages mm t).
Proof. intros [] Hl. constructor; simpl; try done. congruence. Qed.

(** Writing descriptors outside of a block leaves it a block. *)
Lemma block_at_inserts t i p j k :
  block_at t i p → (j + length k ≤ length t)%nat → (i + p ≤ j ∨ j + length k ≤ i)%nat →
  block_at (list_inserts j k t) i p.
Proof.
  intros (Hp & Ht & Hl) Hlen Hdis. split_and!; [done| |].
  - intros x Hx. rewrite lookup_inserts by done. case_decides. by apply Ht.
  - rewrite lookup_inserts by done. by case_decides.
Qed.

Lemma block_at_block t i p :
  (1 ≤ p)%nat → (i + p ≤ length t)%nat → block_at (list_inserts i (block p) t) i p.
Proof.
  intros Hp Hlen. split_and!; [done|intros k Hk|];
    rewrite lookup_inserts by (rewrite length_block; lia); rewrite length_block by done;
    case_decides; rewrite block_lookup by lia; case_decides; done.
Qed.

(** A free run and a block do not meet. *)
Lemma free_run_block t i p j q :
  (1 ≤ p)%nat → free_run t i p → block_at t j q → (i + p ≤ j ∨ j + q ≤ i)%nat.
Proof.
  intros Hp Hrun (Hq & Ht & Hl).
  destruct (decide (i + p ≤ j)%nat); [by left|]. destruct (decide (j + q ≤ i)%nat); [by right|].
  set (x := Nat.max i j). exfalso.
  assert (t !! x = Some Free) as Hx by (replace x with (i + (x - i))%nat by lia; apply Hrun; lia).
  destruct (decide (x = j + (q - 1))%nat) as [He|]; [congruence|].
  replace x with (j + (x - j))%nat in Hx by lia. rewrite Ht in Hx by lia. done.
Qed.

Lemma client_inv_alloc mm live p i :
  client_inv mm live → (1 ≤ p)%nat → free_run (m_pages mm) i p →
  client_inv (with_pages mm (list_inserts i (block p) (m_pages mm)))
             (<[page_address mm i := p]> live).
Proof.
  intros [Hwf H0 Hb Hd Ho] Hp Hrun.
  pose proof (free_run_length _ _ _ Hp Hrun) as Hlen.
  assert (i + length (block p) ≤ length (m_pages mm))%nat as Hlen' by (rewrite length_block; lia).
  assert (1 ≤ i)%nat as Hi.
  { destruct i; [|lia]. specialize (Hrun 0%nat). rewrite Nat.add_0_r in Hrun.
    rewrite Hrun in H0 by lia. done. }
  constructor; simpl; change (page_address (with_pages mm _)) with (page_address mm).
  - apply wf_with_pages; [done|]. by rewrite length_inserts.
  - rewrite lookup_inserts by done. by case_decides.
  - intros a q. rewrite lookup_insert_Some. intros [[<- <-]|[_ Hq]].
    + exists i. split_and!; [done..|]. by apply block_at_block.
    + destruct (Hb _ _ Hq) as (j & Hj & -> & Hbj). exists j. split_and!; [done..|].
      apply block_at_inserts; [done..|]. rewrite length_block by done.
      pose proof (free_run_block _ _ _ _ _ Hp Hrun Hbj). lia.
  - intros j q k r. rewrite !lookup_insert_Some.
    intros [[?%page_address_inj <-]|[_ Hq]] [[?%page_address_inj <-]|[_ Hr]] Hne; subst.
    + done.
    + destruct (Hb _ _ Hr) as (k' & _ & ->%page_address_inj & Hbk). by eapply free_run_block.
    + destruct (Hb _ _ Hq) as (j' & _ & ->%page_address_inj & Hbj).
      pose proof (free_run_block _ _ _ _ _ Hp Hrun Hbj). lia.
    + by eapply Hd.
  - intros j s. rewrite lookup_inserts, length_block by done. case_decide as Hj.
    + intros _ _ _. exists i, p. by rewrite lookup_insert_eq.
    + intros Hs Hns Hj0. destruct (Ho _ _ Hs Hns Hj0) as (k & q & Hq & Hk).
      exists k, q. split; [|done]. rewrite lookup_insert_ne; [done|].
      intros ->%page_address_inj. destruct (Hb _ _ Hq) as (k' & _ & ->%page_address_inj & Hbk).
      pose proof (free_run_block _ _ _ _ _ Hp Hrun Hbk) as Hdis. destruct Hbk as [? _]. lia.
Qed.

Lemma client_inv_dealloc mm live p i :
  client_inv mm live → live !! page_address mm i = Some p → block_at (m_pages mm) i p → (1 ≤ i)%nat →
  client_inv (with_pages mm (list_inserts i (replicate p Free) (m_pages mm)))
             (delete (page_address mm i) live).
Proof.
  intros [Hwf H0 Hb Hd Ho] Hp Hbi Hi. pose proof (block_at_length _ _ _ Hbi) as Hlen.
  assert (i + length (replicate p Free) ≤ length (m_pages mm))%nat as Hlen'
    by (rewrite length_replicate; lia).
  constructor; simpl; change (page_address (with_pages mm _)) with (page_address mm).
  - apply wf_with_pages; [done|]. by rewrite length_inserts.
  - rewrite lookup_inserts by done. by case_decides.
  - intros a q. rewrite lookup_delete_Some. intros [Hne Hq].
    destruct (Hb _ _ Hq) as (j & Hj & -> & Hbj). exists j. split_and!; [done..|].
    apply block_at_inserts; [done..|]. rewrite length_replicate.
    assert (i ≠ j) by congruence. pose proof (Hd _ _ _ _ Hp Hq). lia.
  - intros j q k r. rewrite !lookup_delete_Some. intros [_ Hq] [_ Hr]. by eapply Hd.
  - intros j s. rewrite lookup_inserts, length_replicate by done. case_decide as Hj.
    + intros ?%list_elem_of_lookup_2%elem_of_replicate_inv. done.
    + intros Hs Hns Hj0. destruct (Ho _ _ Hs Hns Hj0) as (k & q & Hq & Hk).
      exists k, q. split; [|done]. rewrite lookup_delete_ne; [done|].
      intros ->%page_address_inj. rewrite Hp in Hq. injection Hq as ->. lia.
Qed.

Lemma client_inv_step mm live mm' live' :
  client_inv mm live → client_step (mm, live) (mm', live') → client_inv mm' live'.
Proof.
  intros Hinv Hstep. pose proof (inv_wf _ _ Hinv) as Hwf.
  inversion Hstep as [? ? p a ? Hp Hw Ha Hnz|? ? p ? Hp Hw Ha|? ? a p ? Hl Hd]; subst.
  - destruct (alloc_inv _ _ _ _ Hwf Hp Hw Ha) as [(i & Hi & -> & ->)|(_ & ? & _)]; [|done].
    apply client_inv_alloc; [done..|apply Hi].
  - destruct (alloc_inv _ _ _ _ Hwf Hp Hw Ha) as [(i & Hi & Ha0 & ->)|(_ & _ & ->)]; [|done].
    by destruct (page_address_nonzero mm i).
  - destruct (inv_blocks _ _ Hinv _ _ Hl) as (i & Hi & -> & Hb).
    rewrite (dealloc_frees _ i p) in Hd by done. injection Hd as <-.
    by apply client_inv_dealloc.
Qed.

Lemma client_inv_steps s s' :
  rtc client_step s s' → client_inv s.1 s.2 → client_inv s'.1 s'.2.
Proof.
  induction 1 as [|[] [] s'' Hstep _ IH]; [done|]. intros Hinv. apply IH. by eapply client_inv_step.
Qed.

Lemma clear_from_spec n : ∀ t i,
  (i + n ≤ length t)%nat → clear_from t (Z.of_nat i) n = Ret (list_inserts i (replicate n Free) t).
Proof.
  induction n as [|n IH]; intros t i Hi; simpl; [done|].
  rewrite set_status_nat by lia. simpl.
  replace (Z.of_nat i + 1) with (Z.of_nat (S i)) by lia. rewrite IH.
  - f_equal. by rewrite list_insert_inserts_lt by lia.
  - rewrite length_insert. lia.
Qed.

Lemma align_value_12 v : align_value v 12 = align_up v 12.
Proof. done. Qed.

(** Where [init] puts the first page. *)
Lemma init_alloc_start heap_start heap_size :
  0 ≤ heap_start → PAGE_SIZE ≤ heap_size → heap_start + heap_size < 2 ^ 62 →
  let n := heap_size / PAGE_SIZE in
  let a := align_value (u64 (heap_start + u64 (n * sizeof_Page))) PAGE_ORDER in
  heap_start + n ≤ a < heap_start + n + 4096 ∧ 1 ≤ n ∧ n * 4096 ≤ heap_size.
Proof.
  intros Hs Hz Hsum n a. assert (1 ≤ n ∧ n * 4096 ≤ heap_size) as [Hn1 Hn2].
  { unfold n. change PAGE_SIZE with 4096 in *. split.
    - apply Z.div_le_lower_bound; lia.
    - pose proof (Z.mul_div_le heap_size 4096). lia. }
  split; [|done]. unfold a, sizeof_Page, PAGE_ORDER. rewrite Z.mul_1_r, align_value_12.
  rewrite (wrap_small 64 n), wrap_small by (unfold in_word; lia).
  pose proof (align_up_spec (heap_start + n) 12). lia.
Qed.

(** [init] builds a manager whose first page is in use and whose others are free. *)
Lemma init_manager heap_start heap_size raw :
  0 < heap_start → PAGE_SIZE ≤ heap_size → heap_start + heap_size < 2 ^ 62 →
  Z.of_nat (length raw) = heap_size / PAGE_SIZE →
  ∃ mm, init heap_start heap_size raw = Ret mm ∧ client_inv mm ∅ ∧
    m_pages mm = Last :: replicate (length raw - 1) Free ∧
    m_alloc_start mm = align_value (u64 (heap_start + u64 (heap_size / PAGE_SIZE * sizeof_Page))) PAGE_ORDER ∧
    m_heap_start mm = heap_start ∧ m_heap_size mm = heap_size.
Proof.
  intros Hs Hz Hsum Hlen. pose proof (init_alloc_start heap_start heap_size) as Ha.
  cbv zeta in Ha. destruct Ha as (Ha & Hn & Hn'); [lia..|].
  unfold init. rewrite <- Hlen in *. set (a := align_value _ PAGE_ORDER) in *.
  destruct raw as [|s raw]; simpl length in *; [lia|].
  change 0 with (Z.of_nat 0) at 1. rewrite set_status_nat by (simpl; lia). cbn [obind].
  replace (Z.to_nat (Z.of_nat (S (length raw)) - 1)) with (length raw) by lia.
  change 1 with (Z.of_nat 1). rewrite clear_from_spec by (simpl; lia). cbn [obind].
  assert (list_inserts 1 (replicate (length raw) Free) (<[0%nat:=Last]> (s :: raw)) =
          Last :: replicate (length raw) Free) as Ht.
  { apply list_eq. intros j. rewrite lookup_inserts by (rewrite length_replicate; simpl; lia).
    rewrite length_replicate. case_decide as Hj.
    - destruct j; [lia|]. simpl. by rewrite Nat.sub_0_r.
    - destruct j; [done|]. simpl. rewrite !lookup_ge_None_2; [done| |]; rewrite ?length_replicate; simpl in *; lia. }
  rewrite Ht. eexists. split; [done|]. rewrite Nat.sub_succ, Nat.sub_0_r. simpl.
  split; [|done]. constructor; simpl.
  - constructor; simpl; rewrite ?length_replicate; change PAGE_SIZE with 4096 in *; try done; try lia.
  - done.
  - done.
  - done.
  - intros [|j] s'; simpl; [done|]. intros [-> _]%lookup_replicate. done.
Qed.

Lemma init_alloc_aligned heap_start heap_size :
  0 ≤ heap_start → PAGE_SIZE ≤ heap_size → heap_start + heap_size < 2 ^ 62 →
  (4096 | align_value (u64 (heap_start + u64 (heap_size / PAGE_SIZE * sizeof_Page))) PAGE_ORDER).
Proof.
  intros Hs Hz Hsum. destruct (init_alloc_start heap_start heap_size) as (_ & Hn1 & Hn2); [lia..|].
  unfold sizeof_Page, PAGE_ORDER in *. rewrite Z.mul_1_r, align_value_12.
  rewrite (wrap_small 64 (_ / _)), wrap_small by (unfold in_word; lia).
  pose proof (align_up_spec (heap_start + heap_size / PAGE_SIZE) 12 ltac:(lia) ltac:(lia) ltac:(lia)) as [_ Hd]. exact Hd.
Qed.

(** Allocations and releases change the descriptors only. *)
Lemma client_step_place s s' :
  client_step s s' → client_inv s.1 s.2 →
  m_alloc_start s'.1 = m_alloc_start s.1 ∧ length (m_pages s'.1) = length (m_pages s.1).
Proof.
  intros Hstep Hinv. destruct Hstep as [mm live p a mm' Hp Hw Ha _|mm live p mm' Hp Hw Ha|mm live a p mm' Hl Hd]; cbn [fst snd] in *.
  1,2: destruct (alloc_inv _ _ _ _ (inv_wf _ _ Hinv) Hp Hw Ha) as [(i & _ & _ & ->)|(_ & _ & ->)]; [|done];
    split; [done|apply length_inserts].
  destruct (inv_blocks _ _ Hinv _ _ Hl) as (i & Hi & -> & Hb).
  rewrite (dealloc_frees _ i p (inv_wf _ _ Hinv) Hb) in Hd. injection Hd as <-. split; [done|apply length_inserts].
Qed.

Lemma client_steps_place s s' :
  rtc client_step s s' → client_inv s.1 s.2 →
  m_alloc_start s'.1 = m_alloc_start s.1 ∧ length (m_pages s'.1) = length (m_pages s.1).
Proof.
  induction 1 as [|s1 s2 s3 Hstep _ IH]; [done|]. intros Hinv.
  destruct (client_step_place _ _ Hstep Hinv) as [Hs Hl].
  destruct IH as [IH1 IH2]; [destruct s1, s2; by eapply client_inv_step|]. by rewrite IH1, IH2.
Qed.

(** Clearing what was allocated. *)
Lemma zalloc_ok mm m (p : nat) i :
  wf_manager mm → (1 ≤ p)%nat → Z.of_nat p < 2 ^ 50 → first_fit (m_pages mm) p i →
  mapped m (page_address mm i) (512 * p) →
  ∃ m', zalloc mm m (Z.of_nat p) =
          Ret (page_address mm i, with_pages mm (list_inserts i (block p) (m_pages mm)), m') ∧
    (∀ k : nat, (k < 512 * p)%nat → m' !! (page_address mm i + 8 * Z.of_nat k) = Some 0) ∧
    (∀ b, b < page_address mm i ∨ page_address mm i + PAGE_SIZE * Z.of_nat p ≤ b →
          m' !! b = m !! b) ∧
    (∀ b k, mapped m b k → mapped m' b k) ∧ (mem_words m → mem_words m').
Proof.
  intros Hwf Hp Hw Hfit Hmap. unfold zalloc. rewrite (alloc_takes _ _ i) by (done || lia). cbn [obind].
  rewrite (proj2 (Z.eqb_neq _ _)) by by apply page_address_nonzero.
  change PAGE_SIZE with 4096. rewrite wrap_small by (unfold in_word; lia).
  replace (Z.to_nat (4096 * Z.of_nat p / 8)) with (512 * p)%nat
    by (replace (4096 * Z.of_nat p) with (512 * Z.of_nat p * 8) by lia; rewrite Z.div_mul; lia).
  destruct (zero_words_spec _ _ _ Hmap) as (m' & -> & Hz & Hframe & Hrest). cbn [obind].
  exists m'. split; [done|]. split; [done|]. split; [|done].
  intros b Hb. apply Hframe. intros k Hk. lia.
Qed.

(** * Properties *)

(** C1: [alloc] is first fit.  When a run of [p] free descriptors exists, the
    lowest one is marked (p-1 times Taken, then Last), nothing else changes and
    the address of its first page is returned.  When none exists, it depends on
    the last page: if it is in use, the null pointer is returned and nothing
    changes; if it is free, the scan leaves the descriptor table, which is
    undefined. *)
Theorem alloc_first_fit mm (p : nat) :
  wf_manager mm → (1 ≤ p)%nat → Z.of_nat p < 2 ^ 63 →
  (∀ i, first_fit (m_pages mm) p i →
     alloc mm (Z.of_nat p) =
       Ret (page_address mm i, with_pages mm (list_inserts i (block p) (m_pages mm)))) ∧
  ((∃ i, free_run (m_pages mm) i p) → ∃ i, first_fit (m_pages mm) p i) ∧
  ((∀ i, ¬ free_run (m_pages mm) i p) → (∃ s, last (m_pages mm) = Some s ∧ s ≠ Free) →
     alloc mm (Z.of_nat p) = Ret (0, mm)) ∧
  ((∀ i, ¬ free_run (m_pages mm) i p) → last (m_pages mm) = Some Free → alloc mm (Z.of_nat p) = Undef).
Proof.
  intros Hwf Hp Hw. split_and!.
  - intros i Hi. by apply alloc_takes.
  - apply first_fit_exists.
  - intros Hno Hlast. by apply alloc_null.
  - intros Hno Hlast. by apply alloc_overruns.
Qed.

(** C2: from [init] on, whatever sequence of [alloc] and [dealloc] of blocks it
    holds a client performs, its blocks start at multiples of 4096, lie in the
    page area behind the descriptors and the page of the manager, do not overlap,
    and can be released. *)
Theorem clients_safe heap_start heap_size raw mm0 mm live :
  0 < heap_start → PAGE_SIZE ≤ heap_size → heap_start + heap_size < 2 ^ 62 →
  Z.of_nat (length raw) = heap_size / PAGE_SIZE →
  init heap_start heap_size raw = Ret mm0 → rtc client_step (mm0, ∅) (mm, live) →
  (∀ a p, live !! a = Some p →
     (1 ≤ p)%nat ∧ (4096 | a) ∧ heap_start + heap_size / 4096 + 4096 ≤ a ∧ m_alloc_start mm + 4096 ≤ a ∧
     a + 4096 * Z.of_nat p ≤ m_alloc_start mm + 4096 * (heap_size / 4096) ∧
     ∃ mm', dealloc mm a = Ret mm') ∧
  (∀ a p a' p', live !! a = Some p → live !! a' = Some p' → a ≠ a' →
     a + 4096 * Z.of_nat p ≤ a' ∨ a' + 4096 * Z.of_nat p' ≤ a).
Proof.
  intros Hs Hz Hsum Hraw Hinit Hsteps.
  destruct (init_manager heap_start heap_size raw) as (mm1 & Hinit' & Hinv0 & Ht & Ha0 & _); [done..|].
  rewrite Hinit in Hinit'. injection Hinit' as <-.
  destruct (init_alloc_start heap_start heap_size) as (Hstart & Hn & _); [lia..|]. rewrite <- Ha0 in Hstart.
  destruct (init_alloc_aligned heap_start heap_size) as [c Hc]; [lia..|]. rewrite <- Ha0 in Hc.
  pose proof (client_steps_place _ _ Hsteps Hinv0) as [Hsame Hlen]. cbn [fst] in Hsame, Hlen.
  pose proof (client_inv_steps _ _ Hsteps Hinv0) as [Hwf H0 Hb Hd Ho]. cbn [fst snd] in *.
  change PAGE_SIZE with 4096 in *. rewrite Ht in Hlen. cbn [length] in Hlen. rewrite length_replicate in Hlen. split.
  - intros a p Hp. destruct (Hb _ _ Hp) as (i & Hi & -> & Hbi).
    pose proof (block_at_length _ _ _ Hbi).
    unfold page_address at 1 2 3 4. change PAGE_SIZE with 4096. rewrite Hsame. split_and!; try lia.
    + apply Hbi.
    + exists (c + Z.of_nat i). lia.
    + eexists. by eapply dealloc_frees.
  - intros a p a' p' Hp Hp' Hne.
    destruct (Hb _ _ Hp) as (i & _ & -> & _), (Hb _ _ Hp') as (j & _ & -> & _).
    destruct (Hd _ _ _ _ Hp Hp'); [congruence| |]; unfold page_address;
      change PAGE_SIZE with 4096; lia.
Qed.

(** Releasing what [alloc] has just returned restores the manager. *)
Theorem alloc_dealloc mm (p : nat) a mm' :
  wf_manager mm → (1 ≤ p)%nat → Z.of_nat p < 2 ^ 63 →
  alloc mm (Z.of_nat p) = Ret (a, mm') → a ≠ 0 → dealloc mm' a = Ret mm.
Proof.
  intros Hwf Hp Hw Ha Hnz.
  destruct (alloc_inv _ _ _ _ Hwf Hp Hw Ha) as [(i & [Hrun _] & -> & ->)|(_ & ? & _)]; [|done].
  pose proof (free_run_length _ _ _ Hp Hrun). rewrite <- (length_block p) in H by done.
  change (page_address mm i) with (page_address (with_pages mm (list_inserts i (block p) (m_pages mm))) i).
  rewrite (dealloc_frees _ i p); simpl.
  - unfold with_pages. simpl. rewrite list_inserts_id; [by destruct mm|..].
    + by rewrite length_block, length_replicate.
    + done.
    + intros j Hj. rewrite length_replicate in Hj. rewrite Hrun by done.
      symmetry. by apply lookup_replicate.
  - apply wf_with_pages; [done|]. by rewrite length_inserts.
  - apply block_at_block; [done|]. by rewrite length_block in H.
Qed.

(** [zalloc] allocates as [alloc] does and clears every word of the pages
    it returns; the rest of the memory is unchanged. *)
Theorem zalloc_zeroes mm m (p : nat) i :
  wf_manager mm → (1 ≤ p)%nat → Z.of_nat p < 2 ^ 50 → first_fit (m_pages mm) p i →
  mapped m (page_address mm i) (512 * p) →
  ∃ m', zalloc mm m (Z.of_nat p) =
          Ret (page_address mm i, with_pages mm (list_inserts i (block p) (m_pages mm)), m') ∧
    (∀ k : nat, (k < 512 * p)%nat → m' !! (page_address mm i + 8 * Z.of_nat k) = Some 0) ∧
    (∀ b, b < page_address mm i ∨ page_address mm i + PAGE_SIZE * Z.of_nat p ≤ b →
          m' !! b = m !! b).
Proof.
  intros Hwf Hp Hw Hfit Hmap. destruct (zalloc_ok mm m p i) as (m' & Hz & Hzero & Hframe & _); [done..|].
  by exists m'.
Qed.

(** When no run of [p] pages is free but the last page is, the scan does not
    stop at the end of the table: it reads descriptors that do not exist. *)
Theorem alloc_past_table mm (p : nat) :
  wf_manager mm → Z.of_nat p < 2 ^ 63 →
  last (m_pages mm) = Some Free → (∀ i, ¬ free_run (m_pages mm) i p) →
  alloc mm (Z.of_nat p) = Undef.
Proof. apply alloc_overruns. Qed.

(** The page area reaches past the end of the heap: a page-sized table and heap
    whose sizes divide evenly leave no room for the descriptors themselves. *)
Lemma last_page_outside_heap heap_start heap_size raw mm :
  0 < heap_start → PAGE_SIZE ≤ heap_size → heap_start + heap_size < 2 ^ 62 →
  Z.of_nat (length raw) = heap_size / PAGE_SIZE → (PAGE_SIZE | heap_size) →
  init heap_start heap_size raw = Ret mm →
  heap_start + heap_size < m_alloc_start mm + PAGE_SIZE * m_number_of_pages mm.
Proof.
  intros Hs Hz Hsum Hraw [n Hn] Hinit.
  destruct (init_manager heap_start heap_size raw) as (mm1 & Hinit' & Hinv & Ht & Ha & Hh & _); [done..|].
  rewrite Hinit in Hinit'. injection Hinit' as <-. destruct Hinv as [Hwf _ _ _ _].
  rewrite (wf_length _ Hwf), Ht. simpl length. rewrite length_replicate, Ha.
  pose proof (init_alloc_start heap_start heap_size) as Hb. cbv zeta in Hb.
  change PAGE_SIZE with 4096 in *. subst heap_size. rewrite Z.div_mul in * by lia. lia.
Qed.

(** ** Witnesses *)
Definition sample_manager (t : list PageStatus) : MemoryManager :=
  mkMM 2147483648 (4096 * Z.of_nat (length t)) 2147483648 (Z.of_nat (length t)) 2147487744 t.

Definition sample_table : list PageStatus := [Last; Free; Taken; Last; Free; Free; Free].

Lemma sample_wf : wf_manager (sample_manager sample_table).
Proof. by constructor. Qed.

Lemma sample_fit : first_fit sample_table 2 4.
Proof.
  split; [by apply (bool_decide_unpack _)|].
  intros i Hi. do 4 (destruct i as [|i]; [by apply (bool_decide_unpack _)|]). lia.
Qed.

Lemma alloc_first_fit_witness :
  alloc (sample_manager sample_table) 2 =
    Ret (2147487744 + 4096 * 4, sample_manager [Last; Free; Taken; Last; Taken; Last; Free]).
Proof.
  apply (proj1 (alloc_first_fit (sample_manager sample_table) 2 sample_wf
                  ltac:(lia) ltac:(done)) 4%nat sample_fit).
Defined.

Lemma clients_safe_witness :
  ∃ mm, init 2147483648 12288 [Taken; Last; Free] = Ret mm ∧
    (∀ a p, <[2147491840 := 2%nat]> (∅ : gmap Z nat) !! a = Some p → (1 ≤ p)%nat).
Proof.
  eexists. split; [vm_compute; reflexivity|]. intros a p Hp.
  eapply (proj1 (clients_safe 2147483648 12288 [Taken; Last; Free] _ _ _
    ltac:(lia) ltac:(done) ltac:(done) ltac:(done) ltac:(vm_compute; reflexivity)
    ltac:(apply rtc_once; eapply (step_alloc _ _ 2);
          [lia|done|vm_compute; reflexivity|done])) a p Hp).
Defined.

Lemma alloc_dealloc_witness :
  dealloc (sample_manager [Last; Free; Taken; Last; Taken; Last; Free]) (2147487744 + 4096 * 4) =
    Ret (sample_manager sample_table).
Proof.
  apply (alloc_dealloc (sample_manager sample_table) 2 _ _ sample_wf); [lia|done|by vm_compute|done].
Defined.

Definition zero_page_memory (a v : Z) (n : nat) : memory :=
  list_to_map ((λ i, (a + 8 * Z.of_nat i, v)) <$> seq 0 n).

Lemma zero_page_memory_mapped a v n :
  word_aligned a = true → mapped (zero_page_memory a v n) a n.
Proof.
  intros Ha. split; [done|]. intros i Hi. unfold zero_page_memory.
  apply elem_of_dom. rewrite dom_list_to_map_L. apply elem_of_list_to_set, list_elem_of_fmap.
  exists (a + 8 * Z.of_nat i, v). split; [done|]. apply list_elem_of_fmap.
  exists i. split; [done|]. apply elem_of_seq. lia.
Qed.

Lemma zalloc_zeroes_witness :
  ∃ m', zalloc (sample_manager sample_table) (zero_page_memory 2147504128 7 1024) 2 =
          Ret (2147504128, sample_manager [Last; Free; Taken; Last; Taken; Last; Free], m').
Proof.
  destruct (zalloc_zeroes (sample_manager sample_table) (zero_page_memory 2147504128 7 1024) 2 4
    sample_wf ltac:(lia) ltac:(done) sample_fit (zero_page_memory_mapped 2147504128 7 1024 eq_refl))
    as (m' & Hm & _).
  exists m'. exact Hm.
Defined.

Lemma alloc_past_table_witness : alloc (sample_manager [Last; Free]) 2 = Undef.
Proof.
  apply (alloc_past_table (sample_manager [Last; Free]) 2); [by constructor|done|done|].
  intros [|[|i]] H; specialize (H 0%nat ltac:(lia)) as H0; specialize (H 1%nat ltac:(lia)); done.
Defined.
