(* ===== verification/KernelHeap.v ===== *)
(** The kernel heap: [Kernel/Memory/KernelMemoryAllocator.{h,cpp}].

    The heap is one area of memory that starts at [m_head] and is tiled by
    chunks; each chunk starts with a 64-bit [AllocHeader] word (63 bits of size,
    one bit taken) followed by its payload.  The operations below work on the
    memory words, as the code does; the specification is first fit on the list
    of chunks the words stand for.  Messages printed on the way are not
    modelled: they change no state. *)
From S2P Require Import Prelude Bits Machine PageAllocator.

(** * [struct AllocHeader] *)
Definition AllocHeader_is_taken (h : Z) : bool := bf_get 63 1 h =? 1.
Definition AllocHeader_is_free (h : Z) : bool := negb (AllocHeader_is_taken h).
Definition set_taken (h : Z) : Z := bf_set 63 1 1 h.
Definition set_free (h : Z) : Z := bf_set 63 1 0 h.
Definition get_size (h : Z) : Z := bf_get 0 63 h.
Definition set_size (size h : Z) : Z := bf_set 0 63 size h.
Definition sizeof_AllocHeader : Z := 8.

(** * [class KernelMemoryAllocator] *)
Definition ALLOCATION_SIZE : Z := 64.

Record KernelMemoryAllocator : Type := mkKMA {
  m_head : Z;
  m_total_size : Z;
  m_taken : Z
}.

(** The constructor. *)
Definition KernelMemoryAllocator_new (mm : MemoryManager) (m : memory) :
    outcome (KernelMemoryAllocator * MemoryManager * memory) :=
  let! r := zalloc mm m ALLOCATION_SIZE in
  let '(head, mm', m1) := r in
  let total := ALLOCATION_SIZE * PAGE_SIZE in
  let! m2 := update64 m1 head set_free in
  let! m3 := update64 m2 head (set_size total) in
  Ret (mkKMA head total 0, mm', m3).

(** [KernelMemoryAllocator::init]: the object is made in a page of its own, its
    members one after the other. *)
Definition allocator_init (mm : MemoryManager) (m : memory) (page : Z) :
    outcome (KernelMemoryAllocator * MemoryManager * memory) :=
  let! r := KernelMemoryAllocator_new mm m in
  let '(k, mm, m) := r in
  let! m := write64 m (u64 (page + 8 * 0)) (m_head k) in
  let! m := write64 m (u64 (page + 8 * 1)) (m_total_size k) in
  let! m := write64 m (u64 (page + 8 * 2)) (m_taken k) in
  Ret (k, mm, m).

(** The [while] loop of [kmalloc].  A chunk of size 0 does not move [ptr]. *)
Fixpoint kmalloc_loop (fuel : nat) (m : memory) (ptr tail size : Z) : outcome (Z * memory) :=
  match fuel with
  | O => NoFuel
  | S fuel' =>
      if ptr <? tail then
        let! h := read64 m ptr in
        if AllocHeader_is_free h && (size <=? get_size h) then
          let chunkSize := get_size h in
          let remaining := u64 (chunkSize - size) in
          let! m := update64 m ptr set_taken in
          let! m :=
            if sizeof_AllocHeader <? remaining then
              let next := u64 (ptr + size) in
              let! m := update64 m next set_free in
              let! m := update64 m next (set_size remaining) in
              update64 m ptr (set_size size)
            else update64 m ptr (set_size chunkSize) in
          Ret (u64 (ptr + 8), m)
        else kmalloc_loop fuel' m (u64 (ptr + get_size h)) tail size
      else Ret (0, m)
  end.

(** [tail] is computed as the source has it: the cast binds tighter than the
    addition, so [m_total_size] counts headers of 8 bytes. *)
Definition kmalloc (fuel : nat) (k : KernelMemoryAllocator) (m : memory) (sz : Z) : outcome (Z * memory) :=
  if sz =? 0 then Ret (0, m)
  else
    let size := u64 (align_value sz 3 + sizeof_AllocHeader) in
    let tail := u64 (m_head k + sizeof_AllocHeader * m_total_size k) in
    kmalloc_loop fuel m (m_head k) tail size.

(** [kzmalloc]: the loop stores to the same byte every time. *)
Fixpoint store_byte_again (m : memory) (a : Z) (n : nat) : outcome memory :=
  match n with
  | O => Ret m
  | S n' => let! m' := write8 m a 0 in store_byte_again m' a n'
  end.

Definition kzmalloc (fuel : nat) (k : KernelMemoryAllocator) (m : memory) (sz : Z) : outcome (Z * memory) :=
  let size := align_value sz 3 in
  let! r := kmalloc fuel k m size in
  let '(mem, m1) := r in
  let! m2 := store_byte_again m1 (mem + 1) (Z.to_nat size) in
  Ret (mem, m2).

(** The [while] loop of [coalesce]. *)
Fixpoint coalesce_loop (fuel : nat) (m : memory) (ptr tail : Z) : outcome memory :=
  match fuel with
  | O => NoFuel
  | S fuel' =>
      if ptr <? tail then
        let! h := read64 m ptr in
        let next := u64 (ptr + get_size h) in
        if (tail <=? next) || (get_size h =? 0) then Ret m
        else
          let! merge :=
            if AllocHeader_is_free h then let! hn := read64 m next in Ret (AllocHeader_is_free hn)
            else Ret false in
          let! m :=
            if merge : bool then
              let! hn := read64 m next in
              update64 m ptr (set_size (u64 (get_size h + get_size hn)))
            else Ret m in
          let! h' := read64 m ptr in
          coalesce_loop fuel' m (u64 (ptr + get_size h')) tail
      else Ret m
  end.

Definition heap_tail (k : KernelMemoryAllocator) : Z := u64 (m_head k + m_total_size k).

Definition coalesce (fuel : nat) (k : KernelMemoryAllocator) (m : memory) : outcome memory :=
  coalesce_loop fuel m (m_head k) (heap_tail k).

Definition kfree (fuel : nat) (k : KernelMemoryAllocator) (m : memory) (ptr : Z) : outcome memory :=
  if ptr =? 0 then Ret m
  else
    let! m' := update64 m (u64 (ptr - sizeof_AllocHeader)) set_free in
    coalesce fuel k m'.

(** [operator new], [operator delete] and their forms for arrays, on the allocator. *)
Definition operator_new (fuel : nat) (k : KernelMemoryAllocator) (m : memory) (size : Z) : outcome (Z * memory) :=
  kmalloc fuel k m size.

Definition operator_delete (fuel : nat) (k : KernelMemoryAllocator) (m : memory) (ptr : Z) : outcome memory :=
  if ptr =? 0 then Ret m else kfree fuel k m ptr.

(** [get_statistics]: the sizes of the taken and of the free chunks. *)
Record HeapStatistics : Type := mkHeapStatistics {
  total_size : Z; free_size : Z; used_size : Z
}.

Fixpoint statistics_loop (fuel : nat) (m : memory) (ptr tail taken free : Z) : outcome (Z * Z) :=
  match fuel with
  | O => NoFuel
  | S fuel' =>
      if ptr <? tail then
        let! h := read64 m ptr in
        if AllocHeader_is_taken h
        then statistics_loop fuel' m (u64 (ptr + get_size h)) tail (u64 (taken + get_size h)) free
        else statistics_loop fuel' m (u64 (ptr + get_size h)) tail taken (u64 (free + get_size h))
      else Ret (taken, free)
  end.

Definition heap_statistics (fuel : nat) (k : KernelMemoryAllocator) (m : memory) : outcome HeapStatistics :=
  let! r := statistics_loop fuel m (m_head k) (heap_tail k) 0 0 in
  let '(taken, free) := r in
  Ret (mkHeapStatistics (m_total_size k) free taken).

Fixpoint freed_loop (fuel : nat) (m : memory) (ptr tail potential_ptr : Z) : outcome bool :=
  match fuel with
  | O => NoFuel
  | S fuel' =>
      if ptr <? tail then
        let! h := read64 m ptr in
        if (ptr <=? potential_ptr) && (potential_ptr <? u64 (ptr + get_size h)) && AllocHeader_is_free h
        then Ret true
        else freed_loop fuel' m (u64 (ptr + get_size h)) tail potential_ptr
      else Ret false
  end.

Definition is_in_freed_memory (fuel : nat) (k : KernelMemoryAllocator) (m : memory) (ptr : Z) : outcome bool :=
  freed_loop fuel m (m_head k) (heap_tail k) ptr.

(** * Specification: first fit on a list of chunks *)
Record chunk : Type := mkChunk { c_size : Z; c_taken : bool }.

Definition header (c : chunk) : Z :=
  bf_set 0 63 (c_size c) (bf_set 63 1 (if c_taken c then 1 else 0) 0).

Definition chunk_ok (c : chunk) : Prop := 16 ≤ c_size c ∧ (8 | c_size c).

(** The headers of the chunks [cs], one after the other from [p] up to [e]. *)
Fixpoint tiles (m : memory) (p : Z) (cs : list chunk) (e : Z) : Prop :=
  match cs with
  | [] => p = e
  | c :: cs' => m !! p = Some (header c) ∧ chunk_ok c ∧ tiles m (p + c_size c) cs' e
  end.

Definition total (cs : list chunk) : Z := foldr (λ c n, c_size c + n) 0 cs.

(** Splitting a free chunk: what is left over becomes a chunk when it has room
    for more than a header. *)
Definition split_chunk (c : chunk) (size : Z) : list chunk :=
  if 8 <? c_size c - size then [mkChunk size true; mkChunk (c_size c - size) false]
  else [mkChunk (c_size c) true].

Definition fits (size : Z) (c : chunk) : bool := negb (c_taken c) && (size <=? c_size c).

(** First fit: the offset of the chunk taken, and the chunks afterwards. *)
Fixpoint alloc_chunks (cs : list chunk) (size : Z) : option (Z * list chunk) :=
  match cs with
  | [] => None
  | c :: cs' =>
      if fits size c then Some (0, split_chunk c size ++ cs')
      else '(off, cs'') ← alloc_chunks cs' size; Some (c_size c + off, c :: cs'')
  end.

Fixpoint free_chunk (cs : list chunk) (off : Z) : list chunk :=
  match cs with
  | [] => []
  | c :: cs' =>
      if off =? 0 then mkChunk (c_size c) false :: cs' else c :: free_chunk cs' (off - c_size c)
  end.

(** One pass over the chunks: a free pair is merged, and the pass goes on
    behind the merged chunk. *)
Fixpoint merge_pairs (cs : list chunk) : list chunk :=
  match cs with
  | c1 :: ((c2 :: cs') as rest) =>
      if negb (c_taken c1) && negb (c_taken c2)
      then mkChunk (c_size c1 + c_size c2) false :: merge_pairs cs'
      else c1 :: merge_pairs rest
  | _ => cs
  end.

(** Every word from [p] to [e] is memory. *)
Definition area (m : memory) (p e : Z) : Prop :=
  ∀ a, p ≤ a < e → (8 | a) → is_Some (m !! a).

(** The memory holds the heap [k] with chunks [cs]. *)
Record heap (k : KernelMemoryAllocator) (m : memory) (cs : list chunk) : Prop := {
  heap_tiles : tiles m (m_head k) cs (m_head k + m_total_size k);
  heap_area : area m (m_head k) (m_head k + m_total_size k);
  heap_words : mem_words m;
  heap_low : 0 < m_head k;
  heap_aligned : (8 | m_head k);
  heap_positive : 0 < m_total_size k;
  heap_high : m_head k + 8 * m_total_size k < 2 ^ 63
}.

(** Chunk [c] has its header at address [a]. *)
Definition chunk_at (p : Z) (cs : list chunk) (a : Z) (c : chunk) : Prop :=
  ∃ xs ys, cs = xs ++ c :: ys ∧ a = p + total xs.

Definition request_size (sz : Z) : Z := align_up sz 3 + 8.

Definition merged (c1 c2 : chunk) : chunk := mkChunk (c_size c1 + c_size c2) false.

(** A client of the heap: the memory and the blocks it holds, by address, with
    the sizes it asked for.  It allocates while some chunk fits, frees what it
    holds, and stores bytes into what it holds. *)
Inductive heap_step (k : KernelMemoryAllocator) : memory * gmap Z Z → memory * gmap Z Z → Prop :=
| step_kmalloc m live cs sz off cs' fuel a m' :
    heap k m cs → 1 ≤ sz < 2 ^ 62 → alloc_chunks cs (request_size sz) = Some (off, cs') →
    (length cs ≤ fuel)%nat → kmalloc fuel k m sz = Ret (a, m') →
    heap_step k (m, live) (m', <[a := sz]> live)
| step_kfree m live cs a sz fuel m' :
    heap k m cs → (length cs < fuel)%nat → live !! a = Some sz → kfree fuel k m a = Ret m' →
    heap_step k (m, live) (m', delete a live)
| step_store m live a sz b v m' :
    live !! a = Some sz → a ≤ b < a + sz → write8 m b v = Ret m' →
    heap_step k (m, live) (m', live).

(** The blocks of the client are the taken chunks of the heap. *)
Record heap_client (k : KernelMemoryAllocator) (m : memory) (cs : list chunk) (live : gmap Z Z) : Prop := {
  client_heap : heap k m cs;
  client_block : ∀ a sz, live !! a = Some sz →
    1 ≤ sz ∧ ∃ c, chunk_at (m_head k) cs (a - 8) c ∧ c_taken c = true ∧ sz + 8 ≤ c_size c;
  client_taken : ∀ a c, chunk_at (m_head k) cs a c → c_taken c = true → is_Some (live !! (a + 8))
}.

(** * Headers *)
Lemma bool_word (b : bool) : in_word 1 (if b then 1 else 0).
Proof. by destruct b. Qed.

Lemma header_size c : in_word 63 (c_size c) → get_size (header c) = c_size c.
Proof. intros. unfold get_size, header. rewrite bf_get_set_eq by lia. by apply wrap_small. Qed.

Lemma header_taken c : AllocHeader_is_taken (header c) = c_taken c.
Proof.
  unfold AllocHeader_is_taken, header. rewrite bf_get_set_ne, bf_get_set_eq by lia.
  by destruct (c_taken c).
Qed.

Lemma header_free c : AllocHeader_is_free (header c) = negb (c_taken c).
Proof. unfold AllocHeader_is_free. by rewrite header_taken. Qed.

Lemma header_word c : in_word 64 (header c).
Proof. unfold header. repeat apply bf_set_bound; done. Qed.

Lemma set_taken_header c : set_taken (header c) = header (mkChunk (c_size c) true).
Proof. unfold set_taken, header. simpl. bit_ext i Hi. split_cmp; done. Qed.

Lemma set_free_header c : set_free (header c) = header (mkChunk (c_size c) false).
Proof. unfold set_free, header. simpl. bit_ext i Hi. split_cmp; done. Qed.

Lemma set_size_header s c : set_size s (header c) = header (mkChunk s (c_taken c)).
Proof. unfold set_size, header. simpl. bit_ext i Hi. split_cmp; done. Qed.

(** Writing both members of any word makes it a header. *)
Lemma set_free_size_header s w :
  in_word 64 w → set_size s (set_free w) = header (mkChunk s false).
Proof.
  intros [_ Hw]%in_word_bits; [|lia]. unfold set_size, set_free, header. simpl.
  bit_ext i Hi. split_cmp; try done. apply Hw. lia.
Qed.

#[export] Hint Resolve header_word : words.
Create Rewrite HintDb headers.
#[export] Hint Rewrite header_taken header_free set_taken_header set_free_header set_size_header : headers.

(** * Chunk lists *)
Lemma total_app xs ys : total (xs ++ ys) = total xs + total ys.
Proof. unfold total. induction xs as [|x xs IH]; simpl; lia. Qed.

Lemma total_nonneg xs : Forall chunk_ok xs → 0 ≤ total xs.
Proof. induction 1 as [|x xs [? _] _ IH]; simpl; [done|]. unfold total in *. lia. Qed.

Lemma tiles_app m p xs ys e :
  tiles m p (xs ++ ys) e ↔ tiles m p xs (p + total xs) ∧ tiles m (p + total xs) ys e.
Proof.
  revert p. induction xs as [|x xs IH]; intros p; simpl; [rewrite Z.add_0_r; tauto|].
  rewrite IH, Z.add_assoc. tauto.
Qed.

Lemma tiles_end m p cs e : tiles m p cs e → e = p + total cs.
Proof.
  revert p. induction cs as [|c cs IH]; intros p; simpl; [lia|].
  intros (_ & _ & H%IH). unfold total in *. lia.
Qed.

Lemma tiles_ok m p cs e : tiles m p cs e → Forall chunk_ok cs.
Proof. revert p. induction cs as [|c cs IH]; intros p; simpl; [done|].
  intros (_ & ? & ?). constructor; [done|by eapply IH]. Qed.

(** A write outside of the area of some chunks leaves them. *)
Lemma tiles_insert m p cs e a v :
  tiles m p cs e → a < p ∨ e ≤ a → tiles (<[a:=v]> m) p cs e.
Proof.
  revert p. induction cs as [|c cs IH]; intros p; simpl; [done|].
  intros (Hp & Hc & Ht) Ha. pose proof (tiles_end _ _ _ _ Ht) as He.
  pose proof (total_nonneg cs (tiles_ok _ _ _ _ Ht)). destruct Hc as [Hc Hc'].
  split_and!; [|done..|].
  - rewrite lookup_insert_ne; [done|lia].
  - apply IH; [done|lia].
Qed.

(** The header of a chunk that is not written is kept as well. *)
Lemma tiles_ext m m' p cs e :
  tiles m p cs e → (∀ a c, chunk_at p cs a c → m' !! a = m !! a) → tiles m' p cs e.
Proof.
  revert p. induction cs as [|c cs IH]; intros p; simpl; [done|].
  intros (Hp & Hc & Ht) Heq. split_and!; [|done|].
  - rewrite (Heq p c); [done|]. exists [], cs. split; [done|]. simpl. lia.
  - apply IH; [done|]. intros a c' (xs & ys & -> & ->). apply (Heq _ c').
    exists (c :: xs), ys. split; [done|]. unfold total. simpl. lia.
Qed.

Lemma chunk_at_header m p cs e a c :
  tiles m p cs e → chunk_at p cs a c → m !! a = Some (header c) ∧ chunk_ok c ∧ p ≤ a ∧ a + c_size c ≤ e.
Proof.
  intros Ht (xs & ys & -> & ->). pose proof (tiles_end _ _ _ _ Ht) as ->.
  pose proof (tiles_ok _ _ _ _ Ht) as Hok. apply Forall_app in Hok as [Hx [_ Hy]%Forall_cons].
  apply total_nonneg in Hx, Hy. apply tiles_app in Ht as [_ (Hh & Hc & _)].
  rewrite total_app. simpl. unfold total in *. simpl in *. split_and!; [done..|lia|lia].
Qed.

Lemma chunk_at_aligned m p cs e a c :
  tiles m p cs e → chunk_at p cs a c → (8 | p) → (8 | a).
Proof.
  intros Ht (xs & ys & -> & ->) Hp. apply tiles_ok, Forall_app in Ht as [Hx _].
  apply Z.divide_add_r; [done|]. induction Hx as [|x xs [_ ?] _ IH]; simpl; [apply Z.divide_0_r|].
  unfold total in *. by apply Z.divide_add_r.
Qed.

(** Chunks at different addresses do not overlap; at the same address they are equal. *)
Lemma chunk_at_disjoint p cs a c a' c' :
  Forall chunk_ok cs → chunk_at p cs a c → chunk_at p cs a' c' →
  (a = a' ∧ c = c') ∨ a + c_size c ≤ a' ∨ a' + c_size c' ≤ a.
Proof.
  intros Ht (xs & ys & -> & ->) (xs' & ys' & Heq & ->).
  assert (∀ (us vs us' vs' : list chunk) d d', us ++ d :: vs = us' ++ d' :: vs' →
            (us = us' ∧ d = d') ∨ (∃ l, us' = us ++ d :: l) ∨ (∃ l, us = us' ++ d' :: l)) as Hsplit.
  { clear. induction us as [|u us IH]; intros vs [|u' us'] vs' d d'; simpl; intros [= ? ?]; subst; eauto.
    destruct (IH vs us' vs' d d') as [[-> ->]|[[l ->]|[l ->]]]; eauto. }
  pose proof Ht as Hok. rewrite Forall_app, Forall_cons in Hok.
  assert (Forall chunk_ok (xs' ++ c' :: ys')) as Hok' by by rewrite <- Heq.
  rewrite Forall_app, Forall_cons in Hok'.
  destruct (Hsplit _ _ _ _ _ _ Heq) as [[-> ->]|[[l ->]|[l ->]]]; [by left|right..].
  - destruct Hok' as [Hx' _]. apply Forall_app in Hx' as [_ [_ Hl]%Forall_cons].
    apply total_nonneg in Hl. rewrite total_app. unfold total in *. simpl. lia.
  - destruct Hok as [Hx _]. apply Forall_app in Hx as [_ [_ Hl]%Forall_cons].
    apply total_nonneg in Hl. rewrite total_app. unfold total in *. simpl. lia.
Qed.

Lemma chunk_at_ok p cs a c : Forall chunk_ok cs → chunk_at p cs a c → chunk_ok c.
Proof. intros Hok (xs & ys & -> & _). rewrite Forall_app, Forall_cons in Hok. apply Hok. Qed.

Lemma chunk_at_unique p cs a c c' :
  Forall chunk_ok cs → chunk_at p cs a c → chunk_at p cs a c' → c = c'.
Proof.
  intros Hok Hc Hc'. pose proof (chunk_at_ok _ _ _ _ Hok Hc) as [? _].
  pose proof (chunk_at_ok _ _ _ _ Hok Hc') as [? _].
  destruct (chunk_at_disjoint _ _ _ _ _ _ Hok Hc Hc') as [[_ ?]|[]]; [done|lia..].
Qed.

(** * [kmalloc] *)
Lemma update64_header m a c c' f :
  (8 | a) → m !! a = Some (header c) → f (header c) = header c' →
  update64 m a f = Ret (<[a := header c']> m).
Proof.
  intros Ha Hh Hf. rewrite (update64_Ret _ _ (header c)) by done.
  rewrite Hf, wrap_small; [done|]. apply header_word.
Qed.

Lemma area_insert m p e a v : area m p e → area (<[a:=v]> m) p e.
Proof. intros Hm b ??. rewrite lookup_insert. case_decide; [done|]. by apply Hm. Qed.

Lemma read64_tile m p c cs e :
  tiles m p (c :: cs) e → (8 | p) → read64 m p = Ret (header c).
Proof. intros (Hp & _) H8. apply read64_Ret. by rewrite word_aligned_iff. Qed.

(** Taking the chunk at [p]: its header and, if it is split, the one behind it are written. *)
Lemma take_chunk m p c cs e size :
  tiles m p (c :: cs) e → c_taken c = false → 16 ≤ size ≤ c_size c → (8 | size) → (8 | p) →
  0 < p → e < 2 ^ 63 → area m p e → mem_words m →
  ∃ m',
    (let! m := update64 m p set_taken in
     let! m :=
       if sizeof_AllocHeader <? u64 (c_size c - size) then
         let! m := update64 m (u64 (p + size)) set_free in
         let! m := update64 m (u64 (p + size)) (set_size (u64 (c_size c - size))) in
         update64 m p (set_size size)
       else update64 m p (set_size (c_size c)) in
     Ret (u64 (p + 8), m)) = Ret (p + 8, m') ∧
    tiles m' p (split_chunk c size ++ cs) e ∧
    (∀ a, a ≠ p → a ≠ p + size → m' !! a = m !! a) ∧
    mem_words m' ∧ (∀ b b', area m b b' → area m' b b').
Proof.
  intros Ht Hc Hsz H8 Hp8 Hp He Ha Hw. pose proof Ht as (Hh & [Hc16 Hc8] & Ht').
  pose proof (tiles_end _ _ _ _ Ht') as Hend.
  pose proof (total_nonneg _ (tiles_ok _ _ _ _ Ht')) as Hnn.
  rewrite (update64_header m p c (mkChunk (c_size c) true)) by (done || apply set_taken_header).
  cbn [obind]. rewrite (wrap_small 64 (c_size c - size)) by (unfold in_word; lia).
  rewrite !(wrap_small 64 (p + _)) by (unfold in_word; lia).
  unfold split_chunk, sizeof_AllocHeader. destruct (Z.ltb_spec 8 (c_size c - size)) as [Hrem|Hrem].
  - assert (8 | p + size) as Hn8 by by apply Z.divide_add_r.
    destruct (Ha (p + size)) as [w Hw']; [lia|done|].
    rewrite (update64_Ret _ _ w) by (rewrite ?lookup_insert_ne by lia; done). cbn [obind].
    rewrite (update64_Ret _ _ (u64 (set_free w))) by (done || apply lookup_insert_eq). cbn [obind].
    rewrite (wrap_small 64 (set_free w)), set_free_size_header
      by (try apply bf_set_bound; try done; by apply Hw in Hw').
    rewrite (wrap_small 64 (header _)) by apply header_word.
    rewrite (update64_header _ _ (mkChunk (c_size c) true) (mkChunk size true)).
    2: done. 2: { rewrite !lookup_insert_ne by lia. apply lookup_insert_eq. } 2: apply set_size_header.
    cbn [obind]. eexists. split; [done|]. split_and!.
    + simpl. split_and!.
      * apply lookup_insert_eq.
      * split; simpl; [lia|done].
      * rewrite lookup_insert_ne by lia. apply lookup_insert_eq.
      * assert (8 | c_size c - size) as [j Hj] by by apply Z.divide_sub_r.
        split; simpl; [lia|by exists j].
      * replace (p + size + (c_size c - size)) with (p + c_size c) by lia.
        repeat (apply tiles_insert; [|lia]). done.
    + intros a H1 H2. by rewrite !lookup_insert_ne by done.
    + do 2 (apply mem_words_insert; [|apply header_word]).
      apply mem_words_insert; [by apply mem_words_insert; [|apply header_word]|].
      apply bf_set_bound; [done..|]. by apply Hw in Hw'.
    + intros b b' ?. by repeat apply area_insert.
  - rewrite (update64_header _ _ (mkChunk (c_size c) true) (mkChunk (c_size c) true)).
    2: done. 2: apply lookup_insert_eq. 2: apply set_size_header.
    cbn [obind]. eexists. split; [done|]. rewrite insert_insert_eq. split_and!.
    + simpl. split_and!; [apply lookup_insert_eq|done|by apply tiles_insert; [|lia]].
    + intros a H1 _. by rewrite lookup_insert_ne by done.
    + apply mem_words_insert; [done|apply header_word].
    + intros b b' ?. by apply area_insert.
Qed.

(** The search of [kmalloc] on the words is first fit on the chunks. *)
Lemma kmalloc_loop_fit cs : ∀ m p e tail size off cs' fuel,
  tiles m p cs e → alloc_chunks cs size = Some (off, cs') → (length cs ≤ fuel)%nat →
  16 ≤ size → (8 | size) → (8 | p) → 0 < p → e < 2 ^ 63 → e ≤ tail → area m p e → mem_words m →
  ∃ m', kmalloc_loop fuel m p tail size = Ret (p + off + 8, m') ∧
    tiles m' p cs' e ∧ 0 ≤ off ∧
    (∀ a, a ≠ p + off → a ≠ p + off + size → m' !! a = m !! a) ∧
    mem_words m' ∧ (∀ b b', area m b b' → area m' b b').
Proof.
  induction cs as [|c cs IH]; intros m p e tail size off cs' fuel Ht Hfit Hfuel Hs Hs8 Hp8 Hp He Htail Ha Hw;
    [done|].
  destruct fuel as [|fuel]; [simpl in Hfuel; lia|]. cbn [kmalloc_loop alloc_chunks] in *.
  pose proof Ht as (Hh & [Hc16 Hc8] & Ht'). pose proof (tiles_end _ _ _ _ Ht') as Hend.
  pose proof (total_nonneg _ (tiles_ok _ _ _ _ Ht')) as Hnn.
  rewrite (proj2 (Z.ltb_lt _ _)) by lia. rewrite (read64_tile _ _ _ _ _ Ht Hp8). cbn [obind].
  rewrite header_free, header_size by (unfold in_word; lia). fold (fits size c).
  destruct (fits size c) eqn:Hf.
  - injection Hfit as <- <-. apply andb_true_iff in Hf as [Hfree ?%Z.leb_le].
    cbv zeta. destruct (take_chunk m p c cs e size) as (m' & -> & Ht'' & Hframe & Hrest); try done.
    { by destruct (c_taken c). }
    rewrite Z.add_0_r. exists m'. split_and!; try done; apply Hrest.
  - destruct (alloc_chunks cs size) as [[off' cs'']|] eqn:Hfit'; simpl in Hfit; [|done].
    injection Hfit as <- <-. rewrite wrap_small by (unfold in_word; lia).
    destruct (IH m (p + c_size c) e tail size off' cs'' fuel)
      as (m' & Hk & Ht'' & Hoff & Hframe & Hrest); try done; try (simpl in *; lia).
    { by apply Z.divide_add_r. } { intros a ??. apply Ha; [lia|done]. }
    exists m'. rewrite Hk, !Z.add_assoc. split_and!; try done; try apply Hrest; [|lia].
    simpl. split_and!; [|done..]. rewrite Hframe by lia. done.
Qed.

(** No fit: the search runs on to the end of the chunks, and from there goes on. *)
Lemma kmalloc_loop_none cs : ∀ m p e tail size fuel,
  tiles m p cs e → alloc_chunks cs size = None → (8 | p) → 0 < p → e < 2 ^ 63 → e ≤ tail →
  kmalloc_loop (length cs + fuel) m p tail size = kmalloc_loop fuel m e tail size.
Proof.
  induction cs as [|c cs IH]; intros m p e tail size fuel Ht Hfit Hp8 Hp He Htail;
    [simpl in Ht; by subst|].
  cbn [kmalloc_loop alloc_chunks length Nat.add] in *.
  pose proof Ht as (Hh & [Hc16 Hc8] & Ht'). pose proof (tiles_end _ _ _ _ Ht') as Hend.
  pose proof (total_nonneg _ (tiles_ok _ _ _ _ Ht')) as Hnn.
  rewrite (proj2 (Z.ltb_lt _ _)) by lia. rewrite (read64_tile _ _ _ _ _ Ht Hp8). cbn [obind].
  rewrite header_free, header_size by (unfold in_word; lia). fold (fits size c).
  destruct (fits size c); [done|]. destruct (alloc_chunks cs size) as [[]|] eqn:Hfit'; [done|].
  rewrite wrap_small by (unfold in_word; lia). eapply IH; try done; [|lia].
  by apply Z.divide_add_r.
Qed.

(** * [coalesce] *)
Lemma chunk_at_cons p c cs a d : chunk_at (p + c_size c) cs a d → chunk_at p (c :: cs) a d.
Proof. intros (xs & ys & -> & ->). exists (c :: xs), ys. split; [done|]. unfold total. simpl. lia. Qed.

Lemma chunk_at_head p c cs : chunk_at p (c :: cs) p c.
Proof. exists [], cs. split; [done|]. simpl. lia. Qed.

Lemma chunk_at_cons_inv p c cs a d :
  chunk_at p (c :: cs) a d → (a = p ∧ d = c) ∨ chunk_at (p + c_size c) cs a d.
Proof.
  intros ([|x xs] & ys & [= -> ->] & ->); [left; simpl; split; [lia|done]|right].
  exists xs, ys. split; [done|]. unfold total. simpl. lia.
Qed.

(** One iteration of the pass at the last chunk, at a chunk that is kept and at
    a free pair. *)
Lemma coalesce_last m p c fuel :
  tiles m p [c] (p + c_size c) → (8 | p) → 0 < p → p + c_size c < 2 ^ 63 →
  coalesce_loop (S fuel) m p (p + c_size c) = Ret m.
Proof.
  intros Ht Hp8 Hp He. cbn [coalesce_loop]. pose proof Ht as (_ & [Hc16 _] & _).
  rewrite (proj2 (Z.ltb_lt p _)) by lia. rewrite (read64_tile _ _ _ _ _ Ht Hp8). cbn [obind].
  rewrite header_size by (unfold in_word; lia). rewrite wrap_small by (unfold in_word; lia).
  by rewrite Z.leb_refl.
Qed.

Section coalesce_step.
Context (m : memory) (p e : Z) (c1 c2 : chunk) (cs : list chunk) (fuel : nat).
Context (Ht : tiles m p (c1 :: c2 :: cs) e) (Hp8 : (8 | p)) (Hp : 0 < p) (He : e < 2 ^ 63).

Lemma pair_bounds : 16 ≤ c_size c1 ∧ 16 ≤ c_size c2 ∧ p + c_size c1 + c_size c2 ≤ e ∧
  (8 | c_size c1) ∧ (8 | p + c_size c1) ∧ (8 | c_size c1 + c_size c2).
Proof.
  destruct Ht as (_ & [? ?] & _ & [? ?] & Ht2). pose proof (tiles_end _ _ _ _ Ht2).
  pose proof (total_nonneg _ (tiles_ok _ _ _ _ Ht2)).
  split_and!; [lia..|done| |]; by apply Z.divide_add_r.
Qed.

Lemma coalesce_step :
  coalesce_loop (S fuel) m p e =
    if negb (c_taken c1) && negb (c_taken c2)
    then coalesce_loop fuel (<[p := header (merged c1 c2)]> m) (p + c_size (merged c1 c2)) e
    else coalesce_loop fuel m (p + c_size c1) e.
Proof.
  destruct pair_bounds as (H1 & H2 & Hsum & _ & Hp1 & _). destruct Ht as (Hh & Hok & Ht1).
  cbn [coalesce_loop]. rewrite (proj2 (Z.ltb_lt p e)) by lia.
  rewrite !(read64_tile _ _ _ _ _ Ht Hp8). cbn [obind].
  rewrite header_free, header_size by (unfold in_word; lia).
  rewrite (wrap_small 64 (p + _)) by (unfold in_word; lia).
  rewrite (proj2 (Z.eqb_neq (c_size c1) 0)), (proj2 (Z.leb_gt e _)) by lia. cbn [orb].
  rewrite (read64_tile _ _ _ _ _ Ht1 Hp1). cbn [obind]. rewrite header_free.
  destruct (c_taken c1) eqn:Hc1, (c_taken c2) eqn:Hc2; cbn [obind negb andb];
    rewrite ?(read64_tile _ _ _ _ _ Ht Hp8); cbn [obind];
    rewrite ?header_size, ?wrap_small by (unfold in_word; lia); try done.
  rewrite (update64_header m p c1 (merged c1 c2)) by (rewrite ?set_size_header, ?Hc1; done).
  cbn [obind]. assert (read64 (<[p:=header (merged c1 c2)]> m) p = Ret (header (merged c1 c2))) as ->.
  { apply read64_Ret. rewrite word_aligned_iff. by rewrite lookup_insert_eq. }
  cbn [obind]. by rewrite header_size, wrap_small by (unfold in_word; simpl; lia).
Qed.

Lemma tiles_merged : tiles (<[p := header (merged c1 c2)]> m) p (merged c1 c2 :: cs) e.
Proof.
  destruct pair_bounds as (H1 & H2 & Hsum & _ & _ & H8). destruct Ht as (Hh & Hok & _ & _ & Ht2).
  simpl. split_and!; [apply lookup_insert_eq|split; simpl; [lia|done]|].
  rewrite Z.add_assoc. by apply tiles_insert; [|lia].
Qed.
End coalesce_step.

(** Merging free neighbours on the words is [merge_pairs] on the chunks, and
    only headers of free chunks are written. *)
Lemma coalesce_loop_spec n : ∀ cs m p e fuel,
  (length cs ≤ n)%nat → tiles m p cs e → (length cs < fuel)%nat → (8 | p) → 0 < p → e < 2 ^ 63 →
  mem_words m →
  ∃ m', coalesce_loop fuel m p e = Ret m' ∧ tiles m' p (merge_pairs cs) e ∧
    (∀ a, (∀ c, chunk_at p cs a c → c_taken c = true) → m' !! a = m !! a) ∧
    mem_words m' ∧ (∀ b b', area m b b' → area m' b b').
Proof.
  induction n as [|n IH]; intros cs m p e [|fuel] Hn Ht Hfuel Hp8 Hp He Hw; try lia.
  { destruct cs; [|simpl in Hn; lia]. simpl in Ht. subst. exists m. cbn [coalesce_loop].
    rewrite Z.ltb_irrefl. split_and!; auto; reflexivity. }
  destruct cs as [|c1 [|c2 cs]].
  { simpl in Ht. subst. exists m. cbn [coalesce_loop]. rewrite Z.ltb_irrefl. split_and!; auto; reflexivity. }
  { assert (p + c_size c1 = e) as <- by apply Ht. exists m. rewrite coalesce_last by assumption. split_and!; auto; reflexivity. }
  destruct (pair_bounds _ _ _ _ _ _ Ht Hp8) as (H1 & H2 & Hsum & _ & Hp1 & H8).
  rewrite (coalesce_step m p e c1 c2 cs) by done. cbn [merge_pairs].
  destruct (negb (c_taken c1) && negb (c_taken c2)) eqn:Hm.
  - apply andb_true_iff in Hm as [Hm1 Hm2]. fold (merged c1 c2).
    pose proof (tiles_merged _ _ _ _ _ _ Ht Hp8) as (Hhc & Hcok & Htc).
    destruct (IH cs (<[p:=header (merged c1 c2)]> m) (p + c_size (merged c1 c2)) e fuel)
      as (m' & -> & Ht'' & Hframe & Hw' & Harea); try done; try (simpl in *; lia).
    { by apply Z.divide_add_r. }
    { by apply mem_words_insert; [|apply header_word]. }
    exists m'. split; [done|]. split; [cbn [tiles]; split; [|split; [exact Hcok|exact Ht'']]|split; [|split; [exact Hw'|]]].
    + rewrite Hframe; [done|]. intros d Hd.
      apply (chunk_at_header _ _ _ _ _ _ Htc) in Hd as (_ & _ & ? & _). simpl in *. lia.
    + intros a Hfa. rewrite Hframe.
      * rewrite lookup_insert_ne; [done|]. intros <-. specialize (Hfa c1 (chunk_at_head _ _ _)).
        by rewrite Hfa in Hm1.
      * intros d Hd. apply Hfa. do 2 apply chunk_at_cons. by rewrite <- Z.add_assoc.
    + intros b b' ?. by apply Harea, area_insert.
  - pose proof Ht as (Hh & Hok & Ht1).
    destruct (IH (c2 :: cs) m (p + c_size c1) e fuel)
      as (m' & Hm' & Ht'' & Hframe & Hw' & Harea); try done; try (simpl in *; lia).
    exists m'. split; [exact Hm'|]. split; [cbn [tiles]; split; [|split; [exact Hok|exact Ht'']]|split; [|by split]].
    + rewrite Hframe; [done|]. intros d Hd.
      apply (chunk_at_header _ _ _ _ _ _ Ht1) in Hd as (_ & _ & ? & _). lia.
    + intros a Hfa. apply Hframe. intros d Hd. by apply Hfa, chunk_at_cons.
Qed.

(** * The chunks kept by each operation *)
Lemma alloc_chunks_split cs : ∀ size off cs',
  alloc_chunks cs size = Some (off, cs') →
  ∃ xs c ys, cs = xs ++ c :: ys ∧ off = total xs ∧ fits size c = true ∧
             cs' = xs ++ split_chunk c size ++ ys.
Proof.
  induction cs as [|c cs IH]; intros size off cs'; simpl; [done|].
  destruct (fits size c) eqn:Hf.
  - intros [= <- <-]. by exists [], c, cs.
  - destruct (alloc_chunks cs size) as [[off' cs'']|] eqn:Ha; simpl; [|done].
    intros [= <- <-]. destruct (IH _ _ _ Ha) as (xs & c' & ys & -> & -> & ? & ->).
    exists (c :: xs), c', ys. done.
Qed.

Lemma total_split c size : total (split_chunk c size) = c_size c.
Proof. unfold split_chunk, total. destruct (8 <? c_size c - size); simpl; lia. Qed.

(** Only the free chunk that was split is gone, and only one taken chunk is new. *)
Lemma chunk_at_split p xs c ys size a d :
  c_taken c = false → c_taken d = true →
  chunk_at p (xs ++ split_chunk c size ++ ys) a d ↔
    (a = p + total xs ∧ Some d = head (split_chunk c size)) ∨ chunk_at p (xs ++ c :: ys) a d.
Proof.
  intros Hc Hd. revert p. induction xs as [|x xs IH]; intros p.
  - simpl. rewrite Z.add_0_r. unfold split_chunk. destruct (8 <? c_size c - size); simpl; split.
    + intros [[-> ->]|[[-> ->]|H]%chunk_at_cons_inv]%chunk_at_cons_inv; [by left|done|right].
      simpl in H. apply chunk_at_cons. by replace (p + c_size c) with (p + size + (c_size c - size)) by lia.
    + intros [[-> [= ->]]|[[-> ->]|H]%chunk_at_cons_inv]; [apply chunk_at_head|congruence|].
      do 2 apply chunk_at_cons. simpl. by replace (p + size + (c_size c - size)) with (p + c_size c) by lia.
    + intros [[-> ->]|H]%chunk_at_cons_inv; [by left|right]. by apply chunk_at_cons.
    + intros [[-> [= ->]]|[[-> ->]|H]%chunk_at_cons_inv]; [apply chunk_at_head|congruence|].
      by apply chunk_at_cons.
  - cbn [app]. replace (p + total (x :: xs)) with (p + c_size x + total xs) by (unfold total; simpl; lia).
    split.
    + intros [[-> ->]|H]%chunk_at_cons_inv; [right; apply chunk_at_head|].
      apply IH in H as [?|?]; [by left|right]. by apply chunk_at_cons.
    + intros [H|[[-> ->]|H]%chunk_at_cons_inv]; [|apply chunk_at_head|]; apply chunk_at_cons, IH; auto.
Qed.

Lemma free_chunk_app xs c ys :
  Forall chunk_ok xs → free_chunk (xs ++ c :: ys) (total xs) = xs ++ mkChunk (c_size c) false :: ys.
Proof.
  induction 1 as [|x xs [Hx _] Hxs IH]; simpl; [done|].
  pose proof (total_nonneg _ Hxs). unfold total in *.
  rewrite (proj2 (Z.eqb_neq _ _)) by lia. f_equal. rewrite <- IH. f_equal. lia.
Qed.

(** Chunks behind which the taken bit of one chunk was changed. *)
Lemma chunk_at_replace p xs c c' ys a d :
  c_size c' = c_size c → chunk_at p (xs ++ c' :: ys) a d →
  (a = p + total xs ∧ d = c') ∨ chunk_at p (xs ++ c :: ys) a d.
Proof.
  intros Hc. revert p. induction xs as [|x xs IH]; intros p; cbn [app].
  - intros [[-> ->]|H]%chunk_at_cons_inv; [left; simpl; split; [lia|done]|right].
    apply chunk_at_cons. by rewrite <- Hc.
  - replace (p + total (x :: xs)) with (p + c_size x + total xs) by (unfold total; simpl; lia).
    intros [[-> ->]|H]%chunk_at_cons_inv; [right; apply chunk_at_head|].
    apply IH in H as [?|?]; [by left|right]. by apply chunk_at_cons.
Qed.

(** Merging keeps exactly the taken chunks. *)
Lemma chunk_at_merge n : ∀ cs p a d, (length cs ≤ n)%nat → c_taken d = true →
  chunk_at p (merge_pairs cs) a d ↔ chunk_at p cs a d.
Proof.
  induction n as [|n IH]; intros [|c1 [|c2 cs]] p a d Hn Hd; simpl in Hn; try lia; try done.
  cbn [merge_pairs]. destruct (negb (c_taken c1) && negb (c_taken c2)) eqn:Hm.
  - apply andb_true_iff in Hm as [Hm1 Hm2]. split.
    + intros [[-> ->]|H]%chunk_at_cons_inv; [done|].
      rewrite (IH cs) in H by (done || lia). do 2 apply chunk_at_cons. by rewrite <- Z.add_assoc.
    + intros [[-> ->]|[[-> ->]|H]%chunk_at_cons_inv]%chunk_at_cons_inv.
      * by rewrite Hd in Hm1.
      * by rewrite Hd in Hm2.
      * apply chunk_at_cons. rewrite (IH cs) by (done || lia). simpl. by rewrite Z.add_assoc.
  - split; intros [[-> ->]|H]%chunk_at_cons_inv; try apply chunk_at_head;
      apply chunk_at_cons; [rewrite (IH (c2 :: cs)) in H|rewrite (IH (c2 :: cs))]; simpl; (done || lia).
Qed.

Lemma total_merge n : ∀ cs, (length cs ≤ n)%nat → total (merge_pairs cs) = total cs.
Proof.
  induction n as [|n IH]; intros [|c1 [|c2 cs]] Hn; simpl in Hn; try lia; try done.
  cbn [merge_pairs]. destruct (negb (c_taken c1) && negb (c_taken c2)).
  - unfold total in *. simpl. rewrite IH by lia. lia.
  - change (total (c1 :: merge_pairs (c2 :: cs)) = total (c1 :: c2 :: cs)).
    unfold total in *. cbn [foldr]. rewrite IH by (simpl; lia). done.
Qed.

(** * [kmalloc] and [kfree] on a heap *)
Lemma request_size_spec sz :
  1 ≤ sz < 2 ^ 62 → 16 ≤ request_size sz ∧ (8 | request_size sz) ∧ sz + 8 ≤ request_size sz ∧
  u64 (align_value sz 3 + sizeof_AllocHeader) = request_size sz.
Proof.
  intros Hsz. change (align_value sz 3) with (align_up sz 3). unfold request_size, sizeof_AllocHeader.
  destruct (align_up_spec sz 3) as [Ha [j Hj]]; [lia..|]. change (2 ^ 3) with 8 in *.
  split_and!; [lia|exists (j + 1); lia|lia|]. apply wrap_small. unfold in_word. lia.
Qed.

Lemma heap_head_bounds k m cs :
  heap k m cs → 0 < m_head k ∧ m_head k + m_total_size k < 2 ^ 63 ∧
  u64 (m_head k + sizeof_AllocHeader * m_total_size k) = m_head k + 8 * m_total_size k ∧
  heap_tail k = m_head k + m_total_size k.
Proof.
  intros []. unfold sizeof_AllocHeader, heap_tail. split_and!; [done|lia| |];
    apply wrap_small; unfold in_word; lia.
Qed.

Lemma kmalloc_fit k m cs sz off cs' fuel :
  heap k m cs → 1 ≤ sz < 2 ^ 62 → alloc_chunks cs (request_size sz) = Some (off, cs') →
  (length cs ≤ fuel)%nat →
  ∃ m', kmalloc fuel k m sz = Ret (m_head k + off + 8, m') ∧ heap k m' cs' ∧
    (∀ a, a ≠ m_head k + off → a ≠ m_head k + off + request_size sz → m' !! a = m !! a).
Proof.
  intros Hh Hsz Hfit Hfuel. destruct (heap_head_bounds _ _ _ Hh) as (Hp & He & Htail & _).
  destruct (request_size_spec sz Hsz) as (H16 & H8 & _ & Heq). destruct Hh as [Ht Ha Hw _ H8h Hpos Hhi].
  unfold kmalloc. rewrite (proj2 (Z.eqb_neq sz 0)) by lia. rewrite Htail, Heq.
  destruct (kmalloc_loop_fit cs m (m_head k) (m_head k + m_total_size k)
    (m_head k + 8 * m_total_size k) (request_size sz) off cs' fuel)
    as (m' & Hk & Ht' & _ & Hframe & Hw' & Ha'); try done; [lia|].
  exists m'. split; [done|]. split; [|done]. constructor; auto.
Qed.

Lemma kfree_chunk k m cs a c fuel :
  heap k m cs → chunk_at (m_head k) cs a c → (length cs < fuel)%nat →
  ∃ m', kfree fuel k m (a + 8) = Ret m' ∧
    heap k m' (merge_pairs (free_chunk cs (a - m_head k))) ∧
    (∀ b, b ≠ a → (∀ d, chunk_at (m_head k) cs b d → c_taken d = true) → m' !! b = m !! b).
Proof.
  intros Hh Hc Hfuel. destruct (heap_head_bounds _ _ _ Hh) as (Hp & He & _ & Htail).
  destruct Hh as [Ht Ha Hw _ H8h Hpos Hhi].
  pose proof (chunk_at_aligned _ _ _ _ _ _ Ht Hc H8h) as Ha8.
  pose proof (chunk_at_header _ _ _ _ _ _ Ht Hc) as (Hhd & Hok & Hlo & Hhi').
  destruct Hc as (xs & ys & -> & ->). pose proof (tiles_ok _ _ _ _ Ht) as Hoks.
  apply Forall_app in Hoks as [Hxs _]. unfold kfree, coalesce. rewrite Htail.
  rewrite (proj2 (Z.eqb_neq _ 0)) by lia.
  replace (m_head k + total xs + 8 - sizeof_AllocHeader) with (m_head k + total xs)
    by (unfold sizeof_AllocHeader; lia).
  rewrite wrap_small by (destruct Hok; unfold in_word; lia).
  rewrite (update64_header _ _ c (mkChunk (c_size c) false)) by (done || apply set_free_header).
  cbn [obind]. replace (m_head k + total xs - m_head k) with (total xs) by lia.
  rewrite free_chunk_app by done. set (c' := mkChunk (c_size c) false).
  assert (tiles (<[m_head k + total xs:=header c']> m) (m_head k) (xs ++ c' :: ys)
            (m_head k + m_total_size k)) as Ht'.
  { apply tiles_app in Ht as [Hx (_ & Hok' & Hy)]. apply tiles_app. split.
    - apply tiles_insert; [done|lia].
    - cbn [tiles]. split; [apply lookup_insert_eq|]. split; [done|].
      apply tiles_insert; [done|]. left. destruct Hok. simpl. lia. }
  edestruct (coalesce_loop_spec (length (xs ++ c' :: ys))) as (m' & -> & Ht'' & Hframe & Hw' & Ha');
    [done|exact Ht'|rewrite length_app in *; exact Hfuel|done|done|done| |].
  { apply mem_words_insert; [done|apply header_word]. }
  exists m'. split; [done|]. split.
  - constructor; try done. apply Ha', area_insert, Ha.
  - intros b Hb Hd. rewrite Hframe; [by rewrite lookup_insert_ne|].
    intros d [[-> ->]|H]%(chunk_at_replace _ _ c); [done|by apply Hd|done].
Qed.

(** * Clients of the heap *)
Lemma header_inj c c' :
  in_word 63 (c_size c) → in_word 63 (c_size c') → header c = header c' → c = c'.
Proof.
  intros H H' Heq. pose proof (header_size c H) as Hs. pose proof (header_taken c) as Ht.
  rewrite Heq, header_size in Hs by done. rewrite Heq, header_taken in Ht.
  destruct c, c'; simpl in *; congruence.
Qed.

(** The words determine the chunks. *)
Lemma tiles_inj m cs : ∀ cs' p e,
  tiles m p cs e → tiles m p cs' e → 0 ≤ p → e < 2 ^ 63 → cs = cs'.
Proof.
  induction cs as [|c cs IH]; intros [|c' cs'] p e Ht Ht' Hp He; [done|..];
    pose proof (tiles_end _ _ _ _ Ht) as Hend; pose proof (tiles_end _ _ _ _ Ht') as Hend';
    pose proof (total_nonneg _ (tiles_ok _ _ _ _ Ht)); pose proof (total_nonneg _ (tiles_ok _ _ _ _ Ht')).
  - destruct Ht' as (_ & [? _] & Ht'). pose proof (total_nonneg _ (tiles_ok _ _ _ _ Ht')).
    unfold total in *. simpl in *. lia.
  - destruct Ht as (_ & [? _] & Ht). pose proof (total_nonneg _ (tiles_ok _ _ _ _ Ht)).
    unfold total in *. simpl in *. lia.
  - destruct Ht as (Hh & [? _] & Ht), Ht' as (Hh' & [? _] & Ht').
    pose proof (tiles_end _ _ _ _ Ht). pose proof (tiles_end _ _ _ _ Ht').
    pose proof (total_nonneg _ (tiles_ok _ _ _ _ Ht)); pose proof (total_nonneg _ (tiles_ok _ _ _ _ Ht')).
    assert (c = c') as <- by (apply header_inj; [unfold in_word; lia..|congruence]).
    f_equal. eapply IH; [exact Ht|exact Ht'|lia|exact He].
Qed.

Lemma heap_inj k m cs cs' : heap k m cs → heap k m cs' → cs = cs'.
Proof. intros [Ht _ _ Hp _ ? ?] [Ht' _ _ _ _ _ _]. eapply tiles_inj; [exact Ht|exact Ht'|lia|lia]. Qed.

(** A word inside the payload of a taken chunk is no header. *)
Lemma payload_not_header k m cs a c b d :
  heap k m cs → chunk_at (m_head k) cs a c → a + 8 ≤ b < a + c_size c → ¬ chunk_at (m_head k) cs b d.
Proof.
  intros [Ht _ _ _ _ _ _] Hc Hb Hd. pose proof (chunk_at_header _ _ _ _ _ _ Ht Hd) as (_ & [? _] & _).
  destruct (chunk_at_disjoint _ _ _ _ _ _ (tiles_ok _ _ _ _ Ht) Hc Hd) as [[]|[]]; lia.
Qed.

Lemma split_head c size :
  ∃ c', head (split_chunk c size) = Some c' ∧ c_taken c' = true ∧ (size ≤ c_size c → size ≤ c_size c').
Proof. unfold split_chunk. destruct (8 <? c_size c - size); eexists; split; [done|simpl; split; [done|lia]|done|simpl; by split]. Qed.

Lemma client_kmalloc k m cs live sz off cs' m' :
  heap_client k m cs live → 1 ≤ sz < 2 ^ 62 → alloc_chunks cs (request_size sz) = Some (off, cs') →
  heap k m' cs' → heap_client k m' cs' (<[m_head k + off + 8 := sz]> live).
Proof.
  intros [Hh Hb Ht] Hsz Hfit Hh'. destruct (request_size_spec sz Hsz) as (_ & _ & Hreq & _).
  apply alloc_chunks_split in Hfit as (xs & c & ys & -> & -> & Hf & ->).
  apply andb_true_iff in Hf as [Hfree%negb_true_iff Hle%Z.leb_le].
  destruct (split_head c (request_size sz)) as (c' & Hc' & Htk & Hsize). constructor; [done|..].
  - intros a sz'. rewrite lookup_insert_Some. intros [[<- <-]|[_ Ha]].
    + split; [lia|]. exists c'. split; [|split; [done|lia]].
      apply chunk_at_split; [done..|]. left. split; [lia|done].
    + destruct (Hb _ _ Ha) as (? & d & Hd & Hdt & ?). split; [done|]. exists d. split; [|done].
      apply chunk_at_split; [done..|]. by right.
  - intros a d Hd Hdt. apply chunk_at_split in Hd as [[-> _]|Hd]; [| |done|done].
    + by rewrite lookup_insert_eq.
    + rewrite lookup_insert. case_decide; [done|]. by eapply Ht.
Qed.

Lemma client_kfree k m cs live a sz m' :
  heap_client k m cs live → live !! a = Some sz →
  heap k m' (merge_pairs (free_chunk cs (a - 8 - m_head k))) →
  heap_client k m' (merge_pairs (free_chunk cs (a - 8 - m_head k))) (delete a live).
Proof.
  intros [Hh Hb Ht] Ha Hh'. destruct (Hb _ _ Ha) as (_ & c & Hc & Hct & _).
  pose proof (heap_tiles _ _ _ Hh) as Htl. pose proof Hc as Hc0. destruct Hc as (xs & ys & -> & Hax).
  replace (a - 8 - m_head k) with (total xs) in * by lia.
  pose proof (tiles_ok _ _ _ _ Htl) as Hoks0. pose proof Hoks0 as Hoks.
  apply Forall_app in Hoks as [Hxs [Hck Hys]%Forall_cons].
  assert (Forall chunk_ok (xs ++ mkChunk (c_size c) false :: ys)) as Hoks'
    by (apply Forall_app; split; [done|by constructor]).
  rewrite free_chunk_app in * by done. constructor; [done|..].
  - intros a' sz'. rewrite lookup_delete_Some. intros [Hne Ha'].
    destruct (Hb _ _ Ha') as (? & d & Hd & Hdt & ?). split; [done|]. exists d. split; [|done].
    apply (proj2 (chunk_at_merge _ _ _ _ _ (le_n _) Hdt)). apply (chunk_at_replace _ _ (mkChunk (c_size c) false) c) in Hd;
      [|done]. destruct Hd as [[? ->]|Hd]; [lia|done].
  - intros a' d Hd Hdt. apply (proj1 (chunk_at_merge _ _ _ _ _ (le_n _) Hdt)) in Hd. pose proof Hd as Hd0.
    apply (chunk_at_replace _ _ c) in Hd; [|done]. destruct Hd as [[-> ->]|Hd]; [done|].
    destruct (Ht _ _ Hd Hdt) as [s Hs]. exists s. rewrite lookup_delete_ne; [done|]. intros ->.
    replace (a' + 8 - 8) with a' in Hax by lia. subst a'.
    assert (chunk_at (m_head k) (xs ++ mkChunk (c_size c) false :: ys) (m_head k + total xs)
              (mkChunk (c_size c) false)) as Hc' by by eexists _, _.
    by rewrite (chunk_at_unique _ _ _ _ _ Hoks' Hd0 Hc') in Hdt.
Qed.

(** A byte stored into the payload of a block changes no header. *)
Lemma heap_store k m cs live a sz b v m' :
  heap_client k m cs live → live !! a = Some sz → a ≤ b < a + sz → write8 m b v = Ret m' →
  heap_client k m' cs live ∧ (∀ x, x ≠ align_down b 3 → m' !! x = m !! x) ∧ a ≤ align_down b 3 ≤ b.
Proof.
  intros [Hh Hb Ht] Ha Hab Hst. destruct (Hb _ _ Ha) as (Hsz & c & Hc & Hct & Hcs).
  unfold write8 in Hst. apply obind_Ret in Hst as (w & Hw0%defined_Ret & [= <-]). pose proof Hh as Hh0.
  destruct Hh as [Htl Har Hw Hp H8 Hpos Hhi].
  pose proof (chunk_at_aligned _ _ _ _ _ _ Htl Hc H8) as [j Hj].
  destruct (align_down_spec b 3) as [Hdn [i Hi]]; [done|]. change (2 ^ 3) with 8 in *.
  split; [|split; [intros; by rewrite lookup_insert_ne|lia]].
  constructor; [|done|done]. constructor; try done.
  - eapply tiles_ext; [done|]. intros x d Hd. rewrite lookup_insert_ne; [done|]. intros <-.
    eapply payload_not_header; [exact Hh0|exact Hc| |exact Hd]. lia.
  - by apply area_insert.
  - apply mem_words_insert; [done|]. apply bf_set_bound; [lia..|]. by eapply Hw.
Qed.

Lemma heap_client_step k m cs live m' live' :
  heap_client k m cs live → heap_step k (m, live) (m', live') → ∃ cs', heap_client k m' cs' live'.
Proof.
  intros Hc Hstep. pose proof (client_heap _ _ _ _ Hc) as Hh.
  inversion Hstep as [? ? cs0 sz off cs' fuel a ? Hh0 Hsz Hfit Hfuel Hk
                     |? ? cs0 a sz fuel ? Hh0 Hfuel Ha Hk|? ? a sz b v ? Ha Hab Hst]; subst;
    try pose proof (heap_inj _ _ _ _ Hh Hh0) as <-.
  - destruct (kmalloc_fit _ _ _ _ _ _ fuel Hh Hsz Hfit Hfuel) as (m1 & Hk1 & Hh1 & _).
    rewrite Hk in Hk1. injection Hk1 as -> ->. exists cs'. by eapply client_kmalloc.
  - destruct (client_block _ _ _ _ Hc _ _ Ha) as (_ & c & Hch & _).
    destruct (kfree_chunk _ _ _ _ _ fuel Hh Hch Hfuel) as (m1 & Hk1 & Hh1 & _).
    replace (a - 8 + 8) with a in Hk1 by lia. rewrite Hk in Hk1. injection Hk1 as ->.
    eexists. by eapply client_kfree.
  - exists cs. by eapply heap_store.
Qed.

Lemma heap_client_steps k s s' :
  rtc (heap_step k) s s' → ∀ cs, heap_client k s.1 cs s.2 → ∃ cs', heap_client k s'.1 cs' s'.2.
Proof.
  induction 1 as [|[m live] [m' live'] s'' Hstep _ IH]; intros cs Hc; [by exists cs|].
  destruct (heap_client_step _ _ _ _ _ _ Hc Hstep) as [cs' Hc']. by apply (IH cs').
Qed.

(** A client that holds nothing yet. *)
Lemma client_heap_start k m size :
  heap k m [mkChunk size false] → heap_client k m [mkChunk size false] ∅.
Proof.
  intros Hh. constructor; [done|done|].
  intros a c ([|? []] & ys & [= <- ?] & _) Hc; done.
Qed.

(** The constructor makes the allocated pages one free chunk. *)
Lemma new_heap mm m i :
  wf_manager mm → first_fit (m_pages mm) 64 i → word_aligned (page_address mm i) = true →
  page_address mm i < 2 ^ 62 → area m (page_address mm i) (page_address mm i + 262144) → mem_words m →
  ∃ k mm' m', KernelMemoryAllocator_new mm m = Ret (k, mm', m') ∧
    m_head k = page_address mm i ∧ m_total_size k = 262144 ∧ heap k m' [mkChunk 262144 false].
Proof.
  intros Hwf Hfit Hal Hhi Har Hw. unfold KernelMemoryAllocator_new.
  assert (mapped m (page_address mm i) (512 * 64)) as Hmap.
  { split; [done|]. intros j Hj. apply Har; [lia|]. apply word_aligned_iff. by autorewrite with words. }
  destruct (zalloc_ok mm m 64 i Hwf) as (m1 & Hz & H0 & _ & Hmp & Hw1); [lia|done|done|done|].
  change (Z.of_nat 64) with ALLOCATION_SIZE in Hz. rewrite Hz. cbn [obind].
  apply word_aligned_iff in Hal. specialize (H0 0%nat ltac:(lia)). rewrite Z.add_0_r in H0.
  assert (0 < page_address mm i) as Hpos.
  { destruct Hwf as [_ _ Hb _ _ _]. unfold page_address. change PAGE_SIZE with 4096. lia. }
  rewrite (update64_Ret _ _ 0) by done. cbn [obind].
  rewrite (update64_Ret _ _ (u64 (set_free 0))) by (done || apply lookup_insert_eq). cbn [obind].
  change (ALLOCATION_SIZE * PAGE_SIZE) with 262144.
  rewrite (wrap_small 64 (set_free 0)) by by vm_compute.
  rewrite (set_free_size_header 262144 0), (wrap_small 64 (header _)) by (try apply header_word; done).
  eexists _, _, _. split; [done|]. simpl. split; [done|]. split; [done|]. rewrite insert_insert_eq.
  constructor; simpl; try done; try lia.
  - split; [apply lookup_insert_eq|]. split; [|done]. split; [done|]. by exists 32768.
  - intros b Hb [j ->]. rewrite lookup_insert. case_decide; [done|].
    destruct Hal as [q Hq]. destruct (Hmp _ _ Hmap) as [_ Hm1].
    specialize (Hm1 (Z.to_nat (j - q))). rewrite Hq in Hm1.
    replace (q * 8 + 8 * Z.of_nat (Z.to_nat (j - q))) with (j * 8) in Hm1 by lia. apply Hm1. lia.
  - apply mem_words_insert; [by apply Hw1|apply header_word].
Qed.

(** * When nothing fits *)
Lemma kmalloc_loop_short cs : ∀ m p e tail size fuel,
  tiles m p cs e → alloc_chunks cs size = None → (8 | p) → 0 < p → e < 2 ^ 63 → e ≤ tail →
  (fuel ≤ length cs)%nat → kmalloc_loop fuel m p tail size = NoFuel.
Proof.
  intros m p e tail size fuel. revert cs m p.
  induction fuel as [|fuel IH]; intros cs m p Ht Hfit Hp8 Hp He Htail Hfuel; [done|].
  destruct cs as [|c cs]; [simpl in Hfuel; lia|].
  pose proof Ht as (_ & [Hc16 Hc8] & Ht'). pose proof (tiles_end _ _ _ _ Ht') as Hend.
  pose proof (total_nonneg _ (tiles_ok _ _ _ _ Ht')) as Hnn.
  cbn [kmalloc_loop alloc_chunks] in *. rewrite (proj2 (Z.ltb_lt p tail)) by lia.
  rewrite (read64_tile _ _ _ _ _ Ht Hp8). cbn [obind].
  rewrite header_free, header_size by (unfold in_word; lia). fold (fits size c).
  destruct (fits size c); [done|]. destruct (alloc_chunks cs size) as [[]|] eqn:Hfit'; [done|].
  rewrite wrap_small by (unfold in_word; lia). eapply IH; try done; simpl in *; try lia.
  by apply Z.divide_add_r.
Qed.

Lemma kmalloc_loop_stuck m p tail size fuel :
  m !! p = Some 0 → (8 | p) → in_word 64 p → p < tail → 0 < size → kmalloc_loop fuel m p tail size = NoFuel.
Proof.
  intros Hm Hp Hw Htail Hs. induction fuel as [|fuel IH]; [done|]. cbn [kmalloc_loop].
  rewrite (proj2 (Z.ltb_lt p tail)) by done.
  assert (read64 m p = Ret 0) as -> by (apply read64_Ret; by rewrite word_aligned_iff). cbn [obind].
  change (get_size 0) with 0. rewrite (proj2 (Z.leb_gt size 0)), andb_false_r, Z.add_0_r by lia.
  by rewrite wrap_small.
Qed.

(** * Statistics *)
Definition sizes (b : bool) (cs : list chunk) : Z :=
  total (filter (λ c, c_taken c = b) cs).

Lemma sizes_total cs : sizes true cs + sizes false cs = total cs.
Proof.
  unfold sizes, total. induction cs as [|c cs IH]; [done|].
  rewrite !filter_cons. destruct (c_taken c); case_decides; simplify_eq; simpl; lia.
Qed.

Lemma sizes_cons b c cs : sizes b (c :: cs) = (if bool_decide (c_taken c = b) then c_size c else 0) + sizes b cs.
Proof. unfold sizes, total. rewrite filter_cons. case_decide; case_bool_decide; try done; simpl; lia. Qed.

Lemma statistics_loop_spec cs : ∀ m p e fuel taken free,
  tiles m p cs e → (length cs < fuel)%nat → (8 | p) → 0 < p → e < 2 ^ 63 →
  0 ≤ taken → 0 ≤ free → taken + free + total cs < 2 ^ 63 →
  statistics_loop fuel m p e taken free = Ret (taken + sizes true cs, free + sizes false cs).
Proof.
  induction cs as [|c cs IH]; intros m p e [|fuel] taken free Ht Hfuel Hp8 Hp He Htk Hfr Hsum;
    try (simpl in Hfuel; lia); cbn [statistics_loop].
  { simpl in Ht. subst. rewrite Z.ltb_irrefl. cbn. by rewrite !Z.add_0_r. }
  pose proof Ht as (_ & [Hc16 Hc8] & Ht'). pose proof (tiles_end _ _ _ _ Ht') as Hend.
  pose proof (total_nonneg _ (tiles_ok _ _ _ _ Ht')) as Hnn.
  assert (total (c :: cs) = c_size c + total cs) as Htot by done. rewrite Htot in Hsum.
  rewrite (proj2 (Z.ltb_lt p e)) by lia. rewrite (read64_tile _ _ _ _ _ Ht Hp8). cbn [obind].
  rewrite header_taken, header_size by (unfold in_word; lia).
  rewrite !wrap_small by (unfold in_word; lia). assert (8 | p + c_size c) by by apply Z.divide_add_r.
  rewrite !sizes_cons.
  destruct (c_taken c); rewrite (IH m (p + c_size c)) by (done || simpl in *; lia);
    simpl; do 2 f_equal; lia.
Qed.

Lemma freed_loop_spec cs : ∀ m p e fuel a,
  tiles m p cs e → (length cs < fuel)%nat → (8 | p) → 0 < p → e < 2 ^ 63 →
  ∃ b, freed_loop fuel m p e a = Ret b ∧
    (b = true ↔ ∃ x c, chunk_at p cs x c ∧ c_taken c = false ∧ x ≤ a < x + c_size c).
Proof.
  induction cs as [|c cs IH]; intros m p e [|fuel] a Ht Hfuel Hp8 Hp He;
    try (simpl in Hfuel; lia); cbn [freed_loop].
  { simpl in Ht. subst. rewrite Z.ltb_irrefl. exists false. split; [done|]. split; [done|].
    intros (x & c & ([|] & ? & ? & _) & _); done. }
  pose proof Ht as (_ & [Hc16 Hc8] & Ht'). pose proof (tiles_end _ _ _ _ Ht') as Hend.
  pose proof (total_nonneg _ (tiles_ok _ _ _ _ Ht')) as Hnn.
  rewrite (proj2 (Z.ltb_lt p e)) by lia. rewrite (read64_tile _ _ _ _ _ Ht Hp8). cbn [obind].
  rewrite header_free, header_size by (unfold in_word; lia).
  rewrite wrap_small by (unfold in_word; lia). assert (8 | p + c_size c) by by apply Z.divide_add_r.
  destruct ((p <=? a) && (a <? p + c_size c) && negb (c_taken c)) eqn:Hc.
  - exists true. split; [done|]. split; [|done]. intros _. exists p, c. split; [apply chunk_at_head|].
    apply andb_true_iff in Hc as [[?%Z.leb_le ?%Z.ltb_lt]%andb_true_iff ?%negb_true_iff].
    split; [done|lia].
  - destruct (IH m (p + c_size c) e fuel a) as (b & -> & Hb); try done; [simpl in *; lia|lia|].
    exists b. split; [done|]. rewrite Hb. split; intros (x & d & Hd & Hdt & Hx).
    + exists x, d. split; [by apply chunk_at_cons|done].
    + apply chunk_at_cons_inv in Hd as [[-> ->]|Hd]; [|by exists x, d].
      rewrite Hdt, (proj2 (Z.leb_le _ _)), (proj2 (Z.ltb_lt _ _)) in Hc by lia. done.
Qed.

(** * [kzmalloc] *)
Lemma store_byte_again_frame n : ∀ m a m',
  store_byte_again m a n = Ret m' → ∀ b, b ≠ align_down a 3 → m' !! b = m !! b.
Proof.
  induction n as [|n IH]; intros m a m'; simpl; [by intros [= ->]|].
  intros (m1 & Hw & Hm)%obind_Ret b Hb. rewrite (IH _ _ _ Hm b Hb).
  unfold write8 in Hw. apply obind_Ret in Hw as (w & _ & [= <-]). by rewrite lookup_insert_ne.
Qed.

(** Only the word of byte 1 can differ from what [kmalloc] left. *)
Lemma kzmalloc_one_word fuel k m sz a m' :
  kzmalloc fuel k m sz = Ret (a, m') →
  ∃ m1, kmalloc fuel k m (align_value sz 3) = Ret (a, m1) ∧
        ∀ b, b ≠ align_down (a + 1) 3 → m' !! b = m1 !! b.
Proof.
  unfold kzmalloc. intros ([a1 m1] & Hk & (m2 & Hs & [= <- <-])%obind_Ret)%obind_Ret.
  exists m1. split; [done|]. by eapply store_byte_again_frame.
Qed.

(** ** The operators of C++ *)
Lemma operator_delete_kfree fuel k m ptr : operator_delete fuel k m ptr = kfree fuel k m ptr.
Proof. unfold operator_delete, kfree. by destruct (ptr =? 0). Qed.

Lemma sizes_app b cs ds : sizes b (cs ++ ds) = sizes b cs + sizes b ds.
Proof. induction cs as [|c cs IH]; [done|]. cbn [app]. rewrite !sizes_cons, IH. lia. Qed.

Lemma sizes_merge n : ∀ cs, (length cs ≤ n)%nat → sizes true (merge_pairs cs) = sizes true cs.
Proof.
  induction n as [|n IH]; intros [|c1 [|c2 cs]] Hn; simpl in Hn; try lia; try done.
  cbn [merge_pairs]. destruct (negb (c_taken c1) && negb (c_taken c2)) eqn:Hb.
  - apply andb_true_iff in Hb as [H1%negb_true_iff H2%negb_true_iff]. rewrite !sizes_cons, IH by lia.
    cbn [c_taken]. by rewrite H1, H2.
  - change (sizes true (c1 :: merge_pairs (c2 :: cs)) = sizes true (c1 :: c2 :: cs)).
    by rewrite sizes_cons, IH, (sizes_cons _ c1) by (simpl; lia).
Qed.

(** Deleting what was just made leaves as much taken as before. *)
Lemma new_and_delete k m cs sz off cs' fuel :
  heap k m cs → 1 ≤ sz < 2 ^ 62 → alloc_chunks cs (request_size sz) = Some (off, cs') → (S (length cs) < fuel)%nat →
  ∃ p m1 m2 ds, operator_new fuel k m sz = Ret (p, m1) ∧ operator_delete fuel k m1 p = Ret m2 ∧
    heap k m2 ds ∧ sizes true ds = sizes true cs ∧ total ds = total cs.
Proof.
  intros Hh Hsz Hfit Hfuel. destruct (kmalloc_fit k m cs sz off cs' fuel) as (m1 & Hk & Hh1 & _); [done..|lia|].
  pose proof Hfit as (xs & c & ys & -> & -> & Hf & ->)%alloc_chunks_split.
  apply andb_true_iff in Hf as [Hfree%negb_true_iff _].
  assert (∃ c' zs, split_chunk c (request_size sz) = c' :: zs ∧ sizes true zs = 0 ∧ (length zs ≤ 1)%nat ∧
    c_size c' + total zs = c_size c) as (c' & zs & Hs & Hz & Hl & Ht).
  { unfold split_chunk. destruct (8 <? _); eexists _, _; (split; [done|]); simpl; split_and!; try done; lia. }
  rewrite Hs in *. cbn [app] in Hh1. assert (Forall chunk_ok xs) as Hxs.
  { pose proof (tiles_ok _ _ _ _ (heap_tiles _ _ _ Hh)) as Hok. by apply Forall_app in Hok as [Hok _]. }
  destruct (kfree_chunk k m1 (xs ++ c' :: zs ++ ys) (m_head k + total xs) c' fuel) as (m2 & Hd & Hh2 & _);
    [done|by eexists _, _|rewrite length_app in *; simpl in *; rewrite length_app; lia|].
  replace (m_head k + total xs - m_head k) with (total xs) in Hh2 by lia. rewrite free_chunk_app in Hh2 by done.
  eexists _, m1, m2, _. split; [exact Hk|]. rewrite operator_delete_kfree. split; [exact Hd|]. split; [exact Hh2|].
  rewrite (sizes_merge _ _ (le_n _)), (total_merge _ _ (le_n _)), !total_app. cbn [total foldr].
  rewrite !sizes_app, !sizes_cons, !sizes_app, Hz, Hfree. cbn [c_taken c_size]. split; [by rewrite !bool_decide_false|].
  fold (total (zs ++ ys)) (total ys). rewrite total_app. lia.
Qed.

(** The chunk that [kmalloc] takes is not one of the client's. *)
Lemma fit_not_held k m cs live size off cs' :
  heap_client k m cs live → alloc_chunks cs size = Some (off, cs') → live !! (m_head k + off + 8) = None.
Proof.
  intros [Hh Hb _] Hfit. apply alloc_chunks_split in Hfit as (xs & d & ys & Heq & -> & Hf & _).
  apply andb_true_iff in Hf as [Hfree%negb_true_iff _]. apply eq_None_not_Some. intros [sz Hsz].
  destruct (Hb _ _ Hsz) as (_ & c & Hc & Hct & _). replace (m_head k + total xs + 8 - 8) with (m_head k + total xs) in Hc by lia.
  assert (chunk_at (m_head k) cs (m_head k + total xs) d) as Hd by by exists xs, ys.
  assert (c = d) as -> by (eapply chunk_at_unique; [exact (tiles_ok _ _ _ _ (heap_tiles _ _ _ Hh))|exact Hc|exact Hd]). congruence.
Qed.

(** A request that fits nowhere is searched for behind the heap. *)
Lemma kmalloc_leaves k m cs sz fuel :
  heap k m cs → 1 ≤ sz < 2 ^ 62 → alloc_chunks cs (request_size sz) = None →
  kmalloc (length cs + fuel) k m sz =
    kmalloc_loop fuel m (m_head k + m_total_size k) (m_head k + 8 * m_total_size k) (request_size sz).
Proof.
  intros Hh Hsz Hfit. destruct (heap_head_bounds _ _ _ Hh) as (Hp & He & Htail & _).
  destruct (request_size_spec sz Hsz) as (_ & _ & _ & Heq). destruct Hh as [Ht _ _ _ H8h Hpos Hhi].
  unfold kmalloc. rewrite (proj2 (Z.eqb_neq sz 0)), Htail, Heq by lia.
  apply (kmalloc_loop_none cs m _ (m_head k + m_total_size k)); done || lia.
Qed.

(** * Properties *)

(** C3: [kmalloc] is first fit: when some chunk fits the rounded request, the
    lowest one that does is taken, and split when more than a header is left;
    the address behind its header is returned and no word changes but the
    header of the chunk and that of its remainder. *)
Theorem kmalloc_first_fit k m cs sz off cs' fuel :
  heap k m cs → 1 ≤ sz < 2 ^ 62 → alloc_chunks cs (request_size sz) = Some (off, cs') →
  (length cs ≤ fuel)%nat →
  ∃ m', kmalloc fuel k m sz = Ret (m_head k + off + 8, m') ∧ heap k m' cs' ∧
    (∀ a, a ≠ m_head k + off → a ≠ m_head k + off + request_size sz → m' !! a = m !! a).
Proof. apply kmalloc_fit. Qed.

(** C4: whatever sequence of allocations that fit, of frees of its own blocks
    and of byte stores into its own blocks a client performs on a new heap, its
    blocks are 8-byte aligned, lie inside the heap, do not overlap, and can be freed.
    At any time, a further request either fits and gets a block that is not held
    yet, or fits nowhere: then the search has not ended when it reaches the end of
    the heap, and goes on in the words behind it. *)
Theorem heap_clients_safe mm m i k mm' m0 m' live :
  wf_manager mm → first_fit (m_pages mm) 64 i → word_aligned (page_address mm i) = true →
  page_address mm i < 2 ^ 62 → area m (page_address mm i) (page_address mm i + 262144) → mem_words m →
  KernelMemoryAllocator_new mm m = Ret (k, mm', m0) → rtc (heap_step k) (m0, ∅) (m', live) →
  (∀ a sz, live !! a = Some sz →
     (8 | a) ∧ m_head k + 8 ≤ a ∧ a + sz ≤ m_head k + m_total_size k ∧
     ∃ fuel m'', kfree fuel k m' a = Ret m'') ∧
  (∀ a sz a' sz', live !! a = Some sz → live !! a' = Some sz' → a ≠ a' →
     a + sz ≤ a' ∨ a' + sz' ≤ a) ∧
  (∃ n, ∀ sz, 1 ≤ sz < 2 ^ 62 →
     (∃ a, live !! a = None ∧ ∀ fuel, (n ≤ fuel)%nat → ∃ m'', kmalloc fuel k m' sz = Ret (a, m'') ∧ heap_step k (m', live) (m'', <[a := sz]> live)) ∨
     (∀ fuel, kmalloc (n + fuel) k m' sz =
        kmalloc_loop fuel m' (m_head k + m_total_size k) (m_head k + 8 * m_total_size k) (request_size sz))).
Proof.
  intros Hwf Hfit Hal Hhi Har Hw Hnew Hsteps.
  destruct (new_heap mm m i) as (k1 & mm1 & m1 & Hnew' & _ & _ & Hh0); [done..|].
  rewrite Hnew in Hnew'. injection Hnew' as <- <- <-.
  pose proof (client_heap_start _ _ _ Hh0) as Hc0.
  destruct (heap_client_steps _ _ _ Hsteps _ Hc0) as [cs Hcl]. cbn [fst snd] in Hcl. pose proof Hcl as [Hh Hb _].
  pose proof (heap_tiles _ _ _ Hh) as Ht. split_and!.
  - intros a sz Ha. destruct (Hb _ _ Ha) as (Hsz & c & Hc & _ & Hle).
    pose proof (chunk_at_aligned _ _ _ _ _ _ Ht Hc (heap_aligned _ _ _ Hh)) as [j Hj].
    pose proof (chunk_at_header _ _ _ _ _ _ Ht Hc) as (_ & _ & ? & ?).
    split; [by exists (j + 1); lia|]. split; [lia|]. split; [lia|]. exists (S (length cs)).
    destruct (kfree_chunk _ _ _ _ _ (S (length cs)) Hh Hc) as (m'' & Hk & _); [lia|].
    exists m''. by replace a with (a - 8 + 8) by lia.
  - intros a sz a' sz' Ha Ha' Hne. destruct (Hb _ _ Ha) as (_ & c & Hc & _ & ?).
    destruct (Hb _ _ Ha') as (_ & c' & Hc' & _ & ?).
    destruct (chunk_at_disjoint _ _ _ _ _ _ (tiles_ok _ _ _ _ Ht) Hc Hc') as [[]|[]]; lia.
  - exists (length cs). intros sz Hsz. destruct (alloc_chunks cs (request_size sz)) as [[off cs']|] eqn:Hfits.
    + left. exists (m_head k + off + 8). split; [exact (fit_not_held _ _ _ _ _ _ _ Hcl Hfits)|]. intros fuel Hfuel.
      destruct (kmalloc_fit _ _ _ _ _ _ fuel Hh Hsz Hfits Hfuel) as (m'' & Hk & _). exists m''. split; [done|].
      by eapply step_kmalloc.
    + right. intros fuel. by apply kmalloc_leaves.
Qed.

(** C5: [kmalloc] and [kfree] keep the contents of every other block. *)
Theorem heap_keeps_contents k m cs live a sz b :
  heap_client k m cs live → live !! a = Some sz → (8 | b) → a ≤ b < a + sz →
  (∀ req off cs' fuel p m', 1 ≤ req < 2 ^ 62 → alloc_chunks cs (request_size req) = Some (off, cs') →
     (length cs ≤ fuel)%nat → kmalloc fuel k m req = Ret (p, m') → m' !! b = m !! b) ∧
  (∀ a' sz' fuel m', live !! a' = Some sz' → a' ≠ a → (length cs < fuel)%nat →
     kfree fuel k m a' = Ret m' → m' !! b = m !! b).
Proof.
  intros [Hh Hb Htk] Ha H8 Hab. destruct (Hb _ _ Ha) as (Hsz & c & Hc & Hct & Hle).
  pose proof (tiles_ok _ _ _ _ (heap_tiles _ _ _ Hh)) as Hok.
  assert (∀ d, ¬ chunk_at (m_head k) cs b d) as Hnot
    by (intros d; apply (payload_not_header _ _ _ _ _ _ _ Hh Hc); lia). split.
  - intros req off cs' fuel p m' Hreq Hfit Hfuel Hk.
    destruct (kmalloc_fit _ _ _ _ _ _ fuel Hh Hreq Hfit Hfuel) as (m1 & Hk1 & _ & Hframe).
    rewrite Hk in Hk1. injection Hk1 as -> ->.
    apply alloc_chunks_split in Hfit as (xs & d & ys & Heq & -> & Hf & _).
    apply andb_true_iff in Hf as [Hfree%negb_true_iff Hfs%Z.leb_le].
    assert (chunk_at (m_head k) cs (m_head k + total xs) d) as Hd by by exists xs, ys.
    destruct (request_size_spec req Hreq) as (? & _).
    destruct (chunk_at_disjoint _ _ _ _ _ _ Hok Hc Hd) as [[_ <-]|Hdis]; [congruence|].
    apply Hframe; [intros ->; by eapply Hnot|]. intros Hbe.
    destruct (decide (request_size req = c_size d)) as [He|]; [|lia].
    destruct ys as [|d' ys].
    + pose proof (chunk_at_header _ _ _ _ _ _ (heap_tiles _ _ _ Hh) Hc) as (_ & _ & _ & Hend).
      pose proof (tiles_end _ _ _ _ (heap_tiles _ _ _ Hh)) as Htot. rewrite Heq, total_app in Htot.
      unfold total in *. simpl in *. lia.
    + apply (Hnot d'). exists (xs ++ [d]), ys. rewrite <- app_assoc, total_app. split; [done|].
      unfold total in *. simpl. lia.
  - intros a' sz' fuel m' Ha' Hne Hfuel Hk. destruct (Hb _ _ Ha') as (_ & c' & Hc' & _).
    destruct (kfree_chunk _ _ _ _ _ fuel Hh Hc' Hfuel) as (m1 & Hk1 & _ & Hframe).
    replace (a' - 8 + 8) with a' in Hk1 by lia. rewrite Hk in Hk1. injection Hk1 as ->.
    apply Hframe; [intros ->; by eapply Hnot|]. intros d Hd. by destruct (Hnot d).
Qed.

(** When no chunk fits, the search does not stop at the end of the heap (the
    end it computes is eight times as far): it goes on in the word behind the
    heap.  If that is no memory the behaviour is undefined, and if it holds 0
    the search never returns, whatever the number of iterations. *)
Theorem kmalloc_exhausted k m cs sz :
  heap k m cs → 1 ≤ sz < 2 ^ 62 → alloc_chunks cs (request_size sz) = None →
  (m !! (m_head k + m_total_size k) = None →
     ∀ fuel, (length cs < fuel)%nat → kmalloc fuel k m sz = Undef) ∧
  (m !! (m_head k + m_total_size k) = Some 0 → ∀ fuel, kmalloc fuel k m sz = NoFuel).
Proof.
  intros Hh Hsz Hfit. destruct (heap_head_bounds _ _ _ Hh) as (Hp & He & Htail & _).
  destruct (request_size_spec sz Hsz) as (H16 & H8 & _ & Heq). destruct Hh as [Ht _ _ _ H8h Hpos Hhi].
  unfold kmalloc. rewrite (proj2 (Z.eqb_neq sz 0)), Htail, Heq by lia.
  assert (8 | m_head k + m_total_size k) as He8.
  { rewrite (tiles_end _ _ _ _ Ht). apply Z.divide_add_r; [done|].
    pose proof (tiles_ok _ _ _ _ Ht) as Hok. clear -Hok.
    induction Hok as [|c cs [_ ?] _ IH]; [by exists 0|]. by apply Z.divide_add_r. }
  split; intros Hend fuel.
  - intros Hfuel. replace fuel with (length cs + S (fuel - length cs - 1))%nat by lia.
    rewrite (kmalloc_loop_none cs m _ (m_head k + m_total_size k)) by (done || lia).
    cbn [kmalloc_loop]. rewrite (proj2 (Z.ltb_lt _ _)) by lia. unfold read64.
    rewrite (proj2 (word_aligned_iff _)) by done. by rewrite Hend.
  - destruct (decide (fuel ≤ length cs)%nat) as [Hle|Hgt].
    + eapply kmalloc_loop_short; try done; lia.
    + replace fuel with (length cs + (fuel - length cs))%nat by lia.
      rewrite (kmalloc_loop_none cs m _ (m_head k + m_total_size k)) by (done || lia).
      apply kmalloc_loop_stuck; try done; [unfold in_word|..]; lia.
Qed.

(** The statistics are the sums of the sizes of the taken and of the free
    chunks and add up to the size of the heap, and [is_in_freed_memory] holds
    exactly for the addresses of the free chunks; both walks terminate. *)
Theorem heap_reports k m cs fuel a :
  heap k m cs → (length cs < fuel)%nat →
  heap_statistics fuel k m = Ret (mkHeapStatistics (m_total_size k) (sizes false cs) (sizes true cs)) ∧
  sizes true cs + sizes false cs = m_total_size k ∧
  ∃ b, is_in_freed_memory fuel k m a = Ret b ∧
    (b = true ↔ ∃ x c, chunk_at (m_head k) cs x c ∧ c_taken c = false ∧ x ≤ a < x + c_size c).
Proof.
  intros Hh Hfuel. destruct (heap_head_bounds _ _ _ Hh) as (Hp & He & _ & Htail).
  destruct Hh as [Ht _ _ _ H8h Hpos Hhi]. pose proof (tiles_end _ _ _ _ Ht).
  unfold heap_statistics, is_in_freed_memory. rewrite Htail. split; [|split].
  - rewrite (statistics_loop_spec cs) by (done || lia). done.
  - rewrite sizes_total. lia.
  - by apply freed_loop_spec.
Qed.

(** ** Witnesses *)
Definition sample_heap_words : memory :=
  <[4096 := header (mkChunk 64 false)]> (zero_page_memory 4096 0 8).

Definition sample_kma : KernelMemoryAllocator := mkKMA 4096 64 0.

Lemma zero_page_memory_area a n : (8 | a) → area (zero_page_memory a 0 n) a (a + 8 * Z.of_nat n).
Proof.
  intros [j ->] b Hb [i ->].
  destruct (zero_page_memory_mapped (j * 8) 0 n) as [_ Hm].
  { apply word_aligned_iff. by exists j. }
  specialize (Hm (Z.to_nat (i - j)) ltac:(lia)).
  by replace (j * 8 + 8 * Z.of_nat (Z.to_nat (i - j))) with (i * 8) in Hm by lia.
Qed.

Lemma zero_page_memory_words a n : mem_words (zero_page_memory a 0 n).
Proof.
  intros b v Hv. apply elem_of_list_to_map_2, list_elem_of_fmap in Hv as (x & [= _ ->] & _). done.
Qed.

Lemma sample_is_heap : heap sample_kma sample_heap_words [mkChunk 64 false].
Proof.
  constructor; simpl; try done.
  - split; [apply lookup_insert_eq|]. split; [|done]. split; [done|by exists 8].
  - apply area_insert. apply (zero_page_memory_area 4096 8). by exists 512.
  - apply mem_words_insert; [apply zero_page_memory_words|apply header_word].
  - by exists 512.
Qed.

Lemma kmalloc_first_fit_witness :
  ∃ m', kmalloc 1 sample_kma sample_heap_words 20 = Ret (4104, m') ∧
        heap sample_kma m' [mkChunk 32 true; mkChunk 32 false].
Proof.
  destruct (kmalloc_first_fit sample_kma sample_heap_words [mkChunk 64 false] 20 0
              [mkChunk 32 true; mkChunk 32 false] 1 sample_is_heap ltac:(lia) ltac:(by vm_compute)
              ltac:(simpl; lia)) as (m' & Hk & Hh & _).
  by exists m'.
Defined.

Definition big_manager : MemoryManager := sample_manager (Last :: replicate 65 Free).

Lemma big_fit : first_fit (m_pages big_manager) 64 1.
Proof.
  split; [by apply (bool_decide_unpack _)|]. intros [|i] Hi; [|lia].
  by apply (bool_decide_unpack _).
Qed.

Lemma heap_clients_safe_witness :
  ∃ k mm' m0 m',
    KernelMemoryAllocator_new big_manager (zero_page_memory 2147491840 0 (64 * 512)) = Ret (k, mm', m0) ∧
    heap_step k (m0, ∅) (m', {[2147491848 := 100]}) ∧ (8 | 2147491848).
Proof.
  assert (wf_manager big_manager) as Hwf by by constructor.
  pose proof (zero_page_memory_area 2147491840 (64 * 512) ltac:(by exists 268436480)) as Har.
  pose proof (zero_page_memory_words 2147491840 (64 * 512)) as Hw.
  destruct (new_heap big_manager (zero_page_memory 2147491840 0 (64 * 512)) 1 Hwf big_fit eq_refl
              ltac:(done) Har Hw) as (k & mm' & m0 & Hnew & Hk & _ & Hh).
  destruct (kmalloc_fit k m0 [mkChunk 262144 false] 100 0 [mkChunk 112 true; mkChunk 262032 false] 1 Hh ltac:(lia)
              ltac:(by vm_compute) ltac:(simpl; lia)) as (m' & Hkm & _).
  rewrite Hk in Hkm. change (page_address big_manager 1 + 0 + 8) with 2147491848 in Hkm.
  assert (heap_step k (m0, ∅) (m', {[2147491848 := 100]})) as Hstep.
  { eapply (step_kmalloc k m0 ∅ [mkChunk 262144 false] 100); [exact Hh|lia|by vm_compute| |exact Hkm]. simpl; lia. }
  exists k, mm', m0, m'. split; [done|]. split; [done|].
  apply (proj1 (heap_clients_safe big_manager _ 1 k mm' m0 m' _ Hwf big_fit eq_refl ltac:(done) Har Hw
                  Hnew (rtc_once _ _ Hstep)) 2147491848 100 (lookup_singleton_eq _ _)).
Defined.

(** A heap of two taken chunks, both held by a client. *)
Definition full_chunks : list chunk := [mkChunk 32 true; mkChunk 32 true].

Definition full_heap_words : memory :=
  <[4096 := header (mkChunk 32 true)]> (<[4128 := header (mkChunk 32 true)]> (zero_page_memory 4096 0 8)).

Lemma full_is_heap_client :
  heap_client sample_kma full_heap_words full_chunks (<[4104 := 20]> {[4136 := 24]}).
Proof.
  assert (heap sample_kma full_heap_words full_chunks) as Hh.
  { unfold full_heap_words. constructor; simpl; try done.
    - split; [apply lookup_insert_eq|]. split; [by split; [|exists 4]|].
      split; [by rewrite lookup_insert_ne, lookup_insert_eq|]. split; [by split; [|exists 4]|done].
    - do 2 apply area_insert. apply (zero_page_memory_area 4096 8). by exists 512.
    - do 2 (apply mem_words_insert; [|apply header_word]). apply zero_page_memory_words.
    - by exists 512. }
  constructor; [done|..].
  - intros a sz. rewrite lookup_insert_Some, lookup_singleton_Some.
    intros [[<- <-]|[_ [<- <-]]]; (split; [lia|]); exists (mkChunk 32 true); (split; [|done]).
    + by exists [], [mkChunk 32 true].
    + by exists [mkChunk 32 true], [].
  - intros a c [[-> ->]|[[-> ->]|([|] & ? & [=] & _)]%chunk_at_cons_inv]%chunk_at_cons_inv _;
      simpl; [by rewrite lookup_insert_eq|by rewrite lookup_insert_ne, lookup_singleton_eq].
Qed.

Lemma heap_keeps_contents_witness :
  ∃ m', kfree 3 sample_kma full_heap_words 4136 = Ret m' ∧ m' !! 4112 = full_heap_words !! 4112.
Proof.
  destruct (kfree_chunk sample_kma full_heap_words full_chunks 4128 (mkChunk 32 true) 3
    (client_heap _ _ _ _ full_is_heap_client) ltac:(by exists [mkChunk 32 true], []) ltac:(simpl; lia))
    as (m' & Hk & _).
  exists m'. split; [exact Hk|].
  apply (proj2 (heap_keeps_contents sample_kma full_heap_words full_chunks _ 4104 20 4112
    full_is_heap_client ltac:(by rewrite lookup_insert_eq) ltac:(by exists 514) ltac:(lia))
    4136 24 3%nat m'); [by rewrite lookup_insert_ne, lookup_singleton_eq|lia|simpl; lia|exact Hk].
Defined.

Lemma kmalloc_exhausted_witness : kmalloc 100 sample_kma full_heap_words 8 = Undef.
Proof.
  apply (proj1 (kmalloc_exhausted sample_kma full_heap_words full_chunks 8
    (client_heap _ _ _ _ full_is_heap_client) ltac:(lia) ltac:(by vm_compute))); [by vm_compute|simpl; lia].
Defined.

Lemma heap_reports_witness :
  heap_statistics 2 sample_kma sample_heap_words = Ret (mkHeapStatistics 64 64 0).
Proof.
  apply (heap_reports sample_kma sample_heap_words [mkChunk 64 false] 2 4100 sample_is_heap).
  simpl. lia.
Defined.
