(* ===== verification/Paging.v ===== *)
(** Sv39 page tables: [PageTable], [PageTableEntry], [VirtualAddress],
    [PhysicalAddress], [SATP] and the mapping part of [MemoryManager].

    A page table is a page of 512 words of the physical memory.  [map] walks
    three levels and allocates the missing tables, [translate] is the walk of
    the hardware done in software.  The tables reachable from a root form a
    tree, given by the address of the table at each path of indices; under that
    invariant [map] is insertion and [translate] is lookup. *)
From S2P Require Import Prelude Bits Machine PageAllocator.

(** * [struct VirtualAddress] and [struct PhysicalAddress] *)
Definition va_offset (v : Z) : Z := bf_get 0 12 v.
Definition vpn0 (v : Z) : Z := bf_get 12 9 v.
Definition vpn1 (v : Z) : Z := bf_get 21 9 v.
Definition vpn2 (v : Z) : Z := bf_get 30 9 v.

Definition pa_ppn0 (a : Z) : Z := bf_get 12 9 a.
Definition pa_ppn1 (a : Z) : Z := bf_get 21 9 a.
Definition pa_ppn2 (a : Z) : Z := bf_get 30 26 a.

(** * [struct PageTableEntry] *)
Definition pte_valid (e : Z) : bool := bf_get 0 1 e =? 1.
Definition is_leaf (e : Z) : bool :=
  negb (bf_get 1 1 e =? 0) || negb (bf_get 2 1 e =? 0) || negb (bf_get 3 1 e =? 0).
Definition set_bits (bits e : Z) : Z := Z.lor e bits.
Definition get_ppn (e : Z) : Z := u64 (Z.shiftl (Z.ldiff e 511) 2).

(** The three members of the physical page number, assigned from an address. *)
Definition set_ppn (a e : Z) : Z :=
  bf_set 28 26 (pa_ppn2 a) (bf_set 19 9 (pa_ppn1 a) (bf_set 10 9 (pa_ppn0 a) e)).

(** [enum class EntryBits]. *)
Definition VALID : Z := Z.shiftl 1 0.
Definition READ : Z := Z.shiftl 1 1.
Definition WRITE : Z := Z.shiftl 1 2.
Definition EXECUTE : Z := Z.shiftl 1 3.
Definition USER : Z := Z.shiftl 1 4.
Definition READ_WRITE : Z := Z.lor (Z.lor VALID READ) WRITE.
Definition READ_EXECUTE : Z := Z.lor (Z.lor VALID READ) EXECUTE.
Definition READ_WRITE_EXECUTE : Z := Z.lor (Z.lor (Z.lor VALID READ) WRITE) EXECUTE.
Definition USER_READ : Z := Z.lor (Z.lor VALID READ) USER.
Definition USER_READ_WRITE : Z := Z.lor (Z.lor (Z.lor VALID READ) WRITE) USER.
Definition USER_READ_EXECUTE : Z := Z.lor (Z.lor (Z.lor VALID READ) EXECUTE) USER.

(** [&table->m_entries[i]]. *)
Definition entry_address (table i : Z) : Z := u64 (table + 8 * i).

(** * [MemoryManager::map] *)

(** A missing table: a cleared page, made the target of the entry [v]. *)
Definition add_table (mm : MemoryManager) (m : memory) (v : Z) : outcome (MemoryManager * memory) :=
  let! r := zalloc mm m 1 in
  let '(page, mm', m') := r in
  let! m'' := update64 m' v (λ e, set_ppn page (bf_set 0 1 1 e)) in
  Ret (mm', m'').

(** One iteration of [for(int i = 1; i >= level; i--)]. *)
Definition next_table (mm : MemoryManager) (m : memory) (v index : Z) :
    outcome (Z * MemoryManager * memory) :=
  let! e := read64 m v in
  let! r := if pte_valid e then Ret (mm, m) else add_table mm m v in
  let '(mm', m') := r in
  let! e' := read64 m' v in
  Ret (entry_address (get_ppn e') index, mm', m').

Fixpoint descend (mm : MemoryManager) (m : memory) (v vaddr i : Z) (n : nat) :
    outcome (Z * MemoryManager * memory) :=
  match n with
  | O => Ret (v, mm, m)
  | S n' =>
      let! r := next_table mm m v (if i =? 0 then vpn0 vaddr else vpn1 vaddr) in
      let '(v', mm', m') := r in
      descend mm' m' v' vaddr (i - 1) n'
  end.

Definition map_entry (paddr bits e : Z) : Z :=
  set_bits bits (set_ppn paddr (bf_set 0 1 1 (bf_set 7 1 1 (bf_set 6 1 1 e)))).

Definition map (mm : MemoryManager) (m : memory) (root vaddr paddr bits level : Z) :
    outcome (MemoryManager * memory) :=
  let! r := descend mm m (entry_address root (vpn2 vaddr)) vaddr 1 (Z.to_nat (2 - level)) in
  let '(v, mm', m') := r in
  let! m'' := update64 m' v (map_entry paddr bits) in
  Ret (mm', m'').

(** [MemoryManager::map_range] and [identity_map_range]: the loop over the pages. *)
Fixpoint map_pages (mm : MemoryManager) (m : memory) (root vaddr paddr bits : Z) (n : nat) :
    outcome (MemoryManager * memory) :=
  match n with
  | O => Ret (mm, m)
  | S n' =>
      let! r := map mm m root vaddr paddr bits 0 in
      let '(mm', m') := r in
      map_pages mm' m' root (u64 (vaddr + Z.shiftl 1 12)) (u64 (paddr + Z.shiftl 1 12)) bits n'
  end.

Definition map_range (mm : MemoryManager) (m : memory) (root virtual_start virtual_end physical_start bits : Z) :
    outcome (MemoryManager * memory) :=
  let virtual_memory_address := Z.ldiff virtual_start (PAGE_SIZE - 1) in
  let physical_memory_address := Z.ldiff physical_start (PAGE_SIZE - 1) in
  let number_of_pages := u64 (align_value virtual_end 12 - virtual_memory_address) / PAGE_SIZE in
  map_pages mm m root virtual_memory_address physical_memory_address bits (Z.to_nat number_of_pages).

Definition identity_map_range (mm : MemoryManager) (m : memory) (root start end_ bits : Z) :
    outcome (MemoryManager * memory) :=
  let memAddr := Z.ldiff start (PAGE_SIZE - 1) in
  let numKbPages := u64 (align_value end_ 12 - memAddr) / PAGE_SIZE in
  map_pages mm m root memAddr memAddr bits (Z.to_nat numKbPages).

(** * [PageTable::translate] *)
Definition translate (m : memory) (root address : Z) : outcome (ErrorOr Z Error) :=
  let! entry := read64 m (entry_address root (vpn2 address)) in
  if negb (pte_valid entry) then Ret (fail_with "First entry is not valid")
  else if is_leaf entry then Ret (Value (Z.lor (get_ppn entry) (va_offset address)))
  else
    let! entry := read64 m (entry_address (get_ppn entry) (vpn1 address)) in
    if negb (pte_valid entry) then Ret (fail_with "Second entry is not valid")
    else if is_leaf entry then Ret (Value (Z.lor (get_ppn entry) (va_offset address)))
    else
      let! entry := read64 m (entry_address (get_ppn entry) (vpn0 address)) in
      if negb (pte_valid entry) then Ret (fail_with "Third entry is not valid")
      else Ret (Value (Z.lor (get_ppn entry) (va_offset address))).

(** [MemoryManager::get_current_root_page_table] on the value of the satp register. *)
Definition root_of_satp (satp : Z) : Z := u64 (Z.shiftl (bf_get 0 44 satp) 12).

(** * Specification: a tree of tables *)

(** The table at each path: [[]] is the root, [[v2]] a second-level table and
    [[v2; v1]] a table of leaf entries. *)
Abbreviation tables := (gmap (list Z) Z).

Definition index_ok (v : Z) : Prop := 0 ≤ v < 512.

Definition table_ok (m : memory) (a : Z) : Prop :=
  (4096 | a) ∧ 0 < a < 2 ^ 56 ∧ mapped m a 512.

(** What [map] writes into leaf tables: no reserved bit and no upper RSW bit. *)
Definition clean (e : Z) : Prop := in_word 54 e ∧ Z.testbit e 9 = false.

Definition leaf_ok (e : Z) : Prop := clean e ∧ (pte_valid e = true ∨ e = 0).

Record tree (m : memory) (root : Z) (t : tables) : Prop := {
  tree_root : t !! [] = Some root;
  tree_inj : ∀ p q a, t !! p = Some a → t !! q = Some a → p = q;
  tree_ok : ∀ p a, t !! p = Some a → table_ok m a;
  tree_parent : ∀ p v a, t !! (p ++ [v]) = Some a →
    (length p ≤ 1)%nat ∧ index_ok v ∧ is_Some (t !! p);
  tree_child : ∀ p v a, t !! p = Some a → (length p ≤ 1)%nat → index_ok v →
    ∃ e, m !! (a + 8 * v) = Some e ∧
      match t !! (p ++ [v]) with
      | Some b => pte_valid e = true ∧ is_leaf e = false ∧ get_ppn e = b
      | None => e = 0
      end;
  tree_leaf : ∀ p v a, t !! p = Some a → (length p = 2)%nat → index_ok v →
    ∃ e, m !! (a + 8 * v) = Some e ∧ leaf_ok e
}.

(** The page allocator and the tree do not meet: free pages are memory, are
    page aligned, have addresses a page number can hold, and are no tables. *)
Record free_pages_ok (mm : MemoryManager) (m : memory) (t : tables) : Prop := {
  free_wf : wf_manager mm;
  free_aligned : (4096 | m_alloc_start mm);
  free_high : m_alloc_start mm + PAGE_SIZE * m_number_of_pages mm < 2 ^ 56;
  free_table : ∀ i, m_pages mm !! i = Some Free → table_ok m (page_address mm i);
  free_apart : ∀ i p, m_pages mm !! i = Some Free → t !! p ≠ Some (page_address mm i)
}.

Definition count_free (mm : MemoryManager) : nat := length (filter (λ s, s = Free) (m_pages mm)).

(** The valid entry a tree holds for the page of a virtual address. *)
Definition leaf_entry (m : memory) (t : tables) (vaddr : Z) : option Z :=
  a ← t !! [vpn2 vaddr; vpn1 vaddr]; m !! (a + 8 * vpn0 vaddr).

Definition mapping (m : memory) (t : tables) (vaddr : Z) : option Z :=
  e ← leaf_entry m t vaddr; if pte_valid e then Some e else None.

(** The page number of a virtual address, as the hardware cuts it. *)
Definition same_page (v v' : Z) : Prop :=
  vpn2 v = vpn2 v' ∧ vpn1 v = vpn1 v' ∧ vpn0 v = vpn0 v'.

#[global] Instance same_page_dec v v' : Decision (same_page v v').
Proof. unfold same_page. apply _. Defined.

(** * Entries *)
Lemma vpn_ok v : index_ok (vpn0 v) ∧ index_ok (vpn1 v) ∧ index_ok (vpn2 v).
Proof. unfold index_ok, vpn0, vpn1, vpn2. pose proof (bf_get_bound 12 9 v). pose proof (bf_get_bound 21 9 v). pose proof (bf_get_bound 30 9 v). unfold in_word in *. lia. Qed.

Lemma vpn0_ok v : index_ok (vpn0 v).
Proof. exact (proj1 (vpn_ok v)). Qed.

Lemma in_word_high w x i : 0 ≤ w → in_word w x → w ≤ i → Z.testbit x i = false.
Proof. intros ? [_ H]%in_word_bits ?; [by apply H|done]. Qed.

Lemma get_ppn_bit e i : 0 ≤ i →
  Z.testbit (get_ppn e) i = bool_decide (11 ≤ i < 64) && Z.testbit e (i - 2).
Proof.
  intros Hi. unfold get_ppn. change 511 with (Z.ones 9).
  rewrite wrap_testbit, Z.shiftl_spec, Z.ldiff_spec by lia.
  destruct (decide (2 ≤ i)).
  - rewrite Z.testbit_ones by lia. split_cmp; rewrite ?andb_true_r, ?andb_false_r; done.
  - rewrite (Z.testbit_neg_r _ (i - 2)) by lia. by rewrite !andb_false_r.
Qed.
#[export] Hint Rewrite get_ppn_bit using lia : bits.

Lemma get_ppn_set_ppn a e : in_word 56 a → clean e → get_ppn (set_ppn a e) = align_down a 12.
Proof.
  intros Ha [He H9]. unfold set_ppn, pa_ppn0, pa_ppn1, pa_ppn2, align_down.
  apply Z.bits_inj'. intros i Hi. rewrite get_ppn_bit, Z.ldiff_spec, Z.testbit_ones by lia.
  destruct (decide (11 ≤ i < 64)) as [Hr|Hr].
  - rewrite bool_decide_true by lia. bits_auto.
    + by rewrite (in_word_high 54 e), (in_word_high 56 a) by (done || lia).
    + by replace (i - 2) with 9 by lia.
  - rewrite bool_decide_false by lia. bits_auto; by rewrite (in_word_high 56 a) by (done || lia).
Qed.

Lemma clean_set_bits lo w f e :
  0 ≤ lo → 0 ≤ w → lo + w ≤ 9 ∨ 10 ≤ lo → lo + w ≤ 54 → clean e → clean (bf_set lo w f e).
Proof.
  intros ???? [He H9]. split; [by apply bf_set_bound|]. rewrite bf_set_spec by lia. by split_cmp.
Qed.

Lemma clean_set_ppn a e : clean e → clean (set_ppn a e).
Proof. intros. unfold set_ppn. repeat (apply clean_set_bits; [lia..|]). done. Qed.

Lemma clean_lor bits e : in_word 9 bits → clean e → clean (set_bits bits e).
Proof.
  intros Hb [He H9]. split.
  - apply lor_bound; [done|done|]. unfold in_word in *. lia.
  - unfold set_bits. rewrite Z.lor_spec, H9. by apply (in_word_high 9).
Qed.

Lemma get_ppn_set_bits bits e : in_word 9 bits → get_ppn (set_bits bits e) = get_ppn e.
Proof.
  intros Hb. apply Z.bits_inj'. intros i Hi. rewrite !get_ppn_bit by done. unfold set_bits.
  case_bool_decide; simpl; [|done]. rewrite Z.lor_spec, (in_word_high 9 bits) by (done || lia).
  by rewrite orb_false_r.
Qed.

Lemma pte_valid_bit e : pte_valid e = Z.testbit e 0.
Proof.
  unfold pte_valid. assert (in_word 1 (bf_get 0 1 e)) as Hw by by apply bf_get_bound.
  assert (Z.testbit (bf_get 0 1 e) 0 = Z.testbit e 0) as <- by by rewrite bf_get_spec.
  assert (bf_get 0 1 e = 0 ∨ bf_get 0 1 e = 1) as [-> | ->] by (unfold in_word in Hw; lia); done.
Qed.

Lemma map_entry_ppn paddr bits e :
  in_word 56 paddr → in_word 9 bits → clean e → get_ppn (map_entry paddr bits e) = align_down paddr 12.
Proof.
  intros Hp Hb He. unfold map_entry. rewrite get_ppn_set_bits by done. apply get_ppn_set_ppn; [done|].
  repeat (apply clean_set_bits; [lia..|]). done.
Qed.

Lemma map_entry_ok paddr bits e :
  in_word 9 bits → clean e → pte_valid (map_entry paddr bits e) = true ∧ leaf_ok (map_entry paddr bits e).
Proof.
  intros Hb He. assert (pte_valid (map_entry paddr bits e) = true) as Hv.
  { rewrite pte_valid_bit. unfold map_entry, set_bits, set_ppn. autorewrite with bits. by split_cmp. }
  split; [done|]. split; [|by left]. unfold map_entry. apply clean_lor; [done|]. apply clean_set_ppn.
  repeat (apply clean_set_bits; [lia..|]). done.
Qed.

(** An entry that points to a fresh table. *)
Lemma table_entry a :
  in_word 56 a → (4096 | a) →
  let e := set_ppn a (bf_set 0 1 1 0) in
  pte_valid e = true ∧ is_leaf e = false ∧ get_ppn e = a ∧ in_word 64 e.
Proof.
  intros Ha Hal e. assert (clean (bf_set 0 1 1 0)) as Hc by by vm_compute.
  split; [|split; [|split]].
  - rewrite pte_valid_bit. unfold e, set_ppn. by autorewrite with bits.
  - unfold is_leaf, e, set_ppn. rewrite !bf_get_set_ne by lia. by vm_compute.
  - unfold e. rewrite get_ppn_set_ppn by done. unfold align_down. rewrite ldiff_ones by lia.
    destruct Hal as [q ->]. by rewrite Z.div_mul.
  - assert (clean e) as [He _] by by apply clean_set_ppn. unfold in_word in *. lia.
Qed.

(** * Slots of tables *)
Lemma slot_inj a b j k :
  (4096 | a) → (4096 | b) → index_ok j → index_ok k → a + 8 * j = b + 8 * k → a = b ∧ j = k.
Proof. intros [q ->] [r ->]. unfold index_ok. intros. assert (q = r) by lia. lia. Qed.

Lemma entry_address_small a v : 0 < a < 2 ^ 56 → index_ok v → entry_address a v = a + 8 * v.
Proof. intros. apply wrap_small. unfold index_ok, in_word in *. lia. Qed.

Lemma slot_aligned a v : (4096 | a) → (8 | a + 8 * v).
Proof. intros [q ->]. exists (512 * q + v). lia. Qed.

Lemma read_slot m a v e :
  table_ok m a → index_ok v → m !! (a + 8 * v) = Some e → read64 m (entry_address a v) = Ret e.
Proof.
  intros (Hal & Ha & _) Hv He. rewrite entry_address_small by done. apply read64_Ret.
  by rewrite word_aligned_iff; split; [apply slot_aligned|].
Qed.

Lemma update_slot m a v e f :
  table_ok m a → index_ok v → m !! (a + 8 * v) = Some e →
  update64 m (entry_address a v) f = Ret (<[a + 8 * v := u64 (f e)]> m).
Proof.
  intros (Hal & Ha & _) Hv He. rewrite entry_address_small by done.
  by rewrite (update64_Ret _ _ e) by (done || by apply slot_aligned).
Qed.

(** * Adding a table *)
Lemma count_free_first_fit mm : (1 ≤ count_free mm)%nat → ∃ i, first_fit (m_pages mm) 1 i.
Proof.
  intros Hc. apply first_fit_exists. unfold count_free in Hc.
  destruct (filter (λ s, s = Free) (m_pages mm)) as [|s l] eqn:Hf; [simpl in Hc; lia|].
  assert (s ∈ filter (λ s, s = Free) (m_pages mm)) as Hin by (rewrite Hf; by constructor).
  apply list_elem_of_filter in Hin as [-> [i Hi]%list_elem_of_lookup].
  exists i. intros k Hk. by replace (i + k)%nat with i by lia.
Qed.

Lemma count_free_insert t i :
  t !! i = Some Free → length (filter (λ s, s = Free) (<[i := Last]> t)) =
    (length (filter (λ s, s = Free) t) - 1)%nat ∧ (1 ≤ length (filter (λ s, s = Free) t))%nat.
Proof.
  revert i. induction t as [|s t IH]; intros i; [done|]. destruct i as [|i]; simpl.
  - intros [= ->]. rewrite !filter_cons. simpl. lia.
  - intros Hi. destruct (IH i Hi). rewrite !filter_cons. case_decide; simpl; lia.
Qed.

Section add_table.
Context (mm : MemoryManager) (m : memory) (root : Z) (t : tables).
Context (Htree : tree m root t) (Hfree : free_pages_ok mm m t).

Lemma free_page i :
  m_pages mm !! i = Some Free →
  in_word 56 (page_address mm i) ∧ (4096 | page_address mm i) ∧ table_ok m (page_address mm i).
Proof.
  intros Hi. pose proof (free_table _ _ _ Hfree i Hi) as Hok. split; [|split; [apply Hok|done]].
  destruct Hok as (_ & ? & _). unfold in_word. lia.
Qed.

Section added.
Context (p : list Z) (a v : Z) (i : nat) (m' : memory).
Context (Hp : t !! p = Some a) (Hlen : (length p ≤ 1)%nat) (Hv : index_ok v).
Context (Hnone : t !! (p ++ [v]) = None) (Hi : m_pages mm !! i = Some Free).
Context (Hzero : ∀ k : nat, (k < 512)%nat → m' !! (page_address mm i + 8 * Z.of_nat k) = Some 0).
Context (Hframe : ∀ b, b < page_address mm i ∨ page_address mm i + 4096 ≤ b → m' !! b = m !! b).
Context (Hmapped : ∀ b k, mapped m b k → mapped m' b k).

Let e := set_ppn (page_address mm i) (bf_set 0 1 1 0).

(** The new table is clear, and every slot but the one written is kept. *)
Lemma added_new j : index_ok j → (<[a + 8 * v := e]> m') !! (page_address mm i + 8 * j) = Some 0.
Proof using All.
  intros Hj. destruct (free_page i Hi) as (Hw & Hal & Hok). rewrite lookup_insert_ne.
  - unfold index_ok in Hj. rewrite <- (Hzero (Z.to_nat j)); [f_equal; lia|lia].
  - intros Heq. apply slot_inj in Heq as [-> _]; try done.
    + by destruct (free_apart _ _ _ Hfree i p).
    + by apply (tree_ok _ _ _ Htree _ _ Hp).
Qed.

Lemma added_keep q x j :
  t !! q = Some x → index_ok j → q ≠ p ∨ j ≠ v →
  (<[a + 8 * v := e]> m') !! (x + 8 * j) = m !! (x + 8 * j).
Proof using All.
  intros Hq Hj Hne. destruct (free_page i Hi) as (Hw & Hal & Hok).
  pose proof (tree_ok _ _ _ Htree _ _ Hq) as (Hx & _). rewrite lookup_insert_ne.
  - apply Hframe. destruct (decide (x = page_address mm i)) as [->|];
      [by destruct (free_apart _ _ _ Hfree i q)|].
    destruct Hx as [c ->], Hal as [d Hd]. unfold index_ok in Hj. rewrite Hd in *. lia.
  - intros Heq. apply slot_inj in Heq as [-> ->]; try done.
    + destruct Hne as [Hne|]; [|done]. apply Hne. by eapply (tree_inj _ _ _ Htree).
    + by apply (tree_ok _ _ _ Htree _ _ Hp).
Qed.

(** The tree after a table was added below the path [p] at index [v]. *)
Lemma added_table : tree (<[a + 8 * v := e]> m') root (<[p ++ [v] := page_address mm i]> t).
Proof using All.
  destruct (free_page i Hi) as (Hw & Hal & Hok).
  pose proof (table_entry (page_address mm i) Hw Hal) as Hent. cbv zeta in Hent. fold e in Hent.
  destruct Hent as (Hev & Hel & Hep & _). pose proof (free_apart _ _ _ Hfree) as Hapart. constructor.
  - rewrite lookup_insert_ne by (by destruct p). apply Htree.
  - intros q r x. rewrite !lookup_insert_Some.
    intros [[<- <-]|[_ Hq]] [[<- ?]|[_ Hr]]; subst; try done;
      [by destruct (Hapart i r)|by destruct (Hapart i q)|by eapply (tree_inj _ _ _ Htree)].
  - intros q x Hq. assert (table_ok m x) as (? & ? & ?).
    { apply lookup_insert_Some in Hq as [[_ <-]|[_ Hq]]; [done|by eapply (tree_ok _ _ _ Htree)]. }
    split; [done|]. split; [done|]. by apply mapped_insert, Hmapped.
  - intros q w x. rewrite lookup_insert_Some. intros [[[-> Hvw]%app_inj_2 _]|[_ Hq]]; [|done|].
    + injection Hvw as <-. split; [done|]. split; [done|]. rewrite lookup_insert. case_decide; [done|]. by eexists.
    + apply (tree_parent _ _ _ Htree) in Hq as (? & ? & [y Hy]). split; [done|]. split; [done|].
      rewrite lookup_insert. by case_decide.
  - intros q w x Hq Hql Hw'. apply lookup_insert_Some in Hq as [[<- <-]|[Hqp Hq]].
    + exists 0. split; [by apply added_new|]. rewrite lookup_insert_ne.
      * destruct (t !! ((p ++ [v]) ++ [w])) eqn:Hc; [|done].
        apply (tree_parent _ _ _ Htree) in Hc as (_ & _ & [? ?]). congruence.
      * intros Heq. apply (f_equal length) in Heq. rewrite !length_app in Heq. simpl in Heq. lia.
    + destruct (decide (q = p ∧ w = v)) as [[-> ->]|Hne].
      * exists e. rewrite lookup_insert_eq. rewrite Hp in Hq. injection Hq as ->.
        rewrite lookup_insert_eq. done.
      * destruct (tree_child _ _ _ Htree q w x Hq Hql Hw') as (e0 & He0 & Hc).
        exists e0. rewrite (added_keep q) by (done || destruct (decide (q = p)), (decide (w = v)); naive_solver).
        split; [done|]. rewrite lookup_insert_ne; [done|]. intros [? [= ?]]%app_inj_2; [|done].
        apply Hne. by subst.
  - intros q w x Hq Hql Hw'. apply lookup_insert_Some in Hq as [[<- <-]|[Hqp Hq]].
    + exists 0. split; [by apply added_new|]. split; [by vm_compute|by right].
    + rewrite (added_keep q) by (done || left; intros ->; lia). by eapply (tree_leaf _ _ _ Htree).
Qed.

Lemma added_mapping va :
  mapping (<[a + 8 * v := e]> m') (<[p ++ [v] := page_address mm i]> t) va = mapping m t va.
Proof using All.
  unfold mapping, leaf_entry. destruct (vpn_ok va) as (H0 & _ & _).
  destruct (decide (p ++ [v] = [vpn2 va; vpn1 va])) as [Heq|Hne].
  - rewrite <- Heq, Hnone, lookup_insert_eq. simpl. by rewrite added_new.
  - rewrite lookup_insert_ne by done. destruct (t !! [vpn2 va; vpn1 va]) as [x|] eqn:Hx; [|done].
    simpl. rewrite (added_keep _ _ _ Hx) by (done || left; intros <-; simpl in Hlen; lia). done.
Qed.
End added.
End add_table.

(** The manager after the first-fit allocation of [p] pages at index [i]. *)
Abbreviation taking mm i p := (with_pages mm (list_inserts i (block p) (m_pages mm))).

(** Address [x] is that of a page that is free. *)
Definition free_page_at (mm : MemoryManager) (x : Z) : Prop := ∃ i, m_pages mm !! i = Some Free ∧ x = page_address mm i.

(** [mm'] has the pages of [mm], and no page became free. *)
Definition takes (mm mm' : MemoryManager) : Prop :=
  m_alloc_start mm' = m_alloc_start mm ∧ ∀ i, m_pages mm' !! i = Some Free → m_pages mm !! i = Some Free.

Lemma takes_free_page mm mm' x : takes mm mm' → free_page_at mm' x → free_page_at mm x.
Proof. intros [Ha Hf] (i & Hi & ->). exists i. split; [auto|]. unfold page_address. by rewrite Ha. Qed.

Lemma taking_takes mm i p : takes mm (taking mm i p).
Proof.
  split; [done|]. intros j Hj. simpl in Hj. apply list_lookup_inserts_Some in Hj as [[_ Hj]|(_ & _ & Hj)]; [done|].
  unfold block in Hj. apply lookup_app_Some in Hj as [[? _]%lookup_replicate|[_ Hj]]; [done|].
  by apply list_lookup_singleton_Some in Hj as [_ ?].
Qed.

(** A measure of the pages that are left, each unit of which is one page to take. *)
Class Supply (enough : MemoryManager → nat → Prop) : Prop := supply_page :
  ∀ mm n, enough mm (S n) → ∃ i, first_fit (m_pages mm) 1 i ∧ enough (taking mm i 1) n.

Definition counted (mm : MemoryManager) (n : nat) : Prop := (n ≤ count_free mm)%nat.

#[global] Instance counted_supply : Supply counted.
Proof.
  intros mm n Hn. unfold counted in *. destruct (count_free_first_fit mm ltac:(lia)) as [i Hi]. exists i. split; [done|].
  unfold count_free. simpl. change (list_inserts i (block 1) (m_pages mm)) with (<[i:=Last]> (m_pages mm)).
  destruct Hi as [Hrun _]. specialize (Hrun 0%nat ltac:(lia)). rewrite Nat.add_0_r in Hrun.
  pose proof (count_free_insert _ _ Hrun). unfold count_free in Hn. lia.
Qed.

(** The tables the entry of a virtual address needs, and those of a range of pages. *)
Definition page_tables (vaddr : Z) : gset (list Z) := {[ [vpn2 vaddr]; [vpn2 vaddr; vpn1 vaddr] ]}.

Fixpoint range_tables (vaddr : Z) (n : nat) : gset (list Z) :=
  match n with O => ∅ | S n' => page_tables vaddr ∪ range_tables (vaddr + 4096) n' end.

(** What a step of [map] keeps, from [m] and [t] to [m'] and [t']: it writes to
    the tables only, and the new ones are pages that were free. *)
Record extends (mm : MemoryManager) (m : memory) (t : tables)
    (mm' : MemoryManager) (m' : memory) (t' : tables) : Prop := {
  ext_free : free_pages_ok mm' m' t';
  ext_takes : takes mm mm';
  ext_sub : ∀ q x, t !! q = Some x → t' !! q = Some x;
  ext_new : ∀ q x, t' !! q = Some x → t !! q = Some x ∨ free_page_at mm x;
  ext_frame : ∀ b, (∀ q x, t' !! q = Some x → ¬ x ≤ b < x + 4096) → m' !! b = m !! b;
  ext_mapped : ∀ b k, mapped m b k → mapped m' b k;
  ext_words : mem_words m → mem_words m'
}.

Lemma extends_refl mm m t : free_pages_ok mm m t → extends mm m t mm m t.
Proof. intros. constructor; auto. by split. Qed.

Lemma extends_trans mm m t mm1 m1 t1 mm2 m2 t2 :
  extends mm m t mm1 m1 t1 → extends mm1 m1 t1 mm2 m2 t2 → extends mm m t mm2 m2 t2.
Proof.
  intros [? Ht1 Hs1 Hn1 Hf1 Hm1 Hw1] [? Ht2 Hs2 Hn2 Hf2 Hm2 Hw2]. constructor; auto.
  - destruct Ht1 as [Ha1 Ht1], Ht2 as [Ha2 Ht2]. split; [congruence|auto].
  - intros q x [Hx|Hx]%Hn2; [auto|]. right. by eapply takes_free_page.
  - intros b Hb. rewrite Hf2 by done. apply Hf1. intros q x Hx. apply (Hb q). auto.
Qed.

Lemma free_pages_alloc mm m t i p m' t' :
  free_pages_ok mm m t → free_run (m_pages mm) i p → (1 ≤ p)%nat →
  (∀ b k, mapped m b k → mapped m' b k) →
  (∀ q x, t' !! q = Some x → t !! q = Some x ∨ ∃ k, (k < p)%nat ∧ x = page_address mm (i + k)) →
  free_pages_ok (taking mm i p) m' t'.
Proof.
  intros [Hwf Hal Hhi Htab Hap] Hrun Hp1 Hmp Ht'. pose proof (taking_takes mm i p) as [_ Htk].
  assert (∀ k, (k < p)%nat → list_inserts i (block p) (m_pages mm) !! (i + k)%nat ≠ Some Free) as Hno.
  { intros k Hk. pose proof (free_run_length _ _ _ Hp1 Hrun). rewrite list_lookup_inserts.
    - replace (i + k - i)%nat with k by lia. unfold block. intros [[? _]%lookup_replicate|[_ Hj]]%lookup_app_Some; [done|].
      by apply list_lookup_singleton_Some in Hj as [_ ?].
    - unfold block. rewrite length_app, length_replicate. simpl. lia.
    - lia. }
  constructor; simpl; try done.
  - apply wf_with_pages; [done|]. by rewrite length_inserts.
  - intros j Hj%Htk. destruct (Htab j Hj) as (? & ? & ?). split; [done|]. split; [done|]. by apply Hmp.
  - intros j q Hj Hq. apply Ht' in Hq as [Hq|(k & Hk & Hq)]; [by destruct (Hap j q (Htk j Hj))|].
    apply (page_address_inj mm) in Hq as ->. by apply (Hno k).
Qed.

(** A table that was added in a free page. *)
Lemma table_added_extends mm m t p a v e i m1 :
  free_pages_ok mm m t → free_run (m_pages mm) i 1 → t !! p = Some a → t !! (p ++ [v]) = None →
  index_ok v → in_word 64 e →
  (∀ b, b < page_address mm i ∨ page_address mm i + 4096 ≤ b → m1 !! b = m !! b) →
  (∀ b k, mapped m b k → mapped m1 b k) → (mem_words m → mem_words m1) →
  extends mm m t (taking mm i 1) (<[a + 8 * v := e]> m1) (<[p ++ [v] := page_address mm i]> t).
Proof.
  intros Hfree Hrun Hp Hnone Hv He Hframe Hmp Hwd.
  assert (m_pages mm !! i = Some Free) as Hi by (rewrite <- (Nat.add_0_r i); apply Hrun; lia).
  constructor.
  - apply (free_pages_alloc mm m t i 1); [done..|lia| |].
    + intros b k Hb. by apply mapped_insert, Hmp.
    + intros q x [[_ <-]|[_ Hq]]%lookup_insert_Some; [right|by left]. exists 0%nat. split; [lia|]. by rewrite Nat.add_0_r.
  - apply taking_takes.
  - intros q x Hq. rewrite lookup_insert_ne; [done|]. intros <-. congruence.
  - intros q x [[_ <-]|[_ Hq]]%lookup_insert_Some; [right; by exists i|by left].
  - intros b Hb. unfold index_ok in Hv. rewrite lookup_insert_ne.
    + apply Hframe. specialize (Hb (p ++ [v]) (page_address mm i)). rewrite lookup_insert_eq in Hb.
      specialize (Hb eq_refl). lia.
    + specialize (Hb p a). rewrite lookup_insert_ne in Hb; [specialize (Hb Hp); lia|].
      intros Heq; apply (f_equal length) in Heq. rewrite length_app in Heq; simpl in Heq; lia.
  - intros b k Hb. by apply mapped_insert, Hmp.
  - intros Hwm. apply mem_words_insert; [by apply Hwd|done].
Qed.

Section Growing.
Context {enough : MemoryManager → nat → Prop} `{!Supply enough}.
Context (P : gset (list Z)) (spare : nat).

(** There are pages for the tables [P] that are missing, and [spare] other ones. *)
Definition room (mm : MemoryManager) (t : tables) : Prop := enough mm (size (P ∖ dom t) + spare).

(** One iteration of [map]: the table below is found, or added when a page is free. *)
Lemma next_table_spec mm m root t p a v index :
  tree m root t → free_pages_ok mm m t → t !! p = Some a → (length p ≤ 1)%nat → index_ok v →
  t !! (p ++ [v]) = None → p ++ [v] ∈ P → room mm t →
  ∃ b mm' m' t', next_table mm m (entry_address a v) index = Ret (entry_address b index, mm', m') ∧
    tree m' root t' ∧ t' !! (p ++ [v]) = Some b ∧ extends mm m t mm' m' t' ∧ room mm' t' ∧
    ∀ va, mapping m' t' va = mapping m t va.
Proof using All.
  intros Htree Hfree Hp Hlen Hv Hnone HP Hroom.
  assert (P ∖ dom t = {[p ++ [v]]} ∪ P ∖ dom (<[p ++ [v] := 0]> t)) as Hsplit.
  { rewrite dom_insert_L. apply set_eq. intros x. rewrite elem_of_union, !elem_of_difference, elem_of_union, elem_of_singleton.
    destruct (decide (x = p ++ [v])) as [->|]; [|naive_solver]. rewrite not_elem_of_dom. naive_solver. }
  unfold room in Hroom. rewrite Hsplit, size_union, size_singleton in Hroom
    by (rewrite dom_insert_L; set_solver).
  destruct (supply_page mm _ Hroom) as (i & Hfit & Henough).
  assert (m_pages mm !! i = Some Free) as Hi.
  { destruct Hfit as [Hrun _]. rewrite <- (Nat.add_0_r i). apply Hrun. lia. }
  destruct (free_page mm m t Hfree i Hi) as (Hw & Hal & Hok).
  pose proof (tree_ok _ _ _ Htree _ _ Hp) as Hoka.
  destruct (tree_child _ _ _ Htree p v a Hp Hlen Hv) as (e & He & Hc). rewrite Hnone in Hc. subst e.
  destruct (zalloc_ok mm m 1 i) as (m1 & Hz & Hzero & Hframe & Hmp & Hwd);
    [apply Hfree|lia|done|done|apply Hok|].
  assert (m1 !! (a + 8 * v) = Some 0) as He1.
  { rewrite Hframe; [done|]. destruct (decide (a = page_address mm i)) as [->|].
    - by destruct (free_apart _ _ _ Hfree i p).
    - destruct Hoka as ([c ->] & _), Hal as [d Hd]. unfold index_ok in Hv.
      change PAGE_SIZE with 4096. rewrite Hd in *. lia. }
  pose proof (table_entry (page_address mm i) Hw Hal) as Hent. cbv zeta in Hent.
  set (e := set_ppn (page_address mm i) (bf_set 0 1 1 0)) in *.
  destruct Hent as (Hev & Hel & Hep & Hew).
  set (m2 := <[a + 8 * v := e]> m1).
  set (t' := <[p ++ [v] := page_address mm i]> t).
  assert (tree m2 root t') as Htree'.
  { apply (added_table mm m root t); done. }
  exists (page_address mm i), (taking mm i 1), m2, t'.
  assert (table_ok m1 a) as Hoka1 by (destruct Hoka as (? & ? & ?); split; [done|split; [done|by apply Hmp]]).
  assert (t' !! p = Some a) as Hp'.
  { apply lookup_insert_Some; right. split; [|done]. intros Heq; apply (f_equal length) in Heq.
    rewrite length_app in Heq; simpl in Heq; lia. }
  split; [|split; [done|split; [apply lookup_insert_eq|split; [|split]]]].
  - unfold next_table. rewrite (read_slot _ _ _ 0) by done. cbn [obind].
    change (pte_valid 0) with false. cbv iota. unfold add_table.
    change (Z.of_nat 1) with 1 in Hz. rewrite Hz. cbn [obind].
    rewrite (update_slot _ _ _ 0) by done. cbn [obind]. fold e.
    rewrite (wrap_small 64 e) by done. fold m2.
    rewrite (read_slot m2 a v e); [|by apply (tree_ok _ _ _ Htree' p)|done|apply lookup_insert_eq].
    cbn [obind]. by rewrite Hep.
  - apply table_added_extends; try done. by destruct Hfit.
  - unfold room. by replace (dom t') with (dom (<[p ++ [v] := 0]> t)) by (unfold t'; by rewrite !dom_insert_L).
  - intros va. by apply (added_mapping mm m root t).
Qed.

Lemma next_table_found mm m root t p a v b index :
  tree m root t → t !! p = Some a → (length p ≤ 1)%nat → index_ok v → t !! (p ++ [v]) = Some b →
  next_table mm m (entry_address a v) index = Ret (entry_address b index, mm, m).
Proof.
  intros Htree Hp Hlen Hv Hb. pose proof (tree_ok _ _ _ Htree _ _ Hp) as Hok.
  destruct (tree_child _ _ _ Htree p v a Hp Hlen Hv) as (e & He & Hc). rewrite Hb in Hc.
  destruct Hc as (Hev & _ & <-). unfold next_table. rewrite (read_slot _ _ _ e) by done. cbn [obind].
  rewrite Hev. cbn [obind]. rewrite (read_slot _ _ _ e) by done. done.
Qed.

(** Found or added, the next table is a child of the current one. *)
Lemma next_table_child mm m root t p a v index :
  tree m root t → free_pages_ok mm m t → t !! p = Some a → (length p ≤ 1)%nat → index_ok v →
  p ++ [v] ∈ P → room mm t →
  ∃ b mm' m' t', next_table mm m (entry_address a v) index = Ret (entry_address b index, mm', m') ∧
    tree m' root t' ∧ t' !! (p ++ [v]) = Some b ∧ extends mm m t mm' m' t' ∧ room mm' t' ∧
    ∀ va, mapping m' t' va = mapping m t va.
Proof using All.
  intros Htree Hfree Hp Hlen Hv HP Hroom. destruct (t !! (p ++ [v])) as [b|] eqn:Hb.
  - exists b, mm, m, t. rewrite (next_table_found _ _ _ _ _ _ _ _ _ Htree Hp Hlen Hv Hb).
    split_and!; [done..| |done|done]. by apply extends_refl.
  - by eapply next_table_spec.
Qed.

(** The walk of [map] with level 0 ends at the entry of the page. *)
Lemma descend_spec mm m root t vaddr :
  tree m root t → free_pages_ok mm m t → page_tables vaddr ⊆ P → room mm t →
  ∃ a mm' m' t', descend mm m (entry_address root (vpn2 vaddr)) vaddr 1 2 =
      Ret (entry_address a (vpn0 vaddr), mm', m') ∧
    tree m' root t' ∧ t' !! [vpn2 vaddr; vpn1 vaddr] = Some a ∧ extends mm m t mm' m' t' ∧ room mm' t' ∧
    ∀ va, mapping m' t' va = mapping m t va.
Proof using All.
  intros Htree Hfree HP Hroom. destruct (vpn_ok vaddr) as (_ & H1 & H2).
  change (descend mm m (entry_address root (vpn2 vaddr)) vaddr 1 2) with
    (let! r := next_table mm m (entry_address root (vpn2 vaddr)) (vpn1 vaddr) in
     let '(v', mm', m') := r in
     let! r := next_table mm' m' v' (vpn0 vaddr) in
     let '(v', mm', m') := r in Ret (v', mm', m')).
  destruct (next_table_child mm m root t [] root (vpn2 vaddr) (vpn1 vaddr))
    as (b & mm1 & m1 & t1 & -> & Htree1 & Hb & Hext1 & Hroom1 & Hm1);
    [done|done|apply Htree|simpl; lia|done|apply HP; set_solver|done|].
  cbn [obind].
  destruct (next_table_child mm1 m1 root t1 [vpn2 vaddr] b (vpn1 vaddr) (vpn0 vaddr))
    as (a & mm2 & m2 & t2 & Hn & Htree2 & Ha & Hext2 & Hroom2 & Hm2);
    [done|apply Hext1|done|simpl; lia|done|apply HP; set_solver|done|].
  exists a, mm2, m2, t2. rewrite Hn. cbn [obind]. split_and!; [done..| |done|].
  - by eapply extends_trans.
  - intros va. by rewrite Hm2.
Qed.
End Growing.
Arguments room enough P spare mm t / : assert.

(** Page numbers and page addresses. *)
Lemma in_word_le w w' x : 0 ≤ w ≤ w' → in_word w x → in_word w' x.
Proof. unfold in_word. intros ? [? ?]. split; [done|]. pose proof (Z.pow_le_mono_r 2 w w'). lia. Qed.

Lemma page_bits v i : 0 ≤ i → Z.testbit (align_down v 12) i = (12 <=? i) && Z.testbit v i.
Proof. intros. unfold align_down. autorewrite with bits. split_cmp; by rewrite ?andb_true_r, ?andb_false_r. Qed.

Lemma align_down_word w va : in_word w va → in_word w (align_down va 12).
Proof.
  intros [H0 H1]. pose proof (align_down_spec va 12 ltac:(lia)) as [? _].
  split; [|lia]. unfold align_down. rewrite ldiff_ones by lia. pose proof (Z.div_pos va (2 ^ 12)). lia.
Qed.

Lemma same_page_iff v v' :
  in_word 39 v → in_word 39 v' → same_page v v' ↔ align_down v 12 = align_down v' 12.
Proof.
  intros Hv Hv'. split.
  - intros (H2 & H1 & H0). apply Z.bits_inj'. intros i Hi. rewrite !page_bits by done.
    destruct (Z.leb_spec 12 i); [simpl|done].
    assert (∀ lo, lo ≤ i < lo + 9 → 0 ≤ lo → bf_get lo 9 v = bf_get lo 9 v' → Z.testbit v i = Z.testbit v' i) as Hget.
    { intros lo Hlo Hp Heq. assert (Z.testbit (bf_get lo 9 v) (i - lo) = Z.testbit (bf_get lo 9 v') (i - lo)) as Hb
        by congruence. rewrite !bf_get_spec in Hb by lia. rewrite (proj2 (Z.ltb_lt _ _)) in Hb by lia.
      by replace (i - lo + lo) with i in Hb by lia. }
    destruct (decide (i < 21)); [apply (Hget 12); [lia..|exact H0]|]. destruct (decide (i < 30)); [apply (Hget 21); [lia..|exact H1]|].
    destruct (decide (i < 39)); [apply (Hget 30); [lia..|exact H2]|].
    rewrite (in_word_high 39 v), (in_word_high 39 v') by (assumption || lia). reflexivity.
  - intros Heq. assert (∀ lo, 12 ≤ lo → bf_get lo 9 v = bf_get lo 9 v') as Hget.
    { intros lo Hlo. apply Z.bits_inj'. intros i Hi. rewrite !bf_get_spec by lia.
      assert (Z.testbit (align_down v 12) (i + lo) = Z.testbit (align_down v' 12) (i + lo)) as Hb by congruence.
      rewrite !page_bits in Hb by lia. rewrite (proj2 (Z.leb_le _ _)) in Hb by lia. simpl in Hb. by rewrite Hb. }
    unfold same_page, vpn2, vpn1, vpn0. by rewrite !(Hget _) by lia.
Qed.

Lemma clean_default m t root va : tree m root t → clean (default 0 (mapping m t va)).
Proof.
  intros Htree. destruct (mapping m t va) as [e|] eqn:He; [|by vm_compute]. simpl.
  unfold mapping, leaf_entry in He. destruct (t !! [vpn2 va; vpn1 va]) as [a|] eqn:Ha; [|done]. simpl in He.
  destruct (tree_leaf _ _ _ Htree _ (vpn0 va) a Ha) as (e' & He' & Hok & _); [done|apply vpn0_ok|].
  rewrite He' in He. simpl in He. destruct (pte_valid e'); congruence.
Qed.

(** The slot of a leaf table holds the mapping of its page, or 0. *)
Lemma leaf_slot m t root va a :
  tree m root t → t !! [vpn2 va; vpn1 va] = Some a →
  m !! (a + 8 * vpn0 va) = Some (default 0 (mapping m t va)).
Proof.
  intros Htree Ha. destruct (tree_leaf _ _ _ Htree _ (vpn0 va) a Ha) as (e & He & _ & Hok); [done|apply vpn0_ok|].
  unfold mapping, leaf_entry. rewrite Ha. simpl. rewrite He. simpl.
  destruct Hok as [-> | ->]; done.
Qed.

(** Writing a leaf entry. *)
Lemma write_leaf m t root va a e :
  tree m root t → t !! [vpn2 va; vpn1 va] = Some a → leaf_ok e → pte_valid e = true →
  tree (<[a + 8 * vpn0 va := e]> m) root t ∧
  ∀ va', mapping (<[a + 8 * vpn0 va := e]> m) t va' =
    if decide (same_page va va') then Some e else mapping m t va'.
Proof.
  intros Htree Ha Hok Hev. destruct (vpn_ok va) as (H0 & _).
  assert (∀ q x j, t !! q = Some x → index_ok j → q ≠ [vpn2 va; vpn1 va] ∨ j ≠ vpn0 va →
    (<[a + 8 * vpn0 va := e]> m) !! (x + 8 * j) = m !! (x + 8 * j)) as Hkeep.
  { intros q x j Hq Hj Hne. rewrite lookup_insert_ne; [done|]. intros Heq.
    apply slot_inj in Heq as [-> <-]; try done;
      [|by apply (tree_ok _ _ _ Htree _ _ Ha)|by apply (tree_ok _ _ _ Htree _ _ Hq)].
    destruct Hne as [Hne|]; [|done]. apply Hne. by eapply (tree_inj _ _ _ Htree). }
  split.
  - constructor; try apply Htree.
    + intros q x Hq. destruct (tree_ok _ _ _ Htree _ _ Hq) as (? & ? & ?).
      split; [done|]. split; [done|]. by apply mapped_insert.
    + intros q w x Hq Hl Hw. rewrite (Hkeep q) by (done || left; intros ->; simpl in Hl; lia).
      by apply (tree_child _ _ _ Htree).
    + intros q w x Hq Hl Hw. destruct (decide (q = [vpn2 va; vpn1 va] ∧ w = vpn0 va)) as [[-> ->]|Hne].
      * rewrite Ha in Hq. injection Hq as <-. exists e. by rewrite lookup_insert_eq.
      * rewrite (Hkeep q); [by eapply (tree_leaf _ _ _ Htree)|done|done|].
        destruct (decide (q = [vpn2 va; vpn1 va])), (decide (w = vpn0 va)); naive_solver.
  - intros va'. unfold mapping, leaf_entry. case_decide as Hs.
    + destruct Hs as (<- & <- & <-). rewrite Ha. simpl. rewrite lookup_insert_eq. simpl. by rewrite Hev.
    + destruct (t !! [vpn2 va'; vpn1 va']) as [x|] eqn:Hx; [|done]. simpl.
      rewrite (Hkeep _ _ _ Hx); [done|apply vpn0_ok|].
      destruct (decide ([vpn2 va'; vpn1 va'] = [vpn2 va; vpn1 va])) as [[= H2 H1]|]; [|by left].
      right. intros H0'. by apply Hs.
Qed.

(** A write to a slot of a table extends. *)
Lemma leaf_written_extends mm m t q a j e :
  free_pages_ok mm m t → t !! q = Some a → index_ok j → in_word 64 e →
  extends mm m t mm (<[a + 8 * j := e]> m) t.
Proof.
  intros Hfree Ha Hj He. constructor; auto.
  - destruct Hfree as [? ? ? Htab ?]. constructor; try done. intros i Hi.
    destruct (Htab i Hi) as (? & ? & ?). split; [done|]. split; [done|]. by apply mapped_insert.
  - by split.
  - intros b Hb. apply lookup_insert_ne. specialize (Hb q a Ha). unfold index_ok in Hj. lia.
  - intros b k. apply mapped_insert.
  - intros Hw. by apply mem_words_insert.
Qed.

(** [map] is insertion into the mapping. *)
Lemma map_ok `{!Supply enough} P spare mm m root t vaddr paddr bits :
  tree m root t → free_pages_ok mm m t → page_tables vaddr ⊆ P → room (enough := enough) P spare mm t → in_word 9 bits →
  ∃ mm' m' t', map mm m root vaddr paddr bits 0 = Ret (mm', m') ∧ tree m' root t' ∧
    extends mm m t mm' m' t' ∧ room (enough := enough) P spare mm' t' ∧
    ∀ va, mapping m' t' va =
      if decide (same_page vaddr va)
      then Some (map_entry paddr bits (default 0 (mapping m t vaddr))) else mapping m t va.
Proof.
  intros Htree Hfree HP Hroom Hbits.
  destruct (descend_spec P spare mm m root t vaddr) as (a & mm1 & m1 & t1 & Hd & Htree1 & Ha & Hext & Hroom1 & Hmap1); [done..|].
  pose proof (clean_default _ _ _ vaddr Htree1) as Hcl. rewrite Hmap1 in Hcl.
  pose proof (leaf_slot _ _ _ _ _ Htree1 Ha) as Hslot. rewrite Hmap1 in Hslot.
  set (e0 := default 0 (mapping m t vaddr)) in *.
  destruct (map_entry_ok paddr bits e0 Hbits Hcl) as [Hev Hok].
  destruct (write_leaf _ _ _ _ _ _ Htree1 Ha Hok Hev) as [Htree2 Hmap2].
  unfold map. change (Z.to_nat (2 - 0)) with 2%nat. rewrite Hd. cbn [obind].
  rewrite (update_slot _ _ _ e0); [|by eapply (tree_ok _ _ _ Htree1)|apply vpn0_ok|done].
  cbn [obind]. assert (in_word 64 (map_entry paddr bits e0)) as Hw by (eapply (in_word_le 54); [lia|apply Hok]).
  rewrite wrap_small by done.
  eexists mm1, _, t1. split; [done|]. split; [done|]. split; [|split; [done|]].
  - eapply extends_trans; [done|]. eapply leaf_written_extends; [apply Hext|exact Ha|apply vpn0_ok|done].
  - intros va. rewrite Hmap2. case_decide; [done|]. apply Hmap1.
Qed.

(** [translate] is lookup in the mapping. *)
Lemma translate_ok m root t va :
  tree m root t →
  match mapping m t va with
  | Some e => translate m root va = Ret (Value (Z.lor (get_ppn e) (va_offset va)))
  | None => ∃ msg, translate m root va = Ret (fail_with msg)
  end.
Proof.
  intros Htree. destruct (vpn_ok va) as (H0 & H1 & H2). unfold mapping, leaf_entry, translate.
  pose proof (tree_root _ _ _ Htree) as Hr. pose proof (tree_ok _ _ _ Htree _ _ Hr) as Hrok.
  destruct (tree_child _ _ _ Htree [] (vpn2 va) root Hr) as (e2 & He2 & Hc2); [simpl; lia|done|].
  rewrite (read_slot _ _ _ e2) by done. cbn [obind app] in *.
  destruct (t !! [vpn2 va]) as [b|] eqn:Hb.
  2:{ subst e2. destruct (t !! [vpn2 va; vpn1 va]) eqn:Ha; [|by eexists].
      apply (tree_parent _ _ _ Htree [vpn2 va]) in Ha as (_ & _ & [? ?]). congruence. }
  destruct Hc2 as (Hv2 & Hl2 & Hp2). rewrite Hv2, Hl2, Hp2. cbn [negb].
  destruct (tree_child _ _ _ Htree [vpn2 va] (vpn1 va) b Hb) as (e1 & He1 & Hc1); [simpl; lia|done|].
  rewrite (read_slot _ b _ e1) by (try done; by apply (tree_ok _ _ _ Htree _ _ Hb)). cbn [obind app] in *.
  destruct (t !! [vpn2 va; vpn1 va]) as [a|] eqn:Ha; [|subst e1; by eexists].
  destruct Hc1 as (Hv1 & Hl1 & Hp1). rewrite Hv1, Hl1, Hp1. cbn [negb]. simpl.
  destruct (tree_leaf _ _ _ Htree _ (vpn0 va) a Ha) as (e & He & _); [done|done|].
  rewrite (read_slot _ a _ e) by (try done; by apply (tree_ok _ _ _ Htree _ _ Ha)). rewrite He. simpl.
  destruct (pte_valid e); simpl; [done|by eexists].
Qed.

(** * Ranges *)
Lemma page_offset va : va_offset va = va - align_down va 12.
Proof.
  unfold va_offset, align_down. rewrite bf_get_div, ldiff_ones by lia.
  change (2 ^ 0) with 1. rewrite Z.div_1_r. pose proof (Z.div_mod va (2 ^ 12)). lia.
Qed.

Lemma lor_offset x va : (4096 | x) → Z.lor x (va_offset va) = x + va_offset va.
Proof.
  intros [q ->]. rewrite <- (Z.add_lor_land (q * 4096) (va_offset va)).
  assert (Z.land (q * 4096) (va_offset va) = 0) as ->; [|lia].
  apply Z.bits_inj'. intros i Hi. unfold va_offset.
  rewrite Z.land_spec, bf_get_spec, Z.testbit_0_l by lia.
  destruct (Z.ltb_spec i 12); [|by rewrite andb_false_r].
  change 4096 with (2 ^ 12). by rewrite Z.mul_pow2_bits_low by lia.
Qed.

Lemma page_of_aligned vaddr va :
  (4096 | vaddr) → vaddr ≤ va < vaddr + 4096 ↔ align_down va 12 = vaddr.
Proof.
  intros [q ->]. unfold align_down. rewrite ldiff_ones by lia. change (2 ^ 12) with 4096.
  pose proof (Z.div_mod va 4096). pose proof (Z.mod_pos_bound va 4096). split; nia.
Qed.

(** Mapping [n] pages in a row changes the entries of each address of the range, and no other one. *)
Lemma map_pages_ok `{!Supply enough} P spare bits n : ∀ mm m root t vaddr paddr,
  tree m root t → free_pages_ok mm m t → range_tables vaddr n ⊆ P → room (enough := enough) P spare mm t → in_word 9 bits →
  (4096 | vaddr) → 0 ≤ vaddr → vaddr + 4096 * Z.of_nat n ≤ 2 ^ 39 →
  0 ≤ paddr → paddr + 4096 * Z.of_nat n ≤ 2 ^ 56 →
  ∃ mm' m' t', map_pages mm m root vaddr paddr bits n = Ret (mm', m') ∧ tree m' root t' ∧
    extends mm m t mm' m' t' ∧ room (enough := enough) P spare mm' t' ∧
    ∀ va, in_word 39 va → mapping m' t' va =
      if decide (vaddr ≤ va < vaddr + 4096 * Z.of_nat n)
      then Some (map_entry (paddr + (align_down va 12 - vaddr)) bits (default 0 (mapping m t va)))
      else mapping m t va.
Proof.
  induction n as [|n IH]; intros mm m root t vaddr paddr Htree Hfree HP Hroom Hb Hv8 Hv Hvh Hp Hph.
  { exists mm, m, t. split_and!; [done..|by apply extends_refl|done|]. intros va _. by rewrite decide_False by lia. }
  cbn [range_tables] in HP. apply union_subseteq in HP as [HPl HPr].
  destruct (map_ok P spare mm m root t vaddr paddr bits) as (mm1 & m1 & t1 & Hmap & Htree1 & Hext1 & Hroom1 & Hm1);
    [exact Htree|exact Hfree|exact HPl|exact Hroom|exact Hb|].
  cbn [map_pages]. rewrite Hmap. cbn [obind]. change (Z.shiftl 1 12) with 4096.
  rewrite !wrap_small by (unfold in_word; lia).
  destruct (IH mm1 m1 root t1 (vaddr + 4096) (paddr + 4096))
    as (mm2 & m2 & t2 & Hmp & Htree2 & Hext2 & Hroom2 & Hm2);
    [exact Htree1|apply Hext1|exact HPr|exact Hroom1|exact Hb|by apply Z.divide_add_r; [|exists 1]|lia..|].
  exists mm2, m2, t2. split_and!; [done|done|by eapply extends_trans|done|]. intros va Hva. rewrite Hm2 by done.
  pose proof (same_page_iff vaddr va ltac:(unfold in_word; lia) Hva) as Hs.
  assert (align_down vaddr 12 = vaddr) as Hva' by (apply page_of_aligned; [done|lia]).
  rewrite Hva' in Hs. pose proof (page_of_aligned vaddr va Hv8) as Hpg. rewrite Hm1.
  destruct (decide (same_page vaddr va)) as [Hsame|Hsame].
  - assert (align_down va 12 = vaddr) as Heq by (symmetry; by apply Hs).
    rewrite decide_False, decide_True by lia. rewrite Heq, Z.sub_diag, Z.add_0_r.
    do 3 f_equal. unfold mapping, leaf_entry. by destruct Hsame as (-> & -> & ->).
  - assert (align_down va 12 ≠ vaddr) by (intros Heq; by apply Hsame, Hs).
    destruct (decide (vaddr + 4096 ≤ va < vaddr + 4096 + 4096 * Z.of_nat n)).
    + rewrite decide_True by lia. do 2 f_equal. lia.
    + rewrite decide_False by lia. done.
Qed.

(** The number of pages [map_range] and [identity_map_range] compute. *)
Definition pages_of (start end_ : Z) : nat := Z.to_nat ((align_up end_ 12 - align_down start 12) / 4096).

Lemma pages_of_spec start end_ :
  0 ≤ start ≤ end_ → end_ + 4096 ≤ 2 ^ 64 →
  align_down start 12 + 4096 * Z.of_nat (pages_of start end_) = align_up end_ 12 ∧
  Z.to_nat (u64 (align_value end_ 12 - align_down start 12) / PAGE_SIZE) = pages_of start end_ ∧
  (4096 | align_down start 12) ∧ 0 ≤ align_down start 12 ≤ start ∧ end_ ≤ align_up end_ 12 < end_ + 4096.
Proof.
  intros Hse He. change (align_value end_ 12) with (align_up end_ 12). unfold pages_of.
  pose proof (align_down_spec start 12 ltac:(lia)) as [Hds Hda].
  pose proof (align_up_spec end_ 12 ltac:(lia) ltac:(lia) ltac:(lia)) as [Hus Hua].
  change (2 ^ 12) with 4096 in *. change PAGE_SIZE with 4096.
  set (s := align_down start 12) in *. set (e := align_up end_ 12) in *.
  destruct Hda as [qs Hqs], Hua as [qe Hqe]. assert (0 ≤ qs ≤ qe) as Hq by lia.
  rewrite wrap_small by (unfold in_word; lia).
  replace ((e - s) / 4096) with (qe - qs) by
    (replace (e - s) with ((qe - qs) * 4096) by lia; by rewrite Z.div_mul).
  split_and!; try lia. by exists qs.
Qed.

(** The range functions are loops over [pages_of] pages. *)
Lemma identity_map_range_pages mm m root start end_ bits :
  0 ≤ start ≤ end_ → end_ + 4096 ≤ 2 ^ 64 →
  identity_map_range mm m root start end_ bits =
    map_pages mm m root (align_down start 12) (align_down start 12) bits (pages_of start end_).
Proof.
  intros Hse He. unfold identity_map_range. change (PAGE_SIZE - 1) with (Z.ones 12).
  fold (align_down start 12). by destruct (pages_of_spec start end_ Hse He) as (_ & -> & _).
Qed.

Lemma map_range_pages mm m root start end_ physical bits :
  0 ≤ start ≤ end_ → end_ + 4096 ≤ 2 ^ 64 →
  map_range mm m root start end_ physical bits =
    map_pages mm m root (align_down start 12) (align_down physical 12) bits (pages_of start end_).
Proof.
  intros Hse He. unfold map_range. change (PAGE_SIZE - 1) with (Z.ones 12).
  fold (align_down start 12) (align_down physical 12). by destruct (pages_of_spec start end_ Hse He) as (_ & -> & _).
Qed.

(** * Properties *)

(** C6: after [map] of a virtual page to a physical page, every address of the
    virtual page translates into the physical page at its offset, and the
    translations of the addresses of all other pages are what they were.  As many
    free pages are needed as tables of the virtual page are missing. *)
Theorem map_translate mm m root t vaddr paddr bits :
  tree m root t → free_pages_ok mm m t → (size (page_tables vaddr ∖ dom t) ≤ count_free mm)%nat →
  in_word 56 paddr → in_word 9 bits →
  ∃ mm' m', map mm m root vaddr paddr bits 0 = Ret (mm', m') ∧
    ∀ va,
      (same_page vaddr va → translate m' root va = Ret (Value (align_down paddr 12 + va_offset va))) ∧
      (¬ same_page vaddr va → ∀ pa,
         translate m' root va = Ret (Value pa) ↔ translate m root va = Ret (Value pa)).
Proof.
  intros Htree Hfree Hc Hp Hb.
  destruct (map_ok (enough := counted) (page_tables vaddr) 0 mm m root t vaddr paddr bits)
    as (mm' & m' & t' & Hmap & Htree' & _ & _ & Hm); [done..|unfold room, counted; lia|done|].
  exists mm', m'. split; [done|]. intros va. pose proof (translate_ok _ _ _ va Htree') as Ht'.
  rewrite Hm in Ht'. split; intros Hs.
  - rewrite decide_True, map_entry_ppn in Ht' by (done || by eapply clean_default).
    rewrite Ht', lor_offset; [done|]. apply align_down_spec. lia.
  - rewrite decide_False in Ht' by done. pose proof (translate_ok _ _ _ va Htree) as Ht.
    destruct (mapping m t va); [by rewrite Ht, Ht'|].
    destruct Ht as [? ->], Ht' as [? ->]. done.
Qed.

(** [identity_map_range] makes every address of the pages from [start] to
    [end] translate to itself, and leaves all other translations, when there is
    a free page for each table of the range that is missing. *)
Theorem identity_map_translate mm m root t start end_ bits :
  tree m root t → free_pages_ok mm m t → in_word 9 bits → 0 ≤ start ≤ end_ → end_ + 4096 ≤ 2 ^ 39 →
  (size (range_tables (align_down start 12) (pages_of start end_) ∖ dom t) ≤ count_free mm)%nat →
  ∃ mm' m', identity_map_range mm m root start end_ bits = Ret (mm', m') ∧
    ∀ va, in_word 39 va →
      (align_down start 12 ≤ va < align_up end_ 12 → translate m' root va = Ret (Value va)) ∧
      (¬ align_down start 12 ≤ va < align_up end_ 12 → ∀ pa,
         translate m' root va = Ret (Value pa) ↔ translate m root va = Ret (Value pa)).
Proof.
  intros Htree Hfree Hb Hse He Hc. rewrite identity_map_range_pages by lia.
  destruct (pages_of_spec start end_) as (Hn & _ & Hda & Hds & Hu); [lia..|].
  set (s := align_down start 12) in *. set (e := align_up end_ 12) in *.
  destruct (map_pages_ok (enough := counted) (range_tables s (pages_of start end_)) 0 bits (pages_of start end_) mm m root t s s)
    as (mm' & m' & t' & Hmap & Htree' & _ & _ & Hm); try done; try lia; [unfold room, counted; lia|].
  exists mm', m'. split; [done|]. intros va Hva. specialize (Hm va Hva). rewrite Hn in Hm.
  pose proof (translate_ok _ _ _ va Htree') as Ht'. rewrite Hm in Ht'. split; intros Hr.
  - rewrite decide_True in Ht' by done. rewrite Ht'. replace (s + (align_down va 12 - s)) with (align_down va 12) by lia.
    pose proof (align_down_spec va 12 ltac:(lia)) as [Hd Hd8]. change (2 ^ 12) with 4096 in *.
    rewrite map_entry_ppn; [|by eapply (in_word_le 39), align_down_word|done|by eapply clean_default].
    replace (align_down (align_down va 12) 12) with (align_down va 12) by (symmetry; apply page_of_aligned; [done|lia]).
    rewrite lor_offset, page_offset by done. do 2 f_equal. lia.
  - rewrite decide_False in Ht' by done. pose proof (translate_ok _ _ _ va Htree) as Ht.
    destruct (mapping m t va); [by rewrite Ht, Ht'|]. destruct Ht as [? ->], Ht' as [? ->]. done.
Qed.

(** When a table is missing and no page is free, [map] stores the null
    pointer as the address of the table and then accesses memory through it. *)
Theorem map_without_pages mm m root t vaddr paddr bits :
  tree m root t → wf_manager mm → t !! [vpn2 vaddr] = None →
  (∀ i, ¬ free_run (m_pages mm) i 1) → (∃ s, last (m_pages mm) = Some s ∧ s ≠ Free) →
  (∀ i, index_ok i → m !! (8 * i) = None) →
  map mm m root vaddr paddr bits 0 = Undef.
Proof.
  intros Htree Hwf Hnone Hno Hlast Hnull. destruct (vpn_ok vaddr) as (H0 & H1 & H2).
  pose proof (tree_root _ _ _ Htree) as Hr. pose proof (tree_ok _ _ _ Htree _ _ Hr) as Hrok.
  destruct (tree_child _ _ _ Htree [] (vpn2 vaddr) root Hr) as (e & He & Hc); [simpl; lia|done|].
  cbn [app] in Hc. rewrite Hnone in Hc. subst e.
  unfold map. change (Z.to_nat (2 - 0)) with 2%nat. cbn [descend]. unfold next_table at 1.
  rewrite (read_slot _ _ _ 0) by done. cbn [obind]. change (pte_valid 0) with false. cbv iota.
  unfold add_table, zalloc. change 1 with (Z.of_nat 1) at 1.
  rewrite alloc_null by (done || lia). cbn [obind]. change (0 =? 0) with true. cbv iota. cbn [obind].
  rewrite (update_slot _ _ _ 0) by done. cbn [obind].
  set (e := u64 (set_ppn 0 (bf_set 0 1 1 0))).
  rewrite (read_slot _ _ _ e); [|destruct Hrok as (? & ? & ?); split; [done|split; [done|by apply mapped_insert]]|done|apply lookup_insert_eq].
  cbn [obind]. change (get_ppn e) with 0. unfold next_table.
  change (if 1 =? 0 then vpn0 vaddr else vpn1 vaddr) with (vpn1 vaddr).
  assert (entry_address 0 (vpn1 vaddr) = 8 * vpn1 vaddr) as ->
    by (unfold entry_address; apply wrap_small; unfold index_ok, in_word in *; lia).
  unfold read64 at 1. destruct (word_aligned (8 * vpn1 vaddr)); [|done].
  rewrite lookup_insert_ne; [by rewrite Hnull|].
  destruct Hrok as ([q ->] & ? & _). unfold index_ok in *. lia.
Qed.

(** ** What the walk does not do *)

(** A valid leaf of the first level is translated without the lower indices. *)
Lemma superpage_ignores_low_indices m root va e :
  read64 m (entry_address root (vpn2 va)) = Ret e → pte_valid e = true → is_leaf e = true →
  translate m root va = Ret (Value (Z.lor (get_ppn e) (va_offset va))).
Proof. intros He Hv Hl. unfold translate. rewrite He. cbn [obind]. by rewrite Hv, Hl. Qed.

(** Mapping a page again does not take permissions away. *)
Lemma map_entry_keeps_permissions p1 b1 p2 b2 e i :
  0 ≤ i < 9 → Z.testbit b1 i = true → Z.testbit (map_entry p2 b2 (map_entry p1 b1 e)) i = true.
Proof.
  intros Hi Hb. unfold map_entry, set_bits, set_ppn. rewrite Z.lor_spec. apply orb_true_iff. left.
  rewrite !bf_set_spec by lia. split_cmp; try (by rewrite Z.lor_spec, Hb, orb_true_r).
  all: match goal with |- Z.testbit 1 ?x = true => by replace x with 0 by lia end.
Qed.

(** ** Witnesses *)
Definition sample_memory : memory := zero_page_memory 2147487744 0 (512 * 4).
Definition sample_root : Z := 2147487744.
Definition sample_tables : tables := {[ [] := sample_root ]}.

Lemma zero_page_memory_lookup a n b :
  (8 | a) → (8 | b) → a ≤ b < a + 8 * Z.of_nat n → zero_page_memory a 0 n !! b = Some 0.
Proof.
  intros Ha Hb Hr. unfold zero_page_memory. apply elem_of_list_to_map_1'.
  - intros y [x [[= _ ->] _]]%list_elem_of_fmap. done.
  - apply list_elem_of_fmap. destruct Ha as [i ->], Hb as [j ->]. exists (Z.to_nat (j - i)).
    split; [f_equal; lia|]. apply elem_of_seq. lia.
Qed.

Lemma zero_page_memory_none a n b :
  b < a → zero_page_memory a 0 n !! b = None.
Proof.
  intros Hb. unfold zero_page_memory. apply not_elem_of_list_to_map_1.
  rewrite <- list_fmap_compose. intros [i [-> _]]%list_elem_of_fmap. simpl in Hb. lia.
Qed.

Lemma sample_table_ok i : 0 ≤ i < 4 → table_ok sample_memory (sample_root + 4096 * i).
Proof.
  intros Hi. split; [exists (524289 + i); unfold sample_root; lia|].
  split; [unfold sample_root; lia|]. split.
  - apply word_aligned_iff. exists (268435968 + 512 * i). unfold sample_root. lia.
  - intros k Hk. eexists. apply zero_page_memory_lookup; [by exists 268435968| |unfold sample_root; lia].
    exists (268435968 + 512 * i + Z.of_nat k). unfold sample_root. lia.
Qed.

Lemma sample_tree : tree sample_memory sample_root sample_tables.
Proof.
  unfold sample_tables. constructor.
  - apply lookup_singleton_eq.
  - intros p q a [<- <-]%lookup_singleton_Some [<- _]%lookup_singleton_Some. done.
  - intros p a [<- <-]%lookup_singleton_Some. apply (sample_table_ok 0). lia.
  - intros p v a [Hp _]%lookup_singleton_Some. by destruct p.
  - intros p v a [<- <-]%lookup_singleton_Some _ Hv. exists 0. split.
    + apply zero_page_memory_lookup; [by exists 268435968| |unfold sample_root, index_ok in *; lia].
      exists (268435968 + v). unfold sample_root. lia.
    + by rewrite lookup_singleton_ne.
  - intros p v a [<- _]%lookup_singleton_Some. done.
Qed.

Lemma sample_free_pages_ok t :
  (∀ i, t !! i = Some Free → (1 ≤ i < 4)%nat) → length t = 4%nat →
  free_pages_ok (sample_manager t) sample_memory sample_tables.
Proof.
  intros Ht Hlen. constructor; simpl.
  - constructor; simpl; rewrite ?Hlen; done.
  - by exists 524289.
  - rewrite Hlen. by vm_compute.
  - intros i Hi%Ht. apply (sample_table_ok (Z.of_nat i)). lia.
  - intros i p Hi%Ht Ha. unfold sample_tables in Ha.
    rewrite lookup_singleton_Some in Ha. destruct Ha as [_ Ha]. unfold sample_root, page_address in Ha. simpl in Ha.
    change PAGE_SIZE with 4096 in Ha. lia.
Qed.

Lemma sample_free_ok : free_pages_ok (sample_manager [Last; Free; Free; Free]) sample_memory sample_tables.
Proof. apply sample_free_pages_ok; [|done]. intros [|[|[|[|i]]]]; done || lia. Qed.

Lemma map_translate_witness :
  ∃ mm' m', map (sample_manager [Last; Free; Free; Free]) sample_memory sample_root 268435456 536870912 READ_WRITE 0
      = Ret (mm', m') ∧ translate m' sample_root 268435500 = Ret (Value 536870956).
Proof.
  destruct (map_translate _ _ _ _ 268435456 536870912 READ_WRITE sample_tree sample_free_ok
    ltac:(vm_compute; lia) ltac:(by vm_compute) ltac:(by vm_compute)) as (mm' & m' & Hm & Ht).

  exists mm', m'. split; [exact Hm|]. destruct (Ht 268435500) as [Hs _].
  rewrite Hs by (repeat split). reflexivity.
Defined.

Lemma identity_map_translate_witness :
  ∃ mm' m', identity_map_range (sample_manager [Last; Free; Free; Free]) sample_memory sample_root 4096 4100 READ_WRITE
      = Ret (mm', m') ∧ translate m' sample_root 5000 = Ret (Value 5000).
Proof.
  assert (in_word 39 5000) as H5 by by vm_compute.
  destruct (identity_map_translate _ _ _ _ 4096 4100 READ_WRITE sample_tree sample_free_ok
    ltac:(by vm_compute) ltac:(lia) ltac:(lia) ltac:(vm_compute; lia)) as (mm' & m' & Hm & Ht).
  exists mm', m'. split; [exact Hm|]. destruct (Ht 5000 H5) as [Hs _].
  apply Hs. split; vm_compute; [discriminate|reflexivity].
Defined.

Lemma map_without_pages_witness :
  map (sample_manager [Last; Taken; Last; Last]) sample_memory sample_root 4096 4096 READ_WRITE 0 = Undef.
Proof.
  apply (map_without_pages _ _ _ sample_tables).
  - exact sample_tree.
  - by constructor.
  - done.
  - intros i H. specialize (H 0%nat ltac:(lia)). by destruct i as [|[|[|[|i]]]].
  - by exists Last.
  - intros i Hi. apply zero_page_memory_none. unfold index_ok in Hi. lia.
Defined.
