(* ===== verification/Bytes.v ===== *)
(** Byte buffers and the C routines on them: [Utils/Memory.cpp] (memcpy, memset,
    strcmp, memcmp), [String::calculate_size] and [Utils/Basic.cpp] (itoa, atoi).

    A buffer is the list of its bytes, plain [char] is unsigned on this target,
    and a pointer that is only read through is the list of the bytes from it to
    the end of its buffer.  Any access outside of a buffer is [Undef]. *)
From S2P Require Import Prelude Bits.

Abbreviation bytes := (list Z).

Definition is_byte (c : Z) : Prop := in_word 8 c.

#[global] Instance is_byte_dec c : Decision (is_byte c).
Proof. unfold is_byte. apply _. Defined.

(** [buffer[i]] and [buffer[i] = v]. *)
Definition get_byte (b : bytes) (i : Z) : outcome Z :=
  if 0 <=? i then defined (b !! Z.to_nat i) else Undef.

Definition put_byte (b : bytes) (i v : Z) : outcome bytes :=
  let! _ := get_byte b i in Ret (<[Z.to_nat i := u8 v]> b).

(** * [Utils/Memory.cpp] *)

(** [for(; n; n--)]: a negative count never reaches 0 without overflow. *)
Fixpoint copy_bytes (dst : bytes) (d : Z) (src : bytes) (n : nat) : outcome bytes :=
  match n with
  | O => Ret dst
  | S n' =>
      let! c := defined (head src) in
      let! dst' := put_byte dst d c in
      copy_bytes dst' (d + 1) (tail src) n'
  end.

Definition memcpy (dst : bytes) (d : Z) (src : bytes) (n : Z) : outcome bytes :=
  if n <? 0 then Undef else copy_bytes dst d src (Z.to_nat n).

Fixpoint fill_bytes (dst : bytes) (d c : Z) (n : nat) : outcome bytes :=
  match n with
  | O => Ret dst
  | S n' => let! dst' := put_byte dst d c in fill_bytes dst' (d + 1) c n'
  end.

Definition memset (dst : bytes) (d c n : Z) : outcome bytes :=
  if n <? 0 then Undef else fill_bytes dst d c (Z.to_nat n).

Fixpoint strcmp (str1 str2 : bytes) : outcome Z :=
  match str1, str2 with
  | c1 :: str1', c2 :: str2' =>
      if negb (c1 =? 0) && negb (c2 =? 0) then
        if negb (c1 =? c2) then Ret (c1 - c2) else strcmp str1' str2'
      else Ret (c1 - c2)
  | _, _ => Undef
  end.

(** Unlike the function of the C library, this one tells whether the bytes are equal. *)
Fixpoint memcmp (p1 p2 : bytes) (num : nat) : outcome bool :=
  match num with
  | O => Ret true
  | S num' =>
      let! c1 := defined (head p1) in
      let! c2 := defined (head p2) in
      if negb (c1 =? c2) then Ret false else memcmp (tail p1) (tail p2) num'
  end.

(** [String::calculate_size]. *)
Fixpoint calculate_size (cstring : bytes) : outcome Z :=
  match cstring with
  | [] => Undef
  | c :: cstring' => if c =? 0 then Ret 0 else let! n := calculate_size cstring' in Ret (n + 1)
  end.

(** * [Utils/Basic.cpp] *)
Definition digit_char (tmp : Z) : Z := if tmp <? 10 then tmp + 48 else tmp + 97 - 10.

(** [do { ... } while(n /= base)]; a 64-bit number has at most 64 digits. *)
Fixpoint itoa_digits (fuel : nat) (buf : bytes) (i n base : Z) : outcome (bytes * Z) :=
  match fuel with
  | O => NoFuel
  | S fuel' =>
      let! buf := put_byte buf i (digit_char (n mod base)) in
      if n / base =? 0 then Ret (buf, i + 1) else itoa_digits fuel' buf (i + 1) (n / base) base
  end.

(** [for(j = 0; j < i; j++, i--)]: swap the ends. *)
Fixpoint itoa_reverse (fuel : nat) (buf : bytes) (j i : Z) : outcome bytes :=
  match fuel with
  | O => NoFuel
  | S fuel' =>
      if j <? i then
        let! tmp := get_byte buf j in
        let! other := get_byte buf i in
        let! buf := put_byte buf j other in
        let! buf := put_byte buf i tmp in
        itoa_reverse fuel' buf (j + 1) (i - 1)
      else Ret buf
  end.

Definition itoa (buf : bytes) (n base : Z) : outcome bytes :=
  let! r := itoa_digits 64 buf 0 n base in
  let '(buf, i) := r in
  let! buf := put_byte buf i 0 in
  itoa_reverse 64 buf 0 (i - 1).

(** The value of a digit; the three ranges of the loop of [atoi]. *)
Definition digit_value (c : Z) : option Z :=
  if (48 <=? c) && (c <=? 57) then Some (c - 48)
  else if (97 <=? c) && (c <=? 102) then Some (c - 97 + 10)
  else if (65 <=? c) && (c <=? 70) then Some (c - 65 + 10)
  else None.

Fixpoint atoi_loop (str : bytes) (base sign result : Z) : outcome Z :=
  match str with
  | [] => Undef
  | c :: str' =>
      if c =? 0 then Ret (u64 (sign * result))
      else match digit_value c with
           | Some d => atoi_loop str' base sign (u64 (result * base + d))
           | None => Ret (u64 (sign * result))
           end
  end.

Definition atoi (str : bytes) (base : Z) : outcome Z :=
  let! c := defined (head str) in
  if c =? 45 then atoi_loop (tail str) base (u64 (-1)) 0 else atoi_loop str base 1 0.

(** * Specification *)

(** The digits of a number, the least significant first. *)
Fixpoint digits (fuel : nat) (n base : Z) : list Z :=
  match fuel with
  | O => []
  | S fuel' => n mod base :: (if n / base =? 0 then [] else digits fuel' (n / base) base)
  end.

Definition numeral (n base : Z) : bytes := digit_char <$> reverse (digits 64 n base).

(** The number the digits stand for. *)
Definition value (ds : list Z) (base : Z) : Z := foldr (λ d v, d + base * v) 0 ds.

(** The bytes up to the first NUL. *)
Definition text (b : bytes) (s : bytes) : Prop :=
  ∃ rest, b = s ++ 0 :: rest ∧ Forall (λ c, c ≠ 0) s.

(** Lexicographic comparison with unsigned characters. *)
Fixpoint lex (s t : bytes) : comparison :=
  match s, t with
  | [], [] => Eq
  | [], _ :: _ => Lt
  | _ :: _, [] => Gt
  | c :: s', d :: t' => if c =? d then lex s' t' else (c ?= d)
  end.

(** * Buffers *)
Lemma get_byte_nat b (i : nat) : get_byte b (Z.of_nat i) = defined (b !! i).
Proof. unfold get_byte. rewrite (proj2 (Z.leb_le 0 _)) by lia. by rewrite Nat2Z.id. Qed.

Lemma put_byte_nat b (i : nat) v : (i < length b)%nat → put_byte b (Z.of_nat i) v = Ret (<[i := u8 v]> b).
Proof.
  intros [x Hx]%lookup_lt_is_Some_2. unfold put_byte. rewrite get_byte_nat, Hx. simpl.
  by rewrite Nat2Z.id.
Qed.

Lemma put_byte_app l c r v : put_byte (l ++ c :: r) (Z.of_nat (length l)) v = Ret (l ++ u8 v :: r).
Proof.
  rewrite put_byte_nat by (rewrite length_app; simpl; lia).
  by rewrite <- (Nat.add_0_r (length l)), insert_app_r.
Qed.

Lemma get_byte_app l c r : get_byte (l ++ c :: r) (Z.of_nat (length l)) = Ret c.
Proof. rewrite get_byte_nat. by rewrite list_lookup_middle. Qed.

Lemma copy_bytes_spec src : ∀ l mid r tl, length mid = length src → Forall is_byte src →
  copy_bytes (l ++ mid ++ r) (Z.of_nat (length l)) (src ++ tl) (length src) = Ret (l ++ src ++ r).
Proof.
  induction src as [|c src IH]; intros l [|d mid] r tl Hlen Hb; try done. simpl in Hlen.
  apply Forall_cons in Hb as [Hc Hb]. cbn [length copy_bytes app head defined obind tail].
  rewrite put_byte_app. cbn [obind]. rewrite wrap_small by done.
  replace (Z.of_nat (length l) + 1) with (Z.of_nat (length (l ++ [c]))) by (rewrite length_app; simpl; lia).
  replace (l ++ c :: mid ++ r) with ((l ++ [c]) ++ mid ++ r) by by rewrite <- app_assoc.
  rewrite IH by (done || lia). by rewrite <- app_assoc.
Qed.

(** [memcpy] replaces exactly the bytes it copies over. *)
Lemma memcpy_spec l mid r src tl :
  length mid = length src → Forall is_byte src →
  memcpy (l ++ mid ++ r) (Z.of_nat (length l)) (src ++ tl) (Z.of_nat (length src)) = Ret (l ++ src ++ r).
Proof.
  intros. unfold memcpy. rewrite (proj2 (Z.ltb_ge _ _)) by lia. rewrite Nat2Z.id. by apply copy_bytes_spec.
Qed.

Lemma fill_bytes_spec c mid : ∀ l r,
  fill_bytes (l ++ mid ++ r) (Z.of_nat (length l)) c (length mid) = Ret (l ++ replicate (length mid) (u8 c) ++ r).
Proof.
  induction mid as [|d mid IH]; intros l r; [done|]. cbn [length fill_bytes app replicate].
  rewrite put_byte_app. cbn [obind].
  replace (Z.of_nat (length l) + 1) with (Z.of_nat (length (l ++ [u8 c]))) by (rewrite length_app; simpl; lia).
  replace (l ++ u8 c :: mid ++ r) with ((l ++ [u8 c]) ++ mid ++ r) by by rewrite <- app_assoc.
  rewrite IH. by rewrite <- app_assoc.
Qed.

Lemma memset_spec l mid r c :
  memset (l ++ mid ++ r) (Z.of_nat (length l)) c (Z.of_nat (length mid)) =
    Ret (l ++ replicate (length mid) (u8 c) ++ r).
Proof.
  unfold memset. rewrite (proj2 (Z.ltb_ge _ _)) by lia. rewrite Nat2Z.id. by apply fill_bytes_spec.
Qed.

Lemma calculate_size_text b s : text b s → calculate_size b = Ret (Z.of_nat (length s)).
Proof.
  intros (rest & -> & Hs). induction Hs as [|c s Hc Hs IH]; [done|]. simpl.
  rewrite (proj2 (Z.eqb_neq c 0)) by done. rewrite IH. cbn [obind]. f_equal. lia.
Qed.

(** ** Comparisons *)
Lemma strcmp_lex s : ∀ t b1 b2, text b1 s → text b2 t → Forall is_byte s → Forall is_byte t →
  ∃ r, strcmp b1 b2 = Ret r ∧ (r ?= 0) = lex s t.
Proof.
  induction s as [|c s IH]; intros [|d t] b1 b2 (r1 & -> & H1) (r2 & -> & H2) Hb1 Hb2; simpl.
  - by exists 0.
  - exists (0 - d). split; [done|]. apply Forall_cons in H2 as [? _], Hb2 as [[? ?] _].
    apply Z.compare_lt_iff. lia.
  - rewrite andb_false_r. exists (c - 0). split; [done|]. apply Forall_cons in H1 as [? _], Hb1 as [[? ?] _].
    apply Z.compare_gt_iff. lia.
  - apply Forall_cons in H1 as [Hc H1], H2 as [Hd H2], Hb1 as [_ Hb1], Hb2 as [_ Hb2].
    rewrite (proj2 (Z.eqb_neq c 0)), (proj2 (Z.eqb_neq d 0)) by done. simpl.
    destruct (Z.eqb_spec c d) as [->|Hne]; simpl.
    + apply IH; [by exists r1|by exists r2|done|done].
    + exists (c - d). split; [done|]. symmetry. apply Z.compare_sub.
Qed.

Lemma lex_eq s t : lex s t = Eq ↔ s = t.
Proof.
  revert t. induction s as [|c s IH]; intros [|d t]; simpl; try done.
  destruct (Z.eqb_spec c d) as [->|Hne]; [rewrite IH; split; [by intros ->|by intros [= ->]]|].
  split; [|congruence]. intros ?%Z.compare_eq. done.
Qed.

Lemma memcmp_spec s : ∀ t r1 r2, length s = length t →
  memcmp (s ++ r1) (t ++ r2) (length s) = Ret (bool_decide (s = t)).
Proof.
  induction s as [|c s IH]; intros [|d t] r1 r2 Hlen; try done. simpl. simpl in Hlen.
  destruct (Z.eqb_spec c d) as [->|Hne]; simpl.
  - rewrite IH by lia. f_equal. apply bool_decide_ext. split; [by intros ->|by intros [= ->]].
  - f_equal. symmetry. apply bool_decide_false. congruence.
Qed.

(** * [itoa] *)
Lemma digits_length fuel n base : (length (digits fuel n base) ≤ fuel)%nat.
Proof. revert n. induction fuel as [|fuel IH]; intros n; simpl; [lia|]. destruct (n / base =? 0); simpl; [lia|]. specialize (IH (n / base)). lia. Qed.

(** Enough fuel: one more than the number of times the base can be divided out. *)
Lemma digits_value fuel : ∀ n base,
  2 ≤ base → 0 ≤ n < 2 ^ Z.of_nat fuel → (fuel ≠ 0)%nat → value (digits fuel n base) base = n.
Proof.
  induction fuel as [|fuel IH]; intros n base Hb Hn Hf; [done|]. cbn [digits].
  pose proof (Z.div_mod n base). destruct (Z.eqb_spec (n / base) 0) as [Hz|Hnz]; simpl; [lia|].
  assert (n / base * 2 ≤ n) as Hle by (pose proof (Z.mod_pos_bound n base); nia).
  pose proof (Z.div_pos n base). rewrite Nat2Z.inj_succ, Z.pow_succ_r in Hn by lia.
  destruct fuel as [|fuel]; [change (2 ^ Z.of_nat 0) with 1 in Hn; lia|].
  rewrite IH; [lia|done| |done]. lia.
Qed.

Lemma digits_range fuel n base : 2 ≤ base → Forall (λ d, 0 ≤ d < base) (digits fuel n base).
Proof.
  intros Hb. revert n. induction fuel as [|fuel IH]; intros n; simpl; constructor.
  - apply Z.mod_pos_bound. lia.
  - by destruct (n / base =? 0).
Qed.

Lemma digit_char_byte d : 0 ≤ d < 16 → u8 (digit_char d) = digit_char d.
Proof. intros. apply wrap_small. unfold in_word, digit_char. destruct (Z.ltb_spec d 10); lia. Qed.

Lemma digit_char_value d : 0 ≤ d < 16 → digit_value (digit_char d) = Some d ∧ digit_char d ≠ 0.
Proof.
  intros Hd. unfold digit_char. destruct (Z.ltb_spec d 10); unfold digit_value; (split; [|lia]).
  - rewrite (proj2 (Z.leb_le 48 _)), (proj2 (Z.leb_le _ 57)) by lia. simpl. f_equal. lia.
  - rewrite (proj2 (Z.leb_gt (d + 97 - 10) 57)), andb_false_r by lia.
    rewrite (proj2 (Z.leb_le 97 _)), (proj2 (Z.leb_le _ 102)) by lia. simpl. f_equal. lia.
Qed.

(** The digits are written in order, the least significant first. *)
Lemma itoa_digits_spec fuel : ∀ l mid r n base,
  2 ≤ base ≤ 16 → 0 ≤ n < 2 ^ Z.of_nat fuel → (fuel ≠ 0)%nat →
  length mid = length (digits fuel n base) →
  itoa_digits fuel (l ++ mid ++ r) (Z.of_nat (length l)) n base =
    Ret (l ++ (digit_char <$> digits fuel n base) ++ r, Z.of_nat (length l + length mid)).
Proof.
  induction fuel as [|fuel IH]; intros l mid r n base Hb Hn Hf Hlen; [done|].
  cbn [itoa_digits digits] in *. destruct mid as [|c mid]; [by destruct (n / base =? 0)|]. cbn [app].
  rewrite put_byte_app. cbn [obind].
  assert (0 ≤ n mod base < base) as Hmod by (apply Z.mod_pos_bound; lia).
  rewrite digit_char_byte by lia. pose proof (Z.div_mod n base).
  destruct (Z.eqb_spec (n / base) 0) as [Hz|Hnz].
  - destruct mid; [|done]. cbn. do 2 f_equal. lia.
  - assert (n / base * 2 ≤ n) as Hle by nia.
    pose proof (Z.div_pos n base). rewrite Nat2Z.inj_succ, Z.pow_succ_r in Hn by lia.
    destruct fuel as [|fuel]; [change (2 ^ Z.of_nat 0) with 1 in Hn; lia|].
    replace (Z.of_nat (length l) + 1) with (Z.of_nat (length (l ++ [digit_char (n mod base)])))
      by (rewrite length_app; simpl; lia).
    replace (l ++ digit_char (n mod base) :: mid ++ r) with ((l ++ [digit_char (n mod base)]) ++ mid ++ r)
      by by rewrite <- app_assoc.
    rewrite IH by (done || lia || (simpl in *; lia)). rewrite <- app_assoc.
    cbn [fmap list_fmap]. simpl app. do 2 f_equal. rewrite length_app. simpl. lia.
Qed.

(** The swaps reverse what lies between [j] and [i]. *)
Lemma itoa_reverse_spec fuel : ∀ l mid r,
  Forall is_byte mid → (length mid < 2 * fuel)%nat →
  itoa_reverse fuel (l ++ mid ++ r) (Z.of_nat (length l)) (Z.of_nat (length l) + Z.of_nat (length mid) - 1) =
    Ret (l ++ reverse mid ++ r).
Proof.
  induction fuel as [|fuel IH]; intros l mid r Hb Hf; [lia|]. cbn [itoa_reverse].
  destruct mid as [|c mid]; [rewrite (proj2 (Z.ltb_ge _ _)) by (simpl; lia); done|].
  destruct mid as [|d mid _] using rev_ind; [rewrite (proj2 (Z.ltb_ge _ _)) by (simpl; lia); done|].
  apply Forall_cons in Hb as [Hc [Hb [Hd _]%Forall_cons]%Forall_app].
  rewrite (proj2 (Z.ltb_lt _ _)) by (simpl; rewrite length_app; simpl; lia).
  cbn [app]. rewrite get_byte_app. cbn [obind].
  set (i := Z.of_nat (length l) + Z.of_nat (length (c :: mid ++ [d])) - 1).
  assert (∀ x, i = Z.of_nat (length (l ++ x :: mid))) as Hi.
  { intros x. unfold i. simpl. rewrite !length_app. simpl. lia. }
  assert (∀ x y, l ++ x :: (mid ++ [y]) ++ r = (l ++ x :: mid) ++ y :: r) as Happ.
  { intros x y. by rewrite <- !app_assoc. }
  rewrite (Hi c), Happ, get_byte_app. cbn [obind]. rewrite <- Happ, put_byte_app. cbn [obind].
  rewrite <- (Hi c), (Hi (u8 d)), Happ, put_byte_app. cbn [obind]. rewrite !wrap_small by done.
  replace (Z.of_nat (length l) + 1) with (Z.of_nat (length (l ++ [d]))) by (rewrite length_app; simpl; lia).
  replace (Z.of_nat (length (l ++ d :: mid)) - 1) with
    (Z.of_nat (length (l ++ [d])) + Z.of_nat (length mid) - 1) by (rewrite !length_app; simpl; lia).
  replace ((l ++ d :: mid) ++ c :: r) with ((l ++ [d]) ++ mid ++ (c :: r)) by by rewrite <- !app_assoc.
  rewrite IH by (try done; simpl in Hf; rewrite length_app in Hf; simpl in Hf; lia).
  rewrite reverse_cons, reverse_app, <- !app_assoc. done.
Qed.

(** Digits, terminator and swaps together, for any fuel that suffices. *)
Lemma itoa_passes fuel buf n base :
  2 ≤ base ≤ 16 → 0 ≤ n < 2 ^ Z.of_nat fuel → (fuel ≠ 0)%nat →
  (length (digits fuel n base) < length buf)%nat →
  ∃ rest,
    (let! r := itoa_digits fuel buf 0 n base in
     let '(buf, i) := r in
     let! buf := put_byte buf i 0 in
     itoa_reverse fuel buf 0 (i - 1)) = Ret ((digit_char <$> reverse (digits fuel n base)) ++ 0 :: rest) ∧
    length ((digit_char <$> reverse (digits fuel n base)) ++ 0 :: rest) = length buf.
Proof.
  intros Hb Hn Hf Hlen. pose proof (digits_length fuel n base) as Hdl.
  set (ds := digits fuel n base) in *. set (k := length ds) in *.
  assert (∃ mid c rest, buf = mid ++ c :: rest ∧ length mid = k) as (mid & c & rest & -> & Hk).
  { destruct (drop k buf) as [|c rest] eqn:Hd.
    - apply (f_equal length) in Hd. rewrite length_drop in Hd. simpl in Hd. lia.
    - exists (take k buf), c, rest. rewrite <- Hd, take_drop. split; [done|]. rewrite length_take. lia. }
  exists rest. pose proof (itoa_digits_spec fuel [] mid (c :: rest) n base Hb Hn Hf Hk) as Hd.
  cbn [app length Nat.add] in Hd. change (Z.of_nat 0) with 0 in Hd. fold ds in Hd. rewrite Hd. cbn [obind].
  set (cs := digit_char <$> ds). assert (length cs = k) as Hcs by apply length_fmap.
  rewrite Hk, <- Hcs, put_byte_app. cbn [obind].
  assert (Forall is_byte cs) as Hbytes.
  { unfold cs. apply Forall_fmap. eapply Forall_impl; [apply digits_range; lia|]. intros d Hd'. simpl.
    cbv beta in Hd'. unfold is_byte. rewrite <- digit_char_byte by lia. by apply wrap_bound. }
  pose proof (itoa_reverse_spec fuel [] cs (u8 0 :: rest) Hbytes ltac:(lia)) as Hr.
  cbn [app length] in Hr. change (Z.of_nat 0) with 0 in Hr. rewrite Z.add_0_l in Hr.
  rewrite Hr, fmap_reverse. split; [done|].
  rewrite !length_app, length_reverse. cbn [length]. fold cs. lia.
Qed.

(** [itoa] writes the numeral and a NUL, and nothing else. *)
Lemma itoa_spec buf n base :
  2 ≤ base ≤ 16 → in_word 64 n → (length (numeral n base) < length buf)%nat →
  ∃ rest, itoa buf n base = Ret (numeral n base ++ 0 :: rest) ∧
    length (numeral n base ++ 0 :: rest) = length buf.
Proof.
  intros Hb Hn Hlen. unfold numeral in Hlen. rewrite length_fmap, length_reverse in Hlen.
  exact (itoa_passes 64 buf n base Hb Hn (Nat.neq_succ_0 63) Hlen).
Qed.

(** A number below [base ^ k] has at most [k] digits. *)
Lemma digits_short fuel : ∀ n base k,
  2 ≤ base → (1 ≤ k)%nat → 0 ≤ n < base ^ Z.of_nat k → (length (digits fuel n base) ≤ k)%nat.
Proof.
  induction fuel as [|fuel IH]; intros n base k Hb Hk Hn; cbn [digits]; [simpl; lia|].
  destruct (Z.eqb_spec (n / base) 0) as [Hz|Hz]; cbn [length]; [lia|].
  destruct k as [|[|k]]; [lia| |].
  - change (base ^ Z.of_nat 1) with (base ^ 1) in Hn. rewrite Z.pow_1_r in Hn.
    by rewrite Z.div_small in Hz by lia.
  - apply le_n_S, IH; [done|lia|]. rewrite Nat2Z.inj_succ, Z.pow_succ_r in Hn by lia.
    split; [apply Z.div_pos; lia|apply Z.div_lt_upper_bound; lia].
Qed.

(** A number that is not below [base ^ k] has more than [k] digits. *)
Lemma digits_long fuel : ∀ n base k,
  2 ≤ base → 0 ≤ n < 2 ^ Z.of_nat fuel → base ^ Z.of_nat k ≤ n → (k < length (digits fuel n base))%nat.
Proof.
  induction fuel as [|fuel IH]; intros n base k Hb Hn Hk.
  { change (2 ^ Z.of_nat 0) with 1 in Hn. pose proof (Z.pow_pos_nonneg base (Z.of_nat k)). lia. }
  cbn [digits]. destruct k as [|k]; [cbn [length]; lia|].
  rewrite Nat2Z.inj_succ, Z.pow_succ_r in Hk by lia. rewrite Nat2Z.inj_succ, Z.pow_succ_r in Hn by lia.
  pose proof (Z.pow_pos_nonneg base (Z.of_nat k)).
  assert (base ^ Z.of_nat k ≤ n / base) as Hd by (apply Z.div_le_lower_bound; lia).
  rewrite (proj2 (Z.eqb_neq (n / base) 0)) by lia. cbn [length]. apply le_n_S, IH; [done| |done].
  split; [lia|]. apply Z.div_lt_upper_bound; nia.
Qed.

(** A buffer that the digits fill exactly has no room for the terminator. *)
Lemma itoa_full buf n base :
  2 ≤ base ≤ 16 → in_word 64 n → length buf = length (numeral n base) → itoa buf n base = Undef.
Proof.
  intros Hb Hn Hlen. unfold numeral in Hlen. rewrite length_fmap, length_reverse in Hlen.
  pose proof (itoa_digits_spec 64 [] buf [] n base Hb Hn (Nat.neq_succ_0 63) Hlen) as Hd.
  cbn [app] in Hd. rewrite !app_nil_r in Hd. change (Z.of_nat (length (@nil Z))) with 0 in Hd.
  unfold itoa. rewrite Hd. cbn [obind length Nat.add]. unfold put_byte. rewrite get_byte_nat.
  rewrite lookup_ge_None_2; [reflexivity|]. rewrite length_fmap. lia.
Qed.

Lemma numeral_short n base k :
  2 ≤ base → (1 ≤ k)%nat → 0 ≤ n < base ^ Z.of_nat k → (length (numeral n base) ≤ k)%nat.
Proof.
  intros. unfold numeral. rewrite length_fmap, length_reverse. by apply digits_short.
Qed.

(** * [atoi] *)
Lemma atoi_loop_digits ds : ∀ base sign v rest,
  2 ≤ base ≤ 16 → Forall (λ d, 0 ≤ d < base) ds → 0 ≤ v →
  foldl (λ v d, v * base + d) v ds < 2 ^ 64 →
  atoi_loop ((digit_char <$> ds) ++ 0 :: rest) base sign v =
    Ret (u64 (sign * foldl (λ v d, v * base + d) v ds)).
Proof.
  induction ds as [|d ds IH]; intros base sign v rest Hb Hds Hv Hf; [done|]. cbn [foldl fmap list_fmap app atoi_loop] in *.
  apply Forall_cons in Hds as [Hd Hds]. destruct (digit_char_value d) as [Hval Hnz]; [lia|].
  rewrite (proj2 (Z.eqb_neq (digit_char d) 0)), Hval by done.
  assert (∀ us w, 0 ≤ w → Forall (λ d, 0 ≤ d < base) us → w ≤ foldl (λ v d, v * base + d) w us) as Hmono.
  { clear -Hb. induction us as [|u us IHu]; intros w Hw Hus; simpl; [lia|].
    apply Forall_cons in Hus as [? ?]. etrans; [|apply IHu; [nia|done]]. nia. }
  rewrite wrap_small; [by apply IH; [..|nia|]|].
  pose proof (Hmono ds (v * base + d) ltac:(nia) Hds). unfold in_word. nia.
Qed.

Lemma foldl_value base ds : ∀ v,
  foldl (λ v d, v * base + d) v (reverse ds) = value ds base + v * base ^ Z.of_nat (length ds).
Proof.
  induction ds as [|d ds IH]; intros v; [simpl; lia|].
  rewrite reverse_cons, foldl_app, IH. cbn [foldl length].
  change (value (d :: ds) base) with (d + base * value ds base).
  rewrite Nat2Z.inj_succ, Z.pow_succ_r by lia. lia.
Qed.

Lemma numeral_head n base : 2 ≤ base ≤ 16 →
  ∃ c s, numeral n base = c :: s ∧ c ≠ 45 ∧ Forall (λ c, c ≠ 0) (numeral n base).
Proof.
  intros Hb. unfold numeral. pose proof (digits_range 64 n base ltac:(lia)) as Hr.
  assert (reverse (digits 64 n base) ≠ []) as Hne.
  { intros H. apply (f_equal length) in H. rewrite length_reverse in H. done. }
  apply Forall_reverse in Hr. destruct (reverse (digits 64 n base)) as [|d ds]; [done|].
  exists (digit_char d), (digit_char <$> ds). split; [done|]. split.
  - apply Forall_cons in Hr as [? _]. unfold digit_char. destruct (Z.ltb_spec d 10); lia.
  - apply Forall_fmap. eapply Forall_impl; [exact Hr|]. intros x Hx. cbv beta in Hx. simpl. apply digit_char_value. lia.
Qed.

Lemma atoi_numeral n base rest :
  2 ≤ base ≤ 16 → in_word 64 n → atoi (numeral n base ++ 0 :: rest) base = Ret n.
Proof.
  intros Hb Hn. destruct (numeral_head n base Hb) as (c & s & Hcs & Hc & _). unfold atoi.
  rewrite Hcs. cbn [app head defined obind]. rewrite (proj2 (Z.eqb_neq c 45)) by done.
  change (c :: s ++ 0 :: rest) with ((c :: s) ++ 0 :: rest). rewrite <- Hcs. unfold numeral.
  rewrite atoi_loop_digits; [|done| |lia|].
  - rewrite foldl_value, digits_value by (exact Hn || lia).
    rewrite Z.mul_0_l, Z.add_0_r, Z.mul_1_l. by rewrite wrap_small.
  - apply Forall_reverse, digits_range. lia.
  - rewrite foldl_value, digits_value by (exact Hn || lia). unfold in_word in Hn. lia.
Qed.

(** * Properties *)

(** For the bases 2 to 16, [itoa] of any 64-bit number into a buffer that is
    longer than its numeral stays inside the buffer and terminates it, and
    [atoi] of the result is the number. *)
Theorem itoa_atoi buf n base :
  2 ≤ base ≤ 16 → in_word 64 n → (length (numeral n base) < length buf)%nat →
  ∃ buf', itoa buf n base = Ret buf' ∧ length buf' = length buf ∧
    text buf' (numeral n base) ∧ atoi buf' base = Ret n.
Proof.
  intros Hb Hn Hlen. destruct (itoa_spec buf n base Hb Hn Hlen) as (rest & Hi & Hl).
  destruct (numeral_head n base Hb) as (_ & _ & _ & _ & Hnz).
  eexists. split; [done|]. split; [done|]. split; [by exists rest|]. by apply atoi_numeral.
Qed.

(** [strcmp] compares NUL-terminated strings lexicographically by unsigned
    bytes, and is 0 exactly on equal strings; [memcmp] is true exactly when the
    first bytes agree. *)
Theorem comparisons b1 b2 s t :
  text b1 s → text b2 t → Forall is_byte s → Forall is_byte t →
  (∃ r, strcmp b1 b2 = Ret r ∧ (r ?= 0) = lex s t ∧ (r = 0 ↔ s = t)) ∧
  (length s = length t → memcmp b1 b2 (length s) = Ret (bool_decide (s = t))).
Proof.
  intros H1 H2 Hb1 Hb2. split.
  - destruct (strcmp_lex s t b1 b2) as (r & Hr & Hl); [done..|]. exists r. split; [done|]. split; [done|].
    rewrite <- lex_eq, <- Hl, Z.compare_eq_iff. done.
  - intros Hlen. destruct H1 as (r1 & -> & _), H2 as (r2 & -> & _). by apply memcmp_spec.
Qed.

(** ** Witnesses *)
Lemma itoa_atoi_witness :
  ∃ buf', itoa (replicate 5 7) 48879 16 = Ret buf' ∧ atoi buf' 16 = Ret 48879 ∧
    numeral 48879 16 = [98; 101; 101; 102].
Proof.
  destruct (itoa_atoi (replicate 5 7) 48879 16 ltac:(lia) ltac:(by vm_compute) ltac:(by apply Nat.ltb_lt))
    as (buf' & Hi & _ & _ & Ha).
  exists buf'. by split_and!.
Defined.

Lemma comparisons_witness : ∃ r, strcmp [97; 98; 0] [97; 99; 0; 5] = Ret r ∧ (r ?= 0) = Lt.
Proof.
  destruct (comparisons [97; 98; 0] [97; 99; 0; 5] [97; 98] [97; 99]
    ltac:(exists []; split; [done|by apply (bool_decide_unpack _)])
    ltac:(exists [5]; split; [done|by apply (bool_decide_unpack _)])
    ltac:(by apply (bool_decide_unpack _)) ltac:(by apply (bool_decide_unpack _))) as [(r & Hr & Hl & _) _].
  by exists r.
Defined.
