(* ===== verification/Endian.v ===== *)
(** Values kept in a chosen byte order: [Utils/Endian.h], on a little-endian
    machine.  An [Endian<T, E>] is the word as the machine reads it; its bytes
    in memory are the little-endian bytes of that word. *)
From S2P Require Import Prelude Bits Bytes.

Inductive Endianness : Type := Big | Little.

(** The bytes of a word in memory, lowest address first, and back. *)
Fixpoint le_bytes (n : nat) (v : Z) : bytes :=
  match n with
  | O => []
  | S n' => v mod 256 :: le_bytes n' (v / 256)
  end.

Fixpoint of_le_bytes (l : bytes) : Z :=
  match l with
  | [] => 0
  | b :: l' => b + 256 * of_le_bytes l'
  end.

(** [__builtin_bswap64], [32] and [16]. *)
Definition bswap (n : nat) (v : Z) : Z := of_le_bytes (reverse (le_bytes n v)).

(** [swap_endian]: by [sizeof(T)]. *)
Definition swap_endian (size : nat) (val : Z) : Z :=
  if Nat.eqb size 8 then bswap 8 val
  else if Nat.eqb size 4 then bswap 4 val
  else if Nat.eqb size 2 then bswap 2 val
  else val.

Section Endian.
Context (E : Endianness) (size : nat).

(** [to_specific_endian]; the constructor and [operator=] have its body once more. *)
Definition to_specific_endian (value : Z) : Z :=
  match E with Big => swap_endian size value | Little => value end.

Definition endian_new (value : Z) : Z :=
  match E with Big => swap_endian size value | Little => value end.

Definition endian_assign (stored val : Z) : Z :=
  match E with Big => swap_endian size val | Little => val end.

(** [operator*] and [in_system_endian]. *)
Definition in_system_endian (stored : Z) : Z :=
  match E with Big => swap_endian size stored | Little => stored end.

(** [operator++] and [operator--]. *)
Definition endian_increment (stored : Z) : Z :=
  to_specific_endian (wrap (8 * Z.of_nat size) (in_system_endian stored + 1)).

Definition endian_decrement (stored : Z) : Z :=
  to_specific_endian (wrap (8 * Z.of_nat size) (in_system_endian stored - 1)).

(** [emplace] and [in_specified_endian] are the word as it is.  The operators with a
    value give a value; dividing by 0 is undefined. *)
Definition emplace (value : Z) : Z := value.
Definition in_specified_endian (stored : Z) : Z := stored.

Definition endian_plus (stored val : Z) : Z := wrap (8 * Z.of_nat size) (in_system_endian stored + val).
Definition endian_minus (stored val : Z) : Z := wrap (8 * Z.of_nat size) (in_system_endian stored - val).
Definition endian_mod (stored val : Z) : outcome Z := if val =? 0 then Undef else Ret (in_system_endian stored mod val).
Definition endian_div (stored val : Z) : outcome Z := if val =? 0 then Undef else Ret (in_system_endian stored / val).
End Endian.

(** * Bytes of words *)
Lemma le_bytes_length n : ∀ v, length (le_bytes n v) = n.
Proof. induction n as [|n IH]; intros v; simpl; [done|]. by rewrite IH. Qed.

Lemma le_bytes_range n : ∀ v, Forall is_byte (le_bytes n v).
Proof. induction n as [|n IH]; intros v; simpl; constructor; [|done]. by apply Z.mod_pos_bound. Qed.

Lemma of_le_bytes_range l : Forall is_byte l → in_word (8 * Z.of_nat (length l)) (of_le_bytes l).
Proof.
  unfold in_word. induction 1 as [|b l Hb _ IH]; simpl; [done|]. unfold is_byte, in_word in Hb.
  replace (8 * Z.of_nat (S (length l))) with (8 + 8 * Z.of_nat (length l)) by lia.
  rewrite Z.pow_add_r by lia. change (2 ^ 8) with 256 in *. nia.
Qed.

Lemma of_le_bytes_le n : ∀ v, in_word (8 * Z.of_nat n) v → of_le_bytes (le_bytes n v) = v.
Proof.
  induction n as [|n IH]; intros v Hv; simpl; [unfold in_word in Hv; simpl in Hv; lia|].
  unfold in_word in *. replace (8 * Z.of_nat (S n)) with (8 + 8 * Z.of_nat n) in Hv by lia.
  rewrite Z.pow_add_r in Hv by lia. change (2 ^ 8) with 256 in Hv.
  rewrite IH; [pose proof (Z.div_mod v 256); lia|].
  split; [apply Z.div_pos; lia|apply Z.div_lt_upper_bound; lia].
Qed.

Lemma le_bytes_of_le l : Forall is_byte l → le_bytes (length l) (of_le_bytes l) = l.
Proof.
  induction 1 as [|b l Hb _ IH]; simpl; [done|]. unfold is_byte, in_word in Hb. change (2 ^ 8) with 256 in Hb.
  rewrite (Z.mul_comm 256), Z_mod_plus_full, Z.div_add by lia.
  rewrite Z.mod_small, (Z.div_small b) by lia. by rewrite Z.add_0_l, IH.
Qed.

Lemma le_bytes_bswap n v : le_bytes n (bswap n v) = reverse (le_bytes n v).
Proof.
  pose proof (le_bytes_of_le (reverse (le_bytes n v))) as H.
  rewrite length_reverse, le_bytes_length in H. apply H, Forall_reverse, le_bytes_range.
Qed.

Lemma bswap_bswap n v : in_word (8 * Z.of_nat n) v → bswap n (bswap n v) = v.
Proof. intros Hv. unfold bswap at 1. by rewrite le_bytes_bswap, reverse_involutive, of_le_bytes_le. Qed.

Definition size_ok (size : nat) : Prop := size = 1%nat ∨ size = 2%nat ∨ size = 4%nat ∨ size = 8%nat.

Lemma swap_endian_bswap size v :
  size_ok size → in_word (8 * Z.of_nat size) v → swap_endian size v = bswap size v.
Proof.
  intros [-> | [-> | [-> | ->]]] Hv; try reflexivity. unfold swap_endian. simpl.
  unfold bswap. simpl. rewrite Z.mul_0_r, Z.add_0_r. symmetry. by apply Z.mod_small.
Qed.

Lemma bswap_word size v : in_word (8 * Z.of_nat size) (bswap size v).
Proof.
  pose proof (of_le_bytes_range (reverse (le_bytes size v))) as H.
  rewrite length_reverse, le_bytes_length in H. apply H, Forall_reverse, le_bytes_range.
Qed.

Lemma system_to_specific E size v : size_ok size → in_word (8 * Z.of_nat size) v →
  in_system_endian E size (to_specific_endian E size v) = v.
Proof.
  intros Hs Hv. unfold in_system_endian, to_specific_endian. destruct E; [|done].
  rewrite (swap_endian_bswap size v) by done. rewrite swap_endian_bswap by (done || apply bswap_word).
  by apply bswap_bswap.
Qed.

(** * Properties *)

(** For every size of integer, reading back a value gives it, the value
    lies in memory in the chosen byte order, and the increment and decrement
    operators add and subtract 1 modulo the width. *)
Theorem endian_value E size v :
  size_ok size → in_word (8 * Z.of_nat size) v →
  in_system_endian E size (to_specific_endian E size v) = v ∧
  le_bytes size (to_specific_endian E size v) =
    match E with Big => reverse (le_bytes size v) | Little => le_bytes size v end ∧
  in_system_endian E size (endian_increment E size (to_specific_endian E size v)) =
    wrap (8 * Z.of_nat size) (v + 1) ∧
  in_system_endian E size (endian_decrement E size (to_specific_endian E size v)) =
    wrap (8 * Z.of_nat size) (v - 1).
Proof.
  intros Hs Hv. pose proof (system_to_specific E size) as Hrt.
  split; [by apply Hrt|]. split.
  - unfold to_specific_endian. destruct E; [|done]. rewrite swap_endian_bswap by done. apply le_bytes_bswap.
  - unfold endian_increment, endian_decrement. rewrite (Hrt v) by done.
    split; (apply Hrt; [done|]); apply wrap_bound; lia.
Qed.

(** However a value is stored, the operators with a value are those of the integers,
    modulo the width; a quotient and a remainder need no wrapping. *)
Theorem endian_arithmetic E size v w :
  size_ok size → in_word (8 * Z.of_nat size) v → in_word (8 * Z.of_nat size) w →
  ∀ stored, stored = endian_new E size v ∨ (∃ old, stored = endian_assign E size old v) →
  endian_plus E size stored w = (v + w) mod 2 ^ (8 * Z.of_nat size) ∧
  endian_minus E size stored w = (v - w) mod 2 ^ (8 * Z.of_nat size) ∧
  (w ≠ 0 → ∃ q r, endian_div E size stored w = Ret q ∧ endian_mod E size stored w = Ret r ∧
     v = w * q + r ∧ 0 ≤ r < w ∧ in_word (8 * Z.of_nat size) q) ∧
  (w = 0 → endian_div E size stored w = Undef ∧ endian_mod E size stored w = Undef).
Proof.
  intros Hs Hv Hw stored Hst. assert (stored = to_specific_endian E size v) as -> by (destruct Hst as [->|[? ->]]; done).
  unfold endian_plus, endian_minus, endian_div, endian_mod. rewrite system_to_specific by done. split; [done|]. split; [done|]. unfold in_word in *. split.
  - intros Hne. rewrite (proj2 (Z.eqb_neq _ _)) by done. exists (v / w), (v mod w). split; [done|]. split; [done|].
    split; [apply Z.div_mod; done|]. split; [apply Z.mod_pos_bound; lia|]. split; [apply Z.div_pos; lia|].
    apply Z.le_lt_trans with v; [|lia]. apply Z.div_le_upper_bound; nia.
  - intros ->. done.
Qed.

Lemma endian_value_witness :
  le_bytes 4 (to_specific_endian Big 4 305419896) = [18; 52; 86; 120].
Proof.
  rewrite (proj1 (proj2 (endian_value Big 4 305419896 ltac:(unfold size_ok; auto) ltac:(by vm_compute)))).
  reflexivity.
Defined.
