(* ===== verification/Strings.v ===== *)
(** Strings: [StringValue], [String], [StringView], [StringBuilder] and
    [Formatter] of [Utils/Strings].

    A [String] is the [StringValue] it holds; objects that share one or hold none
    are in [StringObjects.v].  Heap exhaustion is not modelled.  The
    buffer of a string is its text, a NUL and possibly more; [chars] is the text
    as the length delimits it. *)
From S2P Require Import Prelude Bits Bytes.

(** * [class StringValue] *)
Inductive ValueType : Type := ASCII | UTF16.

Record StringValue : Type := mkString {
  m_value : bytes;
  m_length : Z;
  m_type : ValueType
}.

(** [new char[n]]: every byte is written below before it is read. *)
Definition new_chars (n : Z) : bytes := replicate (Z.to_nat n) 0.

(** The conversion of a [size_t] to the [int] parameter of [memcpy]. *)
Definition to_int (x : Z) : Z := if u32 x <? 2 ^ 31 then u32 x else u32 x - 2 ^ 32.

Definition create (cstring : bytes) (length : Z) : outcome StringValue :=
  let b := new_chars (length + 1) in
  let! b := if negb (length =? 0) then memcpy b 0 cstring (to_int length) else Ret b in
  let! b := put_byte b length 0 in
  Ret (mkString b length ASCII).

Definition adopt (cstring : bytes) : outcome StringValue :=
  let! length := calculate_size cstring in Ret (mkString cstring length ASCII).

Definition append (this other : StringValue) : outcome StringValue :=
  let new_length := m_length this + m_length other in
  let b := new_chars (new_length + 1) in
  let! b := memcpy b 0 (m_value this) (to_int (m_length this)) in
  let! b := memcpy b (m_length this) (m_value other) (to_int (m_length other)) in
  let! b := put_byte b new_length 0 in
  Ret (mkString b new_length (m_type this)).

Definition append_char (this : StringValue) (c : Z) : outcome StringValue :=
  let new_length := m_length this + 1 in
  let b := new_chars (new_length + 1) in
  let! b := memcpy b 0 (m_value this) (to_int (m_length this)) in
  let! b := put_byte b (m_length this) c in
  let! b := put_byte b new_length 0 in
  Ret (mkString b new_length (m_type this)).

(** [string] as its bytes, two for each unit. *)
Definition from_utf16 (string : bytes) (length : Z) : outcome StringValue :=
  let b := new_chars (length * 2 + 2) in
  let! b := if negb (length =? 0) then memcpy b 0 string (to_int length * 2) else Ret b in
  let! b := put_byte b (length * 2) 0 in
  let! b := put_byte b (length * 2 + 1) 0 in
  Ret (mkString b length UTF16).

(** [operator[]]: a UTF-16 value is read one byte further. *)
Definition char_at (s : StringValue) (index : Z) : outcome Z :=
  runtime_assert ((0 <=? index) && (index <? m_length s))
    (match m_type s with
     | ASCII => get_byte (m_value s) index
     | UTF16 => get_byte (m_value s) (index + 1)
     end).

(** * [class String] *)
Abbreviation String := StringValue.

Definition of_cstring (value : bytes) : outcome String :=
  let! n := calculate_size value in create value n.

Definition to_lower (c : Z) : Z := if (65 <=? c) && (c <=? 90) then c + 32 else c.
Definition to_upper (c : Z) : Z := if (97 <=? c) && (c <=? 122) then c - 32 else c.

(** The loop of the comparisons: [n] positions, read at both sides. *)
Fixpoint same_chars (f : Z → Z) (a b : bytes) (n : nat) : outcome bool :=
  match n with
  | O => Ret true
  | S n' =>
      let! c := defined (head a) in
      let! d := defined (head b) in
      if negb (f c =? f d) then Ret false else same_chars f (tail a) (tail b) n'
  end.

Definition equals_cstring (s : String) (other : bytes) : outcome bool :=
  let! n := calculate_size other in
  if negb (m_length s =? n) then Ret false
  else same_chars (λ c, c) (m_value s) other (Z.to_nat (m_length s)).

Definition equals (s other : String) : outcome bool := equals_cstring s (m_value other).

Definition equals_ignore_case_cstring (s : String) (other : bytes) : outcome bool :=
  let! n := calculate_size other in
  if negb (m_length s =? n) then Ret false
  else same_chars to_lower (m_value s) other (Z.to_nat (m_length s)).

Definition equals_ignore_case (s other : String) : outcome bool :=
  equals_ignore_case_cstring s (m_value other).

(** [starts_with]: positions [i] to [i + n - 1]. *)
Fixpoint starts_with_loop (s other : String) (i : Z) (n : nat) : outcome bool :=
  match n with
  | O => Ret true
  | S n' =>
      let! c := get_byte (m_value s) i in
      let! d := char_at other i in
      if negb (c =? d) then Ret false else starts_with_loop s other (i + 1) n'
  end.

Definition starts_with (s other : String) : outcome bool :=
  if m_length s <? m_length other then Ret false
  else starts_with_loop s other 0 (Z.to_nat (m_length other)).

Definition to_uint (s : String) (base : Z) : outcome Z := atoi (m_value s) base.

(** [operator+]: two appends to an empty string. *)
Definition concat (s other : String) : outcome String :=
  let! result := of_cstring [0] in
  let! result := append result s in
  append result other.

(** [repeat]: the two copying loops. *)
Fixpoint repeat_inner (buffer : bytes) (at_ : Z) (string : bytes) (n : nat) : outcome bytes :=
  match n with
  | O => Ret buffer
  | S n' =>
      let! c := defined (head string) in
      let! buffer := put_byte buffer at_ c in
      repeat_inner buffer (at_ + 1) (tail string) n'
  end.

Fixpoint repeat_outer (buffer : bytes) (string : bytes) (string_length i : Z) (n : nat) : outcome bytes :=
  match n with
  | O => Ret buffer
  | S n' =>
      let! buffer := repeat_inner buffer (u64 (i * string_length)) string (Z.to_nat string_length) in
      repeat_outer buffer string string_length (i + 1) n'
  end.

Definition repeat (string : bytes) (count : Z) : outcome String :=
  if count =? 0 then of_cstring [0]
  else
    let! string_length := calculate_size string in
    let length := u64 (string_length * count) in
    let! buffer := repeat_outer (new_chars (length + 1)) string string_length 0 (Z.to_nat count) in
    let! buffer := put_byte buffer length 0 in
    adopt buffer.

Definition from_int (value : Z) : outcome String :=
  let! buffer := itoa (new_chars 20) (u64 value) 10 in adopt buffer.

Definition from_u64 (value : Z) : outcome String :=
  let! buffer := itoa (new_chars 22) value 10 in adopt buffer.

(** ** [split] *)

(** [for(j = i + 1; j < length && separator.length() > 1; j++)]. *)
Fixpoint split_match (s separator : String) (i j : Z) (n : nat) : outcome bool :=
  match n with
  | O => Ret true
  | S n' =>
      if 1 <? m_length separator then
        let! c := get_byte (m_value s) j in
        let! d := char_at separator (j - i) in
        if negb (c =? d) then Ret false else split_match s separator i (j + 1) n'
      else Ret true
  end.

(** The substring [String(m_value->value() + last_index, i - last_index)]. *)
Definition substring (s : String) (from length : Z) : outcome String :=
  create (drop (Z.to_nat from) (m_value s)) length.

Fixpoint split_loop (s separator : String) (i last_index : Z) (result : list String) (n : nat) :
    outcome (Z * list String) :=
  match n with
  | O => Ret (last_index, result)
  | S n' =>
      let! c := get_byte (m_value s) i in
      let! d := char_at separator 0 in
      if c =? d then
        if (i =? 0) || (i =? m_length s - 1) then
          split_loop s separator (i + 1) (i + 1) result n'
        else
          let! found := split_match s separator i (i + 1) (Z.to_nat (m_length s - (i + 1))) in
          if found : bool then
            let! result :=
              if 0 <? u64 (i - last_index) then
                let! part := substring s last_index (u64 (i - last_index)) in
                Ret (result ++ [part])
              else Ret result in
            split_loop s separator (i + 1) (i + m_length separator) result n'
          else split_loop s separator (i + 1) last_index result n'
      else split_loop s separator (i + 1) last_index result n'
  end.

Definition split (s separator : String) : outcome (list String) :=
  let! r := split_loop s separator 0 0 [] (Z.to_nat (m_length s)) in
  let '(last_index, result) := r in
  if (last_index <? m_length s) && (0 <? u64 (m_length s - last_index)) then
    let! part := substring s last_index (u64 (m_length s - last_index)) in
    Ret (result ++ [part])
  else Ret result.

(** * [class StringView]: a string value and an offset into it *)
Record StringView : Type := mkView { sv_value : StringValue; m_offset : Z }.

Definition view_value (v : StringView) : bytes := drop (Z.to_nat (m_offset v)) (m_value (sv_value v)).
Definition view_length (v : StringView) : Z := u64 (m_length (sv_value v) - m_offset v).

(** [value()] already adds the offset; [operator[]] adds it again. *)
Definition view_char_at (v : StringView) (index : Z) : outcome Z :=
  get_byte (view_value v) (u64 (m_offset v + index)).

(** The comparisons of a view use its whole value. *)
Definition view_equals_cstring (v : StringView) (other : bytes) : outcome bool :=
  equals_cstring (sv_value v) other.

Definition view_equals (v other : StringView) : outcome bool :=
  view_equals_cstring v (view_value other).

(** * [class StringBuilder] *)
Definition DEFAULT_CAPACITY : Z := 16.

Record StringBuilder : Type := mkBuilder { m_data : bytes; m_capacity : Z; m_size : Z }.

Section StringBuilder.
(** What a fresh [new char[n]] contains. *)
Context (junk : Z).

Definition StringBuilder_new : StringBuilder :=
  mkBuilder (replicate (Z.to_nat DEFAULT_CAPACITY) junk) DEFAULT_CAPACITY 0.

Definition grow (b : StringBuilder) (new_capacity : Z) : outcome StringBuilder :=
  let new_capacity := u64 (new_capacity + DEFAULT_CAPACITY) in
  let! d := memcpy (replicate (Z.to_nat new_capacity) junk) 0 (m_data b) (to_int (m_size b)) in
  Ret (mkBuilder d new_capacity (m_size b)).

(** [operator+=] of a C string: the size stays what it was. *)
Definition builder_add_cstring (b : StringBuilder) (str : bytes) : outcome StringBuilder :=
  let! length := calculate_size str in
  let! b := if m_capacity b <=? m_size b + length then grow b (m_capacity b + length) else Ret b in
  let! d := memcpy (m_data b) (m_size b) str (to_int length) in
  Ret (mkBuilder d (m_capacity b) (m_size b)).

Definition builder_add_char (b : StringBuilder) (c : Z) : outcome StringBuilder :=
  let! b := if m_capacity b <=? m_size b + 1 then grow b (m_capacity b + 1) else Ret b in
  let! d := put_byte (m_data b) (m_size b) c in
  Ret (mkBuilder d (m_capacity b) (m_size b + 1)).

Definition builder_to_string (b : StringBuilder) : outcome String := of_cstring (m_data b).
End StringBuilder.

(** * [Formatter]: [format] and [process] *)

(** What [to_string] accepts: a string, or anything that converts to [size_t],
    which goes through the overload with flags. *)
Inductive argument : Type := ArgString (s : bytes) | ArgNumber (n : Z).

(** The text of a buffer up to its NUL. *)
Definition cstring_text (b : bytes) : outcome bytes :=
  let! n := calculate_size b in Ret (take (Z.to_nat n) b).

(** [to_string(size_t, String&)]: a stack buffer of 64 characters. *)
Definition number_text (n : Z) (flags : bytes) : outcome bytes :=
  let base := if bool_decide (flags = [49; 54]) then 16
              else if bool_decide (flags = [50]) then 2 else 10 in
  let! buffer := itoa (replicate 64 0) n base in
  cstring_text buffer.

Definition argument_text (a : argument) (flags : bytes) : outcome bytes :=
  match a with ArgString s => Ret s | ArgNumber n => number_text (u64 n) flags end.

Record FormatterContext : Type := mkContext {
  escaped : bool; open : bool; flags : bytes; result : bytes
}.

(** [process(context, value, args...)] on the rest of the format. *)
Fixpoint process (format : bytes) (ctx : FormatterContext) (args : list argument) : outcome bytes :=
  match args with
  | [] => Ret (result ctx ++ format)
  | value :: args' =>
      match format with
      | [] => Ret (result ctx)
      | c :: format' =>
          if (c =? 123) && negb (escaped ctx) then
            process format' (mkContext (escaped ctx) true (flags ctx) (result ctx)) args
          else if (c =? 125) && negb (escaped ctx) && open ctx then
            let! t := argument_text value (flags ctx) in
            let flags' := match value with ArgString _ => flags ctx | ArgNumber _ => [] end in
            process format' (mkContext (escaped ctx) false flags' (result ctx ++ t)) args'
          else if c =? 92 then
            if escaped ctx
            then process format' (mkContext false (open ctx) (flags ctx) (result ctx ++ [c])) args
            else process format' (mkContext true (open ctx) (flags ctx) (result ctx)) args
          else if open ctx
          then process format' (mkContext false (open ctx) (flags ctx ++ [c]) (result ctx)) args
          else process format' (mkContext false (open ctx) (flags ctx) (result ctx ++ [c])) args
      end
  end.

Definition format (fmt : bytes) (args : list argument) : outcome bytes :=
  let! fmt := cstring_text fmt in
  process fmt (mkContext false false [] []) args.

(** * Specification *)

(** The string holds the text [t], which has no NUL in it. *)
Record holds (s : StringValue) (t : bytes) : Prop := {
  holds_type : m_type s = ASCII;
  holds_text : text (m_value s) t;
  holds_length : m_length s = Z.of_nat (length t);
  holds_bytes : Forall is_byte t;
  holds_short : Z.of_nat (length t) < 2 ^ 31
}.

(** The non-empty components of a text that a separator [c] closes, and the
    text behind the last separator. *)
Fixpoint components (c : Z) (acc : list bytes) (cur : bytes) (t : bytes) : list bytes * bytes :=
  match t with
  | [] => (acc, cur)
  | d :: t' =>
      if d =? c then components c (if decide (cur = []) then acc else acc ++ [cur]) [] t'
      else components c acc (cur ++ [d]) t'
  end.

(** What [split] returns: the part in front of a final separator is dropped. *)
Definition split_spec (c : Z) (t : bytes) : list bytes :=
  match last t with
  | Some d =>
      if d =? c then (components c [] [] (removelast t)).1
      else let '(closed, rest) := components c [] [] t in
           if decide (rest = []) then closed else closed ++ [rest]
  | None => []
  end.

(** A format: literal text with placeholders, and a literal text at the end. *)
Definition plain (l : bytes) : Prop := Forall (λ c, c ≠ 123 ∧ c ≠ 125 ∧ c ≠ 92 ∧ c ≠ 0) l.

Record piece : Type := mkPiece { literal : bytes; piece_flags : bytes; piece_arg : argument }.

Definition piece_format (p : piece) : bytes := literal p ++ [123] ++ piece_flags p ++ [125].

Definition formats (ps : list piece) (end_ : bytes) : bytes := mjoin (piece_format <$> ps) ++ end_.

(** The text of a format: flags pile up until a number uses them. *)
Fixpoint render (fl : bytes) (ps : list piece) : outcome bytes :=
  match ps with
  | [] => Ret []
  | p :: ps' =>
      let! t := argument_text (piece_arg p) (fl ++ piece_flags p) in
      let! r := render (match piece_arg p with ArgString _ => fl ++ piece_flags p | ArgNumber _ => [] end) ps' in
      Ret (literal p ++ t ++ r)
  end.

(** * Lengths and copies *)
Lemma to_int_small x : 0 ≤ x < 2 ^ 31 → to_int x = x.
Proof. intros. unfold to_int. rewrite wrap_small by (unfold in_word; lia). by rewrite (proj2 (Z.ltb_lt _ _)) by lia. Qed.

Lemma new_chars_split n m : 0 ≤ n → 0 ≤ m → new_chars (n + m) = new_chars n ++ new_chars m.
Proof. intros. unfold new_chars. by rewrite <- replicate_add, Z2Nat.inj_add. Qed.

Lemma new_chars_length n : length (new_chars n) = Z.to_nat n.
Proof. apply length_replicate. Qed.

Lemma new_chars_1 : new_chars 1 = [0].
Proof. done. Qed.

(** Copying a text to the front of a fresh buffer. *)
Lemma memcpy_fresh t rest m :
  Forall is_byte t → Z.of_nat (length t) < 2 ^ 31 →
  memcpy (new_chars (Z.of_nat (length t)) ++ m) 0 (t ++ rest) (to_int (Z.of_nat (length t))) = Ret (t ++ m).
Proof.
  intros Hb Hl. rewrite to_int_small by lia.
  apply (memcpy_spec [] (new_chars (Z.of_nat (length t))) m t rest); [|done].
  rewrite new_chars_length. lia.
Qed.

Lemma create_holds t rest :
  Forall is_byte t → Forall (λ c, c ≠ 0) t → Z.of_nat (length t) < 2 ^ 31 →
  ∃ s, create (t ++ rest) (Z.of_nat (length t)) = Ret s ∧ holds s t.
Proof.
  intros Hb Hnz Hl. unfold create. rewrite new_chars_split, new_chars_1 by lia.
  assert ((if negb (Z.of_nat (length t) =? 0)
           then memcpy (new_chars (Z.of_nat (length t)) ++ [0]) 0 (t ++ rest) (to_int (Z.of_nat (length t)))
           else Ret (new_chars (Z.of_nat (length t)) ++ [0])) = Ret (t ++ [0])) as ->.
  { destruct t as [|c t]; [done|]. rewrite (proj2 (Z.eqb_neq _ 0)) by (simpl; lia). by apply memcpy_fresh. }
  cbn [obind]. rewrite put_byte_app. cbn [obind]. eexists. split; [done|]. constructor; try done.
  by exists [].
Qed.

Lemma of_cstring_holds b t :
  text b t → Forall is_byte t → Z.of_nat (length t) < 2 ^ 31 → ∃ s, of_cstring b = Ret s ∧ holds s t.
Proof.
  intros Ht Hb Hl. unfold of_cstring. rewrite (calculate_size_text _ _ Ht). cbn [obind].
  destruct Ht as (rest & -> & Hnz). by apply create_holds.
Qed.

Lemma append_holds s1 s2 t1 t2 :
  holds s1 t1 → holds s2 t2 → Z.of_nat (length (t1 ++ t2)) < 2 ^ 31 →
  ∃ s, append s1 s2 = Ret s ∧ holds s (t1 ++ t2).
Proof.
  intros [Hty1 (r1 & Hv1 & Hn1) Hl1 Hb1 Hs1] [Hty2 (r2 & Hv2 & Hn2) Hl2 Hb2 Hs2] Hlen.
  unfold append. rewrite Hv1, Hv2, Hl1, Hl2.
  rewrite <- Z.add_assoc, new_chars_split, new_chars_split, new_chars_1 by lia.
  rewrite memcpy_fresh by done. cbn [obind]. rewrite to_int_small by lia.
  rewrite memcpy_spec by (try done; rewrite new_chars_length; lia). cbn [obind].
  replace (Z.of_nat (length t1) + Z.of_nat (length t2)) with (Z.of_nat (length (t1 ++ t2)))
    by (rewrite length_app; lia).
  rewrite app_assoc, put_byte_app. cbn [obind]. eexists. split; [done|].
  constructor; simpl; try done; [|by apply Forall_app].
  exists []. split; [done|]. by apply Forall_app.
Qed.

(** * Comparisons *)
Lemma same_chars_spec f t1 : ∀ t2 r1 r2, length t1 = length t2 →
  same_chars f (t1 ++ r1) (t2 ++ r2) (length t1) = Ret (bool_decide (f <$> t1 = f <$> t2)).
Proof.
  induction t1 as [|c t1 IH]; intros [|d t2] r1 r2 Hl; try done. simpl in Hl. cbn.
  destruct (Z.eqb_spec (f c) (f d)) as [Heq|Hne]; simpl.
  - rewrite IH by lia. f_equal. apply bool_decide_ext. rewrite Heq. split; [congruence|by intros [= ?]].
  - f_equal. symmetry. apply bool_decide_false. congruence.
Qed.

Lemma same_chars_holds f s1 s2 t1 t2 :
  holds s1 t1 → holds s2 t2 →
  (let! n := calculate_size (m_value s2) in
   if negb (m_length s1 =? n) then Ret false
   else same_chars f (m_value s1) (m_value s2) (Z.to_nat (m_length s1))) =
    Ret (bool_decide (f <$> t1 = f <$> t2)).
Proof.
  intros [_ Ht1 Hl1 _ _] [_ Ht2 Hl2 _ _]. rewrite (calculate_size_text _ _ Ht2). cbn [obind]. rewrite Hl1.
  destruct (Z.eqb_spec (Z.of_nat (length t1)) (Z.of_nat (length t2))) as [Heq|Hne]; cbn [negb].
  - destruct Ht1 as (r1 & -> & _), Ht2 as (r2 & -> & _). rewrite Nat2Z.id. apply same_chars_spec. lia.
  - f_equal. symmetry. apply bool_decide_false. intros H%(f_equal length). rewrite !length_fmap in H. lia.
Qed.

Lemma char_at_holds s t i c : holds s t → t !! i = Some c → char_at s (Z.of_nat i) = Ret c.
Proof.
  intros [Hty (r & Hv & _) Hl _ _] Hi. pose proof (lookup_lt_Some _ _ _ Hi). unfold char_at.
  rewrite Hl, Hty, (proj2 (Z.leb_le 0 _)), (proj2 (Z.ltb_lt _ _)) by lia. simpl.
  rewrite get_byte_nat, Hv, lookup_app_l by done. by rewrite Hi.
Qed.

Lemma get_byte_holds s t i c : holds s t → t !! i = Some c → get_byte (m_value s) (Z.of_nat i) = Ret c.
Proof.
  intros [_ (r & Hv & _) _ _ _] Hi. pose proof (lookup_lt_Some _ _ _ Hi).
  rewrite get_byte_nat, Hv, lookup_app_l by done. by rewrite Hi.
Qed.

Lemma starts_with_loop_spec s other t1 t2 n : ∀ i,
  holds s t1 → holds other t2 → (length t2 ≤ length t1)%nat → (i + n = length t2)%nat →
  starts_with_loop s other (Z.of_nat i) n = Ret (bool_decide (drop i t2 `prefix_of` drop i t1)).
Proof.
  induction n as [|n IH]; intros i H1 H2 Hle Hi; cbn [starts_with_loop].
  - f_equal. symmetry. apply bool_decide_true. rewrite (drop_ge t2) by lia. apply prefix_nil.
  - destruct (lookup_lt_is_Some_2 t2 i) as [d Hd]; [lia|].
    destruct (lookup_lt_is_Some_2 t1 i) as [c Hc]; [lia|].
    rewrite (get_byte_holds _ _ _ _ H1 Hc), (char_at_holds _ _ _ _ H2 Hd). cbn [obind].
    rewrite (drop_S _ _ _ Hc), (drop_S _ _ _ Hd).
    destruct (Z.eqb_spec c d) as [->|Hne]; cbn [negb].
    + replace (Z.of_nat i + 1) with (Z.of_nat (S i)) by lia. rewrite IH by (done || lia).
      f_equal. apply bool_decide_ext. split; [apply prefix_cons|apply prefix_cons_inv_2].
    + f_equal. symmetry. apply bool_decide_false. intros ?%prefix_cons_inv_1. congruence.
Qed.

(** * [split] *)
Lemma char_at_single separator c : holds separator [c] → char_at separator 0 = Ret c.
Proof. intros H. exact (char_at_holds _ _ 0 c H eq_refl). Qed.

Lemma split_match_single s separator c i j n :
  holds separator [c] → split_match s separator i j n = Ret true.
Proof. intros [_ _ Hl _ _]. destruct n; [done|]. simpl. by rewrite Hl. Qed.

Lemma substring_holds s p cur q :
  holds s (p ++ cur ++ q) →
  ∃ part, substring s (Z.of_nat (length p)) (Z.of_nat (length cur)) = Ret part ∧ holds part cur.
Proof.
  intros [_ (r & Hv & Hn) _ Hb Hs]. rewrite !Forall_app in Hb, Hn. rewrite !length_app in Hs.
  unfold substring. rewrite Nat2Z.id, Hv, <- !app_assoc, drop_app_length.
  apply create_holds; [apply Hb|apply Hn|lia].
Qed.

(** One step of the loop in front of the last character. *)
Lemma split_step s separator c p0 cur d q acc results k :
  holds s ((p0 ++ cur) ++ d :: q) → holds separator [c] → q ≠ [] → Forall2 holds results acc →
  let cur' := if d =? c then [] else cur ++ [d] in
  let acc' := if d =? c then (if decide (cur = []) then acc else acc ++ [cur]) else acc in
  ∃ results', split_loop s separator (Z.of_nat (length (p0 ++ cur))) (Z.of_nat (length p0)) results (S k) =
      split_loop s separator (Z.of_nat (length (p0 ++ cur)) + 1)
        (Z.of_nat (length (p0 ++ cur)) + 1 - Z.of_nat (length cur')) results' k ∧
    Forall2 holds results' acc'.
Proof.
  intros Hs Hsep Hq Hres. cbv zeta. cbn [split_loop].
  assert ((((p0 ++ cur) ++ d :: q) !! length (p0 ++ cur)) = Some d) as Hd by by rewrite list_lookup_middle.
  rewrite (get_byte_holds _ _ _ _ Hs Hd), (char_at_single _ _ Hsep). cbn [obind].
  assert (m_length s = Z.of_nat (length p0) + Z.of_nat (length cur) + 1 + Z.of_nat (length q)) as Hl.
  { rewrite (holds_length _ _ Hs), !length_app. simpl. lia. }
  assert (0 < Z.of_nat (length q)) by (destruct q; [done|simpl; lia]).
  pose proof (holds_short _ _ Hs) as Hshort. rewrite (holds_length _ _ Hs) in Hl. rewrite Hl in Hshort.
  rewrite length_app. destruct (d =? c) eqn:Hdc; cbn [length].
  - apply Z.eqb_eq in Hdc as ->. rewrite (holds_length _ _ Hs), Hl.
    destruct (Z.eqb_spec (Z.of_nat (length p0 + length cur)) 0) as [Hz|Hz]; cbn [orb].
    + exists results. rewrite decide_True by (destruct cur; [done|simpl in Hz; lia]).
      by rewrite Z.sub_0_r.
    + rewrite (proj2 (Z.eqb_neq _ _)) by lia. rewrite (split_match_single _ _ c) by done. cbn [obind].
      rewrite (holds_length _ _ Hsep). cbn [length].
      replace (Z.of_nat (length p0 + length cur) - Z.of_nat (length p0)) with (Z.of_nat (length cur)) by lia.
      rewrite wrap_small by (unfold in_word; lia). case_decide as Hc.
      * subst cur. cbn [length]. exists results. by rewrite Z.sub_0_r.
      * rewrite (proj2 (Z.ltb_lt 0 _)) by (destruct cur; [done|simpl; lia]).
        destruct (substring_holds s p0 cur (c :: q)) as (part & -> & Hpart); [by rewrite app_assoc|].
        cbn [obind]. exists (results ++ [part]). rewrite Z.sub_0_r. split; [done|].
        by apply Forall2_app; [|constructor].
  - exists results. rewrite length_app. cbn [length]. split; [|done]. f_equal. lia.
Qed.

Lemma split_prefix s separator c z q : ∀ p0 cur acc results k,
  holds s ((p0 ++ cur) ++ q ++ [z]) → holds separator [c] → Forall2 holds results acc →
  ∃ p1 cur' results',
    split_loop s separator (Z.of_nat (length (p0 ++ cur))) (Z.of_nat (length p0)) results (length q + k) =
      split_loop s separator (Z.of_nat (length (p1 ++ cur'))) (Z.of_nat (length p1)) results' k ∧
    p1 ++ cur' = (p0 ++ cur) ++ q ∧ (components c acc cur q).2 = cur' ∧
    Forall2 holds results' (components c acc cur q).1.
Proof.
  induction q as [|d q IH]; intros p0 cur acc results k Hs Hsep Hres.
  - exists p0, cur, results. rewrite app_nil_r. done.
  - cbn [app length Nat.add] in *.
    destruct (split_step s separator c p0 cur d (q ++ [z]) acc results (length q + k))
      as (results1 & Heq & Hres1); [done|done|by destruct q|done|].
    rewrite Heq. cbn [components]. set (cur1 := if d =? c then [] else cur ++ [d]) in *.
    assert (∃ p1, p1 ++ cur1 = (p0 ++ cur) ++ [d]) as [p1 Hp1].
    { unfold cur1. destruct (d =? c); [exists ((p0 ++ cur) ++ [d]); by rewrite app_nil_r|].
      exists p0. by rewrite app_assoc. }
    assert (length p1 + length cur1 = length (p0 ++ cur) + 1)%nat as Hlen.
    { apply (f_equal length) in Hp1. rewrite !length_app in Hp1. rewrite length_app. simpl in Hp1. lia. }
    destruct (IH p1 cur1 (if d =? c then (if decide (cur = []) then acc else acc ++ [cur]) else acc) results1 k)
      as (p2 & cur2 & results2 & Heq2 & Hp2 & Hc2 & Hr2); [|done|done|].
    { rewrite Hp1, <- app_assoc. done. }
    exists p2, cur2, results2. split; [|split; [|]].
    + rewrite <- Heq2, (length_app p1). f_equal; lia.
    + rewrite Hp2, Hp1, <- app_assoc. done.
    + unfold cur1 in *. destruct (d =? c); done.
Qed.

Lemma components_snoc c acc cur q z :
  components c acc cur (q ++ [z]) =
    let '(acc', cur') := components c acc cur q in
    if z =? c then (if decide (cur' = []) then acc' else acc' ++ [cur'], []) else (acc', cur' ++ [z]).
Proof.
  revert acc cur. induction q as [|d q IH]; intros acc cur; simpl; [by destruct (z =? c)|].
  destruct (d =? c); apply IH.
Qed.

Lemma split_ok s separator c t :
  holds s t → holds separator [c] → ∃ l, split s separator = Ret l ∧ Forall2 holds l (split_spec c t).
Proof.
  intros Hs Hsep. unfold split. pose proof (holds_length _ _ Hs) as Hl. pose proof (holds_short _ _ Hs) as Hsh.
  destruct t as [|z q _] using rev_ind.
  { rewrite Hl. simpl. exists []. done. }
  rewrite Hl, Nat2Z.id, length_app. cbn [length].
  destruct (split_prefix s separator c z q [] [] [] [] 1) as (p & cur & results & Heq & Hp & Hc & Hr);
    [done|done|done|]. cbn [app length] in Heq, Hp. change (Z.of_nat 0) with 0 in Heq. rewrite Heq.
  assert ((q ++ [z]) !! length q = Some z) as Hz by by apply list_lookup_middle.
  assert (length p + length cur = length q)%nat as Hlen by (rewrite <- Hp, length_app; lia).
  rewrite Hp. cbn [split_loop].
  rewrite (get_byte_holds _ _ _ _ Hs Hz), (char_at_single _ _ Hsep). cbn [obind].
  unfold split_spec. rewrite last_snoc, removelast_last. rewrite components_snoc.
  destruct (components c [] [] q) as [acc cur0]. simpl in Hc, Hr. subst cur0.
  rewrite Hl, length_app in *. cbn [length] in *.
  destruct (z =? c) eqn:Hzc.
  - rewrite (proj2 (Z.eqb_eq (Z.of_nat (length q)) (Z.of_nat (length q + 1) - 1))), orb_true_r by lia.
    cbn [obind].
    rewrite (proj2 (Z.ltb_ge _ _)) by lia. cbn [andb]. by exists results.
  - cbn [obind]. rewrite (proj2 (Z.ltb_lt (Z.of_nat (length p)) _)) by lia. cbn [andb].
    rewrite wrap_small by (unfold in_word; lia). rewrite (proj2 (Z.ltb_lt 0 _)) by lia.
    replace (Z.of_nat (length q + 1) - Z.of_nat (length p)) with (Z.of_nat (length (cur ++ [z])))
      by (rewrite length_app; simpl; lia).
    destruct (substring_holds s p (cur ++ [z]) []) as (part & -> & Hpart).
    { rewrite app_nil_r, app_assoc, Hp. done. }
    cbn [obind]. exists (results ++ [part]). rewrite decide_False by (by destruct cur).
    split; [done|]. by apply Forall2_app; [|constructor].
Qed.

(** * Numbers *)
Lemma cstring_text_spec t rest : Forall (λ c, c ≠ 0) t → cstring_text (t ++ 0 :: rest) = Ret t.
Proof.
  intros Hn. unfold cstring_text. rewrite (calculate_size_text _ t) by by exists rest. cbn [obind].
  by rewrite Nat2Z.id, take_app_length.
Qed.

Lemma numeral_nonzero n base : 2 ≤ base ≤ 16 → Forall (λ c, c ≠ 0) (numeral n base).
Proof. intros Hb. by destruct (numeral_head n base Hb) as (_ & _ & _ & _ & H). Qed.

Lemma numeral_bytes n base : 2 ≤ base ≤ 16 → Forall is_byte (numeral n base).
Proof.
  intros Hb. unfold numeral. apply Forall_fmap, Forall_reverse.
  eapply Forall_impl; [apply digits_range; lia|]. intros d Hd. cbv beta in Hd. simpl. unfold is_byte.
  rewrite <- digit_char_byte by lia. by apply wrap_bound.
Qed.

Lemma numeral_word n : in_word 64 n → (length (numeral n 10) ≤ 20)%nat.
Proof.
  intros Hn. apply numeral_short; [lia|lia|]. split; [apply Hn|]. eapply Z.lt_le_trans; [apply Hn|]. by apply Z.leb_le.
Qed.

Lemma from_u64_holds v : in_word 64 v → ∃ s, from_u64 v = Ret s ∧ holds s (numeral v 10).
Proof.
  intros Hv. unfold from_u64.
  pose proof (numeral_word v Hv) as Hl.
  destruct (itoa_spec (new_chars 22) v 10) as (rest & -> & _); [lia|done|rewrite new_chars_length; lia|].
  cbn [obind]. unfold adopt. pose proof (numeral_nonzero v 10 ltac:(lia)) as Hnz.
  rewrite (calculate_size_text _ (numeral v 10)) by by exists rest. cbn [obind].
  eexists. split; [done|]. constructor; simpl; try done; [by exists rest|apply numeral_bytes; lia|lia].
Qed.

(** * [format] *)
Lemma process_plain l : ∀ rest fl res a args,
  plain l →
  process (l ++ rest) (mkContext false false fl res) (a :: args) =
    process rest (mkContext false false fl (res ++ l)) (a :: args).
Proof.
  induction l as [|c l IH]; intros rest fl res a args Hl; [by rewrite app_nil_r|].
  apply Forall_cons in Hl as [(H1 & H2 & H3 & _) Hl]. cbn [app process escaped open flags result].
  rewrite (proj2 (Z.eqb_neq c 123)), (proj2 (Z.eqb_neq c 125)), (proj2 (Z.eqb_neq c 92)) by done.
  cbn [andb]. rewrite IH by done. by rewrite <- app_assoc.
Qed.

Lemma process_flags l : ∀ rest fl res a args,
  plain l →
  process (l ++ rest) (mkContext false true fl res) (a :: args) =
    process rest (mkContext false true (fl ++ l) res) (a :: args).
Proof.
  induction l as [|c l IH]; intros rest fl res a args Hl; [by rewrite app_nil_r|].
  apply Forall_cons in Hl as [(H1 & H2 & H3 & _) Hl]. cbn [app process escaped open flags result].
  rewrite (proj2 (Z.eqb_neq c 123)), (proj2 (Z.eqb_neq c 125)), (proj2 (Z.eqb_neq c 92)) by done.
  cbn [andb]. rewrite IH by done. by rewrite <- app_assoc.
Qed.

Lemma formats_cons p ps end_ :
  formats (p :: ps) end_ = literal p ++ 123 :: piece_flags p ++ 125 :: formats ps end_.
Proof. unfold formats, piece_format. simpl. rewrite <- !app_assoc. simpl. by rewrite <- !app_assoc. Qed.

Lemma process_no_arguments fmt ctx : process fmt ctx [] = Ret (result ctx ++ fmt).
Proof. by destruct fmt. Qed.

Lemma process_pieces ps end_ : ∀ fl res,
  Forall (λ p, plain (literal p) ∧ plain (piece_flags p)) ps →
  process (formats ps end_) (mkContext false false fl res) (piece_arg <$> ps) =
    let! r := render fl ps in Ret (res ++ r ++ end_).
Proof.
  induction ps as [|p ps IH]; intros fl res Hps; [apply process_no_arguments|].
  apply Forall_cons in Hps as [[Hl Hf] Hps]. cbn [fmap list_fmap].
  rewrite formats_cons, process_plain by done.
  change (process (123 :: piece_flags p ++ ?x) (mkContext false false fl ?r) (?a :: ?args)) with
    (process (piece_flags p ++ x) (mkContext false true fl r) (a :: args)).
  rewrite process_flags by done. cbn [process escaped open flags result render].
  change (125 =? 123) with false. change (125 =? 125) with true. cbn [andb negb].
  destruct (argument_text (piece_arg p) (fl ++ piece_flags p)); try done. cbn [obind].
  destruct (piece_arg p); (etransitivity; [apply IH; done|]);
    match goal with |- obind ?r _ = _ => destruct r; try done end; cbn [obind];
    f_equal; by rewrite <- !app_assoc.
Qed.

Lemma calculate_size_nonzero t rest : Forall (λ c, c ≠ 0) t → calculate_size (t ++ 0 :: rest) = Ret (Z.of_nat (length t)).
Proof. intros. apply calculate_size_text. by exists rest. Qed.

Lemma formats_nonzero ps end_ :
  Forall (λ p, plain (literal p) ∧ plain (piece_flags p)) ps → Forall (λ c, c ≠ 0) end_ →
  Forall (λ c, c ≠ 0) (formats ps end_).
Proof.
  intros Hps He. unfold formats. apply Forall_app. split; [|done]. apply Forall_join, Forall_fmap.
  eapply Forall_impl; [exact Hps|]. intros p [Hl Hf]. simpl. unfold piece_format.
  repeat apply Forall_app_2; try by repeat constructor.
  - eapply Forall_impl; [exact Hl|]. by intros c (_ & _ & _ & ?).
  - eapply Forall_impl; [exact Hf|]. by intros c (_ & _ & _ & ?).
Qed.

(** * Properties *)

(** On strings without NUL characters [equals] decides equality of the
    texts, [equals_ignore_case] equality after [to_lower], and [starts_with]
    whether one text is a prefix of the other. *)
Theorem string_comparisons s1 s2 t1 t2 :
  holds s1 t1 → holds s2 t2 →
  equals s1 s2 = Ret (bool_decide (t1 = t2)) ∧
  equals_ignore_case s1 s2 = Ret (bool_decide (to_lower <$> t1 = to_lower <$> t2)) ∧
  starts_with s1 s2 = Ret (bool_decide (t2 `prefix_of` t1)).
Proof.
  intros H1 H2. split; [|split].
  - unfold equals, equals_cstring. rewrite (same_chars_holds _ s1 s2 t1 t2) by done.
    by rewrite !list_fmap_id.
  - by apply same_chars_holds.
  - unfold starts_with. rewrite (holds_length _ _ H1), (holds_length _ _ H2), Nat2Z.id.
    destruct (Z.ltb_spec (Z.of_nat (length t1)) (Z.of_nat (length t2))) as [Hlt|Hge].
    + f_equal. symmetry. apply bool_decide_false. intros ?%prefix_length. lia.
    + change 0 with (Z.of_nat 0). by rewrite (starts_with_loop_spec _ _ t1 t2) by (done || lia).
Qed.

(** [split] by a one-character separator returns, in order, the non-empty
    components of the text, except that when the text ends with the separator
    the component in front of it is lost. *)
Theorem split_components s separator c t :
  holds s t → holds separator [c] → ∃ l, split s separator = Ret l ∧ Forall2 holds l (split_spec c t).
Proof. apply split_ok. Qed.

(** [format] replaces the placeholders by the texts of the arguments, in
    order, and keeps the literal text around them. *)
Theorem format_pieces ps end_ rest :
  Forall (λ p, plain (literal p) ∧ plain (piece_flags p)) ps → Forall (λ c, c ≠ 0) end_ →
  format (formats ps end_ ++ 0 :: rest) (piece_arg <$> ps) = let! r := render [] ps in Ret (r ++ end_).
Proof.
  intros Hps He. unfold format. rewrite cstring_text_spec by by apply formats_nonzero. cbn [obind].
  by apply process_pieces.
Qed.

(** The string of an unsigned 64-bit number reads back as the number, while
    the string of a negative int overruns its buffer of 20 characters. *)
Theorem string_numbers v :
  (in_word 64 v → ∃ s, from_u64 v = Ret s ∧ holds s (numeral v 10) ∧ to_uint s 10 = Ret v) ∧
  (- 2 ^ 31 ≤ v < 0 → from_int v = Undef).
Proof.
  split.
  - intros Hv. destruct (from_u64_holds v Hv) as (s & Hs & Hh). exists s. split; [done|]. split; [done|].
    unfold to_uint. destruct (holds_text _ _ Hh) as (rest & -> & _). apply atoi_numeral; [lia|done].
  - intros Hv. unfold from_int.
    assert (u64 v = 2 ^ 64 + v) as ->.
    { unfold wrap. symmetry. apply (Z.mod_unique_pos _ _ (-1)); lia. }
    rewrite itoa_full; [done|lia|unfold in_word; lia|]. rewrite new_chars_length.
    assert (length (numeral (2 ^ 64 + v) 10) ≤ 20)%nat by
      (apply numeral_short; [lia|lia|]; change (10 ^ Z.of_nat 20) with 100000000000000000000; lia).
    assert (19 < length (numeral (2 ^ 64 + v) 10))%nat; [|change (Z.to_nat 20) with 20%nat; lia].
    unfold numeral. rewrite length_fmap, length_reverse. apply digits_long; [lia| |].
    + change (2 ^ Z.of_nat 64) with (2 ^ 64). lia.
    + change (10 ^ Z.of_nat 19) with 10000000000000000000. lia.
Qed.

(** ** What the other classes do *)

(** Appending a C string to a builder leaves its size. *)
Lemma builder_size_unchanged junk b str b' :
  builder_add_cstring junk b str = Ret b' → m_size b' = m_size b.
Proof.
  unfold builder_add_cstring. intros (n & _ & (b1 & Hg & (d & _ & [= <-])%obind_Ret)%obind_Ret)%obind_Ret.
  simpl. destruct (m_capacity b <=? m_size b + n); [|by injection Hg as ->].
  unfold grow in Hg. by apply obind_Ret in Hg as (d' & _ & [= <-]).
Qed.

(** The index operator of a view with an offset reads behind the wanted character. *)
Lemma view_char_twice v i :
  0 ≤ i → in_word 64 (m_offset v + i) → 0 ≤ m_offset v →
  view_char_at v i = get_byte (m_value (sv_value v)) (2 * m_offset v + i).
Proof.
  intros Hi Hw Ho. unfold view_char_at, view_value, get_byte. rewrite wrap_small by done.
  rewrite !(proj2 (Z.leb_le 0 _)) by lia. rewrite lookup_drop. do 2 f_equal. lia.
Qed.

(** ** Witnesses *)
Definition sample_string (t : bytes) : String := mkString (t ++ [0]) (Z.of_nat (length t)) ASCII.

Lemma sample_holds t :
  bool_decide (Forall is_byte t ∧ Forall (λ c, c ≠ 0) t ∧ Z.of_nat (length t) < 2 ^ 31) = true →
  holds (sample_string t) t.
Proof. intros (Hb & Hn & Hs)%bool_decide_eq_true. constructor; try done. by exists []. Qed.

Lemma string_comparisons_witness :
  equals_ignore_case (sample_string [65; 98]) (sample_string [97; 66]) = Ret true ∧
  starts_with (sample_string [65; 98]) (sample_string [65]) = Ret true.
Proof.
  split.
  - exact (proj1 (proj2 (string_comparisons _ _ [65; 98] [97; 66]
      (sample_holds [65; 98] eq_refl) (sample_holds [97; 66] eq_refl)))).
  - exact (proj2 (proj2 (string_comparisons _ _ [65; 98] [65]
      (sample_holds [65; 98] eq_refl) (sample_holds [65] eq_refl)))).
Defined.

(** "/dev/uart/": only "dev" is left. *)
Lemma split_components_witness :
  ∃ l, split (sample_string [47; 100; 101; 118; 47; 117; 47]) (sample_string [47]) = Ret l ∧
       Forall2 holds l [[100; 101; 118]].
Proof.
  exact (split_components _ _ 47 [47; 100; 101; 118; 47; 117; 47]
    (sample_holds [47; 100; 101; 118; 47; 117; 47] eq_refl) (sample_holds [47] eq_refl)).
Defined.

(** "a{16}b" with 255. *)
Lemma format_pieces_witness :
  format [97; 123; 49; 54; 125; 98; 0] [ArgNumber 255] = Ret [97; 102; 102; 98].
Proof.
  etransitivity; [exact (format_pieces [mkPiece [97] [49; 54] (ArgNumber 255)] [98] []
    ltac:(by apply (bool_decide_unpack _)) ltac:(by apply (bool_decide_unpack _)))|].
  vm_compute. reflexivity.
Defined.

Lemma string_numbers_witness : from_int (-1) = Undef ∧ ∃ s, from_u64 42 = Ret s ∧ to_uint s 10 = Ret 42.
Proof.
  split; [exact (proj2 (string_numbers (-1)) ltac:(lia))|].
  destruct (proj1 (string_numbers 42) ltac:(by vm_compute)) as (s & Hs & _ & Hu). by exists s.
Defined.
