(* ===== verification/StringObjects.v ===== *)
(** String objects: [String] and [StringView] variables of [Utils/Strings/String.h]
    that point to reference counted [StringValue] objects, and the copies and moves
    of [StringBuilder].

    [Strings.v] models what an operation does to the value of one string.  Here the
    values live in a store, a [String] object holds the address of its value (0
    after it was moved from), and two objects may hold one address: a view shares
    the value of its string, and a string made of a view shares it too.  A value
    stays in the store when its last holder goes: that it is then released, and
    never earlier, is [Pointers.v]. *)
From S2P Require Import Prelude Bits Bytes Strings.

Record state : Type := mkState {
  values : gmap Z StringValue;      (** [StringValue] objects *)
  strings : gmap Z Z;               (** [String] objects: [m_value] *)
  views : gmap Z (Z * Z)            (** [StringView] objects: [m_value] and [m_offset] *)
}.

Definition empty_state : state := mkState ∅ ∅ ∅.

Definition with_values (s : state) (m : gmap Z StringValue) : state := mkState m (strings s) (views s).
Definition with_strings (s : state) (m : gmap Z Z) : state := mkState (values s) m (views s).
Definition with_views (s : state) (m : gmap Z (Z * Z)) : state := mkState (values s) (strings s) m.

(** The address of a new object: neither null nor in use. *)
Definition new_address (s : state) : Z := fresh ({[0]} ∪ dom (values s)).

Definition new_value (s : state) (v : StringValue) : Z * state :=
  (new_address s, with_values s (<[new_address s := v]> (values s))).

(** [*m_value], through a pointer that must not be null. *)
Definition value_at (s : state) (p : Z) : outcome StringValue :=
  if p =? 0 then Undef else defined (values s !! p).

Definition string_pointer (s : state) (x : Z) : outcome Z := defined (strings s !! x).

Definition string_value (s : state) (x : Z) : outcome StringValue :=
  let! p := string_pointer s x in value_at s p.

(** * [class String] *)
Definition construct (s : state) (x p : Z) : state := with_strings s (<[x := p]> (strings s)).

(** [String(const char *value)] *)
Definition String_cstring (s : state) (x : Z) (cstring : bytes) : outcome state :=
  let! v := of_cstring cstring in
  let '(p, s) := new_value s v in Ret (construct s x p).

(** [String(const char *src, size_t)] *)
Definition String_chars (s : state) (x : Z) (src : bytes) (length : Z) : outcome state :=
  let! v := create src length in
  let '(p, s) := new_value s v in Ret (construct s x p).

(** [String()] *)
Definition String_default (s : state) (x : Z) : outcome state := String_cstring s x [0].

(** [String(const String&)] *)
Definition String_copy (s : state) (x other : Z) : outcome state :=
  let! o := string_value s other in
  String_chars s x (m_value o) (m_length o).

(** [String(String&&)] *)
Definition String_move (s : state) (x other : Z) : outcome state :=
  let! p := string_pointer s other in
  Ret (construct (construct s x p) other 0).

(** [operator=(const String&)] *)
Definition assign_copy (s : state) (this other : Z) : outcome state :=
  if this =? other then Ret s
  else
    let! _ := string_pointer s this in
    let! o := string_value s other in
    let! v := create (m_value o) (m_length o) in
    let '(p, s) := new_value s v in Ret (construct s this p).

(** [operator=(String&&)] *)
Definition assign_move (s : state) (this other : Z) : outcome state :=
  if this =? other then Ret s
  else
    let! _ := string_pointer s this in
    let! p := string_pointer s other in
    Ret (construct (construct s this p) other 0).

(** [operator+=]: the value is changed in place. *)
Definition append_string (s : state) (this other : Z) : outcome state :=
  let! p := string_pointer s this in
  let! v := value_at s p in
  let! o := string_value s other in
  let! v := append v o in
  Ret (with_values s (<[p := v]> (values s))).

Definition append_to (s : state) (this c : Z) : outcome state :=
  let! p := string_pointer s this in
  let! v := value_at s p in
  let! v := append_char v c in
  Ret (with_values s (<[p := v]> (values s))).

(** [operator+] into the object [x]. *)
Definition String_plus (s : state) (x this other : Z) : outcome state :=
  let! s := String_default s x in
  let! s := append_string s x this in
  append_string s x other.

Definition destroy_string (s : state) (x : Z) : outcome state :=
  let! _ := string_pointer s x in Ret (with_strings s (delete x (strings s))).

(** [from_utf16]: the unit 0 ends the text when no length is given. *)
Fixpoint utf16_length (fuel : nat) (utf16 : bytes) : outcome Z :=
  match fuel with
  | O => NoFuel
  | S fuel' =>
      match utf16 with
      | a :: b :: utf16' =>
          if (a =? 0) && (b =? 0) then Ret 0 else let! n := utf16_length fuel' utf16' in Ret (n + 1)
      | _ => Undef
      end
  end.

Definition String_from_utf16 (s : state) (x : Z) (utf16 : bytes) (length : Z) : outcome state :=
  let! length := (if length =? -1 then utf16_length (S (List.length utf16)) utf16 else Ret length) in
  let! v := from_utf16 utf16 (u64 length) in
  let '(p, s) := new_value s v in Ret (construct s x p).

(** * [class StringView] *)
Definition view_at (s : state) (v : Z) : outcome (Z * Z) := defined (views s !! v).

(** [StringView(const String&)] *)
Definition View_of_string (s : state) (v x : Z) : outcome state :=
  let! p := string_pointer s x in Ret (with_views s (<[v := (p, 0)]> (views s))).

(** [StringView(const char *cstring)] *)
Definition View_of_cstring (s : state) (v : Z) (cstring : bytes) : outcome state :=
  let! o := of_cstring cstring in
  let '(p, s) := new_value s o in Ret (with_views s (<[v := (p, 0)]> (views s))).

(** [offset]: a copy with the new offset, which replaces the old one. *)
Definition View_offset (s : state) (w v offset : Z) : outcome state :=
  let! p := view_at s v in Ret (with_views s (<[w := (p.1, offset)]> (views s))).

(** [operator String()] *)
Definition String_of_view (s : state) (x v : Z) : outcome state :=
  let! p := view_at s v in Ret (construct s x p.1).

(** The view as [Strings.v] has it, for its comparisons. *)
Definition view_object (s : state) (v : Z) : outcome StringView :=
  let! p := view_at s v in
  let! o := value_at s p.1 in
  Ret (mkView o p.2).

Definition destroy_view (s : state) (v : Z) : outcome state :=
  let! _ := view_at s v in Ret (with_views s (delete v (views s))).

(** The text of a string is compared through its object. *)
Definition strings_equal (s : state) (x y : Z) : outcome bool :=
  let! a := string_value s x in
  let! b := string_value s y in
  equals a b.

(** The comparisons with a view: the characters of the view from its offset on, up
    to the NUL; on the side of the object the whole value, whatever its offset. *)
Definition equals_view (s : StringValue) (other : StringView) : outcome bool := equals_cstring s (view_value other).
Definition equals_ignore_case_view (s : StringValue) (other : StringView) : outcome bool :=
  equals_ignore_case_cstring s (view_value other).
Definition view_equals_string (v : StringView) (other : StringValue) : outcome bool := view_equals_cstring v (m_value other).
Definition view_equals_ignore_case_cstring (v : StringView) (other : bytes) : outcome bool :=
  equals_ignore_case_cstring (sv_value v) other.
Definition view_equals_ignore_case (v other : StringView) : outcome bool :=
  view_equals_ignore_case_cstring v (view_value other).

(** * [StringBuilder]: copies and moves

    The buffer of a builder that was moved from is null, with capacity 0: the
    empty list. *)
Section StringBuilder.
Context (junk : Z).

Definition builder_copy (other : StringBuilder) : outcome StringBuilder :=
  let! d := memcpy (replicate (Z.to_nat (m_capacity other)) junk) 0 (m_data other) (to_int (m_size other)) in
  Ret (mkBuilder d (m_capacity other) (m_size other)).

Definition moved_builder : StringBuilder := mkBuilder [] 0 0.

(** The new builder and what is left of the other one. *)
Definition builder_move (other : StringBuilder) : StringBuilder * StringBuilder := (other, moved_builder).

(** [operator=] on the builders at two addresses. *)
Definition builder_assign (builders : gmap Z StringBuilder) (this other : Z) : outcome (gmap Z StringBuilder) :=
  if this =? other then Ret builders
  else
    let! o := defined (builders !! other) in
    let! b := builder_copy o in
    Ret (<[this := b]> builders).

Definition builder_assign_move (builders : gmap Z StringBuilder) (this other : Z) : outcome (gmap Z StringBuilder) :=
  if this =? other then Ret builders
  else
    let! o := defined (builders !! other) in
    Ret (<[other := moved_builder]> (<[this := o]> builders)).
End StringBuilder.

(** * Specification: strings as values

    What the program does with its strings, and the text of each object, [None]
    when it was moved from. *)
Inductive operation : Type :=
| OpText (x : Z) (t : bytes)
| OpCopy (x y : Z)
| OpMove (x y : Z)
| OpAssign (x y : Z)
| OpAssignMove (x y : Z)
| OpAppend (x y : Z)
| OpAppendChar (x c : Z)
| OpPlus (x y z : Z)
| OpDestroy (x : Z).

Definition step (s : state) (op : operation) : outcome state :=
  match op with
  | OpText x t => String_cstring s x (t ++ [0])
  | OpCopy x y => String_copy s x y
  | OpMove x y => String_move s x y
  | OpAssign x y => assign_copy s x y
  | OpAssignMove x y => assign_move s x y
  | OpAppend x y => append_string s x y
  | OpAppendChar x c => append_to s x c
  | OpPlus x y z => String_plus s x y z
  | OpDestroy x => destroy_string s x
  end.

Fixpoint run (s : state) (ops : list operation) : outcome state :=
  match ops with
  | [] => Ret s
  | op :: ops' => let! s := step s op in run s ops'
  end.

Abbreviation texts := (gmap Z (option bytes)).

(** A text that a string can hold. *)
Definition representable (t : bytes) : Prop :=
  Forall is_byte t ∧ Forall (λ c, c ≠ 0) t ∧ Z.of_nat (length t) < 2 ^ 31.

#[global] Instance representable_dec t : Decision (representable t).
Proof. unfold representable. apply _. Defined.

Definition text_of (m : texts) (x : Z) : option bytes := mjoin (m !! x).

Definition set_text (m : texts) (x : Z) (t : bytes) : option texts :=
  if decide (representable t) then Some (<[x := Some t]> m) else None.

(** A use that the language does not define, or a text that is too long, is [None]. *)
Definition spec (m : texts) (op : operation) : option texts :=
  match op with
  | OpText x t => set_text m x t
  | OpCopy x y => t ← text_of m y; set_text m x t
  | OpMove x y => o ← m !! y; if x =? y then None else Some (<[y := None]> (<[x := o]> m))
  | OpAssign x y => if x =? y then Some m else _ ← m !! x; t ← text_of m y; set_text m x t
  | OpAssignMove x y => if x =? y then Some m else _ ← m !! x; o ← m !! y; Some (<[y := None]> (<[x := o]> m))
  | OpAppend x y => t ← text_of m x; u ← text_of m y; set_text m x (t ++ u)
  | OpAppendChar x c => t ← text_of m x; set_text m x (t ++ [c])
  | OpPlus x y z =>
      if (x =? y) || (x =? z) then None
      else t ← text_of m y; u ← text_of m z; set_text m x (t ++ u)
  | OpDestroy x => _ ← m !! x; Some (delete x m)
  end.

Fixpoint spec_run (m : texts) (ops : list operation) : option texts :=
  match ops with
  | [] => Some m
  | op :: ops' => m ← spec m op; spec_run m ops'
  end.

(** Every object has a value of its own, with its text. *)
Definition cell (vals : gmap Z StringValue) (p : Z) (o : option bytes) : Prop :=
  match o with
  | None => p = 0
  | Some t => p ≠ 0 ∧ ∃ v, vals !! p = Some v ∧ holds v t
  end.

Record represents (s : state) (m : texts) : Prop := {
  rep_cells : map_Forall2 (λ _, cell (values s)) (strings s) m;
  rep_separate x y p : strings s !! x = Some p → strings s !! y = Some p → p ≠ 0 → x = y
}.

(** ** The store *)
Lemma new_address_fresh s : new_address s ≠ 0 ∧ values s !! new_address s = None.
Proof.
  pose proof (is_fresh ({[0]} ∪ dom (values s))) as H. fold (new_address s) in H.
  apply not_elem_of_union in H as [H1 H2]. split; [by apply not_elem_of_singleton in H1|by apply not_elem_of_dom].
Qed.

Lemma rep_cell s m x o : represents s m → m !! x = Some o → ∃ p, strings s !! x = Some p ∧ cell (values s) p o.
Proof.
  intros Hr Hx. pose proof (rep_cells _ _ Hr x) as Hc. rewrite Hx in Hc.
  destruct (strings s !! x) as [p|]; inversion Hc; subst. by exists p.
Qed.

Lemma rep_pointer s m x p : represents s m → strings s !! x = Some p → p = 0 ∨ is_Some (values s !! p).
Proof.
  intros Hr Hx. pose proof (rep_cells _ _ Hr x) as Hc. rewrite Hx in Hc.
  destruct (m !! x) as [[t|]|]; inversion Hc as [? ? Hcell|]; subst; [|by left].
  destruct Hcell as (_ & v & -> & _). right. by exists v.
Qed.

Lemma rep_value s m x t : represents s m → text_of m x = Some t →
  ∃ p v, strings s !! x = Some p ∧ p ≠ 0 ∧ values s !! p = Some v ∧ value_at s p = Ret v ∧ string_value s x = Ret v ∧ holds v t.
Proof.
  intros Hr Ht. unfold text_of in Ht. destruct (m !! x) as [o|] eqn:Hx; [|discriminate Ht]. simpl in Ht. subst o.
  destruct (rep_cell s m x _ Hr Hx) as (p & Hp & Hp0 & v & Hv & Hh). exists p, v.
  unfold string_value, string_pointer, value_at. rewrite Hp. cbn [defined obind].
  rewrite (proj2 (Z.eqb_neq p 0)) by done. rewrite Hv. by split_and!.
Qed.

Lemma cell_insert vals a v p o : cell vals p o → p ≠ a → cell (<[a := v]> vals) p o.
Proof. destruct o as [t|]; simpl; [|done]. intros (Hp & w & Hw & Hh) Hne. split; [done|]. exists w. by rewrite lookup_insert_ne. Qed.

(** A new value for an object. *)
Lemma rep_construct s m x v t : represents s m → holds v t →
  represents (let '(p, s) := new_value s v in construct s x p) (<[x := Some t]> m).
Proof.
  intros Hr Hh. destruct (new_address_fresh s) as [Ha0 Ha]. unfold new_value. cbn.
  assert (Hne : ∀ y p, strings s !! y = Some p → p ≠ new_address s).
  { intros y p Hy ->. destruct (rep_pointer s m y _ Hr Hy) as [?|[w ?]]; congruence. }
  split; cbn [values strings with_strings with_values construct].
  - apply map_Forall2_insert_2.
    + split; [done|]. exists v. by rewrite lookup_insert_eq.
    + intros y. pose proof (rep_cells _ _ Hr y) as Hc.
      destruct (strings s !! y) as [p|] eqn:Hy; inversion Hc; subst; constructor. apply cell_insert; [done|by eapply Hne].
  - intros y z p. rewrite !lookup_insert. repeat case_decide; try congruence.
    + intros [= <-] Hz. by destruct (Hne z _ Hz).
    + intros Hy [= <-]. by destruct (Hne y _ Hy).
    + apply (rep_separate _ _ Hr).
Qed.

(** Another text in the value of an object. *)
Lemma rep_update s m x p u v t : represents s m → strings s !! x = Some p → p ≠ 0 → m !! x = Some u → holds v t →
  represents (with_values s (<[p := v]> (values s))) (<[x := Some t]> m).
Proof.
  intros Hr Hx Hp Hu Hh. split; cbn [values strings with_values]; [|apply (rep_separate _ _ Hr)].
  intros y. rewrite lookup_insert. case_decide as Hxy.
  - subst y. rewrite Hx. constructor. split; [done|]. exists v. by rewrite lookup_insert_eq.
  - pose proof (rep_cells _ _ Hr y) as Hc. destruct (strings s !! y) as [q|] eqn:Hy; inversion Hc; subst; constructor.
    apply cell_insert; [done|]. intros ->. destruct Hxy. by eapply (rep_separate _ _ Hr).
Qed.

(** The value of an object goes to another one. *)
Lemma rep_transfer s m x y p o : represents s m → strings s !! y = Some p → cell (values s) p o → x ≠ y →
  represents (construct (construct s x p) y 0) (<[y := None]> (<[x := o]> m)).
Proof.
  intros Hr Hy Hc Hne. split; cbn [values strings with_strings construct].
  - apply map_Forall2_insert_2; [done|]. apply map_Forall2_insert_2; [done|]. apply (rep_cells _ _ Hr).
  - intros z w q. rewrite !lookup_insert. repeat case_decide; subst; try congruence.
    + intros [= <-] Hw Hq. by destruct (rep_separate _ _ Hr y w p Hy Hw Hq).
    + intros Hz [= <-] Hq. by destruct (rep_separate _ _ Hr y z p Hy Hz Hq).
    + apply (rep_separate _ _ Hr).
Qed.

Lemma rep_destroy s m x : represents s m → represents (with_strings s (delete x (strings s))) (delete x m).
Proof.
  intros Hr. split; cbn [values strings with_strings].
  - apply map_Forall2_delete, (rep_cells _ _ Hr).
  - intros y z p. rewrite !lookup_delete. repeat case_decide; try congruence. apply (rep_separate _ _ Hr).
Qed.

(** ** The operations *)
Lemma set_text_Some m x t m' : set_text m x t = Some m' → representable t ∧ m' = <[x := Some t]> m.
Proof. unfold set_text. case_decide; [|discriminate]. by intros [= <-]. Qed.

Lemma representable_text t : representable t → text (t ++ [0]) t.
Proof. intros (_ & Hnz & _). by exists []. Qed.

Lemma holds_representable v t : holds v t → representable t.
Proof. intros [_ (r & _ & Hnz) _ Hb Hs]. by split_and!. Qed.

(** A copy of the value of a string. *)
Lemma create_copy v t : holds v t → ∃ w, create (m_value v) (m_length v) = Ret w ∧ holds w t.
Proof. intros [_ (r & Hv & Hnz) Hl Hb Hs]. rewrite Hv, Hl. by apply create_holds. Qed.

Lemma append_char_holds v t c : holds v t → representable (t ++ [c]) → ∃ w, append_char v c = Ret w ∧ holds w (t ++ [c]).
Proof.
  intros [Hty (r & Hv & Hn) Hl Hb Hs] Hr. pose proof Hr as (Hb' & Hn' & Hs').
  unfold append_char. rewrite Hv, Hl. rewrite <- Z.add_assoc, new_chars_split by lia.
  rewrite memcpy_fresh by done. cbn [obind]. change (new_chars (1 + 1)) with ([0] ++ [0]).
  rewrite app_assoc. unfold put_byte at 1.
  assert (Hlen : Z.of_nat (length t) + 1 = Z.of_nat (length (t ++ [c]))) by (rewrite length_app; cbn; lia).
  unfold get_byte. rewrite (proj2 (Z.leb_le 0 _)) by lia. rewrite Nat2Z.id.
  rewrite <- app_assoc, lookup_app_r by lia. rewrite Nat.sub_diag. cbn [lookup list_lookup app defined obind].
  rewrite insert_app_r_alt by lia. rewrite Nat.sub_diag. cbn [insert list_insert].
  replace (u8 c) with c.
  2:{ apply Forall_app in Hb' as [_ Hc]. apply Forall_cons in Hc as [Hc _]. symmetry. by apply wrap_small. }
  replace (t ++ [c; 0]) with ((t ++ [c]) ++ [0]) by (by rewrite <- app_assoc).
  rewrite Hlen, put_byte_app. cbn [obind]. eexists. split; [done|]. constructor; try done. by exists [].
Qed.

Lemma text_of_Some m x t : text_of m x = Some t ↔ m !! x = Some (Some t).
Proof. unfold text_of. destruct (m !! x) as [[u|]|]; simpl; split; congruence. Qed.

Lemma cstring_refines s m x t : represents s m → representable t →
  ∃ s', String_cstring s x (t ++ [0]) = Ret s' ∧ represents s' (<[x := Some t]> m).
Proof.
  intros Hr Ht. destruct (of_cstring_holds (t ++ [0]) t) as (v & Hv & Hh); [by apply representable_text|apply Ht..|].
  unfold String_cstring. rewrite Hv. cbn [obind]. eexists. split; [unfold new_value; done|]. by apply rep_construct.
Qed.

Lemma copy_refines s m x y t : represents s m → text_of m y = Some t →
  ∃ s', String_copy s x y = Ret s' ∧ represents s' (<[x := Some t]> m).
Proof.
  intros Hr Hy. destruct (rep_value s m y t Hr Hy) as (p & v & _ & _ & _ & _ & Hv & Hh).
  destruct (create_copy v t Hh) as (w & Hw & Hh'). unfold String_copy, String_chars. rewrite Hv. cbn [obind].
  rewrite Hw. cbn [obind]. eexists. split; [unfold new_value; done|]. by apply rep_construct.
Qed.

Lemma append_refines s m x y t u : represents s m → text_of m x = Some t → text_of m y = Some u → representable (t ++ u) →
  ∃ s', append_string s x y = Ret s' ∧ represents s' (<[x := Some (t ++ u)]> m).
Proof.
  intros Hr Hx Hy Ht. destruct (rep_value s m x t Hr Hx) as (p & v & Hp & Hp0 & Hv & Hat & _ & Hh).
  destruct (rep_value s m y u Hr Hy) as (q & w & _ & _ & _ & _ & Hw & Hh').
  destruct (append_holds v w t u Hh Hh') as (z & Hz & Hhz); [apply Ht|].
  unfold append_string, string_pointer. rewrite Hp. cbn [defined obind]. rewrite Hat, Hw. cbn [obind]. rewrite Hz. cbn [obind].
  eexists. split; [done|]. eapply rep_update; [done..| |done]. by apply text_of_Some.
Qed.

Lemma append_char_refines s m x t c : represents s m → text_of m x = Some t → representable (t ++ [c]) →
  ∃ s', append_to s x c = Ret s' ∧ represents s' (<[x := Some (t ++ [c])]> m).
Proof.
  intros Hr Hx Ht. destruct (rep_value s m x t Hr Hx) as (p & v & Hp & Hp0 & Hv & Hat & _ & Hh).
  destruct (append_char_holds v t c Hh Ht) as (z & Hz & Hhz).
  unfold append_to, string_pointer. rewrite Hp. cbn [defined obind]. rewrite Hat. cbn [obind]. rewrite Hz. cbn [obind].
  eexists. split; [done|]. eapply rep_update; [done..| |done]. by apply text_of_Some.
Qed.

Lemma plus_refines s m x y z t u : represents s m → text_of m y = Some t → text_of m z = Some u → x ≠ y → x ≠ z →
  representable (t ++ u) → ∃ s', String_plus s x y z = Ret s' ∧ represents s' (<[x := Some (t ++ u)]> m).
Proof.
  intros Hr Hy Hz Hxy Hxz Ht.
  assert (Ht1 : representable t). { destruct (rep_value s m y t Hr Hy) as (? & ? & ? & ? & ? & ? & ? & Hh). by eapply holds_representable. }
  unfold String_plus, String_default. change [0] with ([] ++ [0] : bytes).
  destruct (cstring_refines s m x [] Hr) as (s1 & -> & Hr1); [by apply (bool_decide_unpack _)|]. cbn [obind].
  destruct (append_refines s1 _ x y [] t Hr1) as (s2 & -> & Hr2); [by apply text_of_Some, lookup_insert_eq|
    by apply text_of_Some; rewrite lookup_insert_ne by done; apply text_of_Some|done|]. cbn [obind].
  rewrite insert_insert_eq in Hr2. cbn [app] in Hr2.
  destruct (append_refines s2 _ x z t u Hr2) as (s3 & -> & Hr3); [by apply text_of_Some, lookup_insert_eq|
    by apply text_of_Some; rewrite lookup_insert_ne by done; apply text_of_Some|done|].
  rewrite insert_insert_eq in Hr3. by exists s3.
Qed.

(** Break a defined operation of the specification into its conditions. *)
Ltac inv_spec :=
  repeat match goal with
  | H : _ ≫= _ = Some _ |- _ => apply bind_Some in H; destruct H as (? & ? & H)
  | H : set_text _ _ _ = Some _ |- _ => apply set_text_Some in H; destruct H as [? ->]
  | H : (if ?b then _ else _) = Some _ |- _ => destruct b eqn:?; try discriminate H
  | H : Some _ = Some _ |- _ => injection H as H
  end.

Lemma step_refines s m op m' : represents s m → spec m op = Some m' → ∃ s', step s op = Ret s' ∧ represents s' m'.
Proof.
  intros Hr Hspec. destruct op as [x t|x y|x y|x y|x y|x y|x c|x y z|x]; cbn [spec step] in *; inv_spec; subst.
  - by apply cstring_refines.
  - by eapply copy_refines.
  - destruct (rep_cell s m y _ Hr ltac:(eassumption)) as (p & Hp & Hc).
    unfold String_move, string_pointer. rewrite Hp. cbn [defined obind]. eexists. split; [done|].
    apply rep_transfer; try done. by apply Z.eqb_neq.
  - unfold assign_copy. rewrite Heqb. by exists s.
  - destruct (rep_cell s m x _ Hr ltac:(eassumption)) as (p & Hp & _).
    unfold assign_copy, string_pointer. rewrite Heqb, Hp. cbn [defined obind].
    pose proof (copy_refines s m x y _ Hr ltac:(eassumption)) as Hcopy. exact Hcopy.
  - unfold assign_move. rewrite Heqb. by exists s.
  - destruct (rep_cell s m x _ Hr ltac:(eassumption)) as (p & Hp & _).
    destruct (rep_cell s m y _ Hr ltac:(eassumption)) as (q & Hq & Hc).
    unfold assign_move, string_pointer. rewrite Heqb, Hp. cbn [defined obind]. rewrite Hq. cbn [defined obind].
    eexists. split; [done|]. apply rep_transfer; try done. by apply Z.eqb_neq.
  - by eapply append_refines.
  - by eapply append_char_refines.
  - apply orb_false_iff in Heqb as [?%Z.eqb_neq ?%Z.eqb_neq]. by eapply plus_refines.
  - destruct (rep_cell s m x _ Hr ltac:(eassumption)) as (p & Hp & _).
    unfold destroy_string, string_pointer. rewrite Hp. cbn [defined obind]. eexists. split; [done|]. by apply rep_destroy.
Qed.

Lemma empty_represents : represents empty_state ∅.
Proof. split; [apply map_Forall2_empty|]. intros x y p Hx. cbn in Hx. by rewrite lookup_empty in Hx. Qed.

Lemma run_refines ops : ∀ s m m', represents s m → spec_run m ops = Some m' →
  ∃ s', run s ops = Ret s' ∧ represents s' m'.
Proof.
  induction ops as [|op ops IH]; intros s m m' Hr; cbn [spec_run run].
  - intros [= <-]. by exists s.
  - intros (m1 & Hop & Hops)%bind_Some. destruct (step_refines s m op m1 Hr Hop) as (s1 & -> & Hr1). cbn [obind].
    by apply IH with m1.
Qed.

(** The value of a string shows in every view that was made of it. *)
Lemma view_shows s m x t : represents s m → text_of m x = Some t →
  ∀ v p, strings s !! x = Some p → views s !! v = Some (p, 0) →
  ∃ o, view_object s v = Ret (mkView o 0) ∧ holds o t.
Proof.
  intros Hr Hx v p Hp Hv. destruct (rep_value s m x t Hr Hx) as (q & o & Hq & Hq0 & Ho & Hat & _ & Hh).
  replace q with p in * by congruence. unfold view_object, view_at. rewrite Hv. cbn [defined obind fst snd]. rewrite Hat.
  by exists o.
Qed.

Lemma view_made s m s1 v x t : represents s m → text_of m x = Some t → View_of_string s v x = Ret s1 →
  ∃ o, view_object s1 v = Ret (mkView o 0) ∧ holds o t.
Proof.
  intros Hr Hx Hv. destruct (rep_value s m x t Hr Hx) as (p & o & Hp & _ & _ & _ & _ & _).
  unfold View_of_string, string_pointer in Hv. rewrite Hp in Hv. cbn [defined obind] in Hv. injection Hv as <-.
  apply (view_shows _ m x t) with p; [split; [apply (rep_cells _ _ Hr)|apply (rep_separate _ _ Hr)]|done|done|apply lookup_insert_eq].
Qed.

(** A view shares the value of its string, and a [String] that is made of the
    view shares it too: [x], a view [v] of it and the string [y] of the view show the
    same text after an append through any of them, so a change of the copy [y]
    changes the string [x]. *)
Lemma view_aliases s m x y v t c :
  represents s m → text_of m x = Some t → x ≠ y → representable (t ++ [c]) →
  ∃ s1 s2 s3, View_of_string s v x = Ret s1 ∧ String_of_view s1 y v = Ret s2 ∧ append_to s2 y c = Ret s3 ∧
    (∃ o, string_value s3 x = Ret o ∧ string_value s3 y = Ret o ∧ view_object s3 v = Ret (mkView o 0) ∧ holds o (t ++ [c])).
Proof.
  intros Hr Hx Hne Ht. destruct (rep_value s m x t Hr Hx) as (p & o & Hp & Hp0 & Ho & _ & _ & Hh).
  destruct (append_char_holds o t c Hh Ht) as (w & Hw & Hhw).
  unfold View_of_string, String_of_view, append_to, view_object, string_value, string_pointer, view_at, value_at.
  rewrite Hp. cbn [defined obind]. eexists _, _, _. split; [done|].
  cbn [views strings values with_views with_strings with_values construct].
  rewrite lookup_insert_eq. cbn [defined obind fst snd]. split; [done|].
  cbn [views strings values with_views with_strings with_values construct].
  rewrite !lookup_insert_eq. cbn [defined obind]. rewrite (proj2 (Z.eqb_neq p 0)) by done. rewrite Ho. cbn [defined obind].
  rewrite Hw. cbn [obind]. split; [done|]. exists w.
  cbn [views strings values with_views with_strings with_values construct fst snd].
  rewrite !lookup_insert_eq, lookup_insert_ne by done. rewrite Hp. cbn [defined obind fst snd].
  rewrite (proj2 (Z.eqb_neq p 0)) by done. by rewrite !lookup_insert_eq.
Qed.

(** * Properties *)

(** C7: [String] objects behave as values, unless they are made of views.
    Whatever a program does with them (construction from text, copies and moves by
    construction and assignment, also from itself, appending, concatenation,
    destruction), as long as no text gets too long and none that was moved from is
    read, the calls are defined and every object ends up with the text that the
    operations on texts say: a change of one string, [x += x] included, never shows
    in another one.  A view of a string shows its text; but a [String] that is
    converted from the view shares the buffer of the viewed string, and an append to
    it appends to both. *)
Theorem strings_are_values ops m :
  spec_run ∅ ops = Some m →
  ∃ s, run empty_state ops = Ret s ∧
    (∀ x, is_Some (strings s !! x) ↔ is_Some (m !! x)) ∧
    (∀ x t, m !! x = Some (Some t) → ∃ v, string_value s x = Ret v ∧ holds v t) ∧
    (∀ x y t u, m !! x = Some (Some t) → m !! y = Some (Some u) → strings_equal s x y = Ret (bool_decide (t = u))) ∧
    (∀ x y v t c, m !! x = Some (Some t) → x ≠ y → representable (t ++ [c]) →
       ∃ s1 s2 s3, View_of_string s v x = Ret s1 ∧ String_of_view s1 y v = Ret s2 ∧ append_to s2 y c = Ret s3 ∧
         (∃ o, view_object s1 v = Ret (mkView o 0) ∧ holds o t) ∧
         ∃ o, string_value s3 x = Ret o ∧ string_value s3 y = Ret o ∧ view_object s3 v = Ret (mkView o 0) ∧ holds o (t ++ [c])).
Proof.
  intros Hops. destruct (run_refines ops _ _ _ empty_represents Hops) as (s & Hs & Hr). exists s. split; [done|].
  assert (Hval : ∀ x t, m !! x = Some (Some t) → ∃ v, string_value s x = Ret v ∧ holds v t).
  { intros x t Hx%text_of_Some. destruct (rep_value s m x t Hr Hx) as (p & v & _ & _ & _ & _ & ? & ?). by exists v. }
  split; [|split; [exact Hval|split]].
  - intros x. destruct (rep_cells _ _ Hr x); split; intros [? Hx]; by eauto; discriminate Hx.
  - intros x y t u Hx Hy. destruct (Hval x t Hx) as (v & Hv & Hh), (Hval y u Hy) as (w & Hw & Hh').
    unfold strings_equal. rewrite Hv, Hw. cbn [obind]. exact (proj1 (string_comparisons v w t u Hh Hh')).
  - intros x y v t c Hx%text_of_Some Hne Ht.
    destruct (view_aliases s m x y v t c Hr Hx Hne Ht) as (s1 & s2 & s3 & H1 & H2 & H3 & H4).
    exists s1, s2, s3. split_and!; [done..| |done]. by eapply view_made.
Qed.

(** ** Witnesses *)
(** [a = "ab"; b = a; a += b; c = move(a); b += 'c'; d = c + b; a = d] *)
Definition sample : list operation :=
  [OpText 1 [97; 98]; OpCopy 2 1; OpAppend 1 2; OpMove 3 1; OpAppendChar 2 99; OpPlus 4 3 2; OpAssign 1 4; OpAppend 3 3].

Definition sample_texts : texts :=
  {[1 := Some [97; 98; 97; 98; 97; 98; 99]; 2 := Some [97; 98; 99]; 3 := Some [97; 98; 97; 98; 97; 98; 97; 98];
    4 := Some [97; 98; 97; 98; 97; 98; 99]]}.

Lemma strings_are_values_witness :
  ∃ s, run empty_state sample = Ret s ∧ strings_equal s 1 4 = Ret true ∧ strings_equal s 1 2 = Ret false.
Proof.
  destruct (strings_are_values sample sample_texts) as (s & Hs & _ & _ & Heq & _); [vm_compute; reflexivity|].
  exists s. split; [exact Hs|]. split.
  - rewrite (Heq 1 4 _ _ eq_refl eq_refl). vm_compute. reflexivity.
  - rewrite (Heq 1 2 _ _ eq_refl eq_refl). vm_compute. reflexivity.
Defined.

Lemma view_aliases_witness :
  ∃ s0 s1 s2 s3 o, run empty_state [OpText 1 [97]] = Ret s0 ∧
    View_of_string s0 9 1 = Ret s1 ∧ String_of_view s1 2 9 = Ret s2 ∧ append_to s2 2 98 = Ret s3 ∧
    string_value s3 1 = Ret o ∧ holds o [97; 98].
Proof.
  destruct (run_refines [OpText 1 [97]] empty_state ∅ {[1 := Some [97]]} empty_represents) as (s & Hs & Hr);
    [vm_compute; reflexivity|].
  destruct (view_aliases s {[1 := Some [97]]} 1 2 9 [97] 98 Hr) as (s1 & s2 & s3 & H1 & H2 & H3 & o & H4 & _ & _ & H5);
    [reflexivity|discriminate|by apply (bool_decide_unpack _)|].
  exists s, s1, s2, s3, o. by split_and!.
Defined.

(** A moved-from string is null: its length cannot be read. *)
Lemma moved_string_read : (let! s := run empty_state [OpText 1 [97]; OpMove 2 1] in string_value s 1) = Undef.
Proof. vm_compute. reflexivity. Qed.

(** A view with an offset: [offset] of a view does not add up. *)
Lemma offset_replaces s w v a b : w ≠ v → is_Some (views s !! v) →
  ∃ s1 s2 p, View_offset s w v a = Ret s1 ∧ View_offset s1 w w b = Ret s2 ∧ views s2 !! w = Some (p, b).
Proof.
  intros Hne [[p o] Hv]. unfold View_offset, view_at. rewrite Hv. cbn [defined obind fst].
  eexists _, _, p. split; [done|]. cbn [views with_views]. rewrite lookup_insert_eq. cbn [defined obind fst].
  split; [done|]. cbn [views with_views]. by rewrite lookup_insert_eq.
Qed.

(** A copy of a builder has its characters, in a buffer of its own. *)
Lemma builder_copy_ok junk text rest :
  Forall is_byte text → Z.of_nat (length text) < 2 ^ 31 →
  builder_copy junk (mkBuilder (text ++ rest) (Z.of_nat (length (text ++ rest))) (Z.of_nat (length text))) =
    Ret (mkBuilder (text ++ replicate (length rest) junk) (Z.of_nat (length (text ++ rest))) (Z.of_nat (length text))).
Proof.
  intros Hb Hl. unfold builder_copy. cbn [m_capacity m_data m_size]. rewrite Nat2Z.id, length_app, replicate_add.
  rewrite to_int_small by lia.
  pose proof (memcpy_spec [] (replicate (length text) junk) (replicate (length rest) junk) text rest) as H.
  cbn [length app] in H. change (Z.of_nat 0) with 0 in H.
  rewrite H by (rewrite ?length_replicate; done). reflexivity.
Qed.
