(* ===== verification/Containers.v ===== *)
(** Contiguous containers: [ArrayList], [Array], [CircularStringBuffer]
    and [Optional].

    Storage is a list of slots; a slot is [None] while no object is alive in it.
    Reading, moving from or assigning to a slot without an object is [Undef],
    and a null array is the empty list of slots. *)
From S2P Require Import Prelude Bits Bytes Strings.

Abbreviation slots A := (list (option A)).

Definition slot {A} (l : slots A) (i : Z) : outcome (option A) :=
  if 0 <=? i then defined (l !! Z.to_nat i) else Undef.

Definition read_slot {A} (l : slots A) (i : Z) : outcome A :=
  let! s := slot l i in defined s.

Definition put_slot {A} (l : slots A) (i : Z) (x : option A) : outcome (slots A) :=
  let! _ := slot l i in Ret (<[Z.to_nat i := x]> l).

(** * [class ArrayList] *)
Module ArrayList.
Section ArrayList.
Context {A : Type}.

Definition DEFAULT_SIZE : Z := 8.

Record t : Type := mk { m_array : slots A; m_size : Z; m_ptr : Z }.

(** [kmalloc<T>(sizeof(T) * n)]: raw memory for [n] elements. *)
Definition raw (n : Z) : slots A := replicate (Z.to_nat n) None.

Definition new : t := mk (raw DEFAULT_SIZE) DEFAULT_SIZE 0.

(** The loops of [grow] and of the copies: construct each element from the old one. *)
Fixpoint construct_all (src dst : slots A) (i : Z) (n : nat) : outcome (slots A) :=
  match n with
  | O => Ret dst
  | S n' =>
      let! x := read_slot src i in
      let! dst := put_slot dst i (Some x) in
      construct_all src dst (i + 1) n'
  end.

Definition grow (this : t) : outcome t :=
  let newSize := u64 (m_size this * 2) in
  let! tmpArray := construct_all (m_array this) (raw newSize) 0 (Z.to_nat (m_ptr this)) in
  Ret (mk tmpArray newSize (m_ptr this)).

(** [add]: both overloads; the index of the new element is returned. *)
Definition add (this : t) (value : A) : outcome (Z * t) :=
  let! this := if m_size this <=? m_ptr this then grow this else Ret this in
  let! a := put_slot (m_array this) (m_ptr this) (Some value) in
  Ret (m_ptr this, mk a (m_size this) (u64 (m_ptr this + 1))).

Definition get (this : t) (index : Z) : outcome A :=
  runtime_assert (index <? m_size this) (read_slot (m_array this) index).

Definition size (this : t) : Z := m_ptr this.
Definition is_empty (this : t) : bool := m_ptr this =? 0.

(** [remove].  [trivial] tells whether the destructor of the element type does
    nothing, so that a destroyed object may still be assigned to and destroyed. *)
Definition destroy (trivial : bool) (a : slots A) (i : Z) : outcome (slots A) :=
  let! s := slot a i in
  match s with
  | Some x => if trivial then Ret a else put_slot a i None
  | None => if trivial then Ret a else Undef
  end.

Definition move_assign (trivial : bool) (a : slots A) (i : Z) : outcome (slots A) :=
  let! x := read_slot a (i + 1) in
  let! old := slot a i in
  match old with
  | None => if trivial then put_slot a i (Some x) else Undef
  | Some _ => put_slot a i (Some x)
  end.

Fixpoint shift_down (trivial : bool) (a : slots A) (i : Z) (n : nat) : outcome (slots A) :=
  match n with
  | O => Ret a
  | S n' => let! a := move_assign trivial a i in shift_down trivial a (i + 1) n'
  end.

Definition remove (trivial : bool) (this : t) (index : Z) : outcome t :=
  runtime_assert (index <? m_size this)
    (let! a := destroy trivial (m_array this) index in
     let! a := shift_down trivial a index (Z.to_nat (u64 (m_ptr this - 1) - index)) in
     let! a := destroy trivial a (u64 (m_ptr this - 1)) in
     Ret (mk a (m_size this) (u64 (m_ptr this - 1)))).

(** The loops over [get(i)] for [i < size()]. *)
Fixpoint find_from (predicate : A → bool) (this : t) (i : Z) (n : nat) : outcome (option (Z * A)) :=
  match n with
  | O => Ret None
  | S n' =>
      let! x := get this i in
      if predicate x then Ret (Some (i, x)) else find_from predicate this (i + 1) n'
  end.

Definition find_first_match (this : t) (predicate : A → bool) : outcome (ErrorOr A Error) :=
  let! r := find_from predicate this 0 (Z.to_nat (size this)) in
  Ret (match r with Some (_, x) => Value x | None => fail_with "No match found!" end).

Definition contains_match (this : t) (predicate : A → bool) : outcome bool :=
  let! r := find_from predicate this 0 (Z.to_nat (size this)) in
  Ret (match r with Some _ => true | None => false end).

Definition contains (eqb : A → A → bool) (this : t) (element : A) : outcome bool :=
  contains_match this (λ x, eqb x element).

Definition index_of (eqb : A → A → bool) (this : t) (element : A) : outcome Z :=
  let! r := find_from (λ x, eqb x element) this 0 (Z.to_nat (size this)) in
  Ret (match r with Some (i, _) => i | None => -1 end).

Fixpoint collect_matches (predicate : A → bool) (this : t) (i : Z) (n : nat) (matches : t) : outcome t :=
  match n with
  | O => Ret matches
  | S n' =>
      let! x := get this i in
      let! matches :=
        if predicate x then let! x' := get this i in let! r := add matches x' in Ret r.2 else Ret matches in
      collect_matches predicate this (i + 1) n' matches
  end.

Definition find_all_matches (this : t) (predicate : A → bool) : outcome t :=
  collect_matches predicate this 0 (Z.to_nat (size this)) new.

(** [for_each]: the elements the function is called with, in order. *)
Fixpoint visit (this : t) (i : Z) (n : nat) : outcome (list A) :=
  match n with
  | O => Ret []
  | S n' => let! x := get this i in let! xs := visit this (i + 1) n' in Ret (x :: xs)
  end.

Definition for_each (this : t) : outcome (list A) := visit this 0 (Z.to_nat (size this)).

(** The copy constructor. *)
Definition copy (other : t) : outcome t :=
  let! a := construct_all (m_array other) (raw (m_size other)) 0 (Z.to_nat (m_ptr other)) in
  Ret (mk a (m_size other) (m_ptr other)).

(** The move constructor: the new list and what is left of the old one. *)
Definition move_from (other : t) : t * t := (other, mk [] 0 0).

(** The loop of [clear] and [reset] that ends the lifetime of the elements. *)
Fixpoint destroy_all (trivial : bool) (a : slots A) (i : Z) (n : nat) : outcome (slots A) :=
  match n with
  | O => Ret a
  | S n' => let! a := destroy trivial a i in destroy_all trivial a (i + 1) n'
  end.

(** The private [clear], also the destructor. *)
Definition clear (trivial : bool) (this : t) : outcome t :=
  let! _ := destroy_all trivial (m_array this) 0 (Z.to_nat (m_ptr this)) in Ret (mk [] 0 0).

Definition reset (trivial : bool) (this : t) : outcome t :=
  let! _ := destroy_all trivial (m_array this) 0 (Z.to_nat (m_ptr this)) in Ret new.

(** The copy assignment; [same] tells whether both sides are one object. *)
Definition assign (trivial same : bool) (this other : t) : outcome t :=
  if same then Ret this
  else let! _ := clear trivial this in copy other.

(** The move assignment: the new value of both sides. *)
Definition assign_move (trivial same : bool) (this other : t) : outcome (t * t) :=
  if same then Ret (this, other)
  else let! _ := clear trivial this in Ret (move_from other).

(** A range [for] over [begin()] and [end()]: the slots up to [m_ptr], unchecked. *)
Fixpoint iterate (a : slots A) (i : Z) (n : nat) : outcome (list A) :=
  match n with
  | O => Ret []
  | S n' => let! x := read_slot a i in let! xs := iterate a (i + 1) n' in Ret (x :: xs)
  end.

Definition range (this : t) : outcome (list A) := iterate (m_array this) 0 (Z.to_nat (m_ptr this)).

(** The list holds the elements [l]. *)
Record holds (this : t) (l : list A) : Prop := {
  holds_slots : ∃ rest, m_array this = (Some <$> l) ++ rest;
  holds_ptr : m_ptr this = Z.of_nat (length l);
  holds_size : m_size this = Z.of_nat (length (m_array this));
  holds_nonempty : (1 ≤ length (m_array this))%nat;
  holds_bound : Z.of_nat (length (m_array this)) < 2 ^ 61
}.
End ArrayList.
Arguments t : clear implicits.
End ArrayList.

(** * [class Array] *)
Module Array.
Section Array.
Context {A : Type}.

Record t : Type := mk { m_array : slots A; m_size : Z }.

(** Every element starts as [T()]. *)
Definition new (default_ : A) (size : Z) : t := mk (replicate (Z.to_nat size) (Some default_)) size.

(** [set] does not check the index. *)
Definition set (this : t) (index : Z) (element : A) : outcome t :=
  let! _ := read_slot (m_array this) index in
  let! a := put_slot (m_array this) index (Some element) in Ret (mk a (m_size this)).

Definition get (this : t) (index : Z) : outcome A :=
  runtime_assert (index <? m_size this) (read_slot (m_array this) index).

Fixpoint fill_from (a : slots A) (value : A) (i : Z) (n : nat) : outcome (slots A) :=
  match n with
  | O => Ret a
  | S n' => let! a := put_slot a i (Some value) in fill_from a value (i + 1) n'
  end.

Definition fill (this : t) (value : A) : outcome t :=
  let! a := fill_from (m_array this) value 0 (Z.to_nat (m_size this)) in Ret (mk a (m_size this)).

(** The copies, over [new T[m_size]] whose elements are default constructed. *)
Fixpoint copy_from (src dst : slots A) (i : Z) (n : nat) : outcome (slots A) :=
  match n with
  | O => Ret dst
  | S n' =>
      let! x := read_slot src i in
      let! dst := put_slot dst i (Some x) in
      copy_from src dst (i + 1) n'
  end.

Definition copy (default_ : A) (other : t) : outcome t :=
  let! a := copy_from (m_array other) (replicate (Z.to_nat (m_size other)) (Some default_)) 0
              (Z.to_nat (m_size other)) in
  Ret (mk a (m_size other)).

Definition assign (default_ : A) (same : bool) (this other : t) : outcome t :=
  if same then Ret this else copy default_ other.

(** The move constructor and the move assignment: both sides afterwards. *)
Definition move_from (other : t) : t * t := (other, mk [] 0).
Definition assign_move (same : bool) (this other : t) : t * t :=
  if same then (this, other) else move_from other.
End Array.
Arguments t : clear implicits.
End Array.

(** * [class CircularStringBuffer] *)
Module CircularStringBuffer.
Record t : Type := mk { m_buffer : bytes; m_size : Z; m_head : Z }.

Definition new (capacity : Z) : outcome t :=
  runtime_assert (0 <? capacity)
    (let! b := memset (replicate (Z.to_nat capacity) 0) 0 0 (to_int capacity) in Ret (mk b capacity 0)).

Definition clear (this : t) : outcome t :=
  let! b := memset (m_buffer this) 0 0 (to_int (m_size this)) in Ret (mk b (m_size this) 0).

Definition flush (this : t) : outcome t :=
  if m_head this =? 0 then Ret this
  else
    let! b := put_byte (m_buffer this) (m_head this) 0 in
    clear (mk b (m_size this) (m_head this)).

(** Nothing keeps the text that [flush] discards, and it is not checked that
    the data fits once the buffer is empty. *)
Definition write (this : t) (data : bytes) (len : Z) : outcome t :=
  let! this := if m_size this <=? u64 (m_head this + len) then flush this else Ret this in
  let! b := memcpy (m_buffer this) (m_head this) data (to_int len) in
  Ret (mk b (m_size this) (u64 (m_head this + len))).

Definition write_char (this : t) (c : Z) : outcome t :=
  let! this := if m_size this <=? u64 (m_head this + 1) then flush this else Ret this in
  let! b := put_byte (m_buffer this) (m_head this) c in
  Ret (mk b (m_size this) (u64 (m_head this + 1))).

Definition to_string (this : t) : outcome String := create (m_buffer this) (m_head this).
Definition is_empty (this : t) : bool := m_head this =? 0.
Definition size (this : t) : Z := m_head this.
Definition capacity (this : t) : Z := m_size this.

(** The buffer holds the text [l]. *)
Record holds (this : t) (l : bytes) : Prop := {
  holds_buffer : ∃ rest, m_buffer this = l ++ rest;
  holds_head : m_head this = Z.of_nat (length l);
  holds_capacity : m_size this = Z.of_nat (length (m_buffer this));
  holds_small : m_size this < 2 ^ 31;
  holds_room : (length l < length (m_buffer this))%nat
}.
End CircularStringBuffer.

(** * [class Optional] *)
Module Optional.
Section Optional.
Context {E : Type}.

Record t : Type := mk { m_has_value : bool; m_storage : option E }.

Definition empty : t := mk false None.
Definition of_value (value : E) : t := mk true (Some value).

Definition reset (this : t) : t := if m_has_value this then mk false None else this.

Definition value (this : t) : outcome E :=
  runtime_assert (m_has_value this) (defined (m_storage this)).

(** [operator=]: [same] tells whether both sides are one object. *)
Definition assign (same : bool) (this other : t) : t :=
  if same then this
  else if m_has_value other then mk true (m_storage other) else reset this.

(** The move constructor and the move assignment: both sides afterwards. *)
Definition move_from (other : t) : t * t :=
  if m_has_value other then (mk true (m_storage other), reset other) else (mk false None, other).
Definition assign_move (same : bool) (this other : t) : t * t :=
  if same then (this, other)
  else if m_has_value other then (mk true (m_storage other), reset other) else (reset this, other).
End Optional.
Arguments t : clear implicits.
End Optional.

(** * Slots *)
Section slots.
Context {A : Type}.

Lemma slot_app (l : slots A) x r : slot (l ++ x :: r) (Z.of_nat (length l)) = Ret x.
Proof. unfold slot. rewrite (proj2 (Z.leb_le 0 _)), Nat2Z.id by lia. by rewrite list_lookup_middle. Qed.

Lemma read_slot_app (l : slots A) x r : read_slot (l ++ Some x :: r) (Z.of_nat (length l)) = Ret x.
Proof. unfold read_slot. by rewrite slot_app. Qed.

Lemma put_slot_app (l : slots A) x y r : put_slot (l ++ x :: r) (Z.of_nat (length l)) y = Ret (l ++ y :: r).
Proof.
  unfold put_slot. rewrite slot_app. cbn [obind]. rewrite Nat2Z.id.
  by rewrite <- (Nat.add_0_r (length l)), insert_app_r.
Qed.

Lemma snoc_length (l : slots A) x : Z.of_nat (length l) + 1 = Z.of_nat (length (l ++ [x])).
Proof. rewrite length_app. simpl. lia. Qed.

Lemma construct_all_spec (xs : list A) : ∀ p r q mid s,
  length q = length p → length mid = length xs →
  ArrayList.construct_all (p ++ (Some <$> xs) ++ r) (q ++ mid ++ s) (Z.of_nat (length p)) (length xs) =
    Ret (q ++ (Some <$> xs) ++ s).
Proof.
  induction xs as [|x xs IH]; intros p r q [|y mid] s Hq Hm; try done. simpl in Hm.
  cbn [fmap list_fmap app length ArrayList.construct_all]. rewrite read_slot_app. cbn [obind].
  rewrite <- Hq, put_slot_app. cbn [obind]. rewrite Hq, (snoc_length p (Some x)).
  pose proof (IH (p ++ [Some x]) r (q ++ [Some x]) mid s) as H.
  rewrite <- !app_assoc in H. apply H; rewrite ?length_app; simpl; lia.
Qed.

Lemma slot_split (this : ArrayList.t A) (l : list A) (i : nat) x :
  ArrayList.holds this l → l !! i = Some x →
  ∃ p r, ArrayList.m_array this = p ++ Some x :: r ∧ length p = i.
Proof.
  intros [(rest & Ha) _ _ _ _] Hi. exists (Some <$> take i l), ((Some <$> drop (S i) l) ++ rest).
  split; [|rewrite length_fmap, length_take; apply lookup_lt_Some in Hi; lia].
  rewrite Ha. rewrite <- (take_drop_middle l i x Hi) at 1. by rewrite fmap_app, <- app_assoc.
Qed.

Lemma get_holds (this : ArrayList.t A) l i x :
  ArrayList.holds this l → l !! i = Some x → ArrayList.get this (Z.of_nat i) = Ret x.
Proof.
  intros H Hi. destruct (slot_split _ _ _ _ H Hi) as (p & r & Ha & <-). unfold ArrayList.get.
  rewrite (ArrayList.holds_size _ _ H), Ha, (proj2 (Z.ltb_lt _ _)) by (rewrite length_app; simpl; lia).
  apply read_slot_app.
Qed.

Lemma grow_holds (this : ArrayList.t A) l :
  ArrayList.holds this l → Z.of_nat (length l) < 2 ^ 60 → ArrayList.m_size this = ArrayList.m_ptr this →
  ∃ this', ArrayList.grow this = Ret this' ∧ ArrayList.holds this' l ∧
    ArrayList.m_size this' = 2 * Z.of_nat (length l).
Proof.
  intros [(rest & Ha) Hp Hsz Hn Hb] Hl Heq. rewrite Hp in Heq. rewrite Heq in Hsz.
  assert (rest = []) as ->.
  { apply nil_length_inv. rewrite Ha, length_app, length_fmap in Hsz. lia. }
  unfold ArrayList.grow, ArrayList.raw. rewrite Heq, Hp, wrap_small, Nat2Z.id by (unfold in_word; lia).
  replace (Z.to_nat (Z.of_nat (length l) * 2)) with (length l + length l)%nat by lia.
  rewrite replicate_add, Ha, app_nil_r.
  pose proof (construct_all_spec l [] [] [] (replicate (length l) None) (replicate (length l) None)) as Hc.
  cbn [app length] in Hc. rewrite app_nil_r in Hc. change (Z.of_nat 0) with 0 in Hc.
  rewrite Hc by (done || apply length_replicate). cbn [obind].
  eexists. split; [done|]. split; [|simpl; lia]. constructor; simpl.
  - by eexists.
  - done.
  - rewrite length_app, length_fmap, length_replicate. lia.
  - rewrite length_app, length_fmap, length_replicate. rewrite Ha, app_nil_r, length_fmap in Hn. lia.
  - rewrite length_app, length_fmap, length_replicate. lia.
Qed.

Lemma add_with_room (this : ArrayList.t A) l x :
  ArrayList.holds this l → Z.of_nat (length l) < ArrayList.m_size this →
  ∃ this', (let! a := put_slot (ArrayList.m_array this) (ArrayList.m_ptr this) (Some x) in
            Ret (ArrayList.m_ptr this, ArrayList.mk a (ArrayList.m_size this) (u64 (ArrayList.m_ptr this + 1)))) =
           Ret (Z.of_nat (length l), this') ∧ ArrayList.holds this' (l ++ [x]).
Proof.
  intros [(rest & Ha) Hp Hsz Hn Hb] Hroom. rewrite Hsz, Ha, length_app, length_fmap in Hroom.
  destruct rest as [|y rest]; [simpl in Hroom; lia|]. rewrite Ha, Hp.
  rewrite <- (length_fmap Some l), put_slot_app. cbn [obind]. rewrite length_fmap.
  rewrite Ha, length_app, length_fmap in *. simpl in *.
  rewrite wrap_small by (unfold in_word; lia). eexists. split; [done|]. constructor; simpl.
  - exists rest. by rewrite fmap_app, <- app_assoc.
  - rewrite length_app. simpl. lia.
  - rewrite length_app, length_fmap. simpl. lia.
  - rewrite length_app, length_fmap. simpl. lia.
  - rewrite length_app, length_fmap. simpl. lia.
Qed.

Lemma add_holds (this : ArrayList.t A) l x :
  ArrayList.holds this l → Z.of_nat (length l) < 2 ^ 60 →
  ∃ this', ArrayList.add this x = Ret (Z.of_nat (length l), this') ∧ ArrayList.holds this' (l ++ [x]).
Proof.
  intros H Hl. pose proof H as [(rest & Ha) Hp Hsz Hn Hb]. unfold ArrayList.add.
  assert (Z.of_nat (length l) ≤ ArrayList.m_size this) as Hle
    by (rewrite Hsz, Ha, length_app, length_fmap; lia).
  destruct (Z.leb_spec (ArrayList.m_size this) (ArrayList.m_ptr this)) as [Hfull|Hroom].
  - destruct (grow_holds this l H Hl) as (this' & -> & H' & Hs'); [lia|]. cbn [obind].
    destruct (add_with_room this' l x H') as (this'' & Hadd & H''); [lia|]. by exists this''.
  - cbn [obind]. destruct (add_with_room this l x H) as (this'' & Hadd & H''); [lia|]. by exists this''.
Qed.

(** ** [remove], for element types whose destructor does nothing *)
Lemma shift_down_spec xs : ∀ p x r,
  ArrayList.shift_down (A := A) true (p ++ Some x :: (Some <$> xs) ++ r) (Z.of_nat (length p)) (length xs) =
    Ret (p ++ (Some <$> xs) ++ Some (default x (last xs)) :: r).
Proof.
  induction xs as [|y xs IH]; intros p x r; [done|].
  cbn [fmap list_fmap app length ArrayList.shift_down]. unfold ArrayList.move_assign.
  assert (read_slot (p ++ Some x :: Some y :: (Some <$> xs) ++ r) (Z.of_nat (length p) + 1) = Ret y) as ->.
  { rewrite (snoc_length p (Some x)).
    replace (p ++ Some x :: Some y :: (Some <$> xs) ++ r) with ((p ++ [Some x]) ++ Some y :: (Some <$> xs) ++ r)
      by by rewrite <- app_assoc. apply read_slot_app. }
  cbn [obind]. rewrite slot_app. cbn [obind]. rewrite put_slot_app. cbn [obind].
  rewrite (snoc_length p (Some y)).
  pose proof (IH (p ++ [Some y]) y r) as H. rewrite <- !app_assoc in H. cbn [app] in H. rewrite H.
  rewrite last_cons. by destruct (last xs).
Qed.

Lemma slots_of (this : ArrayList.t A) (l : list A) i x :
  ArrayList.holds this l → l !! i = Some x →
  ∃ rest, ArrayList.m_array this = (Some <$> take i l) ++ Some x :: (Some <$> drop (S i) l) ++ rest ∧
    length (Some <$> take i l) = i.
Proof.
  intros [(rest & Ha) _ _ _ _] Hi. exists rest. split.
  - rewrite Ha. rewrite <- (take_drop_middle l i x Hi) at 1. by rewrite fmap_app, <- app_assoc.
  - rewrite length_fmap, length_take. apply lookup_lt_Some in Hi. lia.
Qed.

Lemma remove_holds (this : ArrayList.t A) (l : list A) i :
  ArrayList.holds this l → (i < length l)%nat → Z.of_nat (length l) < 2 ^ 60 →
  ∃ this', ArrayList.remove true this (Z.of_nat i) = Ret this' ∧ ArrayList.holds this' (delete i l).
Proof.
  intros H Hi Hl. destruct (lookup_lt_is_Some_2 l i Hi) as [x Hx].
  destruct (slots_of _ _ _ _ H Hx) as (rest & Ha & Hlen). pose proof H as [_ Hp Hsz Hn Hb].
  set (p := Some <$> take i l) in *. unfold ArrayList.remove.
  assert (length (ArrayList.m_array this) = length l + length rest)%nat as Htot.
  { rewrite Ha, length_app. simpl. rewrite length_app, length_fmap, length_drop. lia. }
  rewrite Hsz, Htot, (proj2 (Z.ltb_lt _ _)) by lia. cbn [runtime_assert].
  replace (Z.of_nat i) with (Z.of_nat (length p)) by lia.
  unfold ArrayList.destroy at 1. rewrite Ha, slot_app. cbn [obind].
  rewrite Hp, wrap_small by (unfold in_word; lia).
  replace (Z.to_nat (Z.of_nat (length l) - 1 - Z.of_nat (length p))) with (length (drop (S i) l))
    by (rewrite length_drop; lia).
  rewrite shift_down_spec. cbn [obind].
  set (y := Some (default x (last (drop (S i) l)))).
  assert (p ++ (Some <$> drop (S i) l) ++ y :: rest = (Some <$> delete i l) ++ y :: rest) as Heq.
  { rewrite delete_take_drop, fmap_app, <- app_assoc. done. }
  rewrite Heq. assert (length (delete i l) = length l - 1)%nat as Hdel by by apply length_delete.
  unfold ArrayList.destroy.
  replace (Z.of_nat (length l) - 1) with (Z.of_nat (length (Some <$> delete i l)))
    by (rewrite length_fmap; lia).
  rewrite slot_app. cbn [obind]. eexists. split; [done|].
  constructor; cbn [ArrayList.m_array ArrayList.m_size ArrayList.m_ptr];
    rewrite ?length_app, ?length_fmap, ?Hdel; simpl; try lia.
  by eexists.
Qed.

(** Element types with a destructor: the destroyed slot is used again. *)
Lemma remove_nontrivial (this : ArrayList.t A) (l : list A) i :
  ArrayList.holds this l → (i < length l)%nat → Z.of_nat (length l) < 2 ^ 60 →
  ArrayList.remove false this (Z.of_nat i) = Undef.
Proof.
  intros H Hi Hl. destruct (lookup_lt_is_Some_2 l i Hi) as [x Hx].
  destruct (slots_of _ _ _ _ H Hx) as (rest & Ha & Hlen). pose proof H as [_ Hp Hsz Hn Hb].
  set (p := Some <$> take i l) in *. unfold ArrayList.remove.
  rewrite Hsz, (proj2 (Z.ltb_lt _ _)) by (rewrite Ha, length_app; simpl; lia). cbn [runtime_assert].
  replace (Z.of_nat i) with (Z.of_nat (length p)) by lia.
  unfold ArrayList.destroy at 1. rewrite Ha, slot_app. cbn [obind].
  rewrite put_slot_app. cbn [obind].
  rewrite Hp, wrap_small by (unfold in_word; lia).
  destruct (drop (S i) l) as [|y ys] eqn:Hd.
  - assert (length l = S i) as Hsi by (apply (f_equal length) in Hd; rewrite length_drop in Hd; simpl in Hd; lia).
    replace (Z.to_nat (Z.of_nat (length l) - 1 - Z.of_nat (length p))) with 0%nat by lia. cbn [ArrayList.shift_down obind].
    unfold ArrayList.destroy. replace (Z.of_nat (length l) - 1) with (Z.of_nat (length p)) by lia.
    by rewrite slot_app.
  - assert (length l = S (S i) + length ys)%nat as Hsi
      by (apply (f_equal length) in Hd; rewrite length_drop in Hd; simpl in Hd; lia).
    replace (Z.to_nat (Z.of_nat (length l) - 1 - Z.of_nat (length p))) with (S (length ys)) by lia.
    cbn [ArrayList.shift_down]. unfold ArrayList.move_assign.
    destruct (read_slot _ (Z.of_nat (length p) + 1)) eqn:Hr; cbn [obind]; try done.
    + by rewrite slot_app.
    + exfalso. revert Hr. rewrite (snoc_length p None). cbn [fmap list_fmap app].
      replace (p ++ None :: Some y :: (Some <$> ys) ++ rest) with ((p ++ [None]) ++ Some y :: (Some <$> ys) ++ rest)
        by by rewrite <- app_assoc. by rewrite read_slot_app.
    + exfalso. revert Hr. rewrite (snoc_length p None). cbn [fmap list_fmap app].
      replace (p ++ None :: Some y :: (Some <$> ys) ++ rest) with ((p ++ [None]) ++ Some y :: (Some <$> ys) ++ rest)
        by by rewrite <- app_assoc. by rewrite read_slot_app.
Qed.

(** ** The loops over the elements *)
Lemma find_from_spec predicate (this : ArrayList.t A) (l : list A) n : ∀ i,
  ArrayList.holds this l → (i + n = length l)%nat →
  ArrayList.find_from predicate this (Z.of_nat i) n =
    Ret ((λ '(k, x), (Z.of_nat (i + k), x)) <$> list_find (λ x, predicate x = true) (drop i l)).
Proof.
  induction n as [|n IH]; intros i H Hi; cbn [ArrayList.find_from].
  - by rewrite drop_ge by lia.
  - destruct (lookup_lt_is_Some_2 l i) as [x Hx]; [lia|]. rewrite (get_holds _ _ _ _ H Hx). cbn [obind].
    rewrite (drop_S _ _ _ Hx). cbn [list_find]. destruct (predicate x) eqn:Hpx.
    + rewrite decide_True by done. simpl. by rewrite Nat.add_0_r.
    + rewrite decide_False by congruence.
      replace (Z.of_nat i + 1) with (Z.of_nat (S i)) by lia. rewrite IH by (done || lia).
      destruct (list_find _ (drop (S i) l)) as [[k y]|]; simpl; [|done]. do 3 f_equal. lia.
Qed.

Lemma visit_spec (this : ArrayList.t A) (l : list A) n : ∀ i,
  ArrayList.holds this l → (i + n = length l)%nat → ArrayList.visit this (Z.of_nat i) n = Ret (drop i l).
Proof.
  induction n as [|n IH]; intros i H Hi; cbn [ArrayList.visit]; [by rewrite drop_ge by lia|].
  destruct (lookup_lt_is_Some_2 l i) as [x Hx]; [lia|]. rewrite (get_holds _ _ _ _ H Hx). cbn [obind].
  replace (Z.of_nat i + 1) with (Z.of_nat (S i)) by lia. rewrite IH by (done || lia). cbn [obind].
  by rewrite <- (drop_S _ _ _ Hx).
Qed.

Lemma destroy_all_spec trivial (xs : list A) : ∀ p r,
  ∃ mid, length mid = length xs ∧
  ArrayList.destroy_all trivial (p ++ (Some <$> xs) ++ r) (Z.of_nat (length p)) (length xs) = Ret (p ++ mid ++ r).
Proof.
  induction xs as [|x xs IH]; intros p r; [by exists []|]. cbn [fmap list_fmap app length ArrayList.destroy_all].
  set (y := if trivial then Some x else None).
  assert (ArrayList.destroy trivial (p ++ Some x :: (Some <$> xs) ++ r) (Z.of_nat (length p)) =
    Ret ((p ++ [y]) ++ (Some <$> xs) ++ r)) as ->.
  { unfold ArrayList.destroy. rewrite slot_app. cbn [obind]. rewrite <- app_assoc. subst y.
    destruct trivial; [done|]. apply put_slot_app. }
  cbn [obind]. rewrite (snoc_length p y).
  destruct (IH (p ++ [y]) r) as (mid & Hm & ->). exists (y :: mid). split; [simpl; lia|]. by rewrite <- app_assoc.
Qed.

Lemma clear_holds trivial (this : ArrayList.t A) l :
  ArrayList.holds this l →
  ArrayList.clear trivial this = Ret (ArrayList.mk [] 0 0) ∧ ArrayList.reset trivial this = Ret ArrayList.new.
Proof.
  intros [(rest & Ha) Hp _ _ _]. unfold ArrayList.clear, ArrayList.reset. rewrite Ha, Hp, Nat2Z.id.
  destruct (destroy_all_spec trivial l [] rest) as (mid & _ & Heq).
  change (ArrayList.destroy_all trivial ((Some <$> l) ++ rest) 0 (length l) = Ret (mid ++ rest)) in Heq.
  by rewrite Heq.
Qed.

Lemma copy_holds (this : ArrayList.t A) l :
  ArrayList.holds this l → ∃ this', ArrayList.copy this = Ret this' ∧ ArrayList.holds this' l.
Proof.
  intros [(rest & Ha) Hp Hs Hn Hb]. unfold ArrayList.copy, ArrayList.raw. rewrite Hs, Hp, !Nat2Z.id, Ha.
  pose proof (construct_all_spec l [] rest [] (replicate (length l) None) (replicate (length rest) None)) as H.
  cbn [app length] in H. change (Z.of_nat 0) with 0 in H. rewrite length_app, length_fmap, replicate_add.
  rewrite H by (done || by rewrite length_replicate). cbn [obind]. eexists. split; [done|].
  rewrite Ha, length_app, length_fmap in *. constructor; simpl; rewrite ?length_app, ?length_fmap, ?length_replicate; try done; by eexists.
Qed.

Lemma iterate_spec (xs : list A) : ∀ p r,
  ArrayList.iterate (p ++ (Some <$> xs) ++ r) (Z.of_nat (length p)) (length xs) = Ret xs.
Proof.
  induction xs as [|x xs IH]; intros p r; [done|]. cbn [fmap list_fmap app length ArrayList.iterate].
  rewrite read_slot_app. cbn [obind]. rewrite (snoc_length p (Some x)).
  pose proof (IH (p ++ [Some x]) r) as H. rewrite <- app_assoc in H. cbn [app] in H. by rewrite H.
Qed.

Lemma range_holds (this : ArrayList.t A) l : ArrayList.holds this l → ArrayList.range this = Ret l.
Proof.
  intros [(rest & Ha) Hp _ _ _]. unfold ArrayList.range. rewrite Ha, Hp, Nat2Z.id.
  exact (iterate_spec l [] rest).
Qed.

Lemma new_holds : ArrayList.holds (A := A) ArrayList.new [].
Proof. constructor; simpl; try done; try lia. by eexists. Qed.
End slots.

(** * Properties *)

(** An [ArrayList] behaves as the list of its elements: a new one is empty;
    [add] appends, growing when the storage is full, and returns the index;
    [get] is lookup; the searches find the first match; [for_each] and a range
    [for] visit all elements in order; copies and assigned lists hold the same
    elements; and [remove] of an element deletes it, for element types whose
    destructor does nothing. *)
Theorem arraylist_is_list {A : Type} (this : ArrayList.t A) (l : list A) :
  ArrayList.holds this l → Z.of_nat (length l) < 2 ^ 60 →
  ArrayList.holds (A := A) ArrayList.new [] ∧
  (∀ x, ∃ this', ArrayList.add this x = Ret (Z.of_nat (length l), this') ∧ ArrayList.holds this' (l ++ [x])) ∧
  (∀ i x, l !! i = Some x → ArrayList.get this (Z.of_nat i) = Ret x) ∧
  (∀ predicate, ArrayList.find_first_match this predicate =
     Ret (match list_find (λ x, predicate x = true) l with
          | Some (_, x) => Value x | None => fail_with "No match found!" end)) ∧
  (∀ eqb x, ArrayList.index_of eqb this x =
     Ret (match list_find (λ y, eqb y x = true) l with Some (i, _) => Z.of_nat i | None => -1 end)) ∧
  ArrayList.for_each this = Ret l ∧ ArrayList.range this = Ret l ∧
  (∀ other l' trivial, ArrayList.holds other l' →
     ∃ this', ArrayList.assign trivial false other this = Ret this' ∧ ArrayList.holds this' l) ∧
  (∀ i, (i < length l)%nat →
     ∃ this', ArrayList.remove true this (Z.of_nat i) = Ret this' ∧ ArrayList.holds this' (delete i l)).
Proof.
  intros H Hl. assert (∀ predicate, ArrayList.find_from predicate this 0 (Z.to_nat (ArrayList.size this)) =
    Ret ((λ '(k, x), (Z.of_nat k, x)) <$> list_find (λ x, predicate x = true) l)) as Hfind.
  { intros predicate. unfold ArrayList.size. rewrite (ArrayList.holds_ptr _ _ H), Nat2Z.id.
    change 0 with (Z.of_nat 0). rewrite (find_from_spec _ _ l) by done. done. }
  split_and!.
  - apply new_holds.
  - intros x. by apply add_holds.
  - intros i x. by apply get_holds.
  - intros predicate. unfold ArrayList.find_first_match. rewrite Hfind. cbn [obind].
    by destruct (list_find _ l) as [[]|].
  - intros eqb x. unfold ArrayList.index_of. rewrite Hfind. cbn [obind].
    by destruct (list_find _ l) as [[]|].
  - unfold ArrayList.for_each, ArrayList.size. rewrite (ArrayList.holds_ptr _ _ H), Nat2Z.id.
    change 0 with (Z.of_nat 0). by rewrite (visit_spec _ l).
  - by apply range_holds.
  - intros other l' trivial Ho. unfold ArrayList.assign. rewrite (proj1 (clear_holds trivial _ _ Ho)).
    cbn [obind]. by apply copy_holds.
  - intros i Hi. by apply remove_holds.
Qed.

(** [remove] of an element whose type has a destructor uses the destroyed
    object again, and [get] of an index behind the elements, but inside the
    storage of a list that only grew, reads an element that was never made. *)
Theorem arraylist_lifetimes {A : Type} (this : ArrayList.t A) (l : list A) (i : nat) :
  ArrayList.holds this l → Z.of_nat (length l) < 2 ^ 60 →
  ((i < length l)%nat → ArrayList.remove false this (Z.of_nat i) = Undef) ∧
  ((length l ≤ i)%nat → ArrayList.m_array this !! i = Some None →
   ArrayList.get this (Z.of_nat i) = Undef).
Proof.
  intros H Hl. split; [intros; by eapply remove_nontrivial|]. intros Hi Hraw.
  pose proof (lookup_lt_Some _ _ _ Hraw). unfold ArrayList.get.
  rewrite (ArrayList.holds_size _ _ H), (proj2 (Z.ltb_lt _ _)) by lia. simpl.
  unfold read_slot, slot. rewrite (proj2 (Z.leb_le 0 _)), Nat2Z.id, Hraw by lia. done.
Qed.

(** ** Text that the circular buffer loses *)
Lemma buffer_write_fits this l data rest :
  CircularStringBuffer.holds this l → Forall is_byte data →
  Z.of_nat (length l + length data) < CircularStringBuffer.m_size this →
  ∃ this', CircularStringBuffer.write this (data ++ rest) (Z.of_nat (length data)) = Ret this' ∧
    CircularStringBuffer.holds this' (l ++ data).
Proof.
  intros [(r & Hb) Hh Hc Hs Hr] Hd Hfit. unfold CircularStringBuffer.write.
  rewrite Hh, wrap_small, (proj2 (Z.leb_gt _ _)) by (unfold in_word; lia). cbn [obind].
  rewrite Hc, Hb, length_app in Hfit, Hs. rewrite to_int_small by lia. rewrite Hb.
  rewrite <- (take_drop (length data) r).
  rewrite Hh, wrap_small by (unfold in_word; lia).
  rewrite memcpy_spec by (try done; rewrite length_take; lia). cbn [obind].
  eexists. split; [done|]. constructor; simpl.
  - exists (drop (length data) r). by rewrite app_assoc.
  - rewrite length_app. lia.
  - rewrite Hc, Hb, !length_app, length_drop. lia.
  - rewrite Hc, Hb, length_app. lia.
  - rewrite !length_app, length_drop. lia.
Qed.

(** ** Witnesses *)
Lemma arraylist_is_list_witness :
  ∃ this', ArrayList.add ArrayList.new 7 = Ret (0, this') ∧ ArrayList.holds this' [7].
Proof.
  exact (proj1 (proj2 (arraylist_is_list ArrayList.new [] new_holds ltac:(done))) 7).
Defined.

Lemma arraylist_lifetimes_witness : ArrayList.get (ArrayList.new (A := Z)) 3 = Undef.
Proof.
  exact (proj2 (arraylist_lifetimes ArrayList.new [] 3 new_holds ltac:(done)) ltac:(simpl; lia) eq_refl).
Defined.
