(* ===== verification/LinkedLists.v ===== *)
(** Linked structures on a store of nodes: [LinkedQueue] ([Utils/Arrays/Queue.h])
    and [LinkedList] ([Utils/Arrays/LinkedList.h]).

    The store maps the addresses of the living nodes to their members, 0 is the
    null pointer, and an access to an address without a node is [Undef].  The
    address of a new node is an argument: what [operator new] returned. *)
From S2P Require Import Prelude.

(** * [class LinkedQueue] *)
Module LinkedQueue.
Section LinkedQueue.
Context {A : Type}.

(** [class QueueElement]. *)
Record element : Type := mkElement { m_element : A; m_next : Z }.

Abbreviation store := (gmap Z element).

Record t : Type := mk { m_head : Z; m_tail : Z }.

Definition new : t := mk 0 0.

Definition node (h : store) (p : Z) : outcome element := defined (h !! p).

(** [p->m_next = q]. *)
Definition set_next (h : store) (p q : Z) : outcome store :=
  let! n := node h p in Ret (<[p := mkElement (m_element n) q]> h).

Definition append (this : t) (h : store) (address : Z) (x : A) : outcome (t * store) :=
  let h := <[address := mkElement x 0]> h in
  if m_head this =? 0 then Ret (mk address address, h)
  else
    let! h := set_next h (m_tail this) address in
    let! n := node h (m_tail this) in
    Ret (mk (m_head this) (m_next n), h).

Definition pop (this : t) (h : store) : outcome (A * t * store) :=
  runtime_assert (negb (m_head this =? 0))
    (let! n := node h (m_head this) in
     let h := delete (m_head this) h in
     let tail := if m_next n =? 0 then 0 else m_tail this in
     Ret (m_element n, mk (m_next n) tail, h)).

Definition peek_first (this : t) (h : store) : outcome A :=
  runtime_assert (negb (m_head this =? 0)) (let! n := node h (m_head this) in Ret (m_element n)).

Definition peek_last (this : t) (h : store) : outcome A :=
  runtime_assert (negb (m_head this =? 0)) (let! n := node h (m_tail this) in Ret (m_element n)).

Definition rotate_left (this : t) (h : store) : outcome (t * store) :=
  if m_head this =? 0 then Ret (this, h)
  else
    let! first := node h (m_head this) in
    if m_next first =? 0 then Ret (this, h)
    else
      let old_head := m_head this in
      let! h := set_next h (m_tail this) old_head in
      let! h := set_next h old_head 0 in
      Ret (mk (m_next first) old_head, h).

Definition is_empty (this : t) : bool := m_head this =? 0.

(** [clear]: one node is freed in each iteration. *)
Fixpoint free_from (fuel : nat) (h : store) (current : Z) : outcome store :=
  match fuel with
  | O => NoFuel
  | S fuel' =>
      if current =? 0 then Ret h
      else let! n := node h current in free_from fuel' (delete current h) (m_next n)
  end.

Definition clear (this : t) (h : store) : outcome (t * store) :=
  let! h := free_from (S (size h)) h (m_head this) in Ret (mk 0 0, h).

(** The nodes at [ps] hold the elements [xs] and are linked from first to last. *)
Fixpoint chain (h : store) (ps : list Z) (xs : list A) (end_ : Z) : Prop :=
  match ps, xs with
  | [], [] => True
  | p :: ps', x :: xs' =>
      p ≠ 0 ∧ h !! p = Some (mkElement x (default end_ (head ps'))) ∧ chain h ps' xs' end_
  | _, _ => False
  end.

(** The copies append the elements of the other queue in order; [addresses] are
    the results of [operator new]. *)
Fixpoint copy_from (fuel : nat) (this : t) (h : store) (current : Z) (addresses : list Z) : outcome (t * store) :=
  match fuel with
  | O => NoFuel
  | S fuel' =>
      if current =? 0 then Ret (this, h)
      else
        match addresses with
        | [] => NoFuel
        | a :: addresses' =>
            let! n := node h current in
            let! r := append this h a (m_element n) in
            let! n := node r.2 current in
            copy_from fuel' r.1 r.2 (m_next n) addresses'
        end
  end.

Definition copy (other : t) (h : store) (addresses : list Z) : outcome (t * store) :=
  copy_from (S (size h)) new h (m_head other) addresses.

Definition assign (same : bool) (this other : t) (h : store) (addresses : list Z) : outcome (t * store) :=
  if same then Ret (this, h)
  else let! r := clear this h in copy_from (S (size h)) r.1 r.2 (m_head other) addresses.

(** The move constructor and the move assignment: both sides afterwards. *)
Definition move_from (other : t) : t * t := (other, new).
Definition assign_move (same : bool) (this other : t) (h : store) : outcome (t * t * store) :=
  if same then Ret (this, other, h)
  else let! r := clear this h in Ret (other, new, r.2).

(** The queue is the list [xs], in the nodes [ps] of the store. *)
Record holds (this : t) (h : store) (ps : list Z) (xs : list A) : Prop := {
  holds_chain : chain h ps xs 0;
  holds_nodup : NoDup ps;
  holds_head : m_head this = default 0 (head ps);
  holds_tail : m_tail this = default 0 (last ps)
}.
End LinkedQueue.
Arguments element : clear implicits.
Arguments chain {A} h ps xs end_.
End LinkedQueue.

(** * [class LinkedList] *)
Module LinkedList.
Section LinkedList.
Context {A : Type}.

(** [class LinkedListElement]. *)
Record element : Type := mkElement { m_data : A; m_next : Z; m_prev : Z }.

Abbreviation store := (gmap Z element).

Record t : Type := mk { m_head : Z; m_tail : Z; m_size : Z }.

Definition new : t := mk 0 0 0.

Definition node (h : store) (p : Z) : outcome element := defined (h !! p).

Definition set_next (h : store) (p q : Z) : outcome store :=
  let! n := node h p in Ret (<[p := mkElement (m_data n) q (m_prev n)]> h).

Definition set_prev (h : store) (p q : Z) : outcome store :=
  let! n := node h p in Ret (<[p := mkElement (m_data n) (m_next n) q]> h).

Definition append (this : t) (h : store) (address : Z) (x : A) : outcome (t * store) :=
  let h := <[address := mkElement x 0 0]> h in
  let size := u64 (m_size this + 1) in
  if m_head this =? 0 then Ret (mk address address size, h)
  else
    let! h := set_next h (m_tail this) address in
    let! h := set_prev h address (m_tail this) in
    Ret (mk (m_head this) address size, h).

Definition prepend (this : t) (h : store) (address : Z) (x : A) : outcome (t * store) :=
  let h := <[address := mkElement x 0 0]> h in
  let size := u64 (m_size this + 1) in
  if m_head this =? 0 then Ret (mk address address size, h)
  else
    let! h := set_prev h (m_head this) address in
    let! h := set_next h address (m_head this) in
    Ret (mk address (m_tail this) size, h).

(** The loop [for(int i = 0; i < index; i++)] of [remove].  Inside of it [i] is
    never [index], so the unlinking is not reached. *)
Fixpoint remove_loop (this : t) (h : store) (head i index : Z) (n : nat) : outcome (t * store) :=
  match n with
  | O => Ret (this, h)
  | S n' =>
      if head =? 0 then Ret (this, h)
      else if i =? index then
        let! e := node h head in
        let! h := if negb (m_prev e =? 0) then set_next h (m_prev e) (m_next e) else Ret h in
        let! h := if negb (m_next e =? 0) then set_prev h (m_next e) (m_prev e) else Ret h in
        Ret (mk (m_head this) (m_tail this) (u64 (m_size this - 1)), delete head h)
      else let! e := node h head in remove_loop this h (m_next e) (i + 1) index n'
  end.

Definition remove (this : t) (h : store) (index : Z) : outcome (t * store) :=
  if m_size this <=? index then Ret (this, h)
  else remove_loop this h (m_head this) 0 index (Z.to_nat index).

(** The same loop in [get]; behind the loop there is no return statement. *)
Fixpoint get_loop (h : store) (head i index : Z) (n : nat) : outcome (ErrorOr A Error) :=
  match n with
  | O => Undef
  | S n' =>
      if head =? 0 then Ret (fail_with "Index out of bounds!")
      else if i =? index then let! e := node h head in Ret (Value (m_data e))
      else let! e := node h head in get_loop h (m_next e) (i + 1) index n'
  end.

Definition get (this : t) (h : store) (index : Z) : outcome (ErrorOr A Error) :=
  if m_size this <=? index then Ret (fail_with "Index out of bounds!")
  else get_loop h (m_head this) 0 index (Z.to_nat index).

(** The [while] loop of [find_first_match]. *)
Fixpoint find_loop (fuel : nat) (h : store) (head : Z) (predicate : A → bool) : outcome (ErrorOr A Error) :=
  match fuel with
  | O => NoFuel
  | S fuel' =>
      if head =? 0 then Ret (fail_with "No match found!")
      else
        let! e := node h head in
        if predicate (m_data e) then Ret (Value (m_data e)) else find_loop fuel' h (m_next e) predicate
  end.

Definition find_first_match (this : t) (h : store) (predicate : A → bool) : outcome (ErrorOr A Error) :=
  find_loop (S (size h)) h (m_head this) predicate.

(** The destructor frees the nodes one after the other. *)
Fixpoint free_from (fuel : nat) (h : store) (head : Z) : outcome store :=
  match fuel with
  | O => NoFuel
  | S fuel' =>
      if head =? 0 then Ret h
      else let! e := node h head in free_from fuel' (delete head h) (m_next e)
  end.

Definition destroy (this : t) (h : store) : outcome store := free_from (S (size h)) h (m_head this).

(** The move constructor and the move assignment; the assignment drops the nodes
    of its left side without freeing them. *)
Definition move_from (other : t) : t * t := (other, new).
Definition assign_move (same : bool) (this other : t) : t * t :=
  if same then (this, other) else move_from other.

(** Nodes linked both ways; [before] is the address in front of the first one. *)
Fixpoint chain (h : store) (before : Z) (ps : list Z) (xs : list A) (end_ : Z) : Prop :=
  match ps, xs with
  | [], [] => True
  | p :: ps', x :: xs' =>
      p ≠ 0 ∧ h !! p = Some (mkElement x (default end_ (head ps')) before) ∧ chain h p ps' xs' end_
  | _, _ => False
  end.

Record holds (this : t) (h : store) (ps : list Z) (xs : list A) : Prop := {
  holds_chain : chain h 0 ps xs 0;
  holds_nodup : NoDup ps;
  holds_head : m_head this = default 0 (head ps);
  holds_tail : m_tail this = default 0 (last ps);
  holds_size : m_size this = Z.of_nat (length xs)
}.
End LinkedList.
Arguments element : clear implicits.
End LinkedList.

(** * Queues *)
Section queue.
Import LinkedQueue.
Context {A : Type}.
Implicit Types (h : gmap Z (element A)) (ps : list Z) (xs : list A).

Lemma chain_length h ps xs e : chain h ps xs e → length ps = length xs.
Proof. revert xs. induction ps as [|p ps IH]; intros [|x xs]; simpl; try done. intros (_ & _ & H). f_equal. by apply IH. Qed.

Lemma chain_nonnull h ps xs e p : chain h ps xs e → p ∈ ps → p ≠ 0 ∧ is_Some (h !! p).
Proof.
  revert xs. induction ps as [|q ps IH]; intros [|x xs] Hc Hp; try done; [by apply elem_of_nil in Hp|].
  destruct Hc as (Hq & Hl & Hc). apply elem_of_cons in Hp as [->|Hp]; [by rewrite Hl|]. by eapply IH.
Qed.

(** A store that agrees on the nodes holds the same chain. *)
Lemma chain_ext h h' ps xs e : (∀ p, p ∈ ps → h' !! p = h !! p) → chain h ps xs e → chain h' ps xs e.
Proof.
  revert xs. induction ps as [|p ps IH]; intros [|x xs] Heq; simpl; try done.
  intros (Hp & Hl & Hc). split; [done|]. split; [rewrite Heq; [done|by left]|].
  apply IH; [|done]. intros q Hq. apply Heq. by right.
Qed.

Lemma chain_snoc h ps xs e p x :
  chain h ps xs p → p ≠ 0 → h !! p = Some (mkElement x e) → chain h (ps ++ [p]) (xs ++ [x]) e.
Proof.
  revert xs. induction ps as [|q ps IH]; intros [|y xs]; simpl; try done.
  intros (Hq & Hl & Hc) Hp Hpl. split; [done|]. split; [by destruct ps|]. by apply IH.
Qed.

Lemma chain_snoc_inv h ps xs e p :
  chain h (ps ++ [p]) xs e → ∃ ys x, xs = ys ++ [x] ∧ chain h ps ys p ∧ p ≠ 0 ∧ h !! p = Some (mkElement x e).
Proof.
  revert xs. induction ps as [|q ps IH]; intros [|y xs]; simpl; try done.
  - destruct xs; [|by intros (_ & _ & [])]. intros (Hp & Hl & _). by exists [], y.
  - intros (Hq & Hl & Hc). destruct (IH _ Hc) as (ys & x & -> & Hc' & Hp & Hpl).
    exists (y :: ys), x. split; [done|]. split; [|done]. split; [done|]. split; [|done]. by destruct ps.
Qed.

Lemma chain_end h ps xs e e' p x :
  chain h (ps ++ [p]) (xs ++ [x]) e → NoDup (ps ++ [p]) →
  chain (<[p := mkElement x e']> h) (ps ++ [p]) (xs ++ [x]) e'.
Proof.
  intros Hc Hnd. apply chain_snoc_inv in Hc as (ys & y & Heq & Hc & Hp & Hl).
  apply app_inj_tail in Heq as [<- <-]. apply chain_snoc; [|done|apply lookup_insert_eq].
  eapply chain_ext; [|exact Hc]. intros q Hq. rewrite lookup_insert_ne; [done|]. intros <-.
  apply NoDup_app in Hnd as (_ & Hnd & _). apply (Hnd p Hq). by constructor.
Qed.

Lemma queue_append_holds this h ps xs p x :
  holds this h ps xs → p ≠ 0 → p ∉ ps →
  ∃ this' h', append this h p x = Ret (this', h') ∧ holds this' h' (ps ++ [p]) (xs ++ [x]) ∧
    ∀ q, q ∉ ps → q ≠ p → h' !! q = h !! q.
Proof.
  intros [Hc Hnd Hh Ht] Hp Hfresh. unfold append.
  assert (chain (<[p := mkElement x 0]> h) ps xs 0) as Hc'.
  { eapply chain_ext; [|exact Hc]. intros q Hq. rewrite lookup_insert_ne; [done|]. by intros <-. }
  assert (NoDup (ps ++ [p])) as Hnd'.
  { apply NoDup_app. split; [done|]. split; [|apply NoDup_singleton]. intros q Hq ->%list_elem_of_singleton. done. }
  destruct ps as [|l ps _] using rev_ind.
  - destruct xs; [|done]. rewrite Hh. simpl. eexists _, _. split; [done|]. split.
    + constructor; simpl; try done. split; [done|]. split; [apply lookup_insert_eq|done].
    + intros q _ Hq. by rewrite lookup_insert_ne.
  - destruct (chain_nonnull _ _ _ _ (default 0 (head (ps ++ [l]))) Hc) as [Hnz _].
    { destruct ps; simpl; by left. }
    rewrite (proj2 (Z.eqb_neq (m_head this) 0)) by congruence.
    rewrite last_snoc in Ht. simpl in Ht. rewrite Ht.
    destruct (chain_snoc_inv _ _ _ _ _ Hc') as (ys & y & -> & Hcy & Hl & Hly).
    unfold set_next, node. rewrite Hly. cbn [defined obind m_element]. rewrite lookup_insert_eq.
    cbn [defined obind m_next]. eexists _, _. split; [done|]. split.
    + constructor; simpl.
      * apply chain_snoc; [|done|].
        -- apply (chain_end _ _ _ 0); [done|]. by apply NoDup_app in Hnd' as (? & _).
        -- rewrite lookup_insert_ne; [apply lookup_insert_eq|]. intros <-. apply Hfresh, elem_of_app. right. by constructor.
      * done.
      * rewrite Hh. by destruct ps.
      * by rewrite last_snoc.
    + intros q Hq Hqp. rewrite !lookup_insert_ne; [done|done|]. intros <-. apply Hq, elem_of_app. right. by constructor.
Qed.

Lemma pop_holds this h ps xs p x :
  holds this h (p :: ps) (x :: xs) →
  ∃ this' h', pop this h = Ret (x, this', h') ∧ holds this' h' ps xs ∧ h' = delete p h.
Proof.
  intros [(Hp & Hl & Hc) Hnd Hh Ht]. unfold pop. simpl in Hh. rewrite Hh, (proj2 (Z.eqb_neq p 0)) by done.
  cbn [negb runtime_assert]. unfold node. rewrite Hl. cbn [defined obind m_next m_element].
  eexists _, _. split; [done|]. split; [|done]. apply NoDup_cons in Hnd as [Hnp Hnd]. constructor; simpl.
  - eapply chain_ext; [|exact Hc]. intros q Hq. rewrite lookup_delete_ne; [done|]. by intros <-.
  - done.
  - done.
  - destruct ps as [|q ps]; [done|]. simpl. destruct (chain_nonnull _ _ _ _ q Hc) as [Hq _]; [by left|].
    rewrite (proj2 (Z.eqb_neq q 0)) by done. rewrite Ht. done.
Qed.

Lemma rotate_holds this h ps xs p x :
  holds this h (p :: ps) (x :: xs) →
  ∃ this' h', rotate_left this h = Ret (this', h') ∧ holds this' h' (ps ++ [p]) (xs ++ [x]) ∧
    ∀ q, q ∉ p :: ps → h' !! q = h !! q.
Proof.
  intros [(Hp & Hl & Hc) Hnd Hh Ht]. unfold rotate_left. simpl in Hh.
  rewrite Hh, (proj2 (Z.eqb_neq p 0)) by done. unfold node. rewrite Hl. cbn [defined obind m_next].
  apply NoDup_cons in Hnd as [Hnp Hnd]. destruct ps as [|l ps _] using rev_ind.
  - destruct xs; [|done]. simpl. eexists _, _. split; [done|]. split; [|done].
    constructor; simpl; try done. apply NoDup_singleton.
  - rewrite last_cons, last_snoc in Ht. simpl in Ht.
    destruct (chain_nonnull _ _ _ _ (default 0 (head (ps ++ [l]))) Hc) as [Hnz _].
    { destruct ps; simpl; by left. }
    rewrite (proj2 (Z.eqb_neq _ 0)) by done.
    destruct (chain_snoc_inv _ _ _ _ _ Hc) as (ys & y & -> & Hcy & Hlnz & Hly).
    assert (l ≠ p) as Hlp by (intros ->; apply Hnp, elem_of_app; right; by constructor).
    unfold set_next, node. rewrite Ht, Hly. cbn [defined obind m_element].
    rewrite lookup_insert_ne, Hl by done. cbn [defined obind m_element].
    eexists _, _. split; [done|]. split.
    + constructor; simpl.
      * apply chain_snoc; [|done|apply lookup_insert_eq].
        eapply chain_ext; [|apply (chain_end h ps ys 0 p l y); [exact Hc|exact Hnd]].
        intros q Hq. rewrite lookup_insert_ne; [done|]. by intros <-.
      * apply NoDup_app. split; [done|]. split; [|apply NoDup_singleton].
        by intros q Hq ->%list_elem_of_singleton.
      * by destruct ps.
      * by rewrite last_snoc.
    + intros q Hq. rewrite !lookup_insert_ne; [done| |]; intros <-; apply Hq;
        [right; apply elem_of_app; right; by constructor|by left].
Qed.

Lemma empty_holds this h ps xs : holds this h ps xs → is_empty this = bool_decide (xs = []).
Proof.
  intros [Hc _ Hh _]. unfold is_empty. rewrite Hh. destruct ps as [|p ps], xs as [|x xs]; try done.
  destruct Hc as (Hp & _). simpl. by apply Z.eqb_neq.
Qed.

Lemma free_from_holds ps : ∀ h xs fuel,
  chain h ps xs 0 → NoDup ps → (length ps < fuel)%nat →
  ∃ h', free_from fuel h (default 0 (head ps)) = Ret h' ∧
    (∀ q, q ∉ ps → h' !! q = h !! q) ∧ (∀ q, q ∈ ps → h' !! q = None).
Proof.
  induction ps as [|p ps IH]; intros h [|x xs] [|fuel] Hc Hnd Hf; simpl in Hf; try lia; try done.
  - exists h. split; [done|]. split; [done|]. by intros q ?%elem_of_nil.
  - destruct Hc as (Hp & Hl & Hc). apply NoDup_cons in Hnd as [Hnp Hnd].
    cbn [free_from head default]. simpl. rewrite (proj2 (Z.eqb_neq p 0)) by done.
    unfold node. rewrite Hl. cbn [defined obind m_next].
    destruct (IH (delete p h) xs fuel) as (h' & -> & Hk & Hd); [|done|lia|].
    { eapply chain_ext; [|exact Hc]. intros q Hq. rewrite lookup_delete_ne; [done|]. by intros <-. }
    exists h'. split; [done|]. split.
    + intros q [Hqp Hq]%not_elem_of_cons. rewrite Hk by done. by rewrite lookup_delete_ne.
    + intros q [->|Hq]%elem_of_cons; [|by apply Hd]. rewrite Hk by done. apply lookup_delete_eq.
Qed.

Lemma chain_size h ps xs e : chain h ps xs e → NoDup ps → (length ps ≤ size h)%nat.
Proof.
  intros Hc Hnd. rewrite <- size_dom, <- (size_list_to_set (C := gset Z)) by done.
  apply subseteq_size. intros p Hp%elem_of_list_to_set. apply elem_of_dom.
  by apply (chain_nonnull _ _ _ _ _ Hc).
Qed.

Lemma queue_clear_holds this h ps xs :
  holds this h ps xs →
  ∃ h', clear this h = Ret (new, h') ∧ (∀ q, q ∉ ps → h' !! q = h !! q) ∧ (∀ q, q ∈ ps → h' !! q = None).
Proof.
  intros [Hc Hnd Hh _]. unfold clear. rewrite Hh. pose proof (chain_size _ _ _ _ Hc Hnd).
  destruct (free_from_holds ps h xs (S (size h))) as (h' & -> & Hrest); [done|done|lia|].
  by exists h'.
Qed.
End queue.

(** * Doubly-linked lists *)
Section linked_list.
Import LinkedList.
Context {A : Type}.
Implicit Types (h : gmap Z (element A)) (ps : list Z) (xs : list A).

Lemma dchain_nonnull h b ps xs e p : chain h b ps xs e → p ∈ ps → p ≠ 0 ∧ is_Some (h !! p).
Proof.
  revert b xs. induction ps as [|q ps IH]; intros b [|x xs] Hc Hp; try done; [by apply elem_of_nil in Hp|].
  destruct Hc as (Hq & Hl & Hc). apply elem_of_cons in Hp as [->|Hp]; [by rewrite Hl|]. by eapply IH.
Qed.

Lemma dchain_ext h h' b ps xs e : (∀ p, p ∈ ps → h' !! p = h !! p) → chain h b ps xs e → chain h' b ps xs e.
Proof.
  revert b xs. induction ps as [|p ps IH]; intros b [|x xs] Heq; simpl; try done.
  intros (Hp & Hl & Hc). split; [done|]. split; [rewrite Heq; [done|by left]|].
  apply IH; [|done]. intros q Hq. apply Heq. by right.
Qed.

Lemma dchain_snoc h b ps xs e p x :
  chain h b ps xs p → p ≠ 0 → h !! p = Some (mkElement x e (default b (last ps))) →
  chain h b (ps ++ [p]) (xs ++ [x]) e.
Proof.
  revert b xs. induction ps as [|q ps IH]; intros b [|y xs]; simpl; try done.
  intros (Hq & Hl & Hc) Hp Hpl. split; [done|]. split; [by destruct ps|]. apply IH; [done|done|].
  rewrite last_cons in Hpl. by destruct (last ps).
Qed.

Lemma dchain_snoc_inv h b ps xs e p :
  chain h b (ps ++ [p]) xs e →
  ∃ ys x, xs = ys ++ [x] ∧ chain h b ps ys p ∧ p ≠ 0 ∧ h !! p = Some (mkElement x e (default b (last ps))).
Proof.
  revert b xs. induction ps as [|q ps IH]; intros b [|y xs]; simpl; try done.
  - destruct xs; [|by intros (_ & _ & [])]. intros (Hp & Hl & _). by exists [], y.
  - intros (Hq & Hl & Hc). destruct (IH _ _ Hc) as (ys & x & -> & Hc' & Hp & Hpl).
    exists (y :: ys), x. split; [done|]. split; [split; [done|]; split; [by destruct ps|done]|].
    split; [done|]. rewrite last_cons. by destruct (last ps).
Qed.

Lemma dappend_holds this h ps xs p x :
  holds this h ps xs → p ≠ 0 → p ∉ ps → Z.of_nat (length xs) < 2 ^ 63 →
  ∃ this' h', append this h p x = Ret (this', h') ∧ holds this' h' (ps ++ [p]) (xs ++ [x]).
Proof.
  intros [Hc Hnd Hh Ht Hs] Hp Hfresh Hlen. unfold append. rewrite Hs.
  rewrite wrap_small by (unfold in_word; lia).
  assert (chain (<[p := mkElement x 0 0]> h) 0 ps xs 0) as Hc'.
  { eapply dchain_ext; [|exact Hc]. intros q Hq. rewrite lookup_insert_ne; [done|]. by intros <-. }
  assert (NoDup (ps ++ [p])) as Hnd'.
  { apply NoDup_app. split; [done|]. split; [|apply NoDup_singleton]. by intros q Hq ->%list_elem_of_singleton. }
  destruct ps as [|l ps _] using rev_ind.
  - destruct xs; [|done]. rewrite Hh. simpl. eexists _, _. split; [done|].
    constructor; simpl; try done. split; [done|]. split; [apply lookup_insert_eq|done].
  - destruct (dchain_nonnull _ _ _ _ _ (default 0 (head (ps ++ [l]))) Hc) as [Hnz _].
    { destruct ps; simpl; by left. }
    rewrite (proj2 (Z.eqb_neq (m_head this) 0)) by congruence.
    rewrite last_snoc in Ht. simpl in Ht. rewrite Ht.
    destruct (dchain_snoc_inv _ _ _ _ _ _ Hc') as (ys & y & -> & Hcy & Hl & Hly).
    assert (l ≠ p) as Hlp by (intros ->; apply Hfresh, elem_of_app; right; by constructor).
    unfold set_next, set_prev, node. rewrite Hly. cbn [defined obind m_data m_prev].
    rewrite lookup_insert_ne, lookup_insert_eq by done. cbn [defined obind m_data m_next].
    eexists _, _. split; [done|]. constructor; simpl.
    + apply dchain_snoc; [|done|by rewrite last_snoc, lookup_insert_eq].
      eapply dchain_ext with (h := <[l := mkElement y p (default 0 (last ps))]> h).
      { intros q Hq. rewrite lookup_insert_ne by by intros <-. rewrite !lookup_insert. case_decide; [done|].
        case_decide; [by subst|done]. }
      apply dchain_snoc; [|done|apply lookup_insert_eq].
      eapply dchain_ext; [|exact Hcy]. intros q Hq. apply NoDup_app in Hnd' as (Hnd' & Hq' & _).
      apply NoDup_app in Hnd' as (_ & Hql & _).
      rewrite !lookup_insert_ne; [done| |]; intros <-; [by apply (Hq' p); [apply elem_of_app; left|constructor]|].
      apply (Hql l Hq). by constructor.
    + done.
    + rewrite Hh. by destruct ps.
    + by rewrite last_snoc.
    + rewrite !length_app in *. simpl in *. lia.
Qed.

Lemma dprepend_holds this h ps xs p x :
  holds this h ps xs → p ≠ 0 → p ∉ ps → Z.of_nat (length xs) < 2 ^ 63 →
  ∃ this' h', prepend this h p x = Ret (this', h') ∧ holds this' h' (p :: ps) (x :: xs).
Proof.
  intros [Hc Hnd Hh Ht Hs] Hp Hfresh Hlen. unfold prepend. rewrite Hs.
  rewrite wrap_small by (unfold in_word; lia).
  assert (NoDup (p :: ps)) as Hnd' by by constructor.
  destruct ps as [|f ps], xs as [|y xs]; try done.
  - rewrite Hh. simpl. eexists _, _. split; [done|].
    constructor; simpl; try done. split; [done|]. split; [apply lookup_insert_eq|done].
  - destruct Hc as (Hf & Hlf & Hc). simpl in Hh. rewrite Hh, (proj2 (Z.eqb_neq f 0)) by done.
    assert (f ≠ p) as Hfp by (intros ->; apply Hfresh; by left).
    unfold set_prev, set_next, node. rewrite lookup_insert_ne, Hlf by done.
    cbn [defined obind m_data m_next]. rewrite lookup_insert_ne, lookup_insert_eq by done.
    cbn [defined obind m_data m_prev]. eexists _, _. split; [done|]. constructor; simpl.
    + split; [done|]. split; [apply lookup_insert_eq|]. split; [done|]. split.
      * rewrite lookup_insert_ne by done. apply lookup_insert_eq.
      * eapply dchain_ext; [|exact Hc]. intros q Hq.
        apply NoDup_cons in Hnd' as [Hnp Hnd']. apply NoDup_cons in Hnd' as [Hnf _].
        rewrite !lookup_insert_ne; [done|..]; intros <-; try done; apply Hnp; by right.
    + done.
    + done.
    + exact Ht.
    + simpl in *. lia.
Qed.

(** Walking [n] nodes along the list. *)
Lemma get_loop_undef h ps : ∀ b xs i index n,
  chain h b ps xs 0 → (n ≤ length ps)%nat → i + Z.of_nat n = index →
  get_loop h (default 0 (head ps)) i index n = Undef.
Proof.
  induction ps as [|p ps IH]; intros b [|x xs] i index [|n] Hc Hn Hi; simpl in Hn; try lia; try done.
  destruct Hc as (Hp & Hl & Hc). cbn [get_loop head default]. simpl.
  rewrite (proj2 (Z.eqb_neq p 0)), (proj2 (Z.eqb_neq i index)) by lia.
  unfold node. rewrite Hl. cbn [defined obind m_next]. eapply IH; [exact Hc|lia|lia].
Qed.

Lemma remove_loop_same this h ps : ∀ b xs i index n,
  chain h b ps xs 0 → (n ≤ length ps)%nat → i + Z.of_nat n = index →
  remove_loop this h (default 0 (head ps)) i index n = Ret (this, h).
Proof.
  induction ps as [|p ps IH]; intros b [|x xs] i index [|n] Hc Hn Hi; simpl in Hn; try lia; try done.
  destruct Hc as (Hp & Hl & Hc). cbn [remove_loop head default]. simpl.
  rewrite (proj2 (Z.eqb_neq p 0)), (proj2 (Z.eqb_neq i index)) by lia.
  unfold node. rewrite Hl. cbn [defined obind m_next]. eapply IH; [exact Hc|lia|lia].
Qed.

Lemma dchain_length h b ps xs e : chain h b ps xs e → length ps = length xs.
Proof. revert b xs. induction ps as [|p ps IH]; intros b [|x xs]; simpl; try done. intros (_ & _ & H). f_equal. by eapply IH. Qed.

Lemma dchain_size h b ps xs e : chain h b ps xs e → NoDup ps → (length ps ≤ size h)%nat.
Proof.
  intros Hc Hnd. rewrite <- size_dom, <- (size_list_to_set (C := gset Z)) by done.
  apply subseteq_size. intros p Hp%elem_of_list_to_set. apply elem_of_dom.
  by apply (dchain_nonnull _ _ _ _ _ _ Hc).
Qed.

Lemma find_loop_spec h predicate ps : ∀ b xs fuel,
  chain h b ps xs 0 → (length ps < fuel)%nat →
  find_loop fuel h (default 0 (head ps)) predicate =
    Ret (match list_find (λ x, predicate x = true) xs with
         | Some (_, x) => Value x | None => fail_with "No match found!" end).
Proof.
  induction ps as [|p ps IH]; intros b [|x xs] [|fuel] Hc Hf; simpl in Hf; try lia; try done.
  destruct Hc as (Hp & Hl & Hc). cbn [find_loop head default list_find]. simpl.
  rewrite (proj2 (Z.eqb_neq p 0)) by done. unfold node. rewrite Hl. cbn [defined obind m_next m_data].
  destruct (predicate x) eqn:Hx; [by rewrite decide_True|].
  rewrite decide_False by congruence. rewrite (IH _ _ _ Hc) by lia.
  destruct (list_find _ xs) as [[]|]; done.
Qed.
End linked_list.

(** * Properties *)

(** A [LinkedQueue] is the list of its elements: [append] puts an element at
    the end, [pop] takes the first one and stops the kernel on an empty queue,
    the two peeks read the ends, [rotate_left] moves the first element to the
    end, and [clear] frees all nodes; no other node of the store is touched. *)
Theorem queue_is_list {A : Type} (this : LinkedQueue.t) (h : gmap Z (LinkedQueue.element A)) ps xs :
  LinkedQueue.holds this h ps xs →
  (∀ p x, p ≠ 0 → p ∉ ps → ∃ this' h', LinkedQueue.append this h p x = Ret (this', h') ∧
     LinkedQueue.holds this' h' (ps ++ [p]) (xs ++ [x]) ∧ ∀ q, q ∉ ps → q ≠ p → h' !! q = h !! q) ∧
  match xs with
  | [] => LinkedQueue.pop this h = Halted ∧ LinkedQueue.peek_first this h = Halted ∧
          LinkedQueue.rotate_left this h = Ret (this, h)
  | x :: xs' =>
      (∃ this' h', LinkedQueue.pop this h = Ret (x, this', h') ∧ LinkedQueue.holds this' h' (tail ps) xs') ∧
      LinkedQueue.peek_first this h = Ret x ∧
      (∃ this' h', LinkedQueue.rotate_left this h = Ret (this', h') ∧
         LinkedQueue.holds this' h' (tail ps ++ [default 0 (head ps)]) (xs' ++ [x]) ∧
         ∀ q, q ∉ ps → h' !! q = h !! q)
  end ∧
  (∃ h', LinkedQueue.clear this h = Ret (LinkedQueue.new, h') ∧
     (∀ q, q ∉ ps → h' !! q = h !! q) ∧ ∀ q, q ∈ ps → h' !! q = None).
Proof.
  intros H. split; [intros; by apply queue_append_holds|]. split; [|by eapply queue_clear_holds].
  destruct xs as [|x xs].
  - destruct H as [Hc _ Hh _]. destruct ps; [|done].
    unfold LinkedQueue.pop, LinkedQueue.peek_first, LinkedQueue.rotate_left. by rewrite Hh.
  - destruct ps as [|p ps]; [by destruct H|]. split; [|split].
    + destruct (pop_holds _ _ _ _ _ _ H) as (this' & h' & Hp & Hh & _). by exists this', h'.
    + destruct H as [(Hp & Hl & _) _ Hh _]. unfold LinkedQueue.peek_first. simpl in Hh.
      rewrite Hh, (proj2 (Z.eqb_neq p 0)) by done. simpl. unfold LinkedQueue.node. by rewrite Hl.
    + by apply rotate_holds.
Qed.

(** A [LinkedList] grows at both ends and is searched as the list of its
    elements, but [get] of any index of the list leaves the function without
    returning a value, and [remove] changes nothing. *)
Theorem linked_list_operations {A : Type} (this : LinkedList.t) (h : gmap Z (LinkedList.element A)) ps xs :
  LinkedList.holds this h ps xs → Z.of_nat (length xs) < 2 ^ 63 →
  (∀ p x, p ≠ 0 → p ∉ ps →
     (∃ this' h', LinkedList.append this h p x = Ret (this', h') ∧
        LinkedList.holds this' h' (ps ++ [p]) (xs ++ [x])) ∧
     (∃ this' h', LinkedList.prepend this h p x = Ret (this', h') ∧
        LinkedList.holds this' h' (p :: ps) (x :: xs))) ∧
  (∀ predicate, LinkedList.find_first_match this h predicate =
     Ret (match list_find (λ x, predicate x = true) xs with
          | Some (_, x) => Value x | None => fail_with "No match found!" end)) ∧
  (∀ i : nat, (i < length xs)%nat → LinkedList.get this h (Z.of_nat i) = Undef) ∧
  (∀ i : nat, LinkedList.remove this h (Z.of_nat i) = Ret (this, h)).
Proof.
  intros H Hlen. pose proof H as [Hc Hnd Hh Ht Hs]. pose proof (dchain_length _ _ _ _ _ Hc) as Hl. split_and!.
  - intros p x Hp Hf. split; [by apply dappend_holds|by apply dprepend_holds].
  - intros predicate. unfold LinkedList.find_first_match. rewrite Hh. pose proof (dchain_size _ _ _ _ _ Hc Hnd).
    eapply find_loop_spec; [exact Hc|lia].
  - intros i Hi. unfold LinkedList.get. rewrite Hs, (proj2 (Z.leb_gt _ _)), Hh, Nat2Z.id by lia.
    eapply get_loop_undef; [exact Hc|lia|lia].
  - intros i. unfold LinkedList.remove. rewrite Hs.
    destruct (Z.leb_spec (Z.of_nat (length xs)) (Z.of_nat i)); [done|].
    rewrite Hh, Nat2Z.id. eapply remove_loop_same; [exact Hc|lia|lia].
Qed.

(** ** Witnesses *)
Definition sample_nodes : gmap Z (LinkedQueue.element Z) :=
  {[ 8 := LinkedQueue.mkElement 1 16; 16 := LinkedQueue.mkElement 2 0 ]}.

Lemma sample_queue : LinkedQueue.holds (LinkedQueue.mk 8 16) sample_nodes [8; 16] [1; 2].
Proof. constructor; [by vm_compute|by apply (bool_decide_unpack _)|done|done]. Qed.

Lemma queue_is_list_witness :
  ∃ this' h', LinkedQueue.rotate_left (LinkedQueue.mk 8 16) sample_nodes = Ret (this', h') ∧
    LinkedQueue.holds this' h' [16; 8] [2; 1].
Proof.
  destruct (queue_is_list _ _ _ _ sample_queue) as (_ & (_ & _ & (this' & h' & Hr & Hh & _)) & _).
  by exists this', h'.
Defined.

Definition sample_list_nodes : gmap Z (LinkedList.element Z) :=
  {[ 8 := LinkedList.mkElement 1 16 0; 16 := LinkedList.mkElement 2 0 8 ]}.

Lemma sample_linked_list : LinkedList.holds (LinkedList.mk 8 16 2) sample_list_nodes [8; 16] [1; 2].
Proof. constructor; [by vm_compute|by apply (bool_decide_unpack _)|done|done|done]. Qed.

Lemma linked_list_operations_witness :
  LinkedList.get (LinkedList.mk 8 16 2) sample_list_nodes 1 = Undef.
Proof.
  apply (proj1 (proj2 (proj2 (linked_list_operations _ _ _ _ sample_linked_list ltac:(done)))) 1%nat).
  simpl. lia.
Defined.
