(* ===== verification/Pointers.v ===== *)
(** Owning pointers: [RefCounted] and [RefPtr] ([Utils/Pointers/RefCounted.h],
    [RefPtr.h]), [Unique] ([Unique.h]) and [Shared] ([Shared.h]).

    Objects live in a store that maps their address to the reference count and
    to their own [RefPtr] members.  A [RefPtr] is a location: a variable (a
    local, an argument, an element of an array) or a member of an object. *)
From S2P Require Import Prelude.

(** * [class RefCounted] *)
Record object : Type := mkObject { m_ref_count : Z; members : list Z }.

Abbreviation objects := (gmap Z object).

Definition ref (st : objects) (p : Z) : outcome objects :=
  let! o := defined (st !! p) in Ret (<[p := mkObject (u32 (m_ref_count o + 1)) (members o)]> st).

(** Destroy a pointer that holds [p]. *)
Definition drop_with (unref : objects → Z → outcome objects) (st : objects) (p : Z) : outcome objects :=
  if p =? 0 then Ret st else unref st p.

Fixpoint drop_all (unref : objects → Z → outcome objects) (st : objects) (ps : list Z) : outcome objects :=
  match ps with
  | [] => Ret st
  | p :: ps' => let! st := drop_with unref st p in drop_all unref st ps'
  end.

(** [unref]: the object whose count becomes 0 is deleted, and its destructor
    destroys its members, the last one first. *)
Fixpoint unref (fuel : nat) (st : objects) (p : Z) : outcome objects :=
  match fuel with
  | O => NoFuel
  | S fuel' =>
      let! o := defined (st !! p) in
      let count := u32 (m_ref_count o - 1) in
      if count =? 0 then drop_all (unref fuel') (delete p st) (reverse (members o))
      else Ret (<[p := mkObject count (members o)]> st)
  end.

(** * [class RefPtr] *)
Module RefPtr.
Record state : Type := mk { alive : objects; variables : list Z }.

Inductive location : Type :=
| Var (i : nat)
| Member (p : Z) (i : nat).

#[global] Instance location_eq : EqDecision location.
Proof. solve_decision. Defined.

(** [m_value] of the pointer at a location. *)
Definition read (st : state) (l : location) : outcome Z :=
  match l with
  | Var i => defined (variables st !! i)
  | Member p i => let! o := defined (alive st !! p) in defined (members o !! i)
  end.

Definition write (st : state) (l : location) (v : Z) : outcome state :=
  match l with
  | Var i => let! _ := defined (variables st !! i) in Ret (mk (alive st) (<[i := v]> (variables st)))
  | Member p i =>
      let! o := defined (alive st !! p) in
      let! _ := defined (members o !! i) in
      Ret (mk (<[p := mkObject (m_ref_count o) (<[i := v]> (members o))]> (alive st)) (variables st))
  end.

(** [if(m_value) m_value->ref()]. *)
Definition ref_value (st : state) (l : location) : outcome state :=
  let! v := read st l in
  if v =? 0 then Ret st else let! os := ref (alive st) v in Ret (mk os (variables st)).

(** [if(m_value) m_value->unref()]; an object is deleted at most once. *)
Definition unref_value (st : state) (l : location) : outcome state :=
  let! v := read st l in
  let! os := drop_with (unref (S (size (alive st)))) (alive st) v in
  Ret (mk os (variables st)).

(** The constructors. *)
Definition from_pointer (st : state) (dst : location) (ptr : Z) : outcome state :=
  let! st := write st dst ptr in ref_value st dst.

Definition copy_construct (st : state) (dst src : location) : outcome state :=
  let! v := read st src in from_pointer st dst v.

Definition move_construct (st : state) (dst src : location) : outcome state :=
  let! v := read st src in let! st := write st dst v in write st src 0.

(** [create]: [operator new] returned [address]; the new object has [n] null members. *)
Definition create (st : state) (dst : location) (address : Z) (n : nat) : outcome state :=
  from_pointer (mk (<[address := mkObject 0 (replicate n 0)]> (alive st)) (variables st)) dst address.

Definition destroy (st : state) (l : location) : outcome state :=
  let! st := unref_value st l in write st l 0.

(** The assignments.  The other pointer is read after the old object was given up. *)
Definition assign (st : state) (dst src : location) : outcome state :=
  if decide (dst = src) then Ret st
  else
    let! st := unref_value st dst in
    let! v := read st src in
    let! st := write st dst v in
    ref_value st dst.

Definition assign_move (st : state) (dst src : location) : outcome state :=
  if decide (dst = src) then Ret st
  else
    let! st := unref_value st dst in
    let! v := read st src in
    let! st := write st dst v in
    write st src 0.

(** Comparisons and the conversion to [bool]. *)
Definition equals (st : state) (a b : location) : outcome bool :=
  let! x := read st a in let! y := read st b in Ret (x =? y).
Definition to_bool (st : state) (a : location) : outcome bool :=
  let! x := read st a in Ret (negb (x =? 0)).

(** The operations of a program on its pointers. *)
Inductive operation : Type :=
| Create (dst : nat) (address : Z) (n : nat)
| Copy (dst : nat) (src : location)
| Move (dst src : nat)
| Destroy (dst : nat)
| Assign (dst : nat) (src : location)
| AssignMove (dst src : nat)
| Store (p : Z) (i : nat) (src : nat).

Definition exec (st : state) (op : operation) : outcome state :=
  match op with
  | Create dst a n => create st (Var dst) a n
  | Copy dst src => copy_construct st (Var dst) src
  | Move dst src => move_construct st (Var dst) (Var src)
  | Destroy dst => destroy st (Var dst)
  | Assign dst src => assign st (Var dst) src
  | AssignMove dst src => assign_move st (Var dst) (Var src)
  | Store p i src => assign st (Member p i) (Var src)
  end.
End RefPtr.

(** * [class Unique] on the set of living objects *)
Module Unique.
Definition free (heap : gset Z) (p : Z) : outcome (gset Z) :=
  if p =? 0 then Ret heap
  else if decide (p ∈ heap) then Ret (heap ∖ {[p]}) else Undef.

(** [make]: the address of the new object; [destroy]: what is left in [m_value]. *)
Definition make (heap : gset Z) (address : Z) : Z * gset Z := (address, {[address]} ∪ heap).
Definition destroy (heap : gset Z) (m_value : Z) : outcome (Z * gset Z) :=
  let! heap := free heap m_value in Ret (0, heap).

(** The move constructor and the move assignment: both pointers afterwards. *)
Definition move_from (other : Z) : Z * Z := (other, 0).
Definition assign_move (heap : gset Z) (same : bool) (this other : Z) : outcome (Z * Z * gset Z) :=
  if same then Ret (this, other, heap)
  else let! heap := free heap this in Ret (other, 0, heap).
End Unique.

(** * [class Shared]: the count lives in a [Value] next to the object *)
Module Shared.
(** [class Value]. *)
Record value : Type := mkValue { m_value : Z; m_number_of_refs : Z }.

(** A signed 32-bit count; its overflow is not defined. *)
Definition int_ok (x : Z) : bool := (- 2 ^ 31 <=? x) && (x <? 2 ^ 31).

Record state : Type := mk { values : gmap Z value; heap : gset Z }.

Definition ref (st : state) (v : Z) : outcome state :=
  let! x := defined (values st !! v) in
  if int_ok (m_number_of_refs x + 1)
  then Ret (mk (<[v := mkValue (m_value x) (m_number_of_refs x + 1)]> (values st)) (heap st)) else Undef.

Definition deref (st : state) (v : Z) : outcome (Z * state) :=
  let! x := defined (values st !! v) in
  if int_ok (m_number_of_refs x - 1) then
    let count := m_number_of_refs x - 1 in
    if count =? 0 then
      let! heap := Unique.free (heap st) (m_value x) in
      Ret (count, mk (<[v := mkValue 0 count]> (values st)) heap)
    else Ret (count, mk (<[v := mkValue (m_value x) count]> (values st)) (heap st))
  else Undef.

Definition make (st : state) (object address : Z) : Z * state :=
  (address, mk (<[address := mkValue object 1]> (values st)) ({[object]} ∪ heap st)).

(** Both constructors count one more reference; the move leaves its argument as it is. *)
Definition construct (st : state) (other : Z) : outcome (Z * state) :=
  if other =? 0 then Ret (0, st) else let! st := ref st other in Ret (other, st).

Definition destroy (st : state) (v : Z) : outcome state :=
  if v =? 0 then Ret st
  else
    let! r := deref st v in
    if r.1 =? 0 then Ret (mk (delete v (values r.2)) (heap r.2)) else Ret r.2.
End Shared.

(** * Counting references *)
Fixpoint occ (p : Z) (l : list Z) : nat :=
  match l with
  | [] => 0
  | x :: l' => (if decide (x = p) then 1 else 0) + occ p l'
  end.

(** How many members of the objects point to [p]. *)
Definition member_refs (p : Z) (st : objects) : nat :=
  map_fold (λ _ o n, (occ p (members o) + n)%nat) 0%nat st.

Definition refs (p : Z) (st : objects) (roots : list Z) : nat := (occ p roots + member_refs p st)%nat.

(** Every living object is referenced and counts its references; nothing else is
    referenced.  [roots] are the pointers outside of the objects. *)
Definition counted (st : objects) (roots : list Z) : Prop :=
  st !! 0 = None ∧
  ∀ p, p ≠ 0 →
    match st !! p with
    | Some o => (0 < refs p st roots)%nat ∧ m_ref_count o = Z.of_nat (refs p st roots) ∧ m_ref_count o < 2 ^ 32
    | None => refs p st roots = 0%nat
    end.

Section counting.
Implicit Types (st : objects) (l roots : list Z).

Lemma occ_app p l l' : occ p (l ++ l') = (occ p l + occ p l')%nat.
Proof. induction l; simpl; lia. Qed.

Lemma occ_reverse p l : occ p (reverse l) = occ p l.
Proof. induction l; [done|]. rewrite reverse_cons, occ_app. simpl. lia. Qed.

Lemma occ_in p l i : l !! i = Some p → (0 < occ p l)%nat.
Proof. revert i. induction l as [|x l IH]; intros [|i]; simpl; intros; simplify_eq; [rewrite decide_True by done; lia|]. apply IH in H. lia. Qed.

Lemma occ_insert p l i x v : l !! i = Some x →
  (occ p (<[i := v]> l) + (if decide (x = p) then 1 else 0) = occ p l + (if decide (v = p) then 1 else 0))%nat.
Proof.
  revert i. induction l as [|y l IH]; intros [|i]; simpl; intros; simplify_eq; [lia|]. pose proof (IH _ H). lia.
Qed.

Lemma occ_nulls p n : p ≠ 0 → occ p (replicate n 0) = 0%nat.
Proof. intros. induction n; simpl; [done|]. rewrite decide_False by congruence. done. Qed.

Lemma member_refs_delete p st q o : st !! q = Some o →
  member_refs p st = (occ p (members o) + member_refs p (delete q st))%nat.
Proof.
  intros Hq. unfold member_refs. rewrite (map_fold_delete_L _ 0%nat q o st) by (done || intros; lia). done.
Qed.

Lemma member_refs_insert p st q o : st !! q = None →
  member_refs p (<[q := o]> st) = (occ p (members o) + member_refs p st)%nat.
Proof. intros Hq. rewrite (member_refs_delete _ _ q o), delete_insert_id; [done|done|apply lookup_insert_eq]. Qed.

Lemma member_refs_update p st q o o' : st !! q = Some o →
  (member_refs p (<[q := o']> st) + occ p (members o) = member_refs p st + occ p (members o'))%nat.
Proof.
  intros Hq. rewrite (member_refs_delete p st q o Hq), (member_refs_delete p _ q o'), delete_insert_eq
    by apply lookup_insert_eq. lia.
Qed.

Lemma counted_alive st roots p : counted st roots → p ≠ 0 → (0 < refs p st roots)%nat →
  ∃ o, st !! p = Some o ∧ m_ref_count o = Z.of_nat (refs p st roots) ∧ m_ref_count o < 2 ^ 32.
Proof. intros [_ H] Hp Hr. specialize (H p Hp). destruct (st !! p); [|lia]. destruct H as (_ & H1 & H2). eauto. Qed.

Lemma counted_roots st roots roots' :
  (∀ p, p ≠ 0 → occ p roots = occ p roots') → counted st roots → counted st roots'.
Proof.
  intros Heq [H0 H]. split; [done|]. intros p Hp. specialize (H p Hp). unfold refs in *. by rewrite Heq in H by done.
Qed.

(** One reference more or less, when the object stays. *)
Lemma counted_change st roots roots' p o c :
  counted st roots → st !! p = Some o → p ≠ 0 →
  (∀ q, q ≠ 0 → q ≠ p → occ q roots' = occ q roots) →
  c = Z.of_nat (occ p roots' + member_refs p st) → 0 < c < 2 ^ 32 →
  counted (<[p := mkObject c (members o)]> st) roots'.
Proof.
  intros [H0 H] Hp Hnz Hr Hc Hb. split; [by rewrite lookup_insert_ne|].
  intros q Hq. assert (member_refs q (<[p := mkObject c (members o)]> st) = member_refs q st) as Hm.
  { pose proof (member_refs_update q st p o (mkObject c (members o)) Hp). simpl in *. lia. }
  unfold refs in *. rewrite Hm. rewrite lookup_insert. case_decide as Hqp.
  - subst. simpl. lia.
  - rewrite Hr by congruence. by apply H.
Qed.

(** Nothing refers to an object any more: its members become roots. *)
Lemma counted_delete st roots p o :
  counted st (p :: roots) → st !! p = Some o → p ≠ 0 → m_ref_count o = 1 →
  counted (delete p st) (reverse (members o) ++ roots).
Proof.
  intros [H0 H] Hp Hnz H1. split; [by rewrite lookup_delete_ne|]. intros q Hq.
  pose proof (H q Hq) as Hqc. unfold refs in *. rewrite occ_app, occ_reverse. simpl in Hqc.
  rewrite (member_refs_delete q st p o Hp) in Hqc. destruct (decide (p = q)) as [->|Hqp].
  - rewrite Hp in Hqc. rewrite lookup_delete_eq. lia.
  - rewrite lookup_delete_ne by done. destruct (st !! q); intuition lia.
Qed.

(** Objects that survive keep their members and gain no references. *)
Definition keeps (st st' : objects) : Prop :=
  ∀ q o', st' !! q = Some o' →
    ∃ o, st !! q = Some o ∧ members o = members o' ∧ m_ref_count o' ≤ m_ref_count o.

Lemma keeps_trans st1 st2 st3 : keeps st1 st2 → keeps st2 st3 → keeps st1 st3.
Proof. intros H1 H2 q o3 Hq. destruct (H2 _ _ Hq) as (o2 & Hq2 & <- & Hc). destruct (H1 _ _ Hq2) as (o & Ho & <- & Hc'). exists o. split_and!; [done..|lia]. Qed.

Lemma keeps_refl st : keeps st st.
Proof. intros q o Hq. by exists o. Qed.

(** What [unref] does with the reference [p], for a store in which it is counted. *)
Definition releases (f : objects → outcome objects) (st : objects) (roots : list Z) : Prop :=
  ∃ st', f st = Ret st' ∧ counted st' roots ∧ (size st' ≤ size st)%nat ∧ keeps st st'.

Lemma drop_all_releases unref n :
  (∀ st p roots, p ≠ 0 → (size st < n)%nat → counted st (p :: roots) → releases (λ s, unref s p) st roots) →
  ∀ ps st roots, (size st < n)%nat → counted st (ps ++ roots) → releases (λ s, drop_all unref s ps) st roots.
Proof.
  intros Hf ps. induction ps as [|p ps IH]; intros st roots Hn Hc; simpl.
  { exists st. split_and!; [done|done|lia|apply keeps_refl]. }
  unfold drop_with. destruct (Z.eqb_spec p 0) as [->|Hp]; simpl.
  - apply IH; [done|]. eapply counted_roots; [|exact Hc]. intros p Hp. simpl. by rewrite decide_False.
  - destruct (Hf st p (ps ++ roots)) as (st' & Hr & Hc' & Hs & Hk); [done..|].
    unfold releases. rewrite Hr. cbn [obind]. destruct (IH st' roots) as (st'' & Hr' & Hc'' & Hs' & Hk'); [lia|done|].
    exists st''. split_and!; [done|done|lia|]. by eapply keeps_trans.
Qed.

Lemma unref_releases fuel : ∀ st p roots,
  p ≠ 0 → (size st < fuel)%nat → counted st (p :: roots) → releases (λ s, unref fuel s p) st roots.
Proof.
  induction fuel as [|fuel IH]; intros st p roots Hp Hn Hc; [lia|].
  destruct (counted_alive _ _ p Hc Hp) as (o & Ho & Hcount & Hb).
  { unfold refs. simpl. rewrite decide_True by done. lia. }
  assert (0 < m_ref_count o) as Hpos.
  { rewrite Hcount. unfold refs. simpl. rewrite decide_True by done. lia. }
  unfold releases. cbn [unref]. rewrite Ho. cbn [defined obind]. rewrite wrap_small by (unfold in_word; lia).
  destruct (Z.eqb_spec (m_ref_count o - 1) 0) as [H1|H1].
  - pose proof (map_size_delete_Some p st) as Hd. rewrite Ho in Hd.
    destruct (drop_all_releases (unref fuel) fuel IH (reverse (members o)) (delete p st) roots)
      as (st' & Hr & Hc' & Hs & Hk).
    + destruct (size st) eqn:Hsz; [|rewrite Hd by done; lia].
      apply map_size_empty_iff in Hsz. by subst.
    + eapply counted_delete; [done..|lia].
    + exists st'. split_and!; [done|done|rewrite Hd in Hs by done; lia|]. intros q o' Hq.
      destruct (Hk _ _ Hq) as (o2 & Ho2 & <- & Hle). apply lookup_delete_Some in Ho2 as [_ Ho2]. by exists o2.
  - eexists. split; [done|]. split; [|split].
    + eapply counted_change; [exact Hc|done|done| | |lia].
      * intros q Hq Hqp. simpl. by rewrite decide_False by congruence.
      * unfold refs in Hcount. simpl in Hcount. rewrite decide_True in Hcount by done. lia.
    + rewrite map_size_insert_Some by done. done.
    + intros q o' Hq. rewrite lookup_insert in Hq. case_decide; simplify_eq; [|by exists o'].
      exists o. split_and!; [done..|simpl; lia].
Qed.

Lemma counted_ref st roots p o :
  counted st roots → st !! p = Some o → p ≠ 0 → m_ref_count o < 2 ^ 32 - 1 →
  ∃ st', ref st p = Ret st' ∧ counted st' (p :: roots).
Proof.
  intros Hc Ho Hp Hb. destruct Hc as [H0 H]. pose proof (H p Hp) as Hpc. rewrite Ho in Hpc. unfold refs in Hpc.
  unfold ref. rewrite Ho. cbn [defined obind]. eexists. split; [done|].
  rewrite wrap_small by (unfold in_word; lia). eapply counted_change; [by split|done|done| | |lia].
  - intros q Hq Hqp. simpl. by rewrite decide_False by congruence.
  - simpl. rewrite decide_True by done. lia.
Qed.

Lemma member_refs_in st q o i p : st !! q = Some o → members o !! i = Some p → (0 < member_refs p st)%nat.
Proof. intros Hq Hi. rewrite (member_refs_delete _ _ _ _ Hq). apply occ_in in Hi. lia. Qed.

(** The value of a member is exchanged with that of a variable, which becomes null. *)
Lemma counted_write st vars p o i u s w :
  counted st vars → st !! p = Some o → members o !! i = Some u → vars !! s = Some w →
  counted (<[p := mkObject (m_ref_count o) (<[i := w]> (members o))]> st) (u :: <[s := 0]> vars).
Proof.
  intros [H0 H] Hp Hi Hs. split; [rewrite lookup_insert_ne; [done|by intros ->; rewrite H0 in Hp]|]. intros q Hq.
  assert (refs q (<[p := mkObject (m_ref_count o) (<[i := w]> (members o))]> st) (u :: <[s := 0]> vars) =
          refs q st vars) as Heq.
  { unfold refs. pose proof (member_refs_update q st p o (mkObject (m_ref_count o) (<[i := w]> (members o))) Hp) as Hm.
    simpl in Hm. pose proof (occ_insert q (members o) i u w Hi). pose proof (occ_insert q vars s w 0 Hs) as Hv.
    rewrite (decide_False (P := 0 = q)) in Hv by done. simpl. lia. }
  rewrite Heq. specialize (H q Hq). rewrite lookup_insert. case_decide; [|done]. subst. by rewrite Hp in H.
Qed.
End counting.

(** * The operations on pointers keep the counts *)
Section refptr.
Import RefPtr.
Implicit Types (st : state) (d : nat).

Definition sound st : Prop := counted (alive st) (variables st).

(** No count is about to overflow. *)
Definition room st : Prop := ∀ p o, alive st !! p = Some o → m_ref_count o < 2 ^ 32 - 1.

(** The location exists, also while variable [d] gives up its object. *)
Definition held st d (l : location) : Prop :=
  match l with
  | Var i => (i < length (variables st))%nat
  | Member q j => ∃ k o, k ≠ d ∧ variables st !! k = Some q ∧ alive st !! q = Some o ∧ (j < length (members o))%nat
  end.

(** What the language demands: constructors run on raw (here null) variables,
    [new] returns a fresh address, and the locations exist. *)
Definition valid st (op : operation) : Prop :=
  match op with
  | Create dst a n => variables st !! dst = Some 0 ∧ a ≠ 0 ∧ alive st !! a = None
  | Copy dst src => variables st !! dst = Some 0 ∧ held st dst src
  | Move dst src => variables st !! dst = Some 0 ∧ (src < length (variables st))%nat ∧ dst ≠ src
  | Destroy dst => (dst < length (variables st))%nat
  | Assign dst src => (dst < length (variables st))%nat ∧ held st dst src
  | AssignMove dst src => (dst < length (variables st))%nat ∧ (src < length (variables st))%nat
  | Store p i src =>
      (src < length (variables st))%nat ∧ (∃ k, variables st !! k = Some p) ∧
      ∃ o, alive st !! p = Some o ∧ (i < length (members o))%nat
  end.

Lemma sound_alive os vars d w : counted os vars → vars !! d = Some w → w ≠ 0 → ∃ o, os !! w = Some o.
Proof.
  intros Hc Hd Hw. destruct (counted_alive _ _ w Hc Hw) as (o & Ho & _); [|by exists o].
  unfold refs. apply occ_in in Hd. lia.
Qed.

Lemma occ_move q vars d v : vars !! d = Some v → q ≠ 0 → occ q vars = occ q (v :: <[d := 0]> vars).
Proof.
  intros Hd Hq. pose proof (occ_insert q vars d v 0 Hd) as H. rewrite (decide_False (P := 0 = q)) in H by done.
  simpl. lia.
Qed.

Lemma drop_ok os vars d v :
  counted os vars → vars !! d = Some v →
  ∃ os', drop_with (unref (S (size os))) os v = Ret os' ∧ counted os' (<[d := 0]> vars) ∧ keeps os os'.
Proof.
  intros Hc Hd. unfold drop_with. destruct (Z.eqb_spec v 0) as [->|Hv].
  - exists os. rewrite list_insert_id by done. split_and!; [done..|apply keeps_refl].
  - destruct (unref_releases (S (size os)) os v (<[d := 0]> vars)) as (os' & -> & Hc' & _ & Hk); [done|lia| |eauto].
    eapply counted_roots; [|exact Hc]. intros q Hq. by apply occ_move.
Qed.

Lemma from_pointer_ok os vars d w :
  counted os vars → vars !! d = Some 0 → (w ≠ 0 → ∃ o, os !! w = Some o ∧ m_ref_count o < 2 ^ 32 - 1) →
  ∃ os', from_pointer (mk os vars) (Var d) w = Ret (mk os' (<[d := w]> vars)) ∧ counted os' (<[d := w]> vars).
Proof.
  intros Hc Hd Hw. unfold from_pointer, ref_value. cbn [write read variables alive]. rewrite Hd. cbn [defined obind].
  cbn [write read variables alive]. pose proof (lookup_lt_Some _ _ _ Hd).
  rewrite list_lookup_insert_eq by done. cbn [defined obind].
  destruct (Z.eqb_spec w 0) as [->|Hnz]; [exists os; by rewrite list_insert_id|].
  destruct (Hw Hnz) as (o & Ho & Hb). destruct (counted_ref os vars w o) as (os' & -> & Hc'); [done..|].
  exists os'. split; [done|]. eapply counted_roots; [|exact Hc']. intros q Hq. simpl.
  pose proof (occ_insert q vars d 0 w Hd) as H1. rewrite (decide_False (P := 0 = q)) in H1 by done. lia.
Qed.

(** A location that is held can be read, and its value is null or alive. *)
Lemma read_held os vars d l os' vars' :
  counted os vars → held (mk os vars) d l → counted os' vars' → keeps os os' →
  (∀ k, k ≠ d → vars' !! k = vars !! k) → l ≠ Var d →
  ∃ w, read (mk os' vars') l = Ret w ∧ (w ≠ 0 → ∃ o, os' !! w = Some o).
Proof.
  intros Hc0 Hh Hc Hk Hv Hne. destruct l as [i|q j]; simpl in *.
  - rewrite Hv by congruence. destruct (lookup_lt_is_Some_2 _ _ Hh) as [w Hw]. rewrite Hw. exists w.
    split; [done|]. intros. apply (sound_alive os' vars' i); [done| |done]. by rewrite Hv by congruence.
  - destruct Hh as (k & o & Hkd & Hkq & Hq & Hj). rewrite <- (Hv k) in Hkq by done.
    assert (q ≠ 0) as Hq0 by (intros ->; destruct Hc0 as [Hn _]; by rewrite Hn in Hq).
    destruct (sound_alive _ _ _ _ Hc Hkq Hq0) as (o' & Ho'). destruct (Hk _ _ Ho') as (o2 & Ho2 & Hm & _).
    assert (o2 = o) as -> by congruence. rewrite Ho'. cbn [defined obind]. rewrite <- Hm.
    destruct (lookup_lt_is_Some_2 _ _ Hj) as [w Hw]. rewrite Hw. exists w. split; [done|]. intros Hnz.
    destruct (counted_alive _ _ w Hc Hnz) as (ow & How & _); [|by exists ow].
    unfold refs. rewrite Hm in Hw. pose proof (member_refs_in _ _ _ _ _ Ho' Hw). lia.
Qed.

Lemma room_keeps os vars os' w o : room (mk os vars) → keeps os os' → os' !! w = Some o → m_ref_count o < 2 ^ 32 - 1.
Proof. intros Hr Hk Ho. destruct (Hk _ _ Ho) as (o2 & Ho2 & _ & Hle). specialize (Hr _ _ Ho2). lia. Qed.

Lemma assign_var_ok os vars d src :
  counted os vars → room (mk os vars) → (d < length vars)%nat → held (mk os vars) d src →
  ∃ st', assign (mk os vars) (Var d) src = Ret st' ∧ sound st'.
Proof.
  intros Hc Hr Hd Hh. unfold assign. case_decide as Hs; [by eexists|].
  destruct (lookup_lt_is_Some_2 _ _ Hd) as [v Hv]. destruct (drop_ok _ _ _ _ Hc Hv) as (os' & Hdrop & Hc' & Hk).
  unfold unref_value. cbn [read variables alive]. rewrite Hv. cbn [defined obind]. rewrite Hdrop. cbn [obind].
  assert (∃ w, read (mk os' vars) src = Ret w ∧ (w ≠ 0 → ∃ o, os' !! w = Some o)) as (w & Hw & Halive).
  { destruct (read_held os vars d src os' (<[d := 0]> vars)) as (w & Hw & Ha); try done.
    - intros k Hkd. by rewrite list_lookup_insert_ne.
    - exists w. split; [|done]. rewrite <- Hw. destruct src as [i|q j]; [|done].
      cbn [read variables]. rewrite list_lookup_insert_ne by congruence. done. }
  rewrite Hw. cbn [obind]. change (∃ st', from_pointer (mk os' vars) (Var d) w = Ret st' ∧ sound st').
  destruct (from_pointer_ok os' (<[d := 0]> vars) d w) as (os'' & Hf & Hc''); [done| | |].
  - by apply list_lookup_insert_eq.
  - intros Hnz. destruct (Halive Hnz) as (o & Ho). exists o. split; [done|]. by eapply room_keeps.
  - exists (mk os'' (<[d := w]> vars)). rewrite list_insert_insert_eq in Hf, Hc''. split; [|done]. rewrite <- Hf.
    unfold from_pointer. cbn [write variables alive]. rewrite Hv, list_lookup_insert_eq by done.
    cbn [defined obind]. by rewrite list_insert_insert_eq.
Qed.

Lemma move_vars_ok os vars d s w :
  counted os (<[d := 0]> vars) → (d < length vars)%nat → d ≠ s → vars !! s = Some w →
  sound (mk os (<[s := 0]> (<[d := w]> vars))).
Proof.
  intros Hc Hd Hne Hs. eapply counted_roots; [|exact Hc]. intros q Hq. simpl.
  destruct (lookup_lt_is_Some_2 _ _ Hd) as [v Hv].
  pose proof (occ_insert q vars d v 0 Hv) as H1. pose proof (occ_insert q vars d v w Hv) as H2.
  assert ((<[d := w]> vars) !! s = Some w) as Hs' by by rewrite list_lookup_insert_ne.
  pose proof (occ_insert q _ s w 0 Hs') as H3. rewrite (decide_False (P := 0 = q)) in H1, H3 by done. lia.
Qed.

(** Other members of the object at [p]. *)
Definition patch (p : Z) (l : list Z) (os : objects) : objects := alter (λ o, mkObject (m_ref_count o) l) p os.

Definition shrinks (f : objects → outcome objects) : Prop := ∀ os os', f os = Ret os' → dom os' ⊆ dom os.
Definition patches (p : Z) (l : list Z) (f : objects → outcome objects) : Prop :=
  ∀ os os', f os = Ret os' → p ∈ dom os' → f (patch p l os) = Ret (patch p l os').

Lemma drop_all_shrinks unref ps : (∀ q, shrinks (λ os, unref os q)) → shrinks (λ os, drop_all unref os ps).
Proof.
  intros Hf. induction ps as [|q ps IH]; intros os os'; cbn [drop_all]; [by intros [= <-]|].
  intros (os1 & H1 & H2%IH)%obind_Ret. unfold drop_with in H1.
  destruct (q =? 0); [by injection H1 as <-|]. apply Hf in H1. set_solver.
Qed.

Lemma unref_shrinks fuel : ∀ q, shrinks (λ os, unref fuel os q).
Proof.
  induction fuel as [|fuel IH]; intros q os os'; cbn [unref]; [done|].
  destruct (os !! q) as [o|] eqn:Ho; cbn [defined obind]; [|done]. destruct (_ =? 0).
  - intros H%(drop_all_shrinks _ _ IH). set_solver.
  - intros [= <-]. rewrite dom_insert_L. apply elem_of_dom_2 in Ho. set_solver.
Qed.

(** Releasing an object does not look at the members of one that stays. *)
Lemma drop_all_patch p l unref ps :
  (∀ q, shrinks (λ os, unref os q)) → (∀ q, patches p l (λ os, unref os q)) → patches p l (λ os, drop_all unref os ps).
Proof.
  intros Hs Hf. induction ps as [|q ps IH]; intros os os'; cbn [drop_all]; [by intros [= <-]|].
  intros (os1 & H1 & H2)%obind_Ret Hin. unfold drop_with in *. destruct (q =? 0).
  - injection H1 as <-. cbn [obind]. by apply IH.
  - pose proof (drop_all_shrinks _ _ Hs _ _ H2). rewrite (Hf _ _ _ H1) by set_solver. cbn [obind]. by apply IH.
Qed.

Lemma unref_patch p l fuel : ∀ q, patches p l (λ os, unref fuel os q).
Proof.
  induction fuel as [|fuel IH]; intros q os os'; cbn [unref]; [done|]. unfold patch at 1. destruct (decide (q = p)) as [->|Hqp].
  - rewrite lookup_alter_eq. destruct (os !! p) as [o|] eqn:Ho; cbn [defined obind fmap option_fmap option_map m_ref_count members]; [|done].
    destruct (_ =? 0).
    + intros H%(drop_all_shrinks _ _ (unref_shrinks fuel)) Hin. set_solver.
    + intros [= <-] _. f_equal. apply map_eq. intros r. unfold patch. destruct (decide (r = p)) as [->|Hr].
      * by rewrite lookup_insert_eq, lookup_alter_eq, lookup_insert_eq.
      * by rewrite lookup_insert_ne, !lookup_alter_ne, lookup_insert_ne.
  - rewrite lookup_alter_ne by done. destruct (os !! q) as [o|] eqn:Ho; cbn [defined obind]; [|done]. destruct (_ =? 0).
    + intros H Hin. rewrite <- (drop_all_patch p l _ _ (unref_shrinks fuel) IH _ _ H Hin). f_equal.
      unfold patch. by rewrite delete_alter_ne.
    + intros [= <-] _. f_equal. unfold patch. by rewrite alter_insert_ne.
Qed.

Lemma patch_back p os o l : os !! p = Some o → patch p (members o) (<[p := mkObject (m_ref_count o) l]> os) = os.
Proof.
  intros Ho. apply map_eq. intros r. unfold patch. destruct (decide (r = p)) as [->|Hr].
  - rewrite lookup_alter_eq, lookup_insert_eq, Ho. by destruct o.
  - by rewrite lookup_alter_ne, lookup_insert_ne.
Qed.

(** The value [u] of member [i] of [p] becomes a root. *)
Lemma counted_take os vars p o i u :
  counted os vars → os !! p = Some o → members o !! i = Some u →
  counted (<[p := mkObject (m_ref_count o) (<[i := 0]> (members o))]> os) (u :: vars).
Proof.
  intros Hc Ho Hi.
  assert (counted os (vars ++ [0])) as Hc0.
  { eapply counted_roots; [|exact Hc]. intros q Hq. rewrite occ_app. cbn. by rewrite decide_False, Nat.add_0_r by done. }
  pose proof (counted_write os (vars ++ [0]) p o i u (length vars) 0 Hc0 Ho Hi) as Hw.
  eapply counted_roots; [|apply Hw; by rewrite lookup_app_r, Nat.sub_diag].
  intros q Hq. cbn [occ]. rewrite list_insert_id by by rewrite lookup_app_r, Nat.sub_diag.
  rewrite occ_app. cbn. by rewrite (decide_False (P := 0 = q)), Nat.add_0_r by done.
Qed.

(** The old value of a member of [p], which a variable holds, is released while it
    still stands there: [p] stays, and what results is the store [T] in which the
    member is null, but for the member. *)
Lemma member_released os vars p i k o u :
  counted os vars → vars !! k = Some p → os !! p = Some o → members o !! i = Some u →
  ∃ T o', drop_with (unref (S (size os))) os u = Ret (patch p (members o) T) ∧ counted T vars ∧
    T !! p = Some o' ∧ members o' = <[i := 0]> (members o) ∧
    ∀ w ow, T !! w = Some ow → ∃ o3, os !! w = Some o3 ∧ m_ref_count ow ≤ m_ref_count o3.
Proof.
  intros Hc Hk Ho Hu. assert (p ≠ 0) as Hp0 by (intros ->; destruct Hc as [Hn _]; by rewrite Hn in Ho).
  pose proof (counted_take os vars p o i u Hc Ho Hu) as Hct. set (T0 := <[p := _]> os) in Hct.
  assert (∃ T, drop_with (unref (S (size os))) T0 u = Ret T ∧ counted T vars ∧ keeps T0 T) as (T & HT & Hc' & Hkeep).
  { unfold drop_with. destruct (Z.eqb_spec u 0) as [->|Hu0].
    - exists T0. split; [done|]. split; [|apply keeps_refl]. eapply counted_roots; [|exact Hct].
      intros q Hq. cbn. by rewrite decide_False.
    - destruct (unref_releases (S (size os)) T0 u vars) as (T & -> & ? & _ & ?); [done| |done|by eauto].
      unfold T0. rewrite map_size_insert_Some by done. lia. }
  destruct (sound_alive _ _ _ _ Hc' Hk Hp0) as (o' & Ho'). exists T, o'. split_and!; [|done|done| |].
  - rewrite <- (patch_back p os o (<[i := 0]> (members o)) Ho) at 2. fold T0. unfold drop_with in *.
    destruct (u =? 0); [by injection HT as <-|]. apply unref_patch; [done|]. by apply elem_of_dom_2 in Ho'.
  - destruct (Hkeep _ _ Ho') as (o1 & Ho1 & Hm & _). unfold T0 in Ho1. rewrite lookup_insert_eq in Ho1. by injection Ho1 as <-.
  - intros w ow How. destruct (Hkeep _ _ How) as (ow' & How' & _ & Hle). unfold T0 in How'.
    rewrite lookup_insert in How'. case_decide; simplify_eq; [by exists o|by exists ow'].
Qed.

(** A member is assigned from a variable. *)
Lemma store_ok os vars p i s o k :
  counted os vars → room (mk os vars) → (s < length vars)%nat →
  vars !! k = Some p → os !! p = Some o → (i < length (members o))%nat →
  ∃ st', assign (mk os vars) (Member p i) (Var s) = Ret st' ∧ sound st'.
Proof.
  intros Hc Hr Hs Hk Ho Hi. destruct (lookup_lt_is_Some_2 _ _ Hi) as [u Hu]. destruct (lookup_lt_is_Some_2 _ _ Hs) as [w Hw].
  destruct (member_released os vars p i k o u Hc Hk Ho Hu) as (T' & o' & Hdrop & Hc' & Ho' & Hm & Hle).
  unfold assign. rewrite decide_False by done. unfold unref_value. cbn [read alive]. rewrite Ho. cbn [defined obind]. rewrite Hu.
  cbn [defined obind alive variables]. rewrite Hdrop. cbn [obind variables]. rewrite Hw. cbn [defined obind write alive variables].
  unfold patch at 1. rewrite lookup_alter_eq, Ho'. cbn [fmap option_fmap option_map defined obind members]. rewrite Hu.
  cbn [defined obind m_ref_count alive variables].
  set (os2 := <[p := mkObject (m_ref_count o') (<[i := w]> (members o))]> (patch p (members o) T')).
  assert (os2 = <[p := mkObject (m_ref_count o') (<[i := w]> (members o'))]> T') as Hos2.
  { unfold os2. rewrite Hm, list_insert_insert_eq. apply map_eq. intros r. destruct (decide (r = p)) as [->|Hrp].
    - by rewrite !lookup_insert_eq.
    - unfold patch. by rewrite !lookup_insert_ne, lookup_alter_ne. }
  assert (members o' !! i = Some 0) as Hi0 by (rewrite Hm; by apply list_lookup_insert_eq).
  pose proof (counted_write T' vars p o' i 0 s w Hc' Ho' Hi0 Hw) as Hc2. rewrite Hos2. clear Hos2 os2.
  unfold ref_value. cbn [read alive]. rewrite lookup_insert_eq. cbn [defined obind members].
  rewrite list_lookup_insert_eq by by eapply lookup_lt_Some. cbn [defined obind].
  set (os2 := <[p := _]> T') in *.
  assert (∀ q, q ≠ 0 → occ q vars = occ q (w :: 0 :: <[s := 0]> vars)) as Hroots.
  { intros q Hq. pose proof (occ_move q vars s w Hw Hq) as Hm'. cbn [occ] in *. by rewrite (decide_False (P := 0 = q)) by done. }
  destruct (Z.eqb_spec w 0) as [->|Hnz].
  - eexists. split; [done|]. unfold sound. cbn [alive variables]. eapply counted_roots; [|exact Hc2]. intros q Hq. rewrite (Hroots q Hq).
    cbn [occ]. by rewrite (decide_False (P := 0 = q)).
  - assert (∃ o2, os2 !! w = Some o2 ∧ m_ref_count o2 < 2 ^ 32 - 1) as (o2 & Ho2 & Hb).
    { destruct (sound_alive _ _ _ _ Hc' Hw Hnz) as (ow & How). destruct (Hle _ _ How) as (o3 & Ho3 & Hc3). specialize (Hr _ _ Ho3).
      unfold os2. rewrite lookup_insert. case_decide; simplify_eq; eexists; (split; [done|]); cbn; lia. }
    destruct (counted_ref os2 _ w o2 Hc2 Ho2 Hnz Hb) as (os3 & Href & Hc3). cbn [alive variables]. rewrite Href. cbn [obind].
    eexists. split; [done|]. unfold sound. cbn [alive variables]. eapply counted_roots; [|exact Hc3]. intros q Hq. by rewrite (Hroots q Hq).
Qed.

Lemma create_ok os vars d a n :
  counted os vars → vars !! d = Some 0 → a ≠ 0 → os !! a = None →
  ∃ st', create (mk os vars) (Var d) a n = Ret st' ∧ sound st'.
Proof.
  intros Hc Hd Ha Hn. unfold create, from_pointer. cbn [alive variables write]. rewrite Hd. cbn [defined obind].
  unfold ref_value. cbn [read variables]. rewrite list_lookup_insert_eq by by eapply lookup_lt_Some.
  cbn [defined obind]. rewrite (proj2 (Z.eqb_neq a 0)) by done. unfold ref. cbn [alive].
  rewrite lookup_insert_eq. cbn [defined obind m_ref_count members]. eexists. split; [done|].
  rewrite insert_insert_eq. destruct Hc as [H0 H]. split; cbn [alive variables].
  - by rewrite lookup_insert_ne.
  - intros q Hq. assert (refs q (<[a := mkObject (u32 (0 + 1)) (replicate n 0)]> os) (<[d := a]> vars) =
      ((if decide (a = q) then 1 else 0) + refs q os vars)%nat) as Heq.
    { unfold refs. rewrite member_refs_insert by done. cbn [members]. rewrite occ_nulls by done.
      pose proof (occ_insert q vars d 0 a Hd) as H1. rewrite (decide_False (P := 0 = q)) in H1 by done. lia. }
    rewrite Heq. specialize (H q Hq). destruct (decide (a = q)) as [->|Hne].
    + rewrite lookup_insert_eq. rewrite Hn in H. rewrite H. split_and!; [lia|done|done].
    + by rewrite lookup_insert_ne.
Qed.

Lemma exec_ok st op : sound st → room st → valid st op → ∃ st', exec st op = Ret st' ∧ sound st'.
Proof.
  destruct st as [os vars]. intros Hc Hr Hv. unfold sound in Hc. cbn [alive variables] in Hc. destruct op; simpl in Hv |- *.
  - destruct Hv as (Hd & Ha & Hn). by apply create_ok.
  - destruct Hv as (Hd & Hh). unfold copy_construct. destruct (decide (src = Var dst)) as [->|Hne].
    + cbn [read variables]. rewrite Hd. cbn [defined obind].
      destruct (from_pointer_ok os vars dst 0) as (os' & -> & Hc'); [done..|]. by eexists.
    + destruct (read_held os vars dst src os vars) as (w & -> & Ha); [done..|apply keeps_refl|done|done|]. cbn [obind].
      destruct (from_pointer_ok os vars dst w) as (os' & -> & Hc'); [done|done| |by eexists].
      intros Hnz. destruct (Ha Hnz) as (o & Ho). exists o. split; [done|]. by apply (Hr w).
  - destruct Hv as (Hd & Hs & Hne). destruct (lookup_lt_is_Some_2 _ _ Hs) as [w Hw].
    unfold move_construct. cbn [read write variables alive]. rewrite Hw. cbn [defined obind]. rewrite Hd.
    cbn [defined obind variables write alive]. rewrite list_lookup_insert_ne, Hw by done. cbn [defined obind].
    eexists. split; [done|]. apply (move_vars_ok _ _ _ _ w); try done; [|by eapply lookup_lt_Some].
    by rewrite list_insert_id.
  - destruct (lookup_lt_is_Some_2 _ _ Hv) as [v Hvv]. destruct (drop_ok _ _ _ _ Hc Hvv) as (os' & Hdrop & Hc' & Hk).
    unfold destroy, unref_value. cbn [read variables alive]. rewrite Hvv. cbn [defined obind]. rewrite Hdrop.
    cbn [obind write variables]. rewrite Hvv. cbn. by eexists.
  - destruct Hv as [Hd Hh]. by apply assign_var_ok.
  - destruct Hv as [Hd Hs]. unfold assign_move. case_decide as Hne; [by eexists|].
    destruct (lookup_lt_is_Some_2 _ _ Hd) as [v Hvv]. destruct (drop_ok _ _ _ _ Hc Hvv) as (os' & Hdrop & Hc' & Hk).
    destruct (lookup_lt_is_Some_2 _ _ Hs) as [w Hw].
    unfold unref_value. cbn [read variables alive]. rewrite Hvv. cbn [defined obind]. rewrite Hdrop.
    cbn [obind read write variables alive]. rewrite Hw. cbn [defined obind]. rewrite Hvv. cbn [defined obind variables alive].
    rewrite list_lookup_insert_ne, Hw by congruence. cbn [defined obind]. eexists. split; [done|].
    apply (move_vars_ok _ _ _ _ w); try done. congruence.
  - destruct Hv as (Hs & [k Hk] & o & Ho & Hi). by eapply store_ok.
Qed.

(** The last owner of [q] is assigned one of the members of [q]. *)
Lemma assign_last_owner os vars d q o j :
  counted os vars → vars !! d = Some q → q ≠ 0 → os !! q = Some o → m_ref_count o = 1 →
  assign (mk os vars) (Var d) (Member q j) = Undef.
Proof.
  intros Hc Hd Hq Ho H1. unfold assign. rewrite decide_False by done.
  unfold unref_value. cbn [read variables alive]. rewrite Hd. cbn [defined obind].
  unfold drop_with. rewrite (proj2 (Z.eqb_neq q 0)) by done. cbn [unref]. rewrite Ho. cbn [defined obind]. rewrite H1.
  change (u32 (1 - 1) =? 0) with true. cbv iota.
  destruct (drop_all_releases (unref (size os)) (size os) (unref_releases _)
    (reverse (members o)) (delete q os) (<[d := 0]> vars)) as (os' & -> & Hc' & _ & Hk).
  - pose proof (map_size_delete_Some q os) as Hs. rewrite Ho in Hs. rewrite Hs by done.
    destruct (size os) eqn:Hsz; [|lia]. apply map_size_empty_iff in Hsz. by subst.
  - eapply counted_delete; try done. eapply counted_roots; [|exact Hc]. intros r Hr. by apply occ_move.
  - cbn [obind read alive]. destruct (os' !! q) as [o'|] eqn:Ho'; [|done].
    destruct (Hk _ _ Ho') as (o2 & Ho2 & _). by rewrite lookup_delete_eq in Ho2.
Qed.
End refptr.

(** * Properties *)

(** C9: every operation on [RefPtr]s returns and keeps the counts exact, as long as
    no count is at its limit: an object lives exactly as long as a pointer refers to
    it, its count is the number of these pointers, and no deleted object is used or
    deleted again.  An operation that reads or overwrites a pointer stored in an
    object demands that a variable, other than one it assigns to, holds that object;
    the old value of an overwritten pointer may be the last reference to its object.
    What is excluded, assigning to the last owner of an object a pointer stored inside
    of that object, reads the object after its deletion. *)
Theorem refptr_counts (st : RefPtr.state) (op : RefPtr.operation) :
  sound st → room st →
  (valid st op → ∃ st', RefPtr.exec st op = Ret st' ∧ sound st') ∧
  (∀ d q o j, RefPtr.variables st !! d = Some q → q ≠ 0 → RefPtr.alive st !! q = Some o → m_ref_count o = 1 →
     RefPtr.exec st (RefPtr.Assign d (RefPtr.Member q j)) = Undef).
Proof.
  intros Hs Hr. split; [by apply exec_ok|]. destruct st. intros. by eapply assign_last_owner.
Qed.

(** Two objects; the first one, in variable 0, points to the second one. *)
Definition sample_pointers : RefPtr.state :=
  RefPtr.mk {[ 64 := mkObject 1 [128]; 128 := mkObject 1 [0] ]} [64; 0].

Lemma sample_sound : sound sample_pointers.
Proof.
  split; [done|]. intros p Hp.
  change (RefPtr.alive sample_pointers) with (<[64 := mkObject 1 [128]]> (<[128 := mkObject 1 [0]]> (∅ : objects))).
  change (RefPtr.variables sample_pointers) with [64; 0].
  destruct (decide (p = 64)) as [->|H1]; [by vm_compute|]. destruct (decide (p = 128)) as [->|H2]; [by vm_compute|].
  rewrite !lookup_insert_ne, lookup_empty by done. unfold refs. rewrite !member_refs_insert by done.
  simpl. rewrite !decide_False by congruence. done.
Qed.

Lemma refptr_counts_witness :
  RefPtr.exec sample_pointers (RefPtr.Destroy 0) = Ret (RefPtr.mk ∅ [0; 0]) ∧
  RefPtr.exec sample_pointers (RefPtr.Assign 0 (RefPtr.Member 64 0)) = Undef.
Proof.
  assert (room sample_pointers) as Hr.
  { intros p o Ho. unfold sample_pointers in Ho. simpl in Ho.
    apply lookup_insert_Some in Ho as [[_ <-]|[_ Ho]]; [done|].
    apply lookup_singleton_Some in Ho as [_ <-]. done. }
  split.
  - destruct (proj1 (refptr_counts sample_pointers (RefPtr.Destroy 0) sample_sound Hr) ltac:(simpl; lia)) as (st' & H & _).
    rewrite H. vm_compute in H. injection H as <-. done.
  - by apply (proj2 (refptr_counts sample_pointers (RefPtr.Destroy 0) sample_sound Hr) 0%nat 64 (mkObject 1 [128]) 0%nat).
Defined.
