(* ===== verification/Templates.v ===== *)
(** Templates that compute on types and hold values of several types:
    [Utils/Traits.h], [Utils/Variant.h], [Utils/Callable.h] and the conversion of
    [RefPtr].

    A type of the language is a term of [type]; a class template is a function on
    them, with its partial specialisations as the cases of a match. *)
From S2P Require Import Prelude Pointers.

(** * Types of the language

    The qualifiers of a type that is not a reference come first: [const],
    [volatile]. *)
Inductive scalar : Type := Void | Arithmetic (name : string) | ClassType (name : string) | EnumType (name : string).

Inductive type : Type :=
| Plain (c v : bool) (s : scalar)
| Ptr (c v : bool) (t : type)
| Arr (n : option N) (t : type)
| LRef (t : type)
| RRef (t : type).

#[global] Instance scalar_eq : EqDecision scalar.
Proof. solve_decision. Defined.
#[global] Instance type_eq : EqDecision type.
Proof. solve_decision. Defined.

Definition is_const (t : type) : bool := match t with Plain c _ _ | Ptr c _ _ => c | _ => false end.
Definition is_reference (t : type) : bool := match t with LRef _ | RRef _ => true | _ => false end.
Definition is_void (t : type) : bool := match t with Plain _ _ Void => true | _ => false end.

(** [T&] and [T&&] in the language: references collapse, and there are none to [void]. *)
Definition add_lvalue_reference (t : type) : option type :=
  if is_void t then None else Some (match t with LRef u | RRef u => LRef u | _ => LRef t end).
Definition add_rvalue_reference (t : type) : option type :=
  if is_void t then None else Some (match t with LRef u => LRef u | RRef u => RRef u | _ => RRef t end).

(** No reference to a reference or to [void]. *)
Fixpoint well_formed (t : type) : bool :=
  match t with
  | Plain _ _ _ => true
  | Ptr _ _ u | Arr _ u => negb (is_reference u) && well_formed u
  | LRef u | RRef u => negb (is_reference u) && negb (is_void u) && well_formed u
  end.

(** * [Traits.h] *)
Definition RemoveReference (t : type) : type := match t with LRef u | RRef u => u | _ => t end.
Definition RemovePointer (t : type) : type := match t with Ptr false false u => u | _ => t end.
Definition IsLValueReference (t : type) : bool := match t with LRef _ => true | _ => false end.
Definition IsRValueReference (t : type) : bool := match t with RRef _ => true | _ => false end.

(** The member [value] of the primary template belongs to objects of the class, so
    that it is no constant; of the specialisation it is. *)
Definition IsSame (t u : type) : option bool := if decide (t = u) then Some true else None.

(** A concept that has no value for a type does not hold for it. *)
Definition SameAs (t u : type) : bool := default false (IsSame t u).

Definition IsArray (t : type) : bool := match t with Arr _ _ => true | _ => false end.

(** [T*], [const T*], [volatile T*] and [const volatile T*]: a pointer that is
    itself qualified is none of them. *)
Definition IsPointer (t : type) : bool := match t with Ptr false false _ => true | _ => false end.
Definition Pointer (t : type) : bool := IsPointer t || IsArray t.

Definition EnableIf (condition : bool) (t : type) : option type := if condition then Some t else None.

Definition AddRValueReference (t : type) : option type :=
  match t with
  | LRef u => Some (LRef u)
  | RRef u => Some (RRef u)
  | Plain _ _ Void => Some t
  | _ => add_rvalue_reference t
  end.

(** The type of [declval<T>()] is that of the function's result. *)
Definition declval (t : type) : option type := AddRValueReference t.

Definition IsEnum (t : type) : bool := match t with Plain _ _ (EnumType _) => true | _ => false end.

(** [__underlying_type] is that of the declaration of the enumeration. *)
Definition UnderlyingType (underlying : string → type) (t : type) : option type :=
  match t with Plain _ _ (EnumType e) => Some (underlying e) | _ => None end.

(** [as_underlying]: the number of an enumerator, which the models have instead of it. *)
Definition as_underlying (value : Z) : Z := value.

(** The result types of [move] and of both overloads of [forward]: casts to them. *)
Definition move (t : type) : option type := add_rvalue_reference (RemoveReference t).
Definition forward (t : type) : option type := add_rvalue_reference t.

(** [T] of a parameter [T&& arg], for an argument of type [t]. *)
Definition deduced (lvalue : bool) (t : type) : type := if lvalue then LRef t else t.

(** [swap], on the objects by address. *)
Definition swap {A} (st : gmap Z A) (a b : Z) : outcome (gmap Z A) :=
  let! tmp := defined (st !! a) in
  let! x := defined (st !! b) in
  Ret (<[b := tmp]> (<[a := x]> st)).

(** ** Base classes

    [parents]: the direct bases of a class, all public, none virtual and none reached twice;
    [fuel] bounds the depth of the hierarchy. *)
Section Bases.
Variable parents : string → list string.

Fixpoint derives (fuel : nat) (d b : string) : bool :=
  bool_decide (d = b) || match fuel with O => false | S fuel' => existsb (λ p, derives fuel' p b) (parents d) end.

(** [static_cast<const volatile Base*>] of a pointer to [Derived], for classes: to
    a base, and back to a derived class. *)
Definition static_cast_pointer (fuel : nat) (to from : string) : bool := derives fuel from to || derives fuel to from.

(** [IsConvertibleHelper]: the overload of [test] with the cast is chosen when it is
    well-formed, the one for any argument otherwise. *)
Definition IsConvertibleHelper (fuel : nat) (base derived : string) : bool := static_cast_pointer fuel base derived.
Definition IsBaseOf (fuel : nat) (base derived : string) : bool := IsConvertibleHelper fuel base derived.

(** [RefPtr<T>::operator RefPtr<U>]: with the assertion of the compiler, a copy of
    the pointer. *)
Definition convert (fuel : nat) (t u : string) (st : RefPtr.state) (dst src : RefPtr.location) : option (outcome RefPtr.state) :=
  if IsBaseOf fuel u t then Some (RefPtr.copy_construct st dst src) else None.
End Bases.

(** ** What the traits say *)
Lemma RemoveReference_none t : well_formed t = true → is_reference (RemoveReference t) = false ∧ well_formed (RemoveReference t) = true.
Proof.
  destruct t; try done; cbn; intros [[Hr%negb_true_iff _]%andb_true_iff Hw]%andb_true_iff; done.
Qed.

Lemma add_rvalue_reference_wf t u : well_formed t = true → add_rvalue_reference t = Some u → well_formed u = true ∧ is_reference u = true.
Proof.
  unfold add_rvalue_reference. destruct (is_void t) eqn:Hv; [done|]. intros Hw [= <-].
  destruct t; cbn in *; rewrite ?Hw, ?Hv; split; done.
Qed.

(** The traits, for types without references to references: [move] always gives an
    rvalue reference; [forward] gives back the type and the kind of the argument
    that its template parameter was deduced from, so that a function that forwards
    its arguments passes lvalues as lvalues and rvalues as rvalues; the concepts
    are equality of types and pointers or arrays, a pointer that is itself
    constant being none; and a class is a base of another, for [IsBaseOf], as
    soon as one of them derives from the other. *)
Theorem type_traits (t u : type) :
  well_formed t = true → is_void t = false →
  move t = Some (RRef (RemoveReference t)) ∧
  (∀ lvalue, is_reference t = false → forward (deduced lvalue t) = Some (if lvalue then LRef t else RRef t)) ∧
  forward t = AddRValueReference t ∧
  (SameAs t u = true ↔ t = u) ∧ (IsSame t u = Some false → False) ∧
  (Pointer t = true ↔ (∃ v, t = Ptr false false v) ∨ ∃ n v, t = Arr n v) ∧
  (IsPointer t = true → ∃ v, t = Ptr false false v ∧ RemovePointer t = v) ∧
  (IsLValueReference t || IsRValueReference t = is_reference t) ∧
  ∀ parents fuel b d, IsBaseOf parents fuel b d = true ↔ derives parents fuel d b = true ∨ derives parents fuel b d = true.
Proof.
  intros Hw Hv. destruct (RemoveReference_none t Hw) as [Hr _]. split_and!.
  - unfold move, add_rvalue_reference.
    assert (is_void (RemoveReference t) = false) as ->.
    { destruct t; try done; cbn in *; apply andb_true_iff in Hw as [[_ Hw]%andb_true_iff _]; by apply negb_true_iff. }
    by destruct (RemoveReference t).
  - intros [] Ht; unfold forward, add_rvalue_reference, deduced; cbn; [done|]. rewrite Hv. by destruct t.
  - unfold forward, AddRValueReference, add_rvalue_reference. rewrite Hv. destruct t as [c v []| | | |]; try done.
  - unfold SameAs, IsSame. by case_decide.
  - unfold IsSame. by case_decide.
  - unfold Pointer. destruct t as [| [] []| | |]; cbn; split; try done; try (intros [[? [=]]|(? & ? & [=])]); eauto.
  - destruct t as [| [] []| | |]; cbn; try done. intros _. by eexists.
  - by destruct t.
  - intros parents fuel b d. unfold IsBaseOf, IsConvertibleHelper, static_cast_pointer. by rewrite orb_true_iff.
Qed.

Lemma type_traits_witness :
  let t := Ptr true false (Plain false false (Arithmetic "char")) in
  move (LRef t) = Some (RRef t) ∧ Pointer t = false ∧ forward (deduced true t) = Some (LRef t).
Proof.
  intros t. destruct (type_traits (LRef t) t eq_refl eq_refl) as (H1 & _). split; [exact H1|].
  destruct (type_traits t t eq_refl eq_refl) as (_ & H2 & _ & _ & _ & H3 & _).
  split; [|exact (H2 true eq_refl)]. destruct (Pointer t) eqn:E; [|reflexivity].
  destruct (proj1 H3 eq_refl) as [[v Hv]|(n & v & Hv)]; discriminate.
Defined.

(** A downward conversion passes the assertion of [RefPtr]: [virtio_device] of the
    block driver relies on it. *)
Definition kernel_bases (c : string) : list string :=
  if decide (c = "VirtIODevice"%string) then ["UnderlyingDevice"%string]
  else if decide (c = "UnderlyingDevice"%string) then ["RefCounted"%string] else [].

Example downward_conversion :
  IsBaseOf kernel_bases 2 "VirtIODevice" "UnderlyingDevice" = true ∧
  derives kernel_bases 2 "UnderlyingDevice" "VirtIODevice" = false.
Proof. split; reflexivity. Qed.

Lemma swap_swaps {A} (st : gmap Z A) a b x y :
  st !! a = Some x → st !! b = Some y → ∃ st', swap st a b = Ret st' ∧ st' !! a = Some y ∧ st' !! b = Some x ∧
    ∀ c, c ≠ a → c ≠ b → st' !! c = st !! c.
Proof.
  intros Ha Hb. unfold swap. rewrite Ha, Hb. cbn [defined obind]. eexists. split; [done|].
  split; [|split; [apply lookup_insert_eq|intros c Hca Hcb; by rewrite !lookup_insert_ne]].
  destruct (decide (b = a)) as [->|]; [rewrite lookup_insert_eq; congruence|by rewrite lookup_insert_ne, lookup_insert_eq].
Qed.

(** * [Variant.h]

    A value of type [A] stands for the object that the bytes of [m_data] hold;
    which type it has is the number that [TypeID] gives to a type, the address of a
    static variable.  The objects that were made and destroyed are kept, in order. *)
Module Variant.
Section Variant.
Context {A : Type} (type_id : type → Z) (size : type → Z).
Context (first : type) (rest : list type).       (* [Types...], of which there are at least two *)

Definition invalid_type : Z := type_id (Plain false false Void).

(** [VariantHelper::size]. *)
Fixpoint helper_size (t : type) (ts : list type) : Z :=
  match ts with
  | [] => size t
  | t' :: ts' => if helper_size t' ts' <? size t then size t else helper_size t' ts'
  end.

Record state : Type := mkState {
  m_type_id : Z;
  m_has_value : bool;
  m_data : option (type * A);
  constructed : list (type * A);
  destroyed : list (type * A)
}.

Definition new : state := mkState invalid_type false None [] [].

(** The constructors from another variant have no body: the members keep the
    defaults of their declarations. *)
Definition construct (other : state) : state := mkState 0 false None [] [].

(** [VariantHelper::destroy] looks at the first type only. *)
Definition destroy (this : state) : state :=
  if m_type_id this =? type_id first then
    mkState (m_type_id this) (m_has_value this) None (constructed this)
      (destroyed this ++ match m_data this with Some x => [x] | None => [] end)
  else this.

Definition set (t : type) (value : A) (this : state) : outcome state :=
  let this := if m_has_value this then destroy this else this in
  if helper_size first rest <? size t then Undef
  else Ret (mkState (type_id t) true (Some (t, value)) (constructed this ++ [(t, value)]) (destroyed this)).

Definition clear (this : state) : state :=
  let this := if m_has_value this then destroy this else this in
  mkState invalid_type false None (constructed this) (destroyed this).

Definition has_value (this : state) : bool := m_has_value this.
Definition is_ (t : type) (this : state) : bool := m_type_id this =? type_id t.

(** The messages, and the object if there is one of the type. *)
Definition as_ (t : type) (this : state) : list string * outcome A :=
  ((if m_has_value this then [] else ["No value set!"%string]) ++
   (if m_type_id this =? type_id t then [] else ["Invalid type! Expected: "%string]),
   let! x := defined (m_data this) in if decide (x.1 = t) then Ret x.2 else Undef).

Inductive operation : Type := Set_ (t : type) (value : A) | Clear.
Definition exec (this : state) (op : operation) : outcome state :=
  match op with Set_ t v => set t v this | Clear => Ret (clear this) end.
Fixpoint execs (this : state) (ops : list operation) : outcome state :=
  match ops with [] => Ret this | op :: ops' => let! this := exec this op in execs this ops' end.

(** ** What happens to the values *)
Hypothesis ids : ∀ t u, type_id t = type_id u → t = u.

Definition of_first (l : list (type * A)) : list (type * A) := filter (λ x, x.1 = first) l.

(** The objects of the first type are destroyed when they are replaced; those of
    other types are not.  Of a cleared variant [m_data] is not looked at. *)
Record tracks (this : state) : Prop := {
  tr_held : m_has_value this = true → ∃ t v, m_data this = Some (t, v) ∧ m_type_id this = type_id t ∧ last (constructed this) = Some (t, v);
  tr_none : m_has_value this = false → m_type_id this = invalid_type;
  tr_first : of_first (constructed this) = destroyed this ++
    (if m_has_value this then of_first (from_option (λ x, [x]) [] (m_data this)) else [])
}.

Lemma tracks_new : tracks new.
Proof using Type. by constructor. Qed.

Lemma destroy_tracks this : tracks this → m_has_value this = true →
  constructed (destroy this) = constructed this ∧ of_first (constructed this) = destroyed (destroy this).
Proof using ids.
  intros [Hh _ Hf] Hv. destruct (Hh Hv) as (t & v & Hd & Hi & _). rewrite Hv, Hd in Hf. cbn [from_option] in Hf.
  unfold destroy. rewrite Hd, Hi. destruct (Z.eqb_spec (type_id t) (type_id first)) as [He|He].
  - split; [done|]. cbn. rewrite Hf. unfold of_first. apply ids in He as ->. by rewrite filter_cons_True.
  - split; [done|]. rewrite Hf. unfold of_first. rewrite filter_cons_False by (cbn; by intros ->). by rewrite filter_nil, app_nil_r.
Qed.

Lemma release_tracks this : tracks this →
  constructed (if m_has_value this then destroy this else this) = constructed this ∧
  of_first (constructed this) = destroyed (if m_has_value this then destroy this else this).
Proof using ids.
  intros Ht. destruct (m_has_value this) eqn:Hv; [by apply destroy_tracks|]. split; [done|].
  destruct Ht as [_ _ Hf]. by rewrite Hf, Hv, app_nil_r.
Qed.

Lemma exec_tracks this op this' : tracks this → exec this op = Ret this' → tracks this'.
Proof using ids.
  intros Ht. destruct (release_tracks this Ht) as [Hc Hf]. destruct op as [t v|]; cbn [exec]; unfold set, clear.
  - destruct (_ <? _); [done|]. intros [= <-]. constructor; cbn [m_has_value m_type_id m_data constructed destroyed from_option].
    + intros _. exists t, v. by rewrite last_snoc.
    + done.
    + rewrite Hc. unfold of_first in *. by rewrite filter_app, Hf.
  - intros [= <-]. constructor; cbn [m_has_value m_type_id m_data constructed destroyed from_option]; [done|done|]. by rewrite Hc, Hf, app_nil_r.
Qed.

Lemma execs_tracks ops : ∀ this this', tracks this → execs this ops = Ret this' → tracks this'.
Proof using ids.
  induction ops as [|op ops IH]; intros this this' Ht; cbn [execs]; [by intros [= <-]|].
  intros (this1 & H1 & H2)%obind_Ret. eauto using exec_tracks.
Qed.

(** A variant after any sequence of [set] and [clear]: the value that was set last
    is there and has its type, and there is none after [clear]; of all objects that were made,
    those of the first type were destroyed in order, but for the one that is held,
    and none of another type ever is.  A copy of a variant is empty, and is not of
    the type [void] either. *)
Theorem variant_values (ops : list operation) (this : state) :
  execs new ops = Ret this →
  of_first (constructed this) = destroyed this ++ (if m_has_value this then of_first (from_option (λ x, [x]) [] (m_data this)) else []) ∧
  (∀ t v this', set t v this = Ret this' → has_value this' = true ∧ is_ t this' = true ∧ as_ t this' = ([], Ret v) ∧
     ∀ u, u ≠ t → is_ u this' = false ∧ (as_ u this').2 = Undef) ∧
  (has_value (clear this) = false ∧ ∀ t, is_void t = false → is_ t (clear this) = false) ∧
  (∀ t, type_id t ≠ 0 → is_ t (construct this) = false ∧ has_value (construct this) = false).
Proof using ids.
  intros Hops. pose proof (execs_tracks ops new this tracks_new Hops) as Ht. split_and!.
  - apply Ht.
  - intros t v this'. unfold set. destruct (_ <? _); [done|]. intros [= <-]. unfold is_, as_. cbn. rewrite Z.eqb_refl, decide_True by done.
    split; [done|]. split; [done|]. split; [done|]. intros u Hu.
    rewrite (proj2 (Z.eqb_neq _ _)) by (by intros ->%ids). rewrite decide_False by congruence. done.
  - done.
  - intros t Hv. unfold is_, clear. cbn. apply Z.eqb_neq. unfold invalid_type. intros <-%ids. done.
  - intros t Hi. unfold is_. cbn [construct m_type_id]. split; [|done]. apply Z.eqb_neq. congruence.
Qed.
End Variant.
End Variant.

(** * [Callable.h]

    A [Callable] is a [RefPtr] to a [FunctionWrapper], whose function object has
    the state [S]; the wrappers are the objects of [Pointers.v], with their states
    beside them. *)
Module Callable.
Section Callable.
Context {S Args R : Type} (function : S → Args → R * S).

Record state : Type := mk { pointers : RefPtr.state; functions : gmap Z S }.

(** The constructor, with [operator new] giving [address]; the copy; the end of a copy. *)
Definition construct (st : state) (dst : nat) (address : Z) (f : S) : outcome state :=
  let! p := RefPtr.create (pointers st) (RefPtr.Var dst) address 0 in Ret (mk p (<[address := f]> (functions st))).
Definition copy (st : state) (dst src : nat) : outcome state :=
  let! p := RefPtr.copy_construct (pointers st) (RefPtr.Var dst) (RefPtr.Var src) in Ret (mk p (functions st)).
Definition destroy (st : state) (dst : nat) : outcome state :=
  let! p := RefPtr.destroy (pointers st) (RefPtr.Var dst) in Ret (mk p (functions st)).

(** [operator()]. *)
Definition call (st : state) (callable : nat) (args : Args) : outcome (R * state) :=
  let! p := RefPtr.read (pointers st) (RefPtr.Var callable) in
  let! _ := defined (RefPtr.alive (pointers st) !! p) in
  let! f := defined (functions st !! p) in
  let '(r, f) := function f args in
  Ret (r, mk (pointers st) (<[p := f]> (functions st))).

(** Copies share their function object: a call of one changes what the next call
    of the other starts from. *)
Lemma copies_share (st : state) (a b : nat) p f x y :
  RefPtr.variables (pointers st) !! a = Some p → RefPtr.variables (pointers st) !! b = Some p → is_Some (RefPtr.alive (pointers st) !! p) →
  functions st !! p = Some f →
  ∃ st', call st a x = Ret ((function f x).1, st') ∧
    ∃ st'', call st' b y = Ret ((function (function f x).2 y).1, st'').
Proof.
  intros Ha Hb [o Ho] Hf. unfold call, RefPtr.read. rewrite Ha. cbn [defined obind]. rewrite Ho. cbn [defined obind].
  rewrite Hf. cbn [defined obind]. destruct (function f x) as [r f'] eqn:E. eexists. split; [done|]. cbn.
  rewrite Hb. cbn [defined obind]. rewrite Ho. cbn [defined obind]. rewrite lookup_insert_eq. cbn [defined obind].
  destruct (function f' y) eqn:E'. cbn. by eexists.
Qed.
End Callable.
End Callable.
