(* ===== verification/HashMap.v ===== *)
(** [HashMap] ([Utils/Maps/HashMap.h]) with the hash function djb2
    ([Utils/Hashing/HashFunctions.h]).

    The entries of a bucket are reached from nowhere but the map, so a bucket is
    the list of its entries from the first one along [next].  A null
    [RefPtr<Entry>] is the empty list and following it is [Undef]. *)
From S2P Require Import Prelude Bytes Strings.

(** * Hashing *)

(** [struct HashInput]: the bytes [data] points to, and [size]. *)
Record HashInput : Type := mkHashInput { data : bytes; hash_size : Z }.

Fixpoint djb2_loop (input : HashInput) (hash i : Z) (n : nat) : outcome Z :=
  match n with
  | O => Ret hash
  | S n' =>
      let! c := get_byte (data input) i in
      djb2_loop input (u32 (Z.shiftl hash 5 + hash + c)) (i + 1) n'
  end.

(** [HashFunctions::djb2] with the output type [u32]. *)
Definition djb2 (input : HashInput) : outcome Z := djb2_loop input 5381 0 (Z.to_nat (hash_size input)).

(** [to_hash_input] of a string and of a C string. *)
Definition to_hash_input (value : String) : HashInput := mkHashInput (m_value value) (m_length value).

Definition to_hash_input_cstring (value : bytes) : outcome HashInput :=
  let! n := calculate_size value in Ret (mkHashInput value n).

(** [to_hash_input(u64)]: the string is destroyed before its characters are read. *)
Definition to_hash_input_u64 (value : Z) : outcome HashInput :=
  let! str := from_u64 value in Ret (mkHashInput [] (m_length str)).

(** What the map asks of its keys: the template argument [Function], and [==]. *)
Class MapKey (Key : Type) : Type := {
  Function : Key → outcome Z;
  key_equals : Key → Key → outcome bool
}.

#[export] Instance string_key : MapKey String := {
  Function := λ key, djb2 (to_hash_input key);
  key_equals := equals
}.

(** ** [class HashMap] *)
Section HashMap.
Context {Key Value : Type} `{MapKey Key}.

Definition DefaultSize : Z := 20.

(** [struct Entry]; [next] is the rest of the chain. *)
Record Entry : Type := mkEntry { key : Key; value : Value }.

Record HashMap : Type := mkMap { m_entries : list (list Entry) }.

Definition empty_map : HashMap := mkMap (replicate (Z.to_nat DefaultSize) []).

Definition bucket (this : HashMap) (index : Z) : outcome (list Entry) :=
  runtime_assert (index <? Z.of_nat (length (m_entries this))) (defined (m_entries this !! Z.to_nat index)).

Definition set_bucket (this : HashMap) (index : Z) (chain : list Entry) : HashMap :=
  mkMap (<[Z.to_nat index := chain]> (m_entries this)).

(** The loop of [get] and of [has_key]. *)
Fixpoint find_entry (chain : list Entry) (k : Key) : outcome (option Entry) :=
  match chain with
  | [] => Ret None
  | entry :: next =>
      let! same := key_equals (key entry) k in
      if same then Ret (Some entry) else find_entry next k
  end.

Definition get (this : HashMap) (k : Key) : outcome (ErrorOr Value Error) :=
  let! h := Function k in
  let! chain := bucket this (h mod DefaultSize) in
  let! r := find_entry chain k in
  Ret (match r with Some e => Prelude.Value (value e) | None => fail_with "Key not found in map!" end).

Definition has_key (this : HashMap) (k : Key) : outcome bool :=
  let! h := Function k in
  let! chain := bucket this (h mod DefaultSize) in
  let! r := find_entry chain k in
  Ret (match r with Some _ => true | None => false end).

(** [while(!entry->next) entry = entry->next;] and then [entry->next = new_entry]. *)
Fixpoint append_entry (chain : list Entry) (new_entry : Entry) : outcome (list Entry) :=
  match chain with
  | [] => Undef
  | entry :: next =>
      match next with
      | [] => let! rest := append_entry next new_entry in Ret (entry :: rest)
      | _ :: _ => Ret [entry; new_entry]
      end
  end.

Definition set (this : HashMap) (k : Key) (v : Value) : outcome HashMap :=
  let! h := Function k in
  let index := h mod DefaultSize in
  let! chain := bucket this index in
  match chain with
  | [] => Ret (set_bucket this index [mkEntry k v])
  | _ :: _ => let! chain := append_entry chain (mkEntry k v) in Ret (set_bucket this index chain)
  end.

(** [while(!entry)]: the body of the loop runs on a null pointer only. *)
Definition remove_entry (chain : list Entry) (k : Key) : outcome (list Entry) :=
  match chain with
  | [] => Undef
  | _ :: _ => Ret chain
  end.

Definition remove (this : HashMap) (k : Key) : outcome HashMap :=
  let! h := Function k in
  let index := h mod DefaultSize in
  let! chain := bucket this index in
  let! chain := remove_entry chain k in
  Ret (set_bucket this index chain).

(** The arguments of the calls of the callback, in order. *)
Definition for_each (this : HashMap) : list (Key * Value) :=
  (λ e, (key e, value e)) <$> List.concat (m_entries this).

(** The move constructor and the move assignment: both sides afterwards; the
    array that is left behind holds null pointers. *)
Definition move_from (other : HashMap) : HashMap * HashMap := (other, empty_map).
Definition assign_move (same : bool) (this other : HashMap) : HashMap * HashMap :=
  if same then (this, other) else move_from other.
End HashMap.
Arguments Entry : clear implicits.
Arguments HashMap : clear implicits.

(** * The finite map a [HashMap] stands for *)

(** [rep key k]: the object [key] is the key [k]. *)
Class MapKeyLaws (Key K : Type) `{MapKey Key, EqDecision K} : Type := {
  rep : Key → K → Prop;
  hash : K → Z;
  hash_word k : in_word 32 (hash k);
  Function_rep key k : rep key k → Function key = Ret (hash k);
  equals_rep key key' k k' : rep key k → rep key' k' → key_equals key key' = Ret (bool_decide (k = k'))
}.

Section laws.
Context {Key Value K : Type} `{MapKeyLaws Key K} `{!Countable K}.
Implicit Types (this : HashMap Key Value) (m : gmap K Value) (chain : list (Entry Key Value)).

Definition slot_of (k : K) : Z := hash k mod DefaultSize.

(** A bucket is empty, or has one entry: that of the only key that falls into it. *)
Definition bucket_holds m (i : nat) chain : Prop :=
  (chain = [] ∧ ∀ k v, m !! k = Some v → slot_of k ≠ Z.of_nat i) ∨
  ∃ e k, chain = [e] ∧ rep (key e) k ∧ slot_of k = Z.of_nat i ∧ m !! k = Some (value e) ∧
    ∀ k' v, m !! k' = Some v → slot_of k' = Z.of_nat i → k' = k.

Record map_holds this m : Prop := {
  holds_size : length (m_entries this) = Z.to_nat DefaultSize;
  holds_buckets : ∀ i chain, m_entries this !! i = Some chain → bucket_holds m i chain
}.

(** No key of the map falls into the bucket of [k]. *)
Definition free_slot m (k : K) : Prop := ∀ k' v, m !! k' = Some v → slot_of k' ≠ slot_of k.

Lemma slot_range k : 0 ≤ slot_of k < 20.
Proof. apply Z.mod_pos_bound. done. Qed.

Lemma holds_bucket this m k : map_holds this m →
  ∃ chain, bucket this (slot_of k) = Ret chain ∧ m_entries this !! Z.to_nat (slot_of k) = Some chain ∧
    bucket_holds m (Z.to_nat (slot_of k)) chain.
Proof.
  intros [Hs Hb]. pose proof (slot_range k) as Hr. unfold bucket.
  rewrite Hs, (proj2 (Z.ltb_lt _ _)) by (change (Z.to_nat DefaultSize) with 20%nat; lia). simpl.
  destruct (m_entries this !! Z.to_nat (slot_of k)) as [chain|] eqn:Hc.
  - exists chain. eauto.
  - apply lookup_ge_None in Hc. rewrite Hs in Hc. change (Z.to_nat DefaultSize) with 20%nat in Hc. lia.
Qed.

Lemma find_entry_holds this m key' k :
  map_holds this m → rep key' k →
  ∃ chain r, bucket this (slot_of k) = Ret chain ∧ find_entry chain key' = Ret r ∧ (value <$> r) = m !! k.
Proof.
  intros Hh Hk. destruct (holds_bucket this m k Hh) as (chain & Hb & _ & Hc). exists chain.
  pose proof (slot_range k). destruct Hc as [[-> Hn]|(e & k' & -> & Hr & Hs & Hm & Hu)].
  - exists None. split_and!; [done..|]. destruct (m !! k) eqn:Hk'; [|done]. by apply Hn in Hk'; lia.
  - cbn [find_entry]. rewrite (equals_rep _ _ _ _ Hr Hk). cbn [obind]. case_bool_decide as Heq.
    + subst. exists (Some e). split_and!; [done..|]. simpl. by rewrite Hm.
    + exists None. split_and!; [done..|]. destruct (m !! k) eqn:Hk'; [|done]. simpl. exfalso.
      apply Heq. symmetry. apply (Hu _ _ Hk'). lia.
Qed.

Lemma new_map_holds : map_holds empty_map ∅.
Proof.
  constructor; [done|]. intros i chain Hi. apply lookup_replicate in Hi as [-> _]. left. split; [done|].
  intros k v. by rewrite lookup_empty.
Qed.

Lemma set_free this m key' k v :
  map_holds this m → rep key' k → free_slot m k → ∃ this', set this key' v = Ret this' ∧ map_holds this' (<[k := v]> m).
Proof.
  intros Hh Hk Hf. unfold set. rewrite (Function_rep _ _ Hk). cbn [obind].
  change (hash k mod DefaultSize) with (slot_of k). destruct (holds_bucket this m k Hh) as (chain & -> & Hi & Hc).
  pose proof (slot_range k). cbn [obind]. destruct Hc as [[-> Hn]|(e & k' & -> & Hr & Hs & Hm & Hu)].
  2:{ by apply Hf in Hm; lia. }
  eexists. split; [done|]. destruct Hh as [Hs Hb]. constructor; simpl; [by rewrite length_insert|].
  intros i chain. rewrite list_lookup_insert. case_decide as Hd; intros Hch.
  - injection Hch as <-. right. exists (mkEntry key' v), k. split_and!; [done..|lia|apply lookup_insert_eq|].
    intros k' v' Hk' Hsl. rewrite lookup_insert in Hk'. case_decide; [done|]. apply Hf in Hk'. lia.
  - assert (slot_of k ≠ Z.of_nat i) as Hne.
    { intros Heq. apply Hd. split; [lia|]. by apply lookup_lt_Some in Hi. }
    destruct (Hb _ _ Hch) as [[-> Hn']|(e & k' & -> & Hr & Hs' & Hm & Hu)]; [left|right].
    + split; [done|]. intros k' v' Hk'. rewrite lookup_insert in Hk'. case_decide; [by subst|by eapply Hn'].
    + exists e, k'. split_and!; [done..| |].
      * rewrite lookup_insert_ne; [done|]. by intros ->.
      * intros k2 v2 Hk2 Hs2. rewrite lookup_insert in Hk2. case_decide; [by subst|by eapply Hu].
Qed.

Lemma taken_bucket this m k : map_holds this m → ¬ free_slot m k → ∃ e, bucket this (slot_of k) = Ret [e] ∧
  m_entries this !! Z.to_nat (slot_of k) = Some [e].
Proof.
  intros Hh Hf. destruct (holds_bucket this m k Hh) as (chain & Hb & Hi & Hc). pose proof (slot_range k).
  destruct Hc as [[-> Hn]|(e & k' & -> & _)]; [|eauto].
  exfalso. apply Hf. intros k' v Hk'. apply Hn in Hk'. lia.
Qed.

Lemma for_each_holds this m : map_holds this m →
  ∀ k v, m !! k = Some v ↔ ∃ key', rep key' k ∧ (key', v) ∈ for_each this.
Proof.
  intros Hh k v. unfold for_each. split.
  - intros Hk. destruct (taken_bucket this m k Hh) as (e & _ & Hi).
    { intros Hf. by apply Hf in Hk. }
    destruct (holds_buckets _ _ Hh _ _ Hi) as [[? _]|(e' & k' & He & Hr & Hs & Hm & Hu)]; [done|].
    injection He as <-. pose proof (slot_range k). assert (k = k') as <- by (apply (Hu k v Hk); lia).
    exists (key e). split; [done|]. assert (v = value e) as -> by congruence.
    apply list_elem_of_fmap. exists e. split; [done|]. apply list_elem_of_In, List.in_concat. exists [e].
    split; [|by left]. apply list_elem_of_In. by eapply list_elem_of_lookup_2.
  - intros (key' & Hk & Hin). apply list_elem_of_fmap in Hin as (e & [= -> ->] & Hin).
    apply list_elem_of_In, List.in_concat in Hin as (chain & Hc%list_elem_of_In & Hin%list_elem_of_In).
    apply list_elem_of_lookup_1 in Hc as [i Hi].
    destruct (holds_buckets _ _ Hh _ _ Hi) as [[-> _]|(e' & k' & -> & Hr & Hs & Hm & Hu)]; [by apply elem_of_nil in Hin|].
    apply list_elem_of_singleton in Hin as ->. pose proof (equals_rep _ _ _ _ Hk Hr) as H1.
    pose proof (equals_rep _ _ _ _ Hr Hr) as H2. pose proof (equals_rep _ _ _ _ Hk Hk) as H3. rewrite H1 in H3.
    injection H3 as H3. rewrite (bool_decide_true (k = k)) in H3 by done. apply bool_decide_eq_true in H3. by subst.
Qed.
End laws.

(** Strings as keys: their text. *)
Definition djb2_text (t : bytes) : Z := foldl (λ hash c, u32 (Z.shiftl hash 5 + hash + c)) 5381 t.

Lemma djb2_text_word t : in_word 32 (djb2_text t).
Proof.
  unfold djb2_text. assert (in_word 32 5381) as Hw by done. revert Hw. generalize 5381.
  induction t as [|c t IH]; intros h Hh; simpl; [done|]. apply IH. by apply wrap_bound.
Qed.

Lemma djb2_loop_text t rest n : ∀ pre h,
  djb2_loop (mkHashInput (pre ++ t ++ rest) n) h (Z.of_nat (length pre)) (length t) =
    Ret (foldl (λ hash c, u32 (Z.shiftl hash 5 + hash + c)) h t).
Proof.
  induction t as [|c t IH]; intros pre h; [done|]. cbn [length djb2_loop data].
  change ((c :: t) ++ rest) with (c :: t ++ rest). rewrite get_byte_nat, list_lookup_middle by done.
  cbn [defined obind]. replace (Z.of_nat (length pre) + 1) with (Z.of_nat (length (pre ++ [c]))) by (rewrite length_app; simpl; lia).
  pose proof (IH (pre ++ [c])) as H. rewrite <- app_assoc in H. cbn [app] in H. by rewrite H.
Qed.

#[export] Program Instance string_key_laws : MapKeyLaws String bytes := {
  rep := Strings.holds;
  hash := djb2_text
}.
Next Obligation. apply djb2_text_word. Qed.
Next Obligation.
  intros key k [_ (rest & Hv & Hnz) Hl Hb Hs]. unfold Function, string_key, djb2, to_hash_input. cbn [hash_size].
  rewrite Hl, Nat2Z.id, Hv. exact (djb2_loop_text k (0 :: rest) _ [] 5381).
Qed.
Next Obligation.
  intros key key' k k' H H'. unfold key_equals, string_key, equals, equals_cstring.
  rewrite (same_chars_holds _ key key' k k') by done. by rewrite !list_fmap_id.
Qed.

(** * Properties *)

(** C10: as long as no two of its keys share a bucket, a [HashMap] is a finite
    map: [get] and [has_key] look a key up, [set] inserts a key whose bucket is
    free, and [for_each] visits exactly the entries.  [set] of any key whose
    bucket is taken, a key of the map in particular, follows a null pointer;
    [remove] changes nothing, and follows a null pointer when the bucket is free. *)
Theorem hashmap_is_map {Key Value K : Type} `{MapKeyLaws Key K, !Countable K}
    (this : HashMap Key Value) (m : gmap K Value) (key' : Key) (k : K) :
  map_holds this m → rep key' k →
  map_holds (Key := Key) (Value := Value) empty_map ∅ ∧
  get this key' = Ret (match m !! k with Some v => Prelude.Value v | None => fail_with "Key not found in map!" end) ∧
  has_key this key' = Ret (bool_decide (is_Some (m !! k))) ∧
  (∀ k v, m !! k = Some v ↔ ∃ key', rep key' k ∧ (key', v) ∈ for_each this) ∧
  (free_slot m k →
     (∀ v, ∃ this', set this key' v = Ret this' ∧ map_holds this' (<[k := v]> m)) ∧ remove this key' = Undef) ∧
  (¬ free_slot m k → (∀ v, set this key' v = Undef) ∧ remove this key' = Ret this).
Proof.
  intros Hh Hk. pose proof (Function_rep _ _ Hk) as Hf. split; [apply new_map_holds|].
  destruct (find_entry_holds this m key' k Hh Hk) as (chain & r & Hb & Hr & Hv).
  split; [|split; [|split; [by apply for_each_holds|split; intros Hfree]]].
  - unfold get. rewrite Hf. cbn [obind]. change (hash k mod DefaultSize) with (slot_of k). rewrite Hb. cbn [obind].
    rewrite Hr, <- Hv. by destruct r.
  - unfold has_key. rewrite Hf. cbn [obind]. change (hash k mod DefaultSize) with (slot_of k). rewrite Hb. cbn [obind].
    rewrite Hr, <- Hv. cbn [obind]. f_equal. symmetry. destruct r; [apply bool_decide_true|apply bool_decide_false]; simpl; [eauto|by intros []].
  - split; [intros; by eapply set_free|]. unfold remove. rewrite Hf. cbn [obind].
    change (hash k mod DefaultSize) with (slot_of k).
    destruct (holds_bucket this m k Hh) as (chain' & -> & _ & [[-> _]|(e & k' & _ & _ & Hs & Hm & _)]); [done|].
    pose proof (slot_range k). apply Hfree in Hm. lia.
  - destruct (taken_bucket this m k Hh Hfree) as (e & Hb' & Hi). unfold set, remove. rewrite Hf. cbn [obind].
    change (hash k mod DefaultSize) with (slot_of k). rewrite Hb'. cbn [obind]. split; [done|].
    unfold set_bucket. simpl. rewrite list_insert_id by done. by destruct this.
Qed.

(** A [u64] key cannot be hashed: its text is gone when it is read. *)
Lemma hash_of_number value : in_word 64 value → (let! i := to_hash_input_u64 value in djb2 i) = Undef.
Proof.
  intros Hv. unfold to_hash_input_u64. destruct (from_u64_holds value Hv) as (s & -> & Hs). cbn [obind].
  unfold djb2. cbn [hash_size]. rewrite (Strings.holds_length _ _ Hs), Nat2Z.id.
  destruct (numeral_head value 10 ltac:(lia)) as (c & t & -> & _). done.
Qed.

(** ** Witnesses *)
Definition sample_key : String := mkString [107; 101; 121; 0] 3 ASCII.

Lemma sample_key_holds : rep sample_key ([107; 101; 121] : bytes).
Proof. change (Strings.holds sample_key [107; 101; 121]). constructor; [done|exists []; split; [done|repeat constructor; lia]|done|repeat constructor; done|done]. Qed.

Lemma hashmap_is_map_witness :
  (∃ this', set empty_map sample_key 7 = Ret this' ∧ map_holds this' {[ [107; 101; 121] := 7 ]}) ∧
  remove (Value := Z) empty_map sample_key = Undef.
Proof.
  destruct (hashmap_is_map (empty_map (Value := Z)) ∅ sample_key [107; 101; 121] new_map_holds sample_key_holds)
    as (_ & _ & _ & _ & Hfree & _).
  destruct Hfree as [Hset Hrem]; [|split; [apply Hset|exact Hrem]].
  intros k v. by rewrite lookup_empty.
Defined.
