(* ===== verification/Fat.v ===== *)
(** The FAT32 file system: on-disk structures ([FATFS/FAT.h]), the block cache of
    [BlockBackedFileSystem.h], [FATFileSystem.cpp], and reading files
    ([FATInode::read]).  Directories are in [FatDirectory.v].

    The block device is an interface: [read_poll] of a driver.  The cache is the
    list of its blocks from the newest one ([LinkedList.prepend] and
    [find_first_match] are those of [LinkedLists.v]); nobody writes to a block
    after it was read. *)
From S2P Require Import Prelude Bits Bytes Endian Strings.

(** What the file system asks of a block device ([BlockDevice::read_poll]): the
    [size] bytes at [offset]. *)
Class BlockReader : Type := read_poll : Z → Z → ErrorOr bytes Error.

(** A load of an [n]-byte little-endian member at offset [i] of a structure. *)
Definition load (n : nat) (b : bytes) (i : Z) : outcome Z :=
  if (0 <=? i) && (i + Z.of_nat n <=? Z.of_nat (length b))
  then Ret (of_le_bytes (take n (drop (Z.to_nat i) b))) else Undef.

(** * [FAT.h] *)

(** [struct BootSector] and [struct BootSector32]: the members that the code uses. *)
Record BootSector32 : Type := mkBootSector {
  bytes_per_sector : Z; sectors_per_cluster : Z; reserved_sectors : Z; fat_count : Z;
  root_entries : Z; total_sectors : Z; sectors_per_fat : Z; total_sectors_large : Z;
  sectors_per_fat32 : Z; root_cluster : Z
}.

(** The packed layout: the offset of each member. *)
Definition boot_sector (b : bytes) : outcome BootSector32 :=
  let! bps := load 2 b 11 in
  let! spc := load 1 b 13 in
  let! rs := load 2 b 14 in
  let! fc := load 1 b 16 in
  let! re := load 2 b 17 in
  let! ts := load 2 b 19 in
  let! spf := load 2 b 22 in
  let! tsl := load 4 b 32 in
  let! spf32 := load 4 b 36 in
  let! rc := load 4 b 44 in
  Ret (mkBootSector bps spc rs fc re ts spf tsl spf32 rc).

(** [struct FATEntry]: [value] is the low 28 bits. *)
Definition fat_entry_value (entry : Z) : Z := bf_get 0 28 entry.
Definition is_end_of_chain (value : Z) : bool := 0x0FFFFFF8 <=? value.
Definition is_free_cluster (value : Z) : bool := value =? 0.

Inductive FATType : Type := FAT12 | FAT16 | FAT32.

(** [struct FullDirectoryEntry]: the members that are read again. *)
Record FullDirectoryEntry : Type := mkFullEntry {
  entry_name : bytes; entry_size : Z; first_cluster : Z; attributes : Z
}.

(** * [BlockBackedFileSystem] *)
Record DataBlock : Type := mkBlock { block_number : Z; block_data : bytes }.

Definition MaxCacheSize : Z := 16.

Record FATFileSystem : Type := mkFat {
  m_cache : list DataBlock;
  m_block_size : Z;
  m_fat_type : FATType;
  m_fat_boot_sector : BootSector32;
  m_bytes_per_cluster : Z;
  m_reserved_and_fat_offset : Z;
  m_fat_start_offset : Z;
  m_number_of_fat_blocks : Z
}.

Definition with_cache (fs : FATFileSystem) (c : list DataBlock) : FATFileSystem :=
  mkFat c (m_block_size fs) (m_fat_type fs) (m_fat_boot_sector fs) (m_bytes_per_cluster fs)
    (m_reserved_and_fat_offset fs) (m_fat_start_offset fs) (m_number_of_fat_blocks fs).

(** [evict_block] is empty. *)
Definition evict_block (fs : FATFileSystem) : FATFileSystem := fs.

Definition get_cache_size (fs : FATFileSystem) : Z := Z.of_nat (length (m_cache fs)).

Definition cache (fs : FATFileSystem) (block : DataBlock) : FATFileSystem :=
  let fs := if MaxCacheSize <=? get_cache_size fs then evict_block fs else fs in
  with_cache fs (block :: m_cache fs).

Definition get_block_from_cache (fs : FATFileSystem) (n : Z) : ErrorOr DataBlock Error :=
  match list_find (λ b, block_number b = n) (m_cache fs) with
  | Some (_, block) => Value block
  | None => fail_with "Block not found"
  end.

(** * [FATFileSystem] *)
Section file_system.
Context `{BlockReader}.

Definition read_block_poll (fs : FATFileSystem) (n : Z) : ErrorOr DataBlock Error * FATFileSystem :=
  match get_block_from_cache fs n with
  | Value block => (Value block, cache fs block)
  | Failure _ =>
      match read_poll (m_block_size fs) (u64 (m_fat_start_offset fs + n * m_block_size fs)) with
      | Value data => let block := mkBlock n data in (Value block, cache fs block)
      | Failure e => (Failure e, fs)
      end
  end.

Definition get_fat_entry (fs : FATFileSystem) (index : Z) : outcome (ErrorOr Z Error * FATFileSystem) :=
  let entry_offset_in_fat := u64 (index * 4) in
  if m_block_size fs =? 0 then Undef
  else
    let fat_block := entry_offset_in_fat / m_block_size fs in
    let entry_offset_in_block := entry_offset_in_fat mod m_block_size fs in
    match read_block_poll fs fat_block with
    | (Value block, fs) =>
        let! entry := load 4 (block_data block) entry_offset_in_block in
        Ret (Value entry, fs)
    | (Failure e, fs) => Ret (Failure e, fs)
    end.

Definition read_cluster_poll (fs : FATFileSystem) (cluster : Z) : ErrorOr DataBlock Error * FATFileSystem :=
  read_block_poll fs (u64 (m_number_of_fat_blocks fs + cluster - 2)).

(** [get_root_directory]: a copy of the first cluster of the root directory. *)
Definition get_root_directory (fs : FATFileSystem) : outcome (ErrorOr bytes Error * FATFileSystem) :=
  match m_fat_type fs with
  | FAT32 =>
      match read_cluster_poll fs (root_cluster (m_fat_boot_sector fs)) with
      | (Value cluster, fs) =>
          let! buffer := memcpy (replicate (Z.to_nat (m_bytes_per_cluster fs)) 0) 0 (block_data cluster)
                           (to_int (m_bytes_per_cluster fs)) in
          Ret (Value buffer, fs)
      | (Failure e, fs) => Ret (Failure e, fs)
      end
  | _ => Ret (fail_with "Only FAT32 is supported", fs)
  end.

(** The constructor; the root inode is the directory in [root_cluster].  Products
    of an [u32] with an [int] are [u32]. *)
Definition new_file_system (fat_type : FATType) (b : BootSector32) : outcome (FullDirectoryEntry * FATFileSystem) :=
  let bpc := sectors_per_cluster b * bytes_per_sector b in
  match fat_type with
  | FAT32 =>
      let start := reserved_sectors b * bytes_per_sector b in
      let reserved := u64 (start + u32 (fat_count b * sectors_per_fat32 b * bytes_per_sector b)) in
      if (bpc =? 0) || (2 ^ 31 <=? start) then Undef
      else
        let fs := mkFat [] bpc fat_type b bpc reserved start (u64 (reserved - start) / bpc) in
        let! r := get_root_directory fs in
        Ret (mkFullEntry [0] 0 (root_cluster b) 0x10, r.2)
  | _ =>
      let fs := mkFat [] bpc fat_type b 0 0 0 0 in
      let! r := get_root_directory fs in Ret (mkFullEntry [0] 0 0 0, r.2)
  end.

(** The arithmetic of [try_create], in [u32] as far as an operand is [u32]. *)
Definition root_dir_sectors (b : BootSector32) : Z :=
  Z.quot (root_entries b * 32 + (bytes_per_sector b - 1)) (bytes_per_sector b).

Definition count_of_clusters (b : BootSector32) : Z :=
  let spf := if negb (sectors_per_fat b =? 0) then sectors_per_fat b else sectors_per_fat32 b in
  let total := if negb (total_sectors b =? 0) then total_sectors b else total_sectors_large b in
  let data := u32 (total - (u32 (reserved_sectors b + fat_count b * spf + root_dir_sectors b))) in
  data / sectors_per_cluster b.

Definition try_create : outcome (ErrorOr (FullDirectoryEntry * FATFileSystem) Error) :=
  match read_poll 512 0 with
  | Failure e => Ret (Failure e)
  | Value buffer =>
      let! b := boot_sector buffer in
      if (bytes_per_sector b =? 0) || (sectors_per_cluster b =? 0) then Undef
      else if count_of_clusters b <? 4085 then Ret (fail_with "FAT12 is not supported")
      else if count_of_clusters b <? 65525 then Ret (fail_with "FAT16 is not supported")
      else let! r := new_file_system FAT32 b in Ret (Value r)
  end.

(** Only errors, and nothing exists. *)
Definition write_block_poll : ErrorOr unit Error := fail_with "Not implemented".
Definition read_block_request : ErrorOr unit Error := fail_with "Not implemented".
Definition write_block_request : ErrorOr unit Error := fail_with "Not implemented".
Definition exists_ (path : bytes) : bool := false.
Definition fat_close : ErrorOr unit Error := fail_with "Not implemented".

(** * [FATInode::read] *)

(** The first loop: follow the chain over [n] clusters. *)
Fixpoint skip_clusters (fs : FATFileSystem) (current : Z) (n : nat) : outcome (ErrorOr Z Error * FATFileSystem) :=
  match n with
  | O => Ret (Value current, fs)
  | S n' =>
      let! r := get_fat_entry fs current in
      match r with
      | (Failure e, fs) => Ret (Failure e, fs)
      | (Value entry, fs) =>
          if is_end_of_chain (fat_entry_value entry)
          then Ret (fail_with "Corrupt FAT chain: Reached EOF before offset", fs)
          else skip_clusters fs (fat_entry_value entry) n'
      end
  end.

(** The second loop: one cluster in each iteration. *)
Fixpoint read_loop (fuel : nat) (fs : FATFileSystem) (buffer : bytes) (current bytes_read size initial : Z) :
    outcome (ErrorOr Z Error * bytes * FATFileSystem) :=
  match fuel with
  | O => NoFuel
  | S fuel' =>
      if size <=? bytes_read then Ret (Value bytes_read, buffer, fs)
      else
        match read_cluster_poll fs current with
        | (Failure e, fs) => Ret (Failure e, buffer, fs)
        | (Value block, fs) =>
            let offset_in_cluster := if bytes_read =? 0 then initial else 0 in
            let available := u64 (m_bytes_per_cluster fs - offset_in_cluster) in
            let bytes_to_read := Z.min (size - bytes_read) available in
            let! buffer := memcpy buffer bytes_read (drop (Z.to_nat offset_in_cluster) (block_data block))
                             (to_int bytes_to_read) in
            let bytes_read := u64 (bytes_read + bytes_to_read) in
            if bytes_read <? size then
              let! r := get_fat_entry fs current in
              match r with
              | (Failure e, fs) => Ret (Failure e, buffer, fs)
              | (Value entry, fs) =>
                  if is_end_of_chain (fat_entry_value entry) then Ret (Value bytes_read, buffer, fs)
                  else read_loop fuel' fs buffer (fat_entry_value entry) bytes_read size initial
              end
            else read_loop fuel' fs buffer current bytes_read size initial
        end
  end.

(** The finalized request carries the number of bytes.  Every iteration of the
    loop but the last copies at least one byte. *)
Definition read (fs : FATFileSystem) (entry : FullDirectoryEntry) (buffer : bytes) (size offset : Z) :
    outcome (ErrorOr Z Error * bytes * FATFileSystem) :=
  if entry_size entry <=? offset then Ret (Value 0, buffer, fs)
  else
    let size := if entry_size entry <? u64 (offset + size) then u64 (entry_size entry - offset) else size in
    if m_bytes_per_cluster fs =? 0 then Undef
    else
      let! r := skip_clusters fs (first_cluster entry) (Z.to_nat (offset / m_bytes_per_cluster fs)) in
      match r with
      | (Failure e, fs) => Ret (Failure e, buffer, fs)
      | (Value current, fs) =>
          read_loop (S (S (Z.to_nat size))) fs buffer current 0 size (offset mod m_bytes_per_cluster fs)
      end.
End file_system.

(** * Files as the contents of their clusters *)

(** A device that holds the bytes [disk] and reads whole sectors of 512 bytes within
    them, as [BlockIODriver] does: it refuses a size that is no multiple of a sector
    and gives the device the number [offset / 512] of the first sector, so that
    nothing is said of other sizes and offsets. *)
Class ReadsDisk `{BlockReader} (disk : bytes) : Prop := {
  disk_small : Z.of_nat (length disk) < 2 ^ 63;
  disk_bytes : Forall is_byte disk;
  reads size offset : 0 ≤ size < 2 ^ 32 → 0 ≤ offset → (512 | size) → (512 | offset) →
    offset + size ≤ Z.of_nat (length disk) →
    read_poll size offset = Value (take (Z.to_nat size) (drop (Z.to_nat offset) disk))
}.

Section files.
Context `{ReadsDisk}.
Implicit Types (fs : FATFileSystem) (c : Z) (cs : list Z).

Definition disk_range (a n : Z) : bytes := take (Z.to_nat n) (drop (Z.to_nat a) disk).

Definition in_disk (a n : Z) : Prop := 0 ≤ a ∧ 0 ≤ n ∧ a + n ≤ Z.of_nat (length disk).

(** Where block [n] is on the disk. *)
Definition block_address fs (n : Z) : Z := m_fat_start_offset fs + n * m_block_size fs.

(** A mounted file system: a cluster is a block of whole sectors, the FAT starts with
    a sector, and cached blocks are those of the disk. *)
Record mounted fs : Prop := {
  mounted_block : 0 < m_block_size fs < 2 ^ 31;
  mounted_cluster : m_bytes_per_cluster fs = m_block_size fs;
  mounted_sectors : (512 | m_block_size fs);
  mounted_start : 0 ≤ m_fat_start_offset fs;
  mounted_aligned : (512 | m_fat_start_offset fs);
  mounted_fat : 0 ≤ m_number_of_fat_blocks fs < 2 ^ 32;
  mounted_cache : Forall (λ b, block_data b = disk_range (block_address fs (block_number b)) (m_block_size fs)) (m_cache fs)
}.

Definition same_layout fs fs' : Prop := with_cache fs' [] = with_cache fs [].

(** The FAT entry of a cluster, its data, and the chains of clusters. *)
Definition next_cluster fs c : Z := fat_entry_value (of_le_bytes (disk_range (m_fat_start_offset fs + 4 * c) 4)).

Definition cluster_data fs c : bytes :=
  disk_range (block_address fs (m_number_of_fat_blocks fs + c - 2)) (m_block_size fs).

Definition cluster_ok fs c : Prop :=
  2 ≤ c < 2 ^ 28 ∧
  in_disk (block_address fs (4 * c / m_block_size fs)) (m_block_size fs) ∧
  in_disk (block_address fs (m_number_of_fat_blocks fs + c - 2)) (m_block_size fs).

Fixpoint chain fs c cs : Prop :=
  cluster_ok fs c ∧
  match cs with
  | [] => is_end_of_chain (next_cluster fs c) = true
  | c' :: cs' => is_end_of_chain (next_cluster fs c) = false ∧ next_cluster fs c = c' ∧ chain fs c' cs'
  end.

Definition contents fs c cs : bytes := cluster_data fs c ++ mjoin (cluster_data fs <$> cs).

Lemma disk_range_length a n : in_disk a n → length (disk_range a n) = Z.to_nat n.
Proof. intros (H1 & H2 & H3). unfold disk_range. rewrite length_take, length_drop. lia. Qed.

Lemma disk_range_bytes a n : Forall is_byte (disk_range a n).
Proof. apply Forall_take, Forall_drop, disk_bytes. Qed.

Lemma disk_range_sub a n i k : 0 ≤ a → 0 ≤ i → 0 ≤ k → i + k ≤ n →
  take (Z.to_nat k) (drop (Z.to_nat i) (disk_range a n)) = disk_range (a + i) k.
Proof.
  intros. unfold disk_range. rewrite (take_drop_commute _ (Z.to_nat k)), take_take, Nat.min_l by lia.
  rewrite <- take_drop_commute, drop_drop. f_equal. f_equal. lia.
Qed.

Lemma same_layout_refl fs : same_layout fs fs.
Proof. done. Qed.

Lemma same_layout_trans fs1 fs2 fs3 : same_layout fs1 fs2 → same_layout fs2 fs3 → same_layout fs1 fs3.
Proof. unfold same_layout. congruence. Qed.

Lemma cache_mounted fs block :
  mounted fs → block_data block = disk_range (block_address fs (block_number block)) (m_block_size fs) →
  mounted (cache fs block) ∧ same_layout fs (cache fs block).
Proof.
  intros [] Hb. assert (cache fs block = with_cache fs (block :: m_cache fs)) as ->.
  { unfold cache, evict_block. by destruct (_ <=? _). }
  split; [|done]. constructor; try done. by constructor.
Qed.

(** Reading a block: from the cache or from the disk, with the same result. *)
Lemma read_block_ok fs n :
  mounted fs → 0 ≤ n → in_disk (block_address fs n) (m_block_size fs) →
  ∃ fs', read_block_poll fs n = (Value (mkBlock n (disk_range (block_address fs n) (m_block_size fs))), fs') ∧
    mounted fs' ∧ same_layout fs fs'.
Proof.
  intros Hm Hn Hr. unfold read_block_poll, get_block_from_cache.
  destruct (list_find _ (m_cache fs)) as [[i block]|] eqn:Hf.
  - apply list_find_Some in Hf as (Hi & Hbn & _).
    pose proof (Forall_lookup_1 _ _ _ _ (mounted_cache _ Hm) Hi) as Hd. simpl in Hd.
    destruct (cache_mounted fs block Hm Hd). exists (cache fs block). split; [|done].
    rewrite <- Hbn, <- Hd. by destruct block.
  - destruct Hr as (Ha & Hs & Hl). cbn [fail_with]. unfold fail_with. rewrite wrap_small.
    + pose proof (mounted_block _ Hm). pose proof (mounted_sectors _ Hm). pose proof (mounted_aligned _ Hm).
      unfold block_address in *. rewrite reads; [|lia|lia|done|by apply Z.divide_add_r, Z.divide_mul_r|lia].
      destruct (cache_mounted fs (mkBlock n (disk_range (block_address fs n) (m_block_size fs))) Hm eq_refl).
      by eexists.
    + unfold in_word, block_address in *. pose proof disk_small. lia.
Qed.

Lemma layout_fields fs fs' : same_layout fs fs' →
  m_block_size fs' = m_block_size fs ∧ m_bytes_per_cluster fs' = m_bytes_per_cluster fs ∧
  m_fat_start_offset fs' = m_fat_start_offset fs ∧ m_number_of_fat_blocks fs' = m_number_of_fat_blocks fs.
Proof. destruct fs, fs'. unfold same_layout, with_cache. simpl. by intros [=]. Qed.

Lemma layout_block_address fs fs' n : same_layout fs fs' → block_address fs' n = block_address fs n.
Proof. intros (Hb & _ & Hs & _)%layout_fields. unfold block_address. by rewrite Hb, Hs. Qed.

Lemma layout_next fs fs' c : same_layout fs fs' → next_cluster fs' c = next_cluster fs c.
Proof. intros (_ & _ & Hs & _)%layout_fields. unfold next_cluster. by rewrite Hs. Qed.

Lemma layout_data fs fs' c : same_layout fs fs' → cluster_data fs' c = cluster_data fs c.
Proof.
  intros Hl. unfold cluster_data. rewrite (layout_block_address _ _ _ Hl).
  destruct (layout_fields _ _ Hl) as (-> & _ & _ & ->). done.
Qed.

Lemma layout_chain fs fs' : same_layout fs fs' → ∀ cs c, chain fs c cs → chain fs' c cs.
Proof.
  intros Hl. assert (∀ c, cluster_ok fs c → cluster_ok fs' c) as Hok.
  { intros c. unfold cluster_ok. rewrite !(layout_block_address _ _ _ Hl).
    destruct (layout_fields _ _ Hl) as (-> & _ & _ & ->). done. }
  induction cs as [|c' cs IH]; intros c; simpl; rewrite (layout_next _ _ _ Hl).
  - intros [Hc He]. auto.
  - intros (Hc & He & Hn & Hcs). auto.
Qed.

Lemma layout_contents fs fs' c cs : same_layout fs fs' → contents fs' c cs = contents fs c cs.
Proof.
  intros Hl. unfold contents. rewrite (layout_data _ _ _ Hl). f_equal. f_equal. apply list_fmap_ext.
  intros. by apply layout_data.
Qed.

Lemma chain_ok fs c cs : chain fs c cs → cluster_ok fs c.
Proof. destruct cs; by intros []. Qed.

Lemma fat_entry_ok fs c :
  mounted fs → cluster_ok fs c →
  ∃ fs' entry, get_fat_entry fs c = Ret (Value entry, fs') ∧ fat_entry_value entry = next_cluster fs c ∧
    mounted fs' ∧ same_layout fs fs'.
Proof.
  intros Hm (Hc & Hf & _). pose proof (mounted_block _ Hm) as Hb. unfold get_fat_entry.
  rewrite (Z.mul_comm c 4), wrap_small by (unfold in_word; lia). rewrite (proj2 (Z.eqb_neq _ 0)) by lia.
  destruct (read_block_ok fs (4 * c / m_block_size fs)) as (fs' & -> & Hm' & Hl'); [done| |done|].
  { apply Z.div_pos; lia. }
  assert (0 ≤ 4 * c mod m_block_size fs ∧ 4 * c mod m_block_size fs + 4 ≤ m_block_size fs) as [Hlo Hhi].
  { assert (4 | m_block_size fs) as [k Hk] by (etransitivity; [|exact (mounted_sectors _ Hm)]; by exists 128). rewrite Hk, (Z.mul_comm k 4) in *. rewrite Z.mul_mod_distr_l by lia.
    pose proof (Z.mod_pos_bound c k). lia. }
  unfold load. cbn [block_data]. rewrite (disk_range_length _ _ Hf).
  rewrite (proj2 (Z.leb_le _ _)), (proj2 (Z.leb_le _ _)) by lia. cbn [andb obind].
  eexists _, _. split; [done|]. split; [|done]. unfold next_cluster. do 2 f_equal.
  destruct Hf as (Ha & _). change 4%nat with (Z.to_nat 4). rewrite disk_range_sub by lia. f_equal.
  unfold block_address. pose proof (Z.div_mod (4 * c) (m_block_size fs)). lia.
Qed.

Lemma read_cluster_ok fs c :
  mounted fs → cluster_ok fs c →
  ∃ fs' block, read_cluster_poll fs c = (Value block, fs') ∧ block_data block = cluster_data fs c ∧
    mounted fs' ∧ same_layout fs fs'.
Proof.
  intros Hm (Hc & _ & Hd). pose proof (mounted_fat _ Hm). unfold read_cluster_poll.
  rewrite wrap_small by (unfold in_word; lia).
  destruct (read_block_ok fs (m_number_of_fat_blocks fs + c - 2)) as (fs' & -> & Hm' & Hl'); [done|lia|done|].
  by eexists _, _.
Qed.

Lemma skip_clusters_ok : ∀ k fs c cs,
  mounted fs → chain fs c cs → (k ≤ length cs)%nat →
  ∃ fs' c' cs', skip_clusters fs c k = Ret (Value c', fs') ∧ drop k (c :: cs) = c' :: cs' ∧
    mounted fs' ∧ same_layout fs fs'.
Proof.
  induction k as [|k IH]; intros fs c cs Hm Hc Hk; [by exists fs, c, cs|].
  destruct cs as [|c' cs]; simpl in Hk; [lia|]. pose proof (chain_ok _ _ _ Hc) as Hok.
  destruct Hc as (_ & He & Hn & Hc). destruct (fat_entry_ok _ _ Hm Hok) as (fs1 & entry & Hget & Hv & Hm1 & Hl1).
  cbn [skip_clusters]. rewrite Hget. cbn [obind]. rewrite Hv, He, Hn.
  destruct (IH fs1 c' cs) as (fs2 & c2 & cs2 & -> & Hdrop & Hm2 & Hl2); [done|by eapply layout_chain|lia|].
  exists fs2, c2, cs2. split_and!; [done..|]. by eapply same_layout_trans.
Qed.

Lemma chain_drop fs : ∀ k c cs c' cs', chain fs c cs → drop k (c :: cs) = c' :: cs' → chain fs c' cs'.
Proof.
  induction k as [|k IH]; intros c cs c' cs' Hc Hd; [by injection Hd as <- <-|].
  destruct cs as [|c2 cs]; simpl in Hd; [by destruct k|]. eapply IH; [|exact Hd]. by destruct Hc as (_ & _ & _ & Hc).
Qed.

Lemma cluster_data_length fs c : cluster_ok fs c → length (cluster_data fs c) = Z.to_nat (m_block_size fs).
Proof. intros (_ & _ & Hd). by apply disk_range_length. Qed.

Lemma contents_drop fs : ∀ k c cs c' cs',
  chain fs c cs → drop k (c :: cs) = c' :: cs' →
  drop (k * Z.to_nat (m_block_size fs)) (contents fs c cs) = contents fs c' cs'.
Proof.
  induction k as [|k IH]; intros c cs c' cs' Hc Hd; [by injection Hd as <- <-|].
  destruct cs as [|c2 cs]; simpl in Hd; [by destruct k|]. pose proof (chain_ok _ _ _ Hc) as Hok.
  destruct Hc as (_ & _ & _ & Hc). rewrite <- (IH _ _ _ _ Hc Hd). unfold contents at 1. cbn [fmap list_fmap].
  rewrite drop_app_ge by (rewrite cluster_data_length by done; lia). rewrite cluster_data_length by done.
  f_equal. lia.
Qed.

Lemma contents_bytes fs c cs : Forall is_byte (contents fs c cs).
Proof.
  unfold contents. apply Forall_app. split; [apply disk_range_bytes|].
  induction cs; simpl; [done|]. apply Forall_app. split; [apply disk_range_bytes|done].
Qed.

Lemma memcpy_prefix (l mid r src : bytes) (m : nat) :
  (m ≤ length src)%nat → length mid = m → Forall is_byte src →
  memcpy (l ++ mid ++ r) (Z.of_nat (length l)) src (Z.of_nat m) = Ret (l ++ take m src ++ r).
Proof.
  intros Hm Hmid Hb. pose proof (memcpy_spec l mid r (take m src) (drop m src)) as H1.
  rewrite take_drop, length_take, Nat.min_l in H1 by lia. apply H1; [lia|by apply Forall_take].
Qed.

(** The loop copies the next [m] bytes of the chain behind the bytes it has read. *)
Lemma read_loop_ok : ∀ fuel fs c cs l mid r size initial off m,
  mounted fs → chain fs c cs → (m + 2 ≤ fuel)%nat → length mid = m →
  size = Z.of_nat (length l + m) → size < 2 ^ 31 →
  off = (if Z.of_nat (length l) =? 0 then initial else 0) → 0 ≤ off < m_block_size fs →
  (m ≤ length (drop (Z.to_nat off) (contents fs c cs)))%nat →
  ∃ fs', read_loop fuel fs (l ++ mid ++ r) c (Z.of_nat (length l)) size initial =
           Ret (Value size, l ++ take m (drop (Z.to_nat off) (contents fs c cs)) ++ r, fs') ∧
    mounted fs' ∧ same_layout fs fs'.
Proof.
  induction fuel as [|fuel IH]; intros fs c cs l mid r size initial off m Hm Hc Hfuel Hmid Hsize Hsmall Hoff Hrange Hlen; [lia|].
  cbn [read_loop]. destruct m as [|m].
  { destruct mid; [|done]. rewrite (proj2 (Z.leb_le _ _)) by lia. exists fs.
    replace (Z.of_nat (length l)) with size by lia. by rewrite take_0. }
  rewrite (proj2 (Z.leb_gt _ _)) by lia. pose proof (chain_ok _ _ _ Hc) as Hok.
  destruct (read_cluster_ok fs c Hm Hok) as (fs1 & block & -> & Hblock & Hm1 & Hl1).
  destruct (layout_fields _ _ Hl1) as (Hbs & _). rewrite <- Hoff, Hblock, (mounted_cluster _ Hm1), Hbs.
  pose proof (mounted_block _ Hm) as Hb. pose proof (cluster_data_length _ _ Hok) as Hcl.
  rewrite wrap_small by (unfold in_word; lia).
  set (src := drop (Z.to_nat off) (cluster_data fs c)).
  assert (length src = Z.to_nat (m_block_size fs - off)) as Hsrc.
  { subst src. rewrite length_drop, Hcl. lia. }
  assert (drop (Z.to_nat off) (contents fs c cs) = src ++ mjoin (cluster_data fs <$> cs)) as Hcont.
  { unfold contents. rewrite drop_app_le by lia. done. }
  rewrite Hcont in *. replace (size - Z.of_nat (length l)) with (Z.of_nat (S m)) by lia.
  destruct (decide (S m ≤ length src)%nat) as [Hfits|Hmore].
  - rewrite Z.min_l, to_int_small by lia. rewrite memcpy_prefix by (done || apply Forall_drop, disk_range_bytes). cbn [obind].
    rewrite wrap_small, (proj2 (Z.ltb_ge _ _)) by (unfold in_word; lia).
    replace (Z.of_nat (length l) + Z.of_nat (S m)) with size by lia.
    destruct fuel as [|fuel]; [lia|]. cbn [read_loop]. rewrite Z.leb_refl. exists fs1.
    split; [|done]. by rewrite take_app_le by lia.
  - set (k := length src) in *.
    destruct cs as [|c' cs].
    { rewrite app_nil_r in Hlen. lia. }
    rewrite Z.min_r, to_int_small by lia. rewrite <- (take_drop k mid), <- app_assoc.
    replace (m_block_size fs - off) with (Z.of_nat k) by lia.
    rewrite memcpy_prefix by (try apply Forall_drop, disk_range_bytes; rewrite ?length_take; lia). cbn [obind].
    rewrite wrap_small, (proj2 (Z.ltb_lt _ _)) by (unfold in_word; lia).
    rewrite (take_ge src) by lia. assert (chain fs1 c (c' :: cs)) as Hc1 by by eapply layout_chain.
    destruct (fat_entry_ok fs1 c Hm1 (chain_ok _ _ _ Hc1)) as (fs2 & entry & -> & Hv & Hm2 & Hl2). cbn [obind].
    destruct Hc1 as (_ & He & Hn & Hc1). rewrite Hv, He, Hn.
    assert (same_layout fs fs2) as Hl02 by by eapply same_layout_trans.
    destruct (layout_fields _ _ Hl02) as (Hbs2 & _).
    destruct (IH fs2 c' cs (l ++ src) (drop k mid) r size initial 0 (S m - k)%nat) as (fs3 & Heq & Hm3 & Hl3); try done.
    + by apply (layout_chain _ _ Hl2).
    + lia.
    + rewrite length_drop. lia.
    + rewrite length_app. fold k. lia.
    + rewrite (proj2 (Z.eqb_neq _ _)); [done|]. rewrite length_app. fold k. lia.
    + lia.
    + rewrite (layout_contents _ _ _ _ Hl02). change (Z.to_nat 0) with 0%nat. rewrite drop_0.
      change (mjoin (cluster_data fs <$> c' :: cs)) with (contents fs c' cs) in Hlen.
      rewrite length_app in Hlen. lia.
    + exists fs3. rewrite length_app, Nat2Z.inj_add in Heq. fold k in Heq. rewrite <- app_assoc in Heq. rewrite Heq.
      split; [|split; [done|by eapply same_layout_trans]].
      change (mjoin (cluster_data fs <$> c' :: cs)) with (contents fs c' cs).
      rewrite (layout_contents _ _ _ _ Hl02), (take_app_ge src) by (fold k; lia). fold k.
      change (Z.to_nat 0) with 0%nat. by rewrite drop_0, <- !app_assoc.
Qed.

(** [read] for a file whose chain holds at least its size. *)
Lemma read_ok fs entry cs buffer size offset :
  mounted fs → chain fs (first_cluster entry) cs →
  0 ≤ entry_size entry < 2 ^ 31 → entry_size entry ≤ Z.of_nat (length (contents fs (first_cluster entry) cs)) →
  0 ≤ offset → 0 ≤ size → offset + size < 2 ^ 64 → size ≤ Z.of_nat (length buffer) →
  let n := Z.max 0 (Z.min size (entry_size entry - offset)) in
  ∃ fs', read fs entry buffer size offset =
    Ret (Value n, take (Z.to_nat n) (drop (Z.to_nat offset) (contents fs (first_cluster entry) cs)) ++
                  drop (Z.to_nat n) buffer, fs') ∧
    mounted fs' ∧ same_layout fs fs'.
Proof.
  intros Hm Hc Hes Hlen Hoff Hsize Hsum Hbuf n. unfold read.
  destruct (Z.leb_spec (entry_size entry) offset) as [Hpast|Hin].
  { exists fs. assert (n = 0) as -> by lia. split; [done|]. split; [done|]. apply same_layout_refl. }
  rewrite wrap_small by (unfold in_word; lia). rewrite (wrap_small 64 (entry_size entry - offset)) by (unfold in_word; lia).
  assert ((if entry_size entry <? offset + size then entry_size entry - offset else size) = n) as ->.
  { destruct (Z.ltb_spec (entry_size entry) (offset + size)); lia. }
  rewrite (mounted_cluster _ Hm). pose proof (mounted_block _ Hm) as Hb. rewrite (proj2 (Z.eqb_neq _ 0)) by lia.
  set (q := offset / m_block_size fs). assert (0 ≤ q) by (apply Z.div_pos; lia).
  pose proof (Z.div_mod offset (m_block_size fs) ltac:(lia)) as Hdiv. fold q in Hdiv.
  pose proof (Z.mod_pos_bound offset (m_block_size fs) ltac:(lia)) as Hmod.
  assert (∀ cs c, chain fs c cs → length (contents fs c cs) = (S (length cs) * Z.to_nat (m_block_size fs))%nat) as Hclen.
  { clear -Hm. induction cs as [|c' cs IH]; intros c Hc; pose proof (chain_ok _ _ _ Hc) as Hok; unfold contents;
      rewrite length_app, cluster_data_length by done; [simpl; lia|].
    destruct Hc as (_ & _ & _ & Hc). specialize (IH c' Hc).
    change (mjoin (cluster_data fs <$> c' :: cs)) with (contents fs c' cs). rewrite IH. simpl. lia. }
  assert (Z.to_nat q ≤ length cs)%nat as Hq.
  { rewrite (Hclen _ _ Hc) in Hlen. nia. }
  destruct (skip_clusters_ok (Z.to_nat q) fs _ cs Hm Hc Hq) as (fs1 & c' & cs' & -> & Hdrop & Hm1 & Hl1). cbn [obind].
  pose proof (contents_drop fs _ _ _ _ _ Hc Hdrop) as Hcd.
  assert (drop (Z.to_nat offset) (contents fs (first_cluster entry) cs) =
    drop (Z.to_nat (offset mod m_block_size fs)) (contents fs c' cs')) as Hrest.
  { rewrite <- Hcd, drop_drop. f_equal. rewrite Hdiv at 1. rewrite Z2Nat.inj_add, Z2Nat.inj_mul by lia. lia. }
  destruct (read_loop_ok (S (S (Z.to_nat n))) fs1 c' cs' [] (take (Z.to_nat n) buffer) (drop (Z.to_nat n) buffer)
    n (offset mod m_block_size fs) (offset mod m_block_size fs) (Z.to_nat n)) as (fs2 & Heq & Hm2 & Hl2).
  - done.
  - eapply layout_chain; [done|]. by eapply chain_drop.
  - lia.
  - rewrite length_take. lia.
  - simpl. lia.
  - lia.
  - done.
  - by rewrite (proj1 (layout_fields _ _ Hl1)).
  - rewrite (layout_contents _ _ _ _ Hl1), <- Hrest, length_drop. lia.
  - cbn [app length] in Heq. change (Z.of_nat 0) with 0 in Heq. rewrite take_drop in Heq.
    rewrite (mounted_cluster _ Hm1), (proj1 (layout_fields _ _ Hl1)), Heq. exists fs2.
    rewrite (layout_contents _ _ _ _ Hl1), Hrest. split; [done|]. split; [done|]. by eapply same_layout_trans.
Qed.
End files.
Arguments mounted disk fs : clear implicits.
Arguments in_disk disk a n : clear implicits.
Arguments chain disk fs c cs : clear implicits.
Arguments cluster_ok disk fs c : clear implicits.
Arguments cluster_data disk fs c : clear implicits.
Arguments contents disk fs c cs : clear implicits.

(** * Geometry *)
Section geometry.
Context `{BlockReader}.

Lemma read_block_layout fs n r fs' : read_block_poll fs n = (r, fs') → same_layout fs fs'.
Proof.
  unfold read_block_poll, cache, evict_block. destruct (get_block_from_cache fs n); [|destruct (read_poll _ _)];
    intros [= <- <-]; try destruct (_ <=? _); done.
Qed.

Lemma root_directory_layout fs r fs' : get_root_directory fs = Ret (r, fs') → same_layout fs fs'.
Proof.
  unfold get_root_directory, read_cluster_poll. destruct (m_fat_type fs); try (by intros [= <- <-]).
  destruct (read_block_poll _ _) as [[block|e] fs1] eqn:Hr; [|intros [= <- <-]; by eapply read_block_layout].
  intros Hm. inv_outcome. by eapply read_block_layout.
Qed.

(** The sizes of the regions of the volume, in bytes. *)
Definition fat_start (b : BootSector32) : Z := reserved_sectors b * bytes_per_sector b.
Definition fat_region (b : BootSector32) : Z := fat_count b * sectors_per_fat32 b * bytes_per_sector b.
Definition cluster_bytes (b : BootSector32) : Z := sectors_per_cluster b * bytes_per_sector b.

(** A volume whose sectors add up. *)
Definition consistent (b : BootSector32) : Prop :=
  0 < bytes_per_sector b ∧ 0 < sectors_per_cluster b ∧ 0 ≤ reserved_sectors b ∧ 0 ≤ fat_count b ∧
  0 ≤ root_entries b ∧ sectors_per_fat b = 0 ∧ total_sectors b = 0 ∧ 0 ≤ sectors_per_fat32 b ∧
  fat_start b < 2 ^ 31 ∧ fat_region b < 2 ^ 32 ∧
  reserved_sectors b + fat_count b * sectors_per_fat32 b + root_dir_sectors b ≤ total_sectors_large b < 2 ^ 32.

Lemma new_file_system_fields b root fs :
  consistent b → new_file_system FAT32 b = Ret (root, fs) →
  m_block_size fs = cluster_bytes b ∧ m_bytes_per_cluster fs = cluster_bytes b ∧
  m_fat_start_offset fs = fat_start b ∧
  m_number_of_fat_blocks fs = fat_region b / cluster_bytes b ∧
  first_cluster root = root_cluster b.
Proof.
  intros (H1 & H2 & H3 & H4 & H5 & _ & _ & H6 & H7 & H8 & _). unfold new_file_system, fat_start, fat_region, cluster_bytes in *.
  assert (0 ≤ fat_count b * sectors_per_fat32 b * bytes_per_sector b) by nia.
  rewrite (proj2 (Z.eqb_neq _ 0)), (proj2 (Z.leb_gt _ _)) by nia. cbn [orb]. intros Hn. inv_outcome.
  destruct x as [r fs']. cbn [snd]. apply root_directory_layout in Hret.
  rewrite (wrap_small 32), (wrap_small 64) in Hret by (unfold in_word; nia).
  rewrite wrap_small in Hret by (unfold in_word; nia). unfold same_layout, with_cache in Hret.
  destruct fs'. simpl in Hret |- *. injection Hret as -> -> -> -> -> -> ->. split_and!; try done. f_equal. lia.
Qed.
End geometry.

(** * Properties *)

(** C11: on a device that reads whole sectors, reading a file of a mounted FAT32
    volume gives the bytes of its chain of clusters: the finalized request carries the
    number of bytes up to the end of the file or of the request, these bytes are in
    front of the buffer, the rest of the buffer is as before, and the cached blocks
    agree with the disk. *)
Theorem fat_read_is_slice `{ReadsDisk disk} (fs : FATFileSystem) (entry : FullDirectoryEntry) cs buffer size offset :
  mounted disk fs → chain disk fs (first_cluster entry) cs →
  0 ≤ entry_size entry < 2 ^ 31 → entry_size entry ≤ Z.of_nat (length (contents disk fs (first_cluster entry) cs)) →
  0 ≤ offset → 0 ≤ size → offset + size < 2 ^ 64 → size ≤ Z.of_nat (length buffer) →
  let n := Z.max 0 (Z.min size (entry_size entry - offset)) in
  ∃ fs', read fs entry buffer size offset =
    Ret (Value n, take (Z.to_nat n) (drop (Z.to_nat offset) (contents disk fs (first_cluster entry) cs)) ++
                  drop (Z.to_nat n) buffer, fs') ∧
    mounted disk fs' ∧ same_layout fs fs'.
Proof. apply read_ok. Qed.

(** The constructor mounts a consistent volume with whole sectors: the hypothesis of
    the properties of files and directories. *)
Lemma new_file_system_mounted `{ReadsDisk disk} b root fs :
  consistent b → (512 | bytes_per_sector b) → cluster_bytes b < 2 ^ 31 → 2 ≤ root_cluster b < 2 ^ 28 →
  new_file_system FAT32 b = Ret (root, fs) →
  in_disk disk (fat_start b + 4 * root_cluster b / cluster_bytes b * cluster_bytes b) (cluster_bytes b) →
  in_disk disk (fat_start b + (fat_region b / cluster_bytes b + root_cluster b - 2) * cluster_bytes b) (cluster_bytes b) →
  mounted disk fs ∧ first_cluster root = root_cluster b.
Proof.
  intros Hb H512 Hsmall Hroot Hnew Hin1 Hin2. destruct (new_file_system_fields b root fs Hb Hnew) as (Hbs & Hbc & Hst & Hfb & Hr).
  split; [|done]. destruct Hb as (H1 & H2 & H3 & H4 & _ & _ & _ & H6 & H7 & H8 & _).
  assert (0 < cluster_bytes b) as Hpos by (unfold cluster_bytes; nia).
  assert (0 ≤ fat_region b) as Hreg by (unfold fat_region; nia).
  assert (∀ c, m_cache c = [] → same_layout c fs → mounted disk c) as Hmount.
  { intros c Hc (E1 & E2 & E3 & E4)%layout_fields. constructor; rewrite <- ?E1, <- ?E2, <- ?E3, <- ?E4, ?Hbs, ?Hbc, ?Hst, ?Hfb; try done.
    - by apply Z.divide_mul_r.
    - unfold fat_start. nia.
    - by apply Z.divide_mul_r.
    - split; [by apply Z.div_pos|]. apply Z.le_lt_trans with (fat_region b); [|done]. apply Z.div_le_upper_bound; nia.
    - by rewrite Hc. }
  unfold new_file_system in Hnew. unfold fat_start, fat_region, cluster_bytes in *.
  rewrite (proj2 (Z.eqb_neq _ 0)), (proj2 (Z.leb_gt _ _)) in Hnew by lia. cbn [orb] in Hnew.
  apply obind_Ret in Hnew as ([res fs1] & Hg & Hret). injection Hret as _ Hfs. cbn [snd] in Hfs. subst fs1.
  pose proof (root_directory_layout _ _ _ Hg) as Hlay. set (fs0 := mkFat _ _ _ _ _ _ _ _) in *.
  pose proof (Hmount fs0 eq_refl Hlay) as Hm0.
  unfold get_root_directory in Hg. cbn [m_fat_type fs0 m_fat_boot_sector] in Hg.
  destruct (read_cluster_ok fs0 (root_cluster b) Hm0) as (fs2 & block & Hread & _ & Hm2 & _).
  { destruct (layout_fields _ _ Hlay) as (E1 & _ & E3 & E4). split; [done|]. unfold block_address.
    rewrite <- E1, <- E3, <- E4, Hbs, Hst, Hfb. done. }
  fold fs0 in Hg. rewrite Hread in Hg. apply obind_Ret in Hg as (buf & _ & Hg). by injection Hg as _ <-.
Qed.

(** [try_create] accepts exactly the consistent volumes with at least 65525
    clusters, and the file system it builds reads cluster [c] at the place the
    format gives it exactly when the size of the FATs is a multiple of the size
    of a cluster. *)
Theorem fat_geometry `{BlockReader} (buffer : bytes) (b : BootSector32) :
  read_poll 512 0 = Value buffer → boot_sector buffer = Ret b → consistent b →
  let clusters := (total_sectors_large b - (reserved_sectors b + fat_count b * sectors_per_fat32 b + root_dir_sectors b))
                    / sectors_per_cluster b in
  (clusters < 65525 → ∃ e, try_create = Ret (Failure e)) ∧
  (∀ root fs, try_create = Ret (Value (root, fs)) →
     65525 ≤ clusters ∧ first_cluster root = root_cluster b ∧
     ∀ c, 2 ≤ c → block_address fs (m_number_of_fat_blocks fs + c - 2) =
                    fat_start b + fat_region b + (c - 2) * cluster_bytes b ↔
                  (cluster_bytes b | fat_region b)).
Proof.
  intros Hread Hb Hc clusters. pose proof Hc as (H1 & H2 & _ & _ & H5 & Hf & Ht & _ & _ & _ & Htot).
  assert (count_of_clusters b = clusters) as Hcount.
  { unfold count_of_clusters. rewrite Hf, Ht. cbn [Z.eqb negb].
    assert (0 ≤ reserved_sectors b + fat_count b * sectors_per_fat32 b + root_dir_sectors b) as Hpos.
    { destruct Hc as (_ & _ & ? & ? & _ & _ & _ & ? & _). unfold root_dir_sectors.
      pose proof (Z.quot_pos (root_entries b * 32 + (bytes_per_sector b - 1)) (bytes_per_sector b)). nia. }
    rewrite (wrap_small 32 (_ + _ + _)) by (unfold in_word; lia). by rewrite wrap_small by (unfold in_word; lia). }
  unfold try_create. rewrite Hread, Hb. cbn [obind].
  rewrite (proj2 (Z.eqb_neq (bytes_per_sector b) 0)), (proj2 (Z.eqb_neq (sectors_per_cluster b) 0)) by lia.
  cbn [orb]. rewrite Hcount. split.
  - intros Hlt. destruct (clusters <? 4085); [by eexists|]. rewrite (proj2 (Z.ltb_lt _ _)) by done. by eexists.
  - intros root fs. destruct (Z.ltb_spec clusters 4085) as [|Hge]; [done|].
    destruct (Z.ltb_spec clusters 65525) as [|Hge']; [done|]. intros Hn. inv_outcome.
    destruct (new_file_system_fields b root fs Hc Hret) as (Hbs & _ & Hs & Hn & Hr). split; [done|]. split; [done|].
    intros c Hc2. unfold block_address. rewrite Hbs, Hs, Hn. assert (0 < cluster_bytes b) as Hpos by (unfold cluster_bytes; nia).
    split.
    + intros Heq. exists (fat_region b / cluster_bytes b). lia.
    + intros [k ->]. rewrite Z.div_mul by lia. lia.
Qed.

(** ** Witnesses *)

(** A reader of the bytes [disk] by sector. *)
Definition sector_reader (disk : bytes) : BlockReader := λ size offset,
  if negb (size mod 512 =? 0) then fail_with "BlockIODriver: Size must be a multiple of 512 bytes."
  else Value (take (Z.to_nat size) (drop (Z.to_nat (offset / 512 * 512)) disk)).

Lemma sector_reader_reads disk :
  Z.of_nat (length disk) < 2 ^ 63 → Forall is_byte disk → ReadsDisk (H := sector_reader disk) disk.
Proof.
  intros Hl Hb. constructor; [done|done|]. intros size offset _ _ [k ->] [j ->] _. unfold read_poll, sector_reader.
  by rewrite Z_mod_mult, Z_div_mult.
Qed.

(** One sector per cluster; the file is in clusters 2 and 3. *)
Definition sample_disk : bytes :=
  ([0; 0; 0; 0] ++ [0; 0; 0; 0] ++ [3; 0; 0; 0] ++ [0xFF; 0xFF; 0xFF; 0x0F] ++ replicate 496 0) ++
  (replicate 510 1 ++ [10; 11]) ++ ([12; 13] ++ replicate 510 2).

#[local] Instance sample_reader : BlockReader := sector_reader sample_disk.

#[local] Instance sample_reads : ReadsDisk sample_disk.
Proof. apply sector_reader_reads; [done|by apply (bool_decide_unpack _); vm_compute]. Qed.

Definition sample_fs : FATFileSystem :=
  mkFat [] 512 FAT32 (mkBootSector 512 1 0 1 0 0 0 3 1 2) 512 512 0 1.

Definition sample_file : FullDirectoryEntry := mkFullEntry [0] 700 2 0x20.

Lemma fat_read_is_slice_witness :
  ∃ fs', read sample_fs sample_file [0; 0; 0; 0; 0] 4 510 = Ret (Value 4, [10; 11; 12; 13; 0], fs').
Proof.
  assert (mounted sample_disk sample_fs) as Hm by (constructor; [done|done|by exists 1|done|by exists 0|done|done]).
  assert (chain sample_disk sample_fs (first_cluster sample_file) [3]) as Hc.
  { split; [split; [done|split; done]|]. split; [done|]. split; [done|]. split; [split; [done|split; done]|done]. }
  destruct (fat_read_is_slice sample_fs sample_file [3] [0; 0; 0; 0; 0] 4 510 Hm Hc) as (fs' & Hr & _).
  - done.
  - by vm_compute.
  - done.
  - done.
  - done.
  - by vm_compute.
  - exists fs'. rewrite Hr. vm_compute. reflexivity.
Defined.

(** A volume of 70000 sectors of 512 bytes, which are the clusters, with FATs of 547 sectors. *)
Definition sample_boot_sector : bytes :=
  replicate 11 0 ++ [0; 2; 1; 32; 0; 2; 0; 0; 0; 0; 0; 0; 0] ++ replicate 8 0 ++ [0x70; 0x11; 1; 0] ++ [0x23; 2; 0; 0] ++
  replicate 4 0 ++ [2; 0; 0; 0] ++ replicate 464 0.

Definition sample_volume : BootSector32 := mkBootSector 512 1 32 2 0 0 0 70000 547 2.

Lemma sample_consistent : consistent sample_volume.
Proof. unfold consistent. split_and!; by vm_compute. Qed.

Definition boot_reader : BlockReader := λ _ _, Value sample_boot_sector.

Lemma fat_geometry_witness :
  ∃ root fs, try_create (H := boot_reader) = Ret (Value (root, fs)) ∧
    block_address fs (m_number_of_fat_blocks fs + 2 - 2) = 576512.
Proof.
  destruct (try_create (H := boot_reader)) as [[[root fs]|e]| | |] eqn:Hc; try (vm_compute in Hc; discriminate Hc).
  exists root, fs. split; [reflexivity|].
  pose proof (fat_geometry (H := boot_reader) sample_boot_sector sample_volume eq_refl eq_refl sample_consistent) as [_ Hg].
  destruct (Hg root fs Hc) as (_ & _ & Hcl).
  apply (proj2 (Hcl 2 ltac:(done))). by exists 1094.
Defined.
