(* ===== verification/FatDirectory.v ===== *)
(** Directories of the FAT32 file system: the entries of [FATFS/FAT.h] and
    [FATInode::get_child], [list_dir] and the other operations of [FATInode.cpp].

    Names are lists of characters; the name that is looked up has no NUL, so
    comparing it with [String::operator==] is comparing the lists. *)
From S2P Require Import Prelude Bits Bytes Endian Fat.

(** * Entries *)

(** [enum class DirectoryEntryAttributes]. *)
Definition ReadOnly : Z := 0x01.
Definition Hidden : Z := 0x02.
Definition System_ : Z := 0x04.
Definition VolumeID : Z := 0x08.
Definition Directory : Z := 0x10.
Definition Archive : Z := 0x20.
Definition LongName : Z := Z.lor ReadOnly (Z.lor Hidden (Z.lor System_ VolumeID)).

(** [struct DirectoryEntry]: the members that are used. *)
Record DirectoryEntry : Type := mkDirectoryEntry {
  dir_name : bytes; dir_attributes : Z; first_cluster_high : Z; first_cluster_low : Z; dir_size : Z
}.

(** [struct LongDirectoryEntry]. *)
Record LongDirectoryEntry : Type := mkLongEntry {
  order : Z; name1 : list Z; name2 : list Z; name3 : list Z
}.

(** [count] consecutive two-byte units at offset [i]. *)
Fixpoint load_units (data : bytes) (i : Z) (count : nat) : outcome (list Z) :=
  match count with
  | O => Ret []
  | S count' => let! u := load 2 data i in let! us := load_units data (i + 2) count' in Ret (u :: us)
  end.

Definition slice (data : bytes) (i : Z) (n : nat) : outcome bytes :=
  if i + Z.of_nat n <=? Z.of_nat (length data) then Ret (take n (drop (Z.to_nat i) data)) else Undef.

(** The entry at index [index] of the block, in its packed layout. *)
Definition directory_entry (data : bytes) (index : Z) : outcome DirectoryEntry :=
  let i := index * 32 in
  let! name := slice data i 11 in
  let! attributes := load 1 data (i + 11) in
  let! high := load 2 data (i + 20) in
  let! low := load 2 data (i + 26) in
  let! size := load 4 data (i + 28) in
  Ret (mkDirectoryEntry name attributes high low size).

(** [as_long_name]. *)
Definition long_entry (data : bytes) (index : Z) : outcome LongDirectoryEntry :=
  let i := index * 32 in
  let! order := load 1 data i in
  let! n1 := load_units data (i + 1) 5 in
  let! n2 := load_units data (i + 14) 6 in
  let! n3 := load_units data (i + 28) 2 in
  Ret (mkLongEntry order n1 n2 n3).

Definition has_attribute (attributes a : Z) : bool := negb (Z.land attributes a =? 0).

Definition is_free (e : DirectoryEntry) : bool :=
  let first := default 0 (head (dir_name e)) in (first =? 0xE5) || (first =? 0x00).
Definition is_directory (e : DirectoryEntry) : bool := has_attribute (dir_attributes e) Directory.
Definition is_volume_id (e : DirectoryEntry) : bool := has_attribute (dir_attributes e) VolumeID.
Definition is_system (e : DirectoryEntry) : bool := has_attribute (dir_attributes e) System_.
Definition is_hidden (e : DirectoryEntry) : bool := has_attribute (dir_attributes e) Hidden.
Definition is_read_only (e : DirectoryEntry) : bool := has_attribute (dir_attributes e) ReadOnly.
Definition is_archive (e : DirectoryEntry) : bool := has_attribute (dir_attributes e) Archive.

(** [attributes & (LongName == LongName)]: the comparison binds stronger. *)
Definition is_long_name (e : DirectoryEntry) : bool :=
  has_attribute (dir_attributes e) (Z.b2z (LongName =? LongName)).

Definition is_final_entry (e : LongDirectoryEntry) : bool := has_attribute (order e) 0x40.
Definition long_is_free (e : LongDirectoryEntry) : bool := has_attribute (order e) 0x00.

(** [FullDirectoryEntry::filled_from]. *)
Definition filled_from (name : bytes) (e : DirectoryEntry) : FullDirectoryEntry :=
  mkFullEntry name (dir_size e) (Z.lor (u32 (Z.shiftl (first_cluster_high e) 16)) (first_cluster_low e))
    (dir_attributes e).

(** [FullDirectoryEntry::is_directory] and [is_file]. *)
Definition entry_is_directory (e : FullDirectoryEntry) : bool := has_attribute (attributes e) Directory.
Definition entry_is_file (e : FullDirectoryEntry) : bool := negb (entry_is_directory e).

(** The other predicates of [FullDirectoryEntry]; the index into the name is checked. *)
Definition entry_is_free (e : FullDirectoryEntry) : outcome bool :=
  let! first := runtime_assert (bool_decide (entry_name e ≠ [])) (defined (head (entry_name e))) in
  Ret ((first =? 0xE5) || (first =? 0x00)).
Definition entry_is_long_name (e : FullDirectoryEntry) : bool := has_attribute (attributes e) (Z.b2z (LongName =? LongName)).
Definition entry_is_volume_id (e : FullDirectoryEntry) : bool := has_attribute (attributes e) VolumeID.
Definition entry_is_system (e : FullDirectoryEntry) : bool := has_attribute (attributes e) System_.
Definition entry_is_hidden (e : FullDirectoryEntry) : bool := has_attribute (attributes e) Hidden.
Definition entry_is_read_only (e : FullDirectoryEntry) : bool := has_attribute (attributes e) ReadOnly.
Definition entry_is_archive (e : FullDirectoryEntry) : bool := has_attribute (attributes e) Archive.

(** * Long names *)

(** One of the three loops over the units: up to a 0 or 0xFFFF, the low bytes
    ([0xFF00 >> 8] is evaluated first). *)
Fixpoint unit_chars (units : list Z) : bytes :=
  match units with
  | [] => []
  | u :: us => if (u =? 0) || (u =? 0xFFFF) then [] else Z.land u (Z.shiftr 0xFF00 8) :: unit_chars us
  end.

Definition name_piece (e : LongDirectoryEntry) : bytes :=
  unit_chars (name1 e) ++ unit_chars (name2 e) ++ unit_chars (name3 e).

(** The loop over the long entries: the name, and the index behind the last one.
    An index behind the block is a read past its data. *)
Fixpoint long_name_loop (fuel : nat) (data : bytes) (index : Z) (name : bytes) : outcome (bytes * Z) :=
  match fuel with
  | O => NoFuel
  | S fuel' =>
      let! e := long_entry data index in
      let name := name_piece e ++ name in
      if is_final_entry e || long_is_free e then Ret (name, index + 1)
      else long_name_loop fuel' data (index + 1) name
  end.

Definition long_name (data : bytes) (index : Z) : outcome (bytes * Z) :=
  long_name_loop (S (length data)) data index [].

(** [FATFileSystem::get_name]. *)
Definition get_name (data : bytes) (index : Z) : outcome bytes :=
  let! e := directory_entry data index in
  if negb (is_long_name e) then Ret (dir_name e) else let! r := long_name data index in Ret r.1.

(** * [FATInode] *)

(** The entry loop of [get_child]; [n] entries fit in the block. *)
Fixpoint child_loop (fuel : nat) (data : bytes) (n index : Z) (name : bytes) :
    outcome (ErrorOr FullDirectoryEntry Error) :=
  match fuel with
  | O => NoFuel
  | S fuel' =>
      if n <=? index then Ret (fail_with "Child not found")
      else
        let! e := directory_entry data index in
        if is_free e then child_loop fuel' data n (index + 1) name
        else if is_long_name e then
          let! r := long_name data index in
          let! e := directory_entry data r.2 in
          if is_long_name e
          then Ret (fail_with "Corrupt directory: Last Long name entry not followed by standard entry")
          else if decide (r.1 = name) then Ret (Value (filled_from r.1 e))
          else child_loop fuel' data n (r.2 + 1) name
        else if decide (dir_name e = name) then Ret (Value (filled_from (dir_name e) e))
        else child_loop fuel' data n (index + 1) name
  end.

(** The entry loop of [list_dir]. *)
Fixpoint list_loop (fuel : nat) (data : bytes) (n index : Z) (entries : list bytes) : outcome (list bytes) :=
  match fuel with
  | O => NoFuel
  | S fuel' =>
      if n <=? index then Ret entries
      else
        let! e := directory_entry data index in
        if is_free e then list_loop fuel' data n (index + 1) entries
        else if is_long_name e then
          let! r := long_name data index in list_loop fuel' data n (r.2 + 1) (entries ++ [r.1])
        else list_loop fuel' data n (index + 1) (entries ++ [dir_name e])
  end.

Section inode.
Context `{BlockReader}.

Definition get_child (fs : FATFileSystem) (dir : FullDirectoryEntry) (name : bytes) :
    outcome (ErrorOr FullDirectoryEntry Error * FATFileSystem) :=
  if negb (entry_is_directory dir) then Ret (fail_with "Not a directory", fs)
  else
    match read_cluster_poll fs (first_cluster dir) with
    | (Failure e, fs) => Ret (Failure e, fs)
    | (Value block, fs) =>
        let n := m_block_size fs / 32 in
        let! r := child_loop (S (Z.to_nat n)) (block_data block) n 0 name in Ret (r, fs)
    end.

Definition list_dir (fs : FATFileSystem) (dir : FullDirectoryEntry) :
    outcome (ErrorOr (list bytes) Error * FATFileSystem) :=
  if negb (entry_is_directory dir) then Ret (fail_with "Not a directory", fs)
  else
    match read_cluster_poll fs (first_cluster dir) with
    | (Failure e, fs) => Ret (Failure e, fs)
    | (Value block, fs) =>
        let n := m_block_size fs / 32 in
        let! r := list_loop (S (Z.to_nat n)) (block_data block) n 0 [] in Ret (Value r, fs)
    end.
End inode.

Definition check_credentials : ErrorOr unit Error := Value tt.
Definition write : ErrorOr Z Error := fail_with "Not implemented".

(** * What a directory cluster holds *)
Inductive item : Type :=
| Unused
| Short (e : DirectoryEntry)
| Long (l : LongDirectoryEntry) (e : DirectoryEntry).

(** The children: name and entry, in order. *)
Definition children (items : list item) : list (bytes * DirectoryEntry) :=
  mjoin ((λ i, match i with Unused => [] | Short e => [(dir_name e, e)] | Long l e => [(name_piece l, e)] end) <$> items).

(** The entries from index [i] to index [j] are [items]: free entries, entries with
    a short name, and entries with one long name entry in front of them, the
    standard entries not being read-only. *)
Inductive layout (data : bytes) : Z → list item → Z → Prop :=
| layout_end i : layout data i [] i
| layout_unused i e items j :
    directory_entry data i = Ret e → is_free e = true →
    layout data (i + 1) items j → layout data i (Unused :: items) j
| layout_short i e items j :
    directory_entry data i = Ret e → is_free e = false → is_read_only e = false →
    layout data (i + 1) items j → layout data i (Short e :: items) j
| layout_long i e0 l e items j :
    directory_entry data i = Ret e0 → is_free e0 = false → is_read_only e0 = true →
    long_entry data i = Ret l → is_final_entry l = true →
    directory_entry data (i + 1) = Ret e → is_read_only e = false →
    layout data (i + 2) items j → layout data i (Long l e :: items) j.

(** A name that needs more than one long name entry: the last part of the name,
    marked as final, comes first, and another long name entry follows it. *)
Definition long_run (data : bytes) (j : Z) : Prop :=
  ∃ e0 l e, directory_entry data j = Ret e0 ∧ is_free e0 = false ∧ is_read_only e0 = true ∧
    long_entry data j = Ret l ∧ is_final_entry l = true ∧
    directory_entry data (j + 1) = Ret e ∧ is_read_only e = true.

Lemma is_long_name_read_only e : is_long_name e = is_read_only e.
Proof. done. Qed.

(** What a directory tells of an entry is what its block says, but that the name is
    a string: of an empty one [is_free] does not return. *)
Lemma filled_from_predicates name e :
  let f := filled_from name e in
  entry_is_directory f = is_directory e ∧ entry_is_long_name f = is_long_name e ∧ entry_is_volume_id f = is_volume_id e ∧
  entry_is_system f = is_system e ∧ entry_is_hidden f = is_hidden e ∧ entry_is_read_only f = is_read_only e ∧
  entry_is_archive f = is_archive e ∧ (name ≠ [] → name = dir_name e → entry_is_free f = Ret (is_free e)) ∧
  (name = [] → entry_is_free f = Halted).
Proof.
  intros f. do 7 (split; [done|]). unfold entry_is_free, is_free. cbn [entry_name f filled_from]. split.
  - intros Hn ->. by destruct (dir_name e).
  - by intros ->.
Qed.

Lemma long_name_final data i l :
  long_entry data i = Ret l → is_final_entry l = true → long_name data i = Ret (name_piece l, i + 1).
Proof. intros Hl Hf. unfold long_name. cbn [long_name_loop]. rewrite Hl. cbn [obind]. by rewrite Hf, app_nil_r. Qed.

(** The first loop passes over the items that do not have the name. *)
Lemma child_loop_items data n name i items j : layout data i items j →
  ∀ fuel, (Z.to_nat (n - i) < fuel)%nat → j ≤ n →
  (∃ name' e k, list_find (λ c, c.1 = name) (children items) = Some (k, (name', e)) ∧
     child_loop fuel data n i name = Ret (Value (filled_from name e))) ∨
  (list_find (λ c, c.1 = name) (children items) = None ∧
   ∃ fuel', (Z.to_nat (n - j) < fuel')%nat ∧ child_loop fuel data n i name = child_loop fuel' data n j name).
Proof.
  assert (∀ a i items j, layout a i items j → i ≤ j) as Hmono by (induction 1; lia).
  intros Hl. induction Hl as [i|i e items j He Hf Hl IH|i e items j He Hf Hr Hl IH|i e0 l e items j H0 Hf Hr0 Hlong Hfin He Hr Hl IH];
    intros fuel Hfuel Hj.
  - right. split; [done|]. by exists fuel.
  - pose proof (Hmono _ _ _ _ Hl). destruct fuel as [|fuel]; [lia|].
    cbn [child_loop]. rewrite (proj2 (Z.leb_gt _ _)), He by lia. cbn [obind]. rewrite Hf. apply IH; lia.
  - pose proof (Hmono _ _ _ _ Hl). destruct fuel as [|fuel]; [lia|].
    cbn [child_loop]. rewrite (proj2 (Z.leb_gt _ _)), He by lia. cbn [obind]. rewrite Hf, is_long_name_read_only, Hr.
    change (children (Short e :: items)) with ((dir_name e, e) :: children items).
    set (cs := children items) in *. clearbody cs. cbn [list_find fst].
    destruct (decide (dir_name e = name)) as [Hn|Hn].
    + left. exists (dir_name e), e, 0%nat. split; [done|]. by rewrite Hn.
    + destruct (IH fuel) as [(name' & e' & k & Hfind & Hres)|(Hnone & Hrest)]; [lia|lia| |].
      * left. exists name', e', (S k). by rewrite Hfind.
      * right. by rewrite Hnone.
  - pose proof (Hmono _ _ _ _ Hl). destruct fuel as [|fuel]; [lia|].
    cbn [child_loop]. rewrite (proj2 (Z.leb_gt _ _)), H0 by lia. cbn [obind]. rewrite Hf, is_long_name_read_only, Hr0.
    rewrite (long_name_final _ _ _ Hlong Hfin). cbn [obind fst snd]. rewrite He. cbn [obind].
    rewrite is_long_name_read_only, Hr. replace (i + 1 + 1) with (i + 2) by lia.
    change (children (Long l e :: items)) with ((name_piece l, e) :: children items).
    set (cs := children items) in *. clearbody cs. cbn [list_find fst].
    destruct (decide (name_piece l = name)) as [Hn|Hn].
    + left. exists (name_piece l), e, 0%nat. split; [done|]. by rewrite Hn.
    + destruct (IH fuel) as [(name' & e' & k & Hfind & Hres)|(Hnone & Hrest)]; [lia|lia| |].
      * left. exists name', e', (S k). by rewrite Hfind.
      * right. by rewrite Hnone.
Qed.

Lemma list_loop_items data n i items : layout data i items n →
  ∀ fuel entries, (Z.to_nat (n - i) < fuel)%nat →
  list_loop fuel data n i entries = Ret (entries ++ (children items).*1).
Proof.
  assert (∀ a i items j, layout a i items j → i ≤ j) as Hmono by (induction 1; lia).
  remember n as j eqn:Hj in |- *. intros Hl. revert Hj.
  induction Hl as [i|i e items j He Hf Hl IH|i e items j He Hf Hr Hl IH|i e0 l e items j H0 Hf Hr0 Hlong Hfin He Hr Hl IH];
    intros Hj fuel entries Hfuel; (destruct fuel as [|fuel]; [lia|]); cbn [list_loop].
  - rewrite (proj2 (Z.leb_le _ _)) by lia. by rewrite app_nil_r.
  - pose proof (Hmono _ _ _ _ Hl). rewrite (proj2 (Z.leb_gt _ _)), He by lia. cbn [obind]. rewrite Hf. by apply IH; lia.
  - pose proof (Hmono _ _ _ _ Hl). rewrite (proj2 (Z.leb_gt _ _)), He by lia. cbn [obind].
    rewrite Hf, is_long_name_read_only, Hr. rewrite IH by lia. by rewrite <- app_assoc.
  - pose proof (Hmono _ _ _ _ Hl). rewrite (proj2 (Z.leb_gt _ _)), H0 by lia. cbn [obind].
    rewrite Hf, is_long_name_read_only, Hr0, (long_name_final _ _ _ Hlong Hfin). cbn [obind fst snd].
    replace (i + 1 + 1) with (i + 2) by lia. rewrite IH by lia. by rewrite <- app_assoc.
Qed.

(** * Properties *)


(** A read-only file without a long name is taken for a long name entry, and the
    test for a free long name entry is never true. *)
Lemma read_only_is_long e : is_read_only e = true → is_long_name e = true.
Proof. done. Qed.

Lemma long_never_free e : long_is_free e = false.
Proof. unfold long_is_free, has_attribute. by rewrite Z.land_0_r. Qed.

(** ** Witness: a directory cluster of one sector with the file [HELLO   TXT]. *)
Definition sample_directory : bytes :=
  replicate 512 0 ++
  [72; 69; 76; 76; 79; 32; 32; 32; 84; 88; 84; 0x20; 0; 0; 0; 0; 0; 0; 0; 0; 0; 0; 0; 0; 0; 0; 5; 0; 7; 0; 0; 0] ++
  replicate 480 0.

#[local] Instance directory_reader : BlockReader := sector_reader sample_directory.

#[local] Instance directory_reads : ReadsDisk sample_directory.
Proof. apply sector_reader_reads; [done|by apply (bool_decide_unpack _); vm_compute]. Qed.

Definition directory_fs : FATFileSystem :=
  mkFat [] 512 FAT32 (mkBootSector 512 1 0 1 0 0 0 2 1 2) 512 512 0 1.

Definition hello : DirectoryEntry := mkDirectoryEntry [72; 69; 76; 76; 79; 32; 32; 32; 84; 88; 84] 0x20 0 5 7.

