(* ===== verification/Files.v ===== *)
(** Open files of a process: [FileOpenMode.h], [Request] and [RequestContext]
    ([Process/Request.h]), the [FileDescriptorTable], and [File]. *)
From S2P Require Import Prelude Bits Containers.

(** * [FileOpenMode] *)
Definition Create : Z := Z.shiftl 0 3.
Definition Append : Z := Z.shiftl 1 3.
Definition Exclusive : Z := Z.shiftl 2 3.
Definition Truncate : Z := Z.shiftl 3 3.

Definition mode_is (m_mode mode : Z) : bool := negb (Z.land m_mode mode =? 0).
Definition is_read (m_mode : Z) : bool := mode_is m_mode 1.
Definition is_write (m_mode : Z) : bool := mode_is m_mode 2.
Definition is_read_write (m_mode : Z) : bool := mode_is m_mode 3.
Definition is_create (m_mode : Z) : bool := mode_is m_mode 8.
Definition is_append (m_mode : Z) : bool := mode_is m_mode 16.
Definition is_exclusive (m_mode : Z) : bool := mode_is m_mode 32.
Definition is_truncate (m_mode : Z) : bool := mode_is m_mode 64.

(** * [Request] *)
Module Request.
Inductive RequestState : Type := Blocked | Finalized.

#[global] Instance RequestState_eq : EqDecision RequestState.
Proof. solve_decision. Defined.

(** [class RequestContext], shared by reference: the living contexts by address. *)
Record RequestContext : Type := mkContext { m_pid : Z; m_tid : Z }.

Abbreviation contexts := (gmap Z RequestContext).

(** Only the first assignment counts; a [pid] of 0 means that there was none. *)
Definition assign_context (c : RequestContext) (pid tid : Z) : RequestContext :=
  if m_pid c =? 0 then mkContext pid tid else c.

Section Request.
Context {T : Type}.

Record t : Type := mk { m_value : Optional.t T; m_context : Z; m_state : RequestState }.

(** [create_blocked]: with a new context at the address [operator new] returned. *)
Definition create_blocked (cs : contexts) (address : Z) : t * contexts :=
  (mk Optional.empty address Blocked, <[address := mkContext 0 0]> cs).

Definition create_finalized (value : T) : t := mk (Optional.of_value value) 0 Finalized.

Definition is_blocked (this : t) : bool := bool_decide (m_state this = Blocked).
Definition is_finalized (this : t) : bool := bool_decide (m_state this = Finalized).

Definition assign (cs : contexts) (this : t) (pid tid : Z) : outcome contexts :=
  if m_context this =? 0 then Ret cs
  else let! c := defined (cs !! m_context this) in Ret (<[m_context this := assign_context c pid tid]> cs).

Definition release_value (this : t) : outcome T :=
  runtime_assert (is_finalized this) (Optional.value (m_value this)).
End Request.
Arguments t : clear implicits.

(** [propagate_blocked]: a request of another type with the same context. *)
Definition propagate_blocked {T U} (request : t U) : t T := mk Optional.empty (m_context request) Blocked.
End Request.

(** * [FileDescriptorTable]: descriptors by address, 0 for none *)
Module FileDescriptorTable.
Definition MAX_FDS : Z := 256.

Record t : Type := mk { m_fds : Array.t Z }.

Definition new : t := mk (Array.new 0 MAX_FDS).

(** The scan of [open] from index [i] on. *)
Fixpoint open_from (this : t) (descriptor i : Z) (n : nat) : outcome (ErrorOr Z Error * t) :=
  match n with
  | O => Ret (fail_with "No free file descriptors!", this)
  | S n' =>
      let! d := Array.get (m_fds this) i in
      if d =? 0 then
        let! _ := Array.get (m_fds this) i in
        let! a := Array.set (m_fds this) i descriptor in Ret (Value i, mk a)
      else open_from this descriptor (i + 1) n'
  end.

Definition open (this : t) (descriptor : Z) : outcome (ErrorOr Z Error * t) :=
  open_from this descriptor 0 (Z.to_nat (Array.m_size (m_fds this))).

Definition get (this : t) (fd : Z) : outcome (ErrorOr Z Error) :=
  let! d := Array.get (m_fds this) fd in
  if d =? 0 then Ret (fail_with "Invalid file descriptor!")
  else let! d := Array.get (m_fds this) fd in Ret (Value d).

Definition close (this : t) (fd : Z) : outcome (ErrorOr unit Error * t) :=
  if Array.m_size (m_fds this) <=? fd then Ret (fail_with "Invalid file descriptor!", this)
  else
    let! d := Array.get (m_fds this) fd in
    if d =? 0 then Ret (fail_with "File descriptor already closed!", this)
    else let! a := Array.set (m_fds this) fd 0 in Ret (Value tt, mk a).

Fixpoint close_from (this : t) (i : Z) (n : nat) : outcome t :=
  match n with
  | O => Ret this
  | S n' =>
      let! d := Array.get (m_fds this) i in
      let! a := if negb (d =? 0) then Array.set (m_fds this) i 0 else Ret (m_fds this) in
      close_from (mk a) (i + 1) n'
  end.

Definition close_all (this : t) : outcome t := close_from this 0 (Z.to_nat (Array.m_size (m_fds this))).

(** [operator[]]: a null descriptor for an error. *)
Definition index (this : t) (fd : Z) : outcome Z :=
  let! r := get this fd in Ret (match r with Value d => d | Failure _ => 0 end).

(** The table holds the descriptors [l]. *)
Record holds (this : t) (l : list Z) : Prop := {
  holds_slots : Array.m_array (m_fds this) = Some <$> l;
  holds_size : Array.m_size (m_fds this) = MAX_FDS;
  holds_length : Z.of_nat (length l) = MAX_FDS
}.
End FileDescriptorTable.

(** * [class File] *)
Module File.
Record t : Type := mk { m_open_file_descriptor : Z; m_offset : Z; m_mode : Z }.

Definition new (descriptor mode : Z) : t := mk descriptor 0 mode.

Definition can_read : bool := false.
Definition can_write : bool := false.
Definition write : Z := 0.

(** [read]: [inode_read] is the virtual [Inode::read] of the open inode, which
    takes the offset and returns its result with the new state of the world. *)
Definition read {S : Type} (inode_read : Z → S → outcome (ErrorOr (Request.t Z) Error * S)) (this : t) (st : S) :
    outcome (ErrorOr (Request.t Z) Error * t * S) :=
  let! r := inode_read (m_offset this) st in
  match r.1 with
  | Value value =>
      if Request.is_finalized value then
        let! n := Request.release_value value in
        Ret (Value value, mk (m_open_file_descriptor this) (u64 (m_offset this + n)) (m_mode this), r.2)
      else Ret (Value value, this, r.2)
  | Failure e => Ret (Failure e, this, r.2)
  end.

(** Reading [sizes] in turn: how many bytes each call reported. *)
Fixpoint read_all {S : Type} (inode_read : Z → Z → S → outcome (ErrorOr (Request.t Z) Error * S))
    (this : t) (st : S) (sizes : list Z) : outcome (list Z * t * S) :=
  match sizes with
  | [] => Ret ([], this, st)
  | size :: sizes' =>
      let! r := read (inode_read size) this st in
      match r.1.1 with
      | Value value =>
          let! n := Request.release_value value in
          let! rest := read_all inode_read r.1.2 r.2 sizes' in
          Ret (n :: rest.1.1, rest.1.2, rest.2)
      | Failure _ => Ret ([], r.1.2, r.2)
      end
  end.
End File.

(** * The table of descriptors *)
Section table.
Import FileDescriptorTable.

Lemma table_get this l i d : holds this l → l !! i = Some d → Array.get (m_fds this) (Z.of_nat i) = Ret d.
Proof.
  intros [Hs Hz Hl] Hi. pose proof (lookup_lt_Some _ _ _ Hi). unfold Array.get. rewrite Hz.
  rewrite (proj2 (Z.ltb_lt _ _)) by lia. simpl. unfold read_slot, slot. rewrite (proj2 (Z.leb_le 0 _)), Nat2Z.id, Hs by lia.
  by rewrite list_lookup_fmap, Hi.
Qed.

Lemma table_set this l i d d' : holds this l → l !! i = Some d →
  ∃ a, Array.set (m_fds this) (Z.of_nat i) d' = Ret a ∧ holds (mk a) (<[i := d']> l).
Proof.
  intros [Hs Hz Hl] Hi. pose proof (lookup_lt_Some _ _ _ Hi). unfold Array.set, read_slot, put_slot, slot.
  rewrite (proj2 (Z.leb_le 0 _)), Nat2Z.id, Hs, list_lookup_fmap, Hi by lia. cbn [fmap option_fmap option_map defined obind].
  eexists. split; [done|]. constructor; simpl; [by rewrite list_fmap_insert|done|by rewrite length_insert].
Qed.

Lemma new_table : holds new (replicate 256 0).
Proof. by constructor. Qed.

Lemma open_from_spec this l d : holds this l → ∀ n i, (i + n)%nat = length l →
  open_from this d (Z.of_nat i) n =
    match list_find (λ x, x = 0) (drop i l) with
    | Some (k, _) => let! a := Array.set (m_fds this) (Z.of_nat (i + k)) d in Ret (Value (Z.of_nat (i + k)), mk a)
    | None => Ret (fail_with "No free file descriptors!", this)
    end.
Proof.
  intros H n. induction n as [|n IH]; intros i Hi; [by rewrite drop_ge by lia|].
  destruct (lookup_lt_is_Some_2 l i) as [x Hx]; [lia|]. cbn [open_from]. rewrite (table_get _ _ _ _ H Hx).
  cbn [obind]. rewrite (drop_S _ _ _ Hx). cbn [list_find]. destruct (Z.eqb_spec x 0) as [->|Hnz].
  - rewrite decide_True by done. cbn [obind]. by rewrite Nat.add_0_r.
  - rewrite decide_False by done. replace (Z.of_nat i + 1) with (Z.of_nat (S i)) by lia.
    rewrite IH by lia. destruct (list_find _ _) as [[k y]|]; [|done]. simpl. by replace (i + S k)%nat with (S i + k)%nat by lia.
Qed.

Lemma table_open this l d : holds this l →
  match list_find (λ x, x = 0) l with
  | Some (k, _) => ∃ this', open this d = Ret (Value (Z.of_nat k), this') ∧ holds this' (<[k := d]> l)
  | None => open this d = Ret (fail_with "No free file descriptors!", this)
  end.
Proof.
  intros H. pose proof H as [Hs Hz Hl]. unfold MAX_FDS in *. unfold open.
  rewrite Hz, (open_from_spec this l d H _ 0) by (simpl; lia). rewrite drop_0.
  destruct (list_find _ l) as [[k x]|] eqn:Hf; [|done]. apply list_find_Some in Hf as (Hk & _).
  destruct (table_set _ _ _ _ d H Hk) as (a & Ha & Hh). exists (mk a). simpl. by rewrite Ha.
Qed.

Lemma table_close this l k d : holds this l → l !! k = Some d → d ≠ 0 →
  ∃ this', close this (Z.of_nat k) = Ret (Value tt, this') ∧ holds this' (<[k := 0]> l).
Proof.
  intros H Hk Hd. pose proof H as [Hs Hz Hl]. unfold close. pose proof (lookup_lt_Some _ _ _ Hk).
  rewrite (table_get _ _ _ _ H Hk), Hz, (proj2 (Z.leb_gt _ _)) by lia. cbn [obind].
  rewrite (proj2 (Z.eqb_neq _ _) Hd). destruct (table_set _ _ _ _ 0 H Hk) as (a & -> & Hh). by eexists.
Qed.

Lemma table_index this l k d : holds this l → l !! k = Some d → index this (Z.of_nat k) = Ret d.
Proof.
  intros H Hk. unfold index, get. rewrite (table_get _ _ _ _ H Hk). cbn [obind].
  destruct (Z.eqb_spec d 0) as [->|]; done.
Qed.

Lemma table_index_outside this l fd : holds this l → MAX_FDS ≤ fd → index this fd = Halted.
Proof. intros [_ Hz _] Hfd. unfold index, get, Array.get. rewrite Hz. by rewrite (proj2 (Z.ltb_ge _ _)). Qed.

(** A table is determined by its descriptors. *)
Lemma table_unique this this' l : holds this l → holds this' l → this = this'.
Proof. destruct this as [[a n]], this' as [[a' n']]. intros [H1 H2 _] [H3 H4 _]. simpl in *. congruence. Qed.

Lemma close_from_spec : ∀ n this l i, holds this l → (i + n)%nat = length l →
  ∃ this', close_from this (Z.of_nat i) n = Ret this' ∧ holds this' (take i l ++ replicate n 0).
Proof.
  induction n as [|n IH]; intros this l i H Hi.
  { exists this. by rewrite app_nil_r, take_ge by lia. }
  destruct (lookup_lt_is_Some_2 l i) as [x Hx]; [lia|]. cbn [close_from]. rewrite (table_get _ _ _ _ H Hx). cbn [obind].
  replace (Z.of_nat i + 1) with (Z.of_nat (S i)) by lia.
  destruct (table_set _ _ _ _ 0 H Hx) as (a & Ha & Hholds).
  assert (∃ a', (if negb (x =? 0) then Array.set (m_fds this) (Z.of_nat i) 0 else Ret (m_fds this)) = Ret a' ∧
    holds (mk a') (<[i := 0]> l)) as (a' & -> & Ha').
  { destruct (Z.eqb_spec x 0) as [->|Hnz]; [|by exists a]. exists (m_fds this). split; [done|].
    rewrite list_insert_id by done. by destruct this. }
  cbn [obind]. destruct (IH (mk a') (<[i := 0]> l) (S i) Ha') as (this' & -> & Hh); [rewrite length_insert; lia|].
  exists this'. split; [done|]. rewrite (take_S_r _ _ 0) in Hh by (apply list_lookup_insert_eq; by eapply lookup_lt_Some).
  rewrite take_insert_ge, <- app_assoc in Hh by lia. done.
Qed.
End table.

(** * Properties *)

(** The file descriptor table: [open] takes the lowest free number and fails
    when all 256 are taken; [get] and [close] find exactly the open ones;
    [close_all] closes all; and [get] of a number of 256 or more stops the kernel. *)
Theorem fd_table_operations this l :
  FileDescriptorTable.holds this l →
  FileDescriptorTable.holds FileDescriptorTable.new (replicate 256 0) ∧
  (∀ d, match list_find (λ x, x = 0) l with
        | Some (k, _) => ∃ this', FileDescriptorTable.open this d = Ret (Value (Z.of_nat k), this') ∧
                           FileDescriptorTable.holds this' (<[k := d]> l)
        | None => FileDescriptorTable.open this d = Ret (fail_with "No free file descriptors!", this) end) ∧
  (∀ k d, l !! k = Some d →
     FileDescriptorTable.get this (Z.of_nat k) =
       Ret (if decide (d = 0) then fail_with "Invalid file descriptor!" else Value d) ∧
     if decide (d = 0)
     then FileDescriptorTable.close this (Z.of_nat k) = Ret (fail_with "File descriptor already closed!", this)
     else ∃ this', FileDescriptorTable.close this (Z.of_nat k) = Ret (Value tt, this') ∧
            FileDescriptorTable.holds this' (<[k := 0]> l)) ∧
  (∃ this', FileDescriptorTable.close_all this = Ret this' ∧ FileDescriptorTable.holds this' (replicate 256 0)) ∧
  (∀ fd, 256 ≤ fd → FileDescriptorTable.get this fd = Halted ∧
     FileDescriptorTable.close this fd = Ret (fail_with "Invalid file descriptor!", this)).
Proof.
  intros H. pose proof H as [Hs Hz Hl]. unfold FileDescriptorTable.MAX_FDS in *.
  split; [apply new_table|]. split; [|split; [|split]].
  - intros d. by apply table_open.
  - intros k d Hk. unfold FileDescriptorTable.get. rewrite (table_get _ _ _ _ H Hk). cbn [obind].
    destruct (Z.eqb_spec d 0) as [->|Hd].
    + rewrite !decide_True by done. split; [done|]. unfold FileDescriptorTable.close. pose proof (lookup_lt_Some _ _ _ Hk).
      by rewrite (table_get _ _ _ _ H Hk), Hz, (proj2 (Z.leb_gt _ _)) by lia.
    + rewrite !decide_False by done. split; [done|]. by eapply table_close.
  - unfold FileDescriptorTable.close_all. rewrite Hz. apply (close_from_spec 256 this l 0 H). simpl. lia.
  - intros fd Hfd. unfold FileDescriptorTable.get, FileDescriptorTable.close, Array.get. rewrite Hz.
    by rewrite (proj2 (Z.ltb_ge _ _)), (proj2 (Z.leb_le _ _)).
Qed.

Lemma fd_table_operations_witness :
  ∃ this', FileDescriptorTable.open FileDescriptorTable.new 4096 = Ret (Value 0, this') ∧
    FileDescriptorTable.holds this' (4096 :: replicate 255 0).
Proof. apply (proj1 (proj2 (fd_table_operations _ _ new_table)) 4096). Defined.
