(* ===== verification/Vfs.v ===== *)
(** The virtual file system: the table of open files ([OpenFileDescriptor.cpp]),
    [FileSystem::open] ([FileSystem.cpp]), the RAM file system
    ([RAMFS/RamInode.cpp], [RamFileSystem.cpp]) and mount points
    ([VirtualFileSystem.cpp]).

    Strings are represented by their texts ([Strings.v] and [HashMap.v] relate the
    operations on [String] to texts), objects by their addresses.  Virtual calls
    on inodes and file systems go through the classes [InodeOps] and
    [FileSystemOps]. *)
From S2P Require Import Prelude Bits Bytes Strings HashMap Containers Files.

(** Texts as keys of a [HashMap], with the hash of the text. *)
#[export] Instance text_key : MapKey bytes := {
  Function := λ t, Ret (djb2_text t);
  key_equals := λ s t, Ret (bool_decide (s = t))
}.

#[export] Program Instance text_key_laws : MapKeyLaws bytes bytes := {
  rep := eq;
  hash := djb2_text
}.
Next Obligation. apply djb2_text_word. Qed.
Next Obligation. by intros key k ->. Qed.
Next Obligation. by intros key key' k k' -> ->. Qed.

(** * [OpenFileDescriptor] *)
Record OpenFileDescriptor : Type := mkOpenFile {
  m_inode : Z;
  m_number_of_openers : Z;
  holders : Z     (** the references to it from outside of the table *)
}.

Definition ofd_open (d : OpenFileDescriptor) : OpenFileDescriptor :=
  mkOpenFile (m_inode d) (u64 (m_number_of_openers d + 1)) (holders d).

(** [close]: whether that was the last opener. *)
Definition ofd_close (d : OpenFileDescriptor) : bool * OpenFileDescriptor :=
  let n := u64 (m_number_of_openers d - 1) in (n =? 0, mkOpenFile (m_inode d) n (holders d)).

(** * [OpenFileDescriptorTable] *)
Module OpenFiles.
Record t : Type := mk {
  m_descriptors : HashMap bytes Z;
  descriptors : gmap Z OpenFileDescriptor   (** the living descriptors by address *)
}.

Definition new : t := mk empty_map ∅.

Definition has_descriptor (this : t) (path : bytes) : outcome bool := has_key (m_descriptors this) path.

(** [address]: the result of [operator new]. *)
Definition create_descriptor_and_open (this : t) (address : Z) (path : bytes) (inode : Z) : outcome (Z * t) :=
  let descriptor := ofd_open (mkOpenFile inode 0 0) in
  let! m := set (m_descriptors this) path address in
  Ret (address, mk m (<[address := descriptor]> (descriptors this))).

Definition open (this : t) (path : bytes) : outcome (ErrorOr Z Error * t) :=
  let! found := has_descriptor this path in
  if negb found then Ret (fail_with "File not found, cannot open", this)
  else
    let! r := get (m_descriptors this) path in
    match r with
    | Failure e => Ret (Failure e, this)
    | Value p =>
        let! d := defined (descriptors this !! p) in
        Ret (Value p, mk (m_descriptors this) (<[p := ofd_open d]> (descriptors this)))
    end.

(** [close].  At the assertion the descriptor is referred to by the locals
    [descriptor] and [error_or_descriptor], by the map unless it was removed,
    and by its holders. *)
Definition close (this : t) (path : bytes) : outcome (ErrorOr unit Error * t) :=
  let! found := has_descriptor this path in
  if negb found then Ret (fail_with "File not found, cannot close", this)
  else
    let! r := get (m_descriptors this) path in
    match r with
    | Failure e => Ret (Failure e, this)
    | Value p =>
        let! d := defined (descriptors this !! p) in
        let '(last_one, d) := ofd_close d in
        let! m := if last_one then remove (m_descriptors this) path else Ret (m_descriptors this) in
        let! kept := has_key m path in
        let m_ref_count := u32 (2 + Z.b2z kept + holders d) in
        runtime_assert (m_ref_count =? 1)
          (Ret (Value tt, mk m (<[p := d]> (descriptors this))))
    end.

Definition get_descriptor (this : t) (path : bytes) : outcome (ErrorOr Z Error) :=
  let! found := has_descriptor this path in
  if negb found then Ret (fail_with "File not found, cannot get descriptor")
  else get (m_descriptors this) path.

(** The open files are [m]: path to descriptor. *)
Record holds (this : t) (m : gmap bytes Z) : Prop := {
  holds_map : map_holds (m_descriptors this) m;
  holds_alive : ∀ path p, m !! path = Some p → ∃ d, descriptors this !! p = Some d ∧ 0 ≤ holders d < 2 ^ 31
}.
End OpenFiles.

(** * [class Inode]: the virtual functions, over a state [S] that holds the inodes *)
Class InodeOps (S : Type) : Type := {
  inode_is_directory : S → Z → outcome bool;
  inode_list_dir : Z → S → outcome (ErrorOr (list bytes) Error * S);
  inode_get_child : Z → bytes → S → outcome (ErrorOr Z Error * S)
}.

(** * [FileSystem::open] *)
Section FileSystemOpen.
Context {S : Type} `{InodeOps S}.

(** The state of a file system: its inodes and its table of open files. *)
Abbreviation fs_state := (S * OpenFiles.t)%type.

Definition separator : Z := 47.

(** The loop over the components; [addresses] are the results of [operator new]. *)
Fixpoint open_loop (root inode : Z) (path_so_far : bytes) (parts : list bytes) (addresses : list Z) (st : fs_state) :
    outcome (ErrorOr unit Error * fs_state) :=
  match parts with
  | [] => Ret (Value tt, st)
  | name :: parts' =>
      let! directory := inode_is_directory st.1 inode in
      if negb directory then Ret (fail_with "Not a directory", st)
      else
        let! r := inode_list_dir inode st.1 in
        let st := (r.2, st.2) in
        match r.1 with
        | Failure e => Ret (Failure e, st)
        | Value entries =>
            if negb (existsb (λ entry, bool_decide (entry = name)) entries)
            then Ret (fail_with "Path not found", st)
            else
              let path_so_far := path_so_far ++ [separator] ++ name in
              let! found := OpenFiles.has_descriptor st.2 path_so_far in
              let! r :=
                if found then
                  let! r := OpenFiles.open st.2 path_so_far in
                  match r.1 with
                  | Failure e => Ret (Failure e, (st.1, r.2))
                  | Value p =>
                      let! d := defined (OpenFiles.descriptors r.2 !! p) in Ret (Value (m_inode d), (st.1, r.2))
                  end
                else
                  let! r := inode_get_child inode name st.1 in
                  match r.1 with
                  | Failure e => Ret (Failure e, (r.2, st.2))
                  | Value new_inode =>
                      let! c := OpenFiles.create_descriptor_and_open st.2 (default 0 (head addresses)) path_so_far new_inode in
                      Ret (Value new_inode, (r.2, c.2))
                  end in
              match r.1 with
              | Failure e => Ret (Failure e, r.2)
              | Value new_inode =>
                  let! tbl :=
                    if negb (root =? inode) then let! c := OpenFiles.close r.2.2 path_so_far in Ret c.2
                    else Ret r.2.2 in
                  open_loop root new_inode path_so_far parts' (tail addresses) (r.2.1, tbl)
              end
        end
  end.

(** [root]: the result of the virtual [root()]. *)
Definition fs_open (root : ErrorOr Z Error) (path : bytes) (addresses : list Z) (st : fs_state) :
    outcome (ErrorOr Z Error * fs_state) :=
  let! found := OpenFiles.has_descriptor st.2 path in
  if found then let! r := OpenFiles.open st.2 path in Ret (r.1, (st.1, r.2))
  else
    let path_parts := split_spec separator path in
    match root with
    | Failure e => Ret (Failure e, st)
    | Value root_inode =>
        if decide (path_parts = []) then
          let! c := OpenFiles.create_descriptor_and_open st.2 (default 0 (head addresses)) path root_inode in
          Ret (Value c.1, (st.1, c.2))
        else
          let! r := open_loop root_inode root_inode [] path_parts addresses st in
          match r.1 with
          | Failure e => Ret (Failure e, r.2)
          | Value _ => let! d := OpenFiles.get_descriptor r.2.2 path in Ret (d, r.2)
          end
    end.
End FileSystemOpen.

(** * The RAM file system *)
Module Ram.
Inductive Type_ : Type := RamDirectory | RamFile | Device.

Record RamInode : Type := mkInode { m_children : HashMap bytes Z; m_fs : Z; m_type : Type_; m_device : Z }.

Abbreviation inodes := (gmap Z RamInode).

(** [create_directory]: [address] is the result of [operator new]. *)
Definition create_directory (st : inodes) (address : Z) : Z * inodes :=
  (address, <[address := mkInode empty_map 0 RamDirectory 0]> st).

Definition fs (st : inodes) (inode : Z) : outcome Z := let! i := defined (st !! inode) in Ret (m_fs i).

Definition check_credentials : ErrorOr unit Error := Value tt.

Definition get_child (inode : Z) (name : bytes) (st : inodes) : outcome (ErrorOr Z Error * inodes) :=
  let! i := defined (st !! inode) in let! r := HashMap.get (m_children i) name in Ret (r, st).

(** The names of the children; a [DirectoryEntry] is a name. *)
Definition list_dir (inode : Z) (st : inodes) : outcome (ErrorOr (list bytes) Error * inodes) :=
  let! i := defined (st !! inode) in Ret (Value (for_each (m_children i)).*1, st).

(** [RamInode::is_directory] and the override of [DevInode]. *)
Definition is_directory (st : inodes) (inode : Z) : outcome bool :=
  let! i := defined (st !! inode) in
  Ret (match m_type i with RamDirectory => true | RamFile => false | Device => false end).

Definition is_file (st : inodes) (inode : Z) : outcome bool :=
  let! i := defined (st !! inode) in
  Ret (match m_type i with RamDirectory => false | RamFile => true | Device => true end).

Definition read : ErrorOr (Request.t Z) Error := fail_with "Not implemented!".
Definition write : ErrorOr Z Error := fail_with "Not implemented!".

(** [DevInode::read].  [console]: what [ConsoleDevice::read_async] returned, when
    the device is a console.  The bytes copied to the buffer are the second result. *)
Definition dev_read (console : option (ErrorOr (Request.t bytes) Error)) (size : Z) :
    outcome (ErrorOr (Request.t Z) Error * bytes) :=
  match console with
  | None => Ret (fail_with "Not implemented!", [])
  | Some (Failure e) => Ret (Failure e, [])
  | Some (Value request) =>
      if Request.is_blocked request then Ret (Value (Request.propagate_blocked request), [])
      else
        let! line := Request.release_value request in
        let to_copy := Z.min size (Z.of_nat (length line) + 1) in
        Ret (Value (Request.create_finalized to_copy), take (Z.to_nat to_copy) (line ++ [0]))
  end.

(** [RamFileSystem]: [exists] asks the root for the whole path as one name. *)
Definition root (m_root : Z) : ErrorOr Z Error :=
  if m_root =? 0 then fail_with "Root inode not found!" else Value m_root.

Definition exists_ (st : inodes) (m_root : Z) (path : bytes) : outcome bool :=
  let! r := get_child m_root path st in Ret (has_value r.1).

Definition close : ErrorOr unit Error := fail_with "Not implemented!".
End Ram.

#[export] Instance ram_inode_ops : InodeOps Ram.inodes := {
  inode_is_directory := Ram.is_directory;
  inode_list_dir := Ram.list_dir;
  inode_get_child := Ram.get_child
}.

(** * [VirtualFileSystem] *)

(** [class FileSystem] as the mount table sees it; file systems by address. *)
Class FileSystemOps (W : Type) : Type := {
  fs_exists : Z → bytes → W → outcome bool;
  fs_open_file : Z → bytes → Z → W → outcome (ErrorOr Z Error * W);
  fs_root : Z → W → outcome (ErrorOr Z Error * W);
  inode_fs : Z → W → outcome Z;
  list_directory_of : Z → W → outcome (ErrorOr (list bytes) Error * W)
}.

Module VirtualFileSystem.
Definition implicit_flags : Z := 0.

Record MountContext : Type := mkMount { m_file_system : Z; m_mount_flags : Z }.

Record t : Type := mk { m_root_inode : Z; m_mounts : HashMap bytes MountContext }.

Definition new : t := mk 0 empty_map.

(** The callback of [for_each] in [longest_common_prefix], for one mount point. *)
Fixpoint match_parts (path mount_parts : list bytes) (context_fs i : Z) (acc : Z * Z) : Z * Z :=
  match path, mount_parts with
  | p :: path', q :: parts' =>
      if decide (p = q) then
        match_parts path' parts' context_fs (i + 1) (if acc.2 <? i + 1 then (context_fs, i + 1) else acc)
      else acc
  | _, _ => acc
  end.

Definition visit_mount (path : list bytes) (acc : Z * Z) (mount : bytes * MountContext) : Z * Z :=
  match_parts path (split_spec separator mount.1) (m_file_system mount.2) 0 acc.

Section with_file_systems.
Context {W : Type} `{FileSystemOps W}.

Definition longest_common_prefix (this : t) (path : list bytes) (w : W) : outcome (ErrorOr (Z * Z) Error) :=
  if m_root_inode this =? 0 then Ret (fail_with "No root filesystem mounted!")
  else
    let! fs := inode_fs (m_root_inode this) w in
    let r := foldl (visit_mount path) (fs, 0) (for_each (m_mounts this)) in
    if r.1 =? 0 then Ret (fail_with "No filesystem mounted at this path!") else Ret (Value r).

(** The path below the mount point: the remaining components. *)
Fixpoint join_parts (parts : list bytes) : bytes :=
  match parts with
  | [] => []
  | [p] => p
  | p :: parts' => p ++ [separator] ++ join_parts parts'
  end.

Definition relative_path (path_parts : list bytes) (longest : Z) : bytes :=
  separator :: join_parts (drop (Z.to_nat longest) path_parts).

Definition open (this : t) (path : bytes) (mode : Z) (w : W) : outcome (ErrorOr Z Error * W) :=
  let path_parts := split_spec separator path in
  let! r := longest_common_prefix this path_parts w in
  match r with
  | Failure e => Ret (Failure e, w)
  | Value (fs, longest) =>
      let relative_path := relative_path path_parts longest in
      if fs =? 0 then Ret (fail_with "No filesystem mounted at this path!", w)
      else
        let! present := fs_exists fs relative_path w in
        if present && mode_is mode Exclusive
        then Ret (fail_with "Cannot open file in exclusive mode! File already exists!", w)
        else fs_open_file fs relative_path mode w
  end.

Definition fs_mount (this : t) (mount_point : bytes) (file_system flags : Z) : outcome (ErrorOr unit Error * t) :=
  let! taken := has_key (m_mounts this) mount_point in
  if taken then Ret (fail_with "A filesystem already mounted here!", this)
  else
    let! m := set (m_mounts this) mount_point (mkMount file_system flags) in
    Ret (Value tt, mk (m_root_inode this) m).

(** [mount] of a file system. *)
Definition mount (this : t) (mount_point : bytes) (file_system : Z) : outcome (ErrorOr unit Error * t) :=
  let! taken := has_key (m_mounts this) mount_point in
  if taken then Ret (fail_with "A filesystem already mounted here!", this)
  else
    let! m := set (m_mounts this) mount_point (mkMount file_system implicit_flags) in
    Ret (Value tt, mk (m_root_inode this) m).

(** The result of mounting at "/" is not looked at. *)
Definition mount_root_fs (this : t) (file_system : Z) (w : W) : outcome (ErrorOr unit Error * t * W) :=
  let! r := fs_root file_system w in
  match r.1 with
  | Failure e => Ret (Failure e, this, r.2)
  | Value inode =>
      let! m := fs_mount (mk inode (m_mounts this)) [separator] file_system implicit_flags in
      Ret (Value tt, m.2, r.2)
  end.

(** The path is not used. *)
Definition list_directory (this : t) (path : bytes) (w : W) : outcome (ErrorOr (list bytes) Error * W) :=
  if m_root_inode this =? 0 then Undef else list_directory_of (m_root_inode this) w.

Definition close : ErrorOr unit Error := fail_with "Not implemented".
Definition mount_path : ErrorOr unit Error := fail_with "Not implemented".
Definition unmount : ErrorOr unit Error := fail_with "Not implemented".

(** [device_load_filesystem]: [try_create] is that of the FAT file system. *)
Definition device_load_filesystem (is_block : bool) (try_create : W → outcome (ErrorOr Z Error * W)) (w : W) :
    outcome (ErrorOr Z Error * W) :=
  if negb is_block then Ret (fail_with "Device is not a block device!", w) else try_create w.
End with_file_systems.
End VirtualFileSystem.

(** * The table of open files *)
Section open_files.
Import OpenFiles.
Implicit Types (this : OpenFiles.t) (m : gmap bytes Z) (path : bytes).

Lemma has_descriptor_holds this m path : holds this m → has_descriptor this path = Ret (bool_decide (is_Some (m !! path))).
Proof.
  intros [Hm _]. unfold has_descriptor, has_key. cbn [Function text_key obind].
  destruct (find_entry_holds (m_descriptors this) m path path Hm eq_refl) as (chain & r & Hb & Hr & Hv).
  change (djb2_text path mod DefaultSize) with (slot_of path). rewrite Hb. cbn [obind]. rewrite Hr. cbn [obind].
  rewrite <- Hv. f_equal. symmetry.
  destruct r; [apply bool_decide_true|apply bool_decide_false]; simpl; [eauto|by intros []].
Qed.

Lemma get_path_holds this m path : holds this m →
  get (m_descriptors this) path = Ret (match m !! path with Some p => Value p | None => fail_with "Key not found in map!" end).
Proof.
  intros [Hm _]. unfold get. cbn [Function text_key obind].
  destruct (find_entry_holds (m_descriptors this) m path path Hm eq_refl) as (chain & r & Hb & Hr & Hv).
  change (djb2_text path mod DefaultSize) with (slot_of path). rewrite Hb. cbn [obind]. rewrite Hr. cbn [obind].
  rewrite <- Hv. by destruct r.
Qed.

Lemma create_descriptor_holds this m path address inode :
  holds this m → free_slot m path →
  ∃ this', create_descriptor_and_open this address path inode = Ret (address, this') ∧
    holds this' (<[path := address]> m) ∧ descriptors this' !! address = Some (mkOpenFile inode 1 0).
Proof.
  intros [Hm Ha] Hf. unfold create_descriptor_and_open.
  destruct (set_free _ _ path path address Hm eq_refl Hf) as (hm & -> & Hhm). cbn [obind].
  eexists. split; [done|]. split; [|apply lookup_insert_eq]. constructor; [done|].
  intros path' p Hp. simpl. rewrite lookup_insert. case_decide as Hpa; [by eexists|].
  rewrite lookup_insert in Hp. case_decide; simplify_eq. by eapply Ha.
Qed.

Lemma open_holds this m path p : holds this m → m !! path = Some p →
  ∃ d this', open this path = Ret (Value p, this') ∧ holds this' m ∧
    descriptors this !! p = Some d ∧ descriptors this' !! p = Some (ofd_open d).
Proof.
  intros H Hp. unfold open. rewrite (has_descriptor_holds _ _ _ H), bool_decide_true by eauto. cbn [obind negb].
  rewrite (get_path_holds _ _ _ H), Hp. cbn [obind]. destruct H as [Hm Ha].
  destruct (Ha _ _ Hp) as (d & Hd & Hh). rewrite Hd. cbn [defined obind]. exists d. eexists.
  split; [done|]. split; [|split; [done|apply lookup_insert_eq]]. constructor; [done|].
  intros path' p' Hp'. simpl. rewrite lookup_insert. case_decide; [subst; by exists (ofd_open d)|by eapply Ha].
Qed.

Lemma close_halts this m path p : holds this m → m !! path = Some p → close this path = Halted.
Proof.
  intros H Hp. unfold close. rewrite (has_descriptor_holds _ _ _ H), bool_decide_true by eauto. cbn [obind negb].
  rewrite (get_path_holds _ _ _ H), Hp. cbn [obind]. pose proof H as [Hm Ha].
  destruct (Ha _ _ Hp) as (d & Hd & Hh). rewrite Hd. cbn [defined obind ofd_close].
  assert (∃ hm, (if u64 (m_number_of_openers d - 1) =? 0 then remove (m_descriptors this) path else Ret (m_descriptors this)) = Ret hm ∧
     ∃ b, has_key hm path = Ret b) as (hm & -> & b & Hb).
  { exists (m_descriptors this). split; [|eexists; by apply (has_descriptor_holds this m)].
    destruct (_ =? 0); [|done]. unfold remove. cbn [Function text_key obind].
    destruct (taken_bucket (m_descriptors this) m path Hm) as (e & He & Hi); [intros Hf; by apply Hf in Hp|].
    change (djb2_text path mod DefaultSize) with (slot_of path). rewrite He. cbn [obind remove_entry].
    unfold set_bucket. rewrite list_insert_id by done. by destruct (m_descriptors this). }
  cbn [obind]. rewrite Hb. cbn [obind holders].
  rewrite wrap_small by (unfold in_word; destruct b; simpl; lia).
  rewrite (proj2 (Z.eqb_neq _ 1)); [done|]. destruct b; simpl; lia.
Qed.

Lemma new_open_files : holds new ∅.
Proof. constructor; [apply new_map_holds|]. intros path p. by rewrite lookup_empty. Qed.
End open_files.

(** ** [FileSystem::open] *)
Section opening.
Context {S : Type} `{InodeOps S}.

(** Inode [inode] is a directory with the child [name], which is the inode [child]. *)
Definition has_child (inode : Z) (name : bytes) (child : Z) (s s' : S) : Prop :=
  inode_is_directory s inode = Ret true ∧
  ∃ l s1, inode_list_dir inode s = Ret (Value l, s1) ∧ name ∈ l ∧
    inode_get_child inode name s1 = Ret (Value child, s').

Lemma existsb_elem (l : list bytes) name : name ∈ l → existsb (λ entry, bool_decide (entry = name)) l = true.
Proof.
  intros Hin. apply existsb_exists. exists name. split; [by apply list_elem_of_In|by apply bool_decide_true].
Qed.

(** The directory [inode] lists [name]. *)
Definition lists (inode : Z) (name : bytes) (s s' : S) : Prop :=
  inode_is_directory s inode = Ret true ∧ ∃ l, inode_list_dir inode s = Ret (Value l, s') ∧ name ∈ l.

(** One step of the loop at a component that is not open yet: below the root the
    call of [close] stops the kernel. *)
Lemma open_loop_step root inode sofar name parts addresses s s' tbl m child :
  OpenFiles.holds tbl m → has_child inode name child s s' →
  let path := sofar ++ [separator] ++ name in
  free_slot m path →
  let address := default 0 (head addresses) in
  ∃ tbl', OpenFiles.holds tbl' (<[path := address]> m) ∧
    OpenFiles.descriptors tbl' !! address = Some (mkOpenFile child 1 0) ∧
    open_loop root inode sofar (name :: parts) addresses (s, tbl) =
      if root =? inode then open_loop root child path parts (tail addresses) (s', tbl') else Halted.
Proof.
  intros Ht (Hdir & l & s1 & Hl & Hin & Hc) path Hf address. cbn [open_loop fst snd]. rewrite Hdir. cbn [obind negb].
  rewrite Hl. cbn [obind fst snd]. rewrite existsb_elem by done. cbn [negb]. fold path.
  rewrite (has_descriptor_holds tbl m path Ht). rewrite bool_decide_false.
  2:{ intros [p Hp]. by apply Hf in Hp. }
  cbn [obind]. rewrite Hc. cbn [obind fst snd]. fold address.
  destruct (create_descriptor_holds tbl m path address child Ht Hf) as (tbl' & -> & Ht' & Hd). cbn [obind fst snd].
  exists tbl'. split; [done|]. split; [done|]. destruct (root =? inode); [done|]. cbn [negb].
  by rewrite (close_halts tbl' _ path address Ht') by apply lookup_insert_eq.
Qed.

(** The same at a component that is open. *)
Lemma open_loop_open root inode sofar name parts addresses s s' tbl m p :
  OpenFiles.holds tbl m → lists inode name s s' →
  let path := sofar ++ [separator] ++ name in
  m !! path = Some p →
  ∃ d tbl', OpenFiles.descriptors tbl !! p = Some d ∧ OpenFiles.holds tbl' m ∧
    open_loop root inode sofar (name :: parts) addresses (s, tbl) =
      if root =? inode then open_loop root (m_inode d) path parts (tail addresses) (s', tbl') else Halted.
Proof.
  intros Ht (Hdir & l & Hl & Hin) path Hp. destruct (open_holds tbl m path p Ht Hp) as (d & tbl' & Ho & Ht' & Hd & Hd').
  exists d, tbl'. split; [done|]. split; [done|]. cbn [open_loop fst snd]. rewrite Hdir. cbn [obind negb].
  rewrite Hl. cbn [obind fst snd]. rewrite existsb_elem by done. cbn [negb]. fold path.
  rewrite (has_descriptor_holds tbl m path Ht), bool_decide_true by eauto. cbn [obind]. rewrite Ho. cbn [obind fst snd].
  rewrite Hd'. cbn [defined obind fst snd ofd_open m_inode]. destruct (root =? inode); [done|]. cbn [negb].
  by rewrite (close_halts tbl' _ path p Ht' Hp).
Qed.
End opening.

(** * Mount points *)

(** How many components two paths have in common. *)
Fixpoint common (path parts : list bytes) : Z :=
  match path, parts with
  | p :: path', q :: parts' => if decide (p = q) then 1 + common path' parts' else 0
  | _, _ => 0
  end.

Lemma common_nonneg path parts : 0 ≤ common path parts.
Proof. revert parts. induction path as [|p path IH]; intros [|q parts]; simpl; try lia. case_decide; [|lia]. specialize (IH parts). lia. Qed.

Lemma match_parts_common : ∀ path parts fs i acc,
  VirtualFileSystem.match_parts path parts fs i acc =
    if acc.2 <? i + common path parts then (if common path parts =? 0 then acc else (fs, i + common path parts)) else acc.
Proof.
  induction path as [|p path IH]; intros [|q parts] fs i acc; cbn [VirtualFileSystem.match_parts common];
    try (by destruct (_ <? _)).
  case_decide; [|by destruct (_ <? _)]. rewrite IH. pose proof (common_nonneg path parts).
  rewrite (proj2 (Z.eqb_neq (1 + _) 0)) by lia.
  destruct (Z.ltb_spec (acc.2) (i + 1)); simpl.
  - rewrite (proj2 (Z.ltb_lt (acc.2) (i + (1 + common path parts)))) by lia.
    destruct (Z.eqb_spec (common path parts) 0) as [->|];
      [rewrite (proj2 (Z.ltb_ge _ _)) by lia; f_equal; lia|rewrite (proj2 (Z.ltb_lt _ _)) by lia; f_equal; lia].
  - replace (i + 1 + common path parts) with (i + (1 + common path parts)) by lia.
    destruct (Z.ltb_spec acc.2 (i + (1 + common path parts))); [|done].
    by rewrite (proj2 (Z.eqb_neq (common path parts) 0)) by lia.
Qed.

Abbreviation mounts := (list (bytes * VirtualFileSystem.MountContext)).

Definition mount_common (path : list bytes) (x : bytes * VirtualFileSystem.MountContext) : Z :=
  common path (split_spec separator x.1).

Lemma visit_mount_common path acc x : 0 ≤ acc.2 →
  VirtualFileSystem.visit_mount path acc x =
    if acc.2 <? mount_common path x then (VirtualFileSystem.m_file_system x.2, mount_common path x) else acc.
Proof.
  intros. unfold VirtualFileSystem.visit_mount. rewrite match_parts_common, Z.add_0_l. fold (mount_common path x).
  destruct (Z.ltb_spec acc.2 (mount_common path x)); [|done]. by rewrite (proj2 (Z.eqb_neq _ 0)) by lia.
Qed.

(** The fold finds the first mount point with the most common components. *)
Lemma visit_mounts_best path (l : mounts) : ∀ acc, 0 ≤ acc.2 →
  let r := foldl (VirtualFileSystem.visit_mount path) acc l in
  acc.2 ≤ r.2 ∧ (∀ x, x ∈ l → mount_common path x ≤ r.2) ∧
  (r = acc ∨ ∃ l1 x l2, l = l1 ++ x :: l2 ∧ acc.2 < mount_common path x ∧
     (∀ y, y ∈ l1 → mount_common path y < mount_common path x) ∧
     r = (VirtualFileSystem.m_file_system x.2, mount_common path x)).
Proof.
  induction l as [|x l IH]; intros acc Hacc; simpl.
  { split_and!; [lia| |by left]. intros x Hx. by apply elem_of_nil in Hx. }
  rewrite visit_mount_common by done. destruct (Z.ltb_spec acc.2 (mount_common path x)) as [Hlt|Hge].
  - destruct (IH (VirtualFileSystem.m_file_system x.2, mount_common path x)) as (H1 & H2 & H3); simpl in *; [lia|].
    split_and!; [lia| |].
    + intros y [->|Hy]%elem_of_cons; [done|by apply H2].
    + right. destruct H3 as [->|(l1 & y & l2 & -> & Hc & Hb & ->)].
      * exists [], x, l. split_and!; [done..| |done]. intros y Hy. by apply elem_of_nil in Hy.
      * exists (x :: l1), y, l2. split_and!; [done|lia| |done]. intros z [->|Hz]%elem_of_cons; [done|by apply Hb].
  - destruct (IH acc Hacc) as (H1 & H2 & H3). split_and!; [done| |].
    + intros y [->|Hy]%elem_of_cons; [lia|by apply H2].
    + destruct H3 as [H3|(l1 & y & l2 & -> & Hc & Hb & H3)]; [by left|right]. exists (x :: l1), y, l2.
      split_and!; [done..| |done]. intros z [->|Hz]%elem_of_cons; [lia|by apply Hb].
Qed.

(** * Properties *)

(** The table of open files: while no two open paths share a bucket, creating
    makes a path open with one opener, opening an open path counts one opener
    more and returns the same descriptor, other paths are errors, and closing an
    open path always stops the kernel, because the descriptor that is being
    closed is still referred to by two local pointers. *)
Theorem open_file_table (this : OpenFiles.t) (m : gmap bytes Z) (path : bytes) :
  OpenFiles.holds this m →
  OpenFiles.holds OpenFiles.new ∅ ∧
  (∀ address inode, free_slot m path →
     ∃ this', OpenFiles.create_descriptor_and_open this address path inode = Ret (address, this') ∧
       OpenFiles.holds this' (<[path := address]> m) ∧
       OpenFiles.descriptors this' !! address = Some (mkOpenFile inode 1 0)) ∧
  match m !! path with
  | Some p =>
      (∃ d this', OpenFiles.open this path = Ret (Value p, this') ∧ OpenFiles.holds this' m ∧
         OpenFiles.descriptors this !! p = Some d ∧ OpenFiles.descriptors this' !! p = Some (ofd_open d)) ∧
      OpenFiles.get_descriptor this path = Ret (Value p) ∧
      OpenFiles.close this path = Halted
  | None =>
      OpenFiles.open this path = Ret (fail_with "File not found, cannot open", this) ∧
      OpenFiles.get_descriptor this path = Ret (fail_with "File not found, cannot get descriptor") ∧
      OpenFiles.close this path = Ret (fail_with "File not found, cannot close", this)
  end.
Proof.
  intros H. split; [apply new_open_files|]. split; [intros; by apply create_descriptor_holds|].
  destruct (m !! path) as [p|] eqn:Hp; (split; [|split]).
  - by apply open_holds.
  - unfold OpenFiles.get_descriptor. rewrite (has_descriptor_holds _ _ _ H), bool_decide_true by eauto. cbn [obind negb].
    by rewrite (get_path_holds _ _ _ H), Hp.
  - by eapply close_halts.
  - unfold OpenFiles.open. by rewrite (has_descriptor_holds _ _ _ H), Hp.
  - unfold OpenFiles.get_descriptor. by rewrite (has_descriptor_holds _ _ _ H), Hp.
  - unfold OpenFiles.close. by rewrite (has_descriptor_holds _ _ _ H), Hp.
Qed.

(** C13: opening a path of one component in a table of open files whose paths do not
    share its bucket.  If the component is a child of the root, a new descriptor
    with the inode of that child and one opener is returned and in the table from
    then on; if the path is open, its descriptor is returned, with one opener more;
    if the root does not list the component, the answer is an error and the table
    is unchanged.  Opening a path that is not open and has two or more components,
    the first two of which exist, stops the kernel, whether these two are open or
    not, unless the first one is the root again. *)
Theorem file_system_open {S : Type} `{InodeOps S} root (path a : bytes) addresses s tbl m :
  OpenFiles.holds tbl m → path = separator :: a →
  let address := default 0 (head addresses) in
  (split_spec separator path = [a] → ∀ s1 c1, free_slot m path → has_child root a c1 s s1 →
     ∃ tbl', fs_open (Value root) path addresses (s, tbl) = Ret (Value address, (s1, tbl')) ∧
       OpenFiles.holds tbl' (<[path := address]> m) ∧ OpenFiles.descriptors tbl' !! address = Some (mkOpenFile c1 1 0)) ∧
  (∀ p, m !! path = Some p →
     ∃ d tbl', fs_open (Value root) path addresses (s, tbl) = Ret (Value p, (s, tbl')) ∧ OpenFiles.holds tbl' m ∧
       OpenFiles.descriptors tbl !! p = Some d ∧ OpenFiles.descriptors tbl' !! p = Some (ofd_open d)) ∧
  (split_spec separator path = [a] → m !! path = None → ∀ l s1, inode_is_directory s root = Ret true →
     inode_list_dir root s = Ret (Value l, s1) → a ∉ l →
     fs_open (Value root) path addresses (s, tbl) = Ret (fail_with "Path not found", (s1, tbl))) ∧
  (∀ full b rest m1 c1 s1 s2, split_spec separator full = a :: b :: rest → m !! full = None →
     (m1 = <[path := address]> m ∧ free_slot m path ∧ has_child root a c1 s s1) ∨
     (m1 = m ∧ ∃ p d, m !! path = Some p ∧ OpenFiles.descriptors tbl !! p = Some d ∧ m_inode d = c1 ∧ lists root a s s1) →
     c1 ≠ root → lists c1 b s1 s2 →
     is_Some (m1 !! (path ++ [separator] ++ b)) ∨
     (free_slot m1 (path ++ [separator] ++ b) ∧ ∃ c2 s3, inode_get_child c1 b s2 = Ret (Value c2, s3)) →
     fs_open (Value root) full addresses (s, tbl) = Halted).
Proof.
  intros Ht -> address. split; [|split; [|split]].
  - intros Hsplit s1 c1 Hf Hc. destruct (open_loop_step root root [] a [] addresses s s1 tbl m c1 Ht Hc Hf) as (tbl' & Ht' & Hd & Hstep).
    rewrite Z.eqb_refl in Hstep. exists tbl'. split; [|done]. unfold fs_open. cbn [snd fst].
    rewrite (has_descriptor_holds _ _ _ Ht), bool_decide_false.
    2:{ intros [p Hp]. by apply Hf in Hp. }
    cbn [obind]. rewrite Hsplit, decide_False by done. rewrite Hstep. cbn [open_loop obind fst snd].
    unfold OpenFiles.get_descriptor. rewrite (has_descriptor_holds _ _ _ Ht').
    change ([] ++ [separator] ++ a) with (separator :: a). rewrite bool_decide_true by (rewrite lookup_insert_eq; eauto).
    cbn [obind negb]. rewrite (get_path_holds _ _ _ Ht'). by rewrite lookup_insert_eq.
  - intros p Hp. destruct (open_holds tbl m _ p Ht Hp) as (d & tbl' & Ho & Ht' & Hd & Hd'). exists d, tbl'. split; [|done].
    unfold fs_open. cbn [snd fst]. rewrite (has_descriptor_holds _ _ _ Ht), bool_decide_true by eauto. cbn [obind]. by rewrite Ho.
  - intros Hsplit Hnone l s1 Hdir Hl Hin. unfold fs_open. cbn [snd fst].
    rewrite (has_descriptor_holds _ _ _ Ht), Hnone. cbn [is_Some bool_decide decide_rel obind].
    rewrite bool_decide_false by (by intros [? ?]). cbn [obind]. rewrite Hsplit, decide_False by done.
    cbn [open_loop fst snd]. rewrite Hdir. cbn [obind negb]. rewrite Hl. cbn [obind fst snd].
    destruct (existsb _ l) eqn:He; [|done]. apply existsb_exists in He as (x & Hx & ->%bool_decide_eq_true). by apply list_elem_of_In in Hx.
  - intros full b rest m1 c1 s1 s2 Hsplit Hfull Hfirst Hne Hlist Hsecond. unfold fs_open. cbn [snd fst].
    rewrite (has_descriptor_holds _ _ _ Ht), Hfull, bool_decide_false by (by intros [? ?]). cbn [obind].
    rewrite Hsplit, decide_False by done.
    assert (∃ tbl1, OpenFiles.holds tbl1 m1 ∧ open_loop root root [] (a :: b :: rest) addresses (s, tbl) =
              open_loop root c1 (separator :: a) (b :: rest) (tail addresses) (s1, tbl1)) as (tbl1 & Ht1 & ->).
    { destruct Hfirst as [(-> & Hf & Hc)|(-> & p & d & Hp & Hd & <- & Hl)].
      - destruct (open_loop_step root root [] a (b :: rest) addresses s s1 tbl m c1 Ht Hc Hf) as (tbl1 & Ht1 & _ & E).
        exists tbl1. rewrite Z.eqb_refl in E. by split.
      - destruct (open_loop_open root root [] a (b :: rest) addresses s s1 tbl m p Ht Hl Hp) as (d' & tbl1 & Hd' & Ht1 & E).
        exists tbl1. rewrite Z.eqb_refl in E. split; [done|]. rewrite E. by assert (d' = d) as -> by congruence. }
    assert (open_loop root c1 (separator :: a) (b :: rest) (tail addresses) (s1, tbl1) = Halted) as ->; [|done].
    destruct Hsecond as [[p Hp]|(Hf & c2 & s3 & Hc)].
    + destruct (open_loop_open root c1 (separator :: a) b rest (tail addresses) s1 s2 tbl1 m1 p Ht1 Hlist Hp) as (? & ? & _ & _ & ->).
      by rewrite (proj2 (Z.eqb_neq root c1)) by done.
    + destruct Hlist as (Hdir & l & Hl & Hin).
      destruct (open_loop_step root c1 (separator :: a) b rest (tail addresses) s1 s3 tbl1 m1 c2 Ht1) as (? & _ & _ & ->);
        [split; [done|by exists l, s2]|done|]. by rewrite (proj2 (Z.eqb_neq root c1)) by done.
Qed.

(** C14: a path is resolved to the file system of the first mount point, in the order
    of the table, among those that have the most components in common with it, and
    to that of the root when no mount point has any; these components are cut off
    the path.  The mount point need not be a prefix of the path. *)
Theorem mount_resolution {W : Type} `{FileSystemOps W} (this : VirtualFileSystem.t) (path : list bytes) (w : W) root_fs :
  VirtualFileSystem.m_root_inode this ≠ 0 → inode_fs (VirtualFileSystem.m_root_inode this) w = Ret root_fs →
  root_fs ≠ 0 → (∀ x, x ∈ for_each (VirtualFileSystem.m_mounts this) → VirtualFileSystem.m_file_system x.2 ≠ 0) →
  ∃ fs n, VirtualFileSystem.longest_common_prefix this path w = Ret (Value (fs, n)) ∧
    (∀ x, x ∈ for_each (VirtualFileSystem.m_mounts this) → mount_common path x ≤ n) ∧
    ((n = 0 ∧ fs = root_fs) ∨
     ∃ before x after, for_each (VirtualFileSystem.m_mounts this) = before ++ x :: after ∧ 0 < n ∧ n = mount_common path x ∧
       (∀ y, y ∈ before → mount_common path y < n) ∧ fs = VirtualFileSystem.m_file_system x.2).
Proof.
  intros Hroot Hfs Hnz Hmounts. unfold VirtualFileSystem.longest_common_prefix.
  rewrite (proj2 (Z.eqb_neq _ 0)), Hfs by done. cbn [obind].
  destruct (visit_mounts_best path (for_each (VirtualFileSystem.m_mounts this)) (root_fs, 0)) as (H1 & H2 & H3); [done|].
  set (r := foldl _ _ _) in *. exists r.1, r.2. assert (r.1 ≠ 0) as Hr.
  { destruct H3 as [->|(l1 & x & l2 & Hl & _ & _ & ->)]; [done|]. apply Hmounts. rewrite Hl. apply elem_of_app. right. by left. }
  rewrite (proj2 (Z.eqb_neq _ 0)) by done. split; [by destruct r|]. split; [done|].
  destruct H3 as [->|(l1 & x & l2 & Hl & Hlt & Hb & ->)]; [by left|right]. exists l1, x, l2. by split_and!.
Qed.

(** A mount point that only starts like the path gets the path. *)
Example partial_mount_point :
  VirtualFileSystem.visit_mount [[100]; [110]] (7, 0) ([47; 100; 47; 117], VirtualFileSystem.mkMount 9 0) = (9, 1).
Proof. reflexivity. Qed.

(** ** Witnesses *)
Lemma open_file_table_witness :
  OpenFiles.close OpenFiles.new [47; 97] = Ret (fail_with "File not found, cannot close", OpenFiles.new).
Proof. exact (proj2 (proj2 (proj2 (proj2 (open_file_table OpenFiles.new ∅ [47; 97] new_open_files))))). Defined.

(** A RAM file system whose root has the directory [a] with the device [b]. *)
Definition sample_children (name : bytes) (child : Z) : HashMap bytes Z :=
  match set empty_map name child with Ret m => m | _ => empty_map end.

Definition sample_inodes : Ram.inodes :=
  {[ 8 := Ram.mkInode (sample_children [97] 16) 0 Ram.RamDirectory 0;
     16 := Ram.mkInode (sample_children [98] 24) 0 Ram.RamDirectory 0;
     24 := Ram.mkInode empty_map 0 Ram.Device 0 ]}.

Lemma free_empty path : free_slot (∅ : gmap bytes Z) path.
Proof. intros k v. by rewrite lookup_empty. Qed.

Lemma sample_child inode name child :
  Ram.list_dir inode sample_inodes = Ret (Value [name], sample_inodes) →
  Ram.is_directory sample_inodes inode = Ret true →
  Ram.get_child inode name sample_inodes = Ret (Value child, sample_inodes) →
  has_child inode name child sample_inodes sample_inodes.
Proof. intros Hl Hd Hc. split; [done|]. exists [name], sample_inodes. split; [done|]. split; [by left|done]. Qed.

Lemma file_system_open_witness :
  fs_open (Value 8) [47; 97; 47; 98] [64; 72] (sample_inodes, OpenFiles.new) = Halted.
Proof.
  destruct (file_system_open 8 [47; 97] [97] [64; 72] sample_inodes OpenFiles.new ∅ new_open_files eq_refl) as (_ & _ & _ & Hh).
  apply (Hh [47; 97; 47; 98] [98] [] (<[[47; 97] := 64]> ∅) 16 sample_inodes sample_inodes);
    [done|done|left; split; [done|]; split; [apply free_empty|by apply sample_child]|done| |right; split].
  - split; [done|]. exists [[98]]. split; [done|]. by left.
  - intros k v Hk. apply lookup_insert_Some in Hk as [[<- _]|[_ Hk]]; [by vm_compute|by rewrite lookup_empty in Hk].
  - by exists 24, sample_inodes.
Defined.

(** File system 7 at the root and 9 at [/d]. *)
#[local] Instance sample_fs_ops : FileSystemOps unit := {
  fs_exists := λ _ _ _, Ret false;
  fs_open_file := λ fs _ _ w, Ret (Value fs, w);
  fs_root := λ _ w, Ret (Value 8, w);
  inode_fs := λ _ _, Ret 7;
  list_directory_of := λ _ w, Ret (Value [], w)
}.

Definition sample_mounts : VirtualFileSystem.t :=
  match VirtualFileSystem.mount (VirtualFileSystem.mk 8 empty_map) [47; 100] 9 with
  | Ret (_, v) => v | _ => VirtualFileSystem.new end.

Lemma mount_resolution_witness :
  ∃ fs n, VirtualFileSystem.longest_common_prefix sample_mounts [[100]; [120]] tt = Ret (Value (fs, n)) ∧ 1 ≤ n.
Proof.
  destruct (mount_resolution sample_mounts [[100]; [120]] tt 7) as (fs & n & Hr & Hbest & _).
  - done.
  - done.
  - done.
  - intros x Hx. assert (for_each (VirtualFileSystem.m_mounts sample_mounts) = [([47; 100], VirtualFileSystem.mkMount 9 0)]) as Hl
      by (vm_compute; done). rewrite Hl in Hx. apply list_elem_of_singleton in Hx as ->. done.
  - exists fs, n. split; [done|]. apply (Hbest ([47; 100], VirtualFileSystem.mkMount 9 0)).
    assert (for_each (VirtualFileSystem.m_mounts sample_mounts) = [([47; 100], VirtualFileSystem.mkMount 9 0)]) as ->
      by (vm_compute; done). by left.
Defined.
