(* ===== verification/Processes.v ===== *)
(** Threads, processes, the process list, blocking, and the round-robin scheduler:
    [Process/Thread.h], [Process.h], [ProcessManager.cpp], [Scheduler.cpp], the
    spin lock of [Utils/Locks/Lock.h], and the trap frames of [System/TrapFrame.h].

    Objects are in stores by address.  The run queue is the list of the thread
    addresses ([LinkedLists.v] relates [LinkedQueue] to lists), the process list
    that of the process addresses ([Containers.v] for [ArrayList]). *)
From S2P Require Import Prelude Bits Files.

(** * [struct TrapFrame] and [KernelTrapFrame] *)
Record TrapFrame : Type := mkTrapFrame {
  regs : list Z; fregs : list Z; sepc : Z; sstatus : Z; scause : Z; stval : Z;
  kernel_satp : Z; kernel_sp : Z; kernel_trap_frame_ptr : Z; kernel_addr : Z
}.

Definition zero_frame : TrapFrame := mkTrapFrame (replicate 32 0) (replicate 32 0) 0 0 0 0 0 0 0 0.

Definition with_regs (f : TrapFrame) (r : list Z) : TrapFrame :=
  mkTrapFrame r (fregs f) (sepc f) (sstatus f) (scause f) (stval f) (kernel_satp f) (kernel_sp f)
    (kernel_trap_frame_ptr f) (kernel_addr f).

Definition with_sepc (f : TrapFrame) (v : Z) : TrapFrame :=
  mkTrapFrame (regs f) (fregs f) v (sstatus f) (scause f) (stval f) (kernel_satp f) (kernel_sp f)
    (kernel_trap_frame_ptr f) (kernel_addr f).

Definition with_kernel (f : TrapFrame) (sp ptr : Z) : TrapFrame :=
  mkTrapFrame (regs f) (fregs f) (sepc f) (sstatus f) (scause f) (stval f) (kernel_satp f) sp ptr (kernel_addr f).

Definition get_register (f : TrapFrame) (offset : nat) : outcome Z := defined (regs f !! offset).
Definition set_register (f : TrapFrame) (offset : nat) (value : Z) : outcome TrapFrame :=
  let! _ := defined (regs f !! offset) in Ret (with_regs f (<[offset := u64 value]> (regs f))).

(** [enum class RegisterOffset]. *)
Definition SP : nat := 2.
Definition GP0 : nat := 10.
Definition GP1 : nat := 11.
Definition GP2 : nat := 12.
Definition GP3 : nat := 13.
Definition GP4 : nat := 14.
Definition GP5 : nat := 15.
Definition GP6 : nat := 16.
Definition SyscallId : nat := 17.

Record KernelTrapFrame : Type := mkKernelFrame {
  base : TrapFrame; cpu_id : Z; current_thread_id : Z; current_process_id : Z
}.

(** * [class Thread], [class Process] *)
Inductive ThreadState : Type := Running | Sleeping | Blocked | Dead.
Inductive ProcessState : Type := ProcessRunning | ProcessSleeping | ProcessBlocked | ProcessDead.

#[global] Instance ThreadState_eq : EqDecision ThreadState.
Proof. solve_decision. Defined.

Record Thread : Type := mkThread { m_trap_frame : Z; m_tid : Z; m_pid : Z; m_state : ThreadState }.

Definition with_state (t : Thread) (s : ThreadState) : Thread := mkThread (m_trap_frame t) (m_tid t) (m_pid t) s.

Record Process : Type := mkProcess {
  p_pid : Z; p_gid : Z; m_page_table : Z; p_state : ProcessState; m_fd_table : FileDescriptorTable.t; m_threads : list Z
}.

(** The constructor; the group is that of the process itself. *)
Definition new_process (pid thread page_table : Z) (state : ProcessState) : Process :=
  mkProcess pid pid page_table state FileDescriptorTable.new [thread].

(** * [class SpinLock]: an atomic exchange *)
Definition try_lock (m_state : Z) : bool * Z := (m_state =? 0, 1).
Definition unlock (m_state : Z) : Z := 0.

(** * [class ProcessManager], with the objects it manages *)
Record kernel : Type := mkKernel {
  frames : gmap Z TrapFrame;
  threads : gmap Z Thread;
  processes : gmap Z Process;
  m_run_queue : list Z;
  m_process_list : list Z;
  m_process_list_lock : Z;
  m_pid_counter : Z;
  kernel_frame : Z * KernelTrapFrame   (** what [tp] points to, and its address *)
}.

Definition with_frames (k : kernel) (f : gmap Z TrapFrame) : kernel :=
  mkKernel f (threads k) (processes k) (m_run_queue k) (m_process_list k) (m_process_list_lock k) (m_pid_counter k) (kernel_frame k).
Definition with_threads (k : kernel) (t : gmap Z Thread) : kernel :=
  mkKernel (frames k) t (processes k) (m_run_queue k) (m_process_list k) (m_process_list_lock k) (m_pid_counter k) (kernel_frame k).
Definition with_processes (k : kernel) (p : gmap Z Process) : kernel :=
  mkKernel (frames k) (threads k) p (m_run_queue k) (m_process_list k) (m_process_list_lock k) (m_pid_counter k) (kernel_frame k).
Definition with_queue (k : kernel) (q : list Z) : kernel :=
  mkKernel (frames k) (threads k) (processes k) q (m_process_list k) (m_process_list_lock k) (m_pid_counter k) (kernel_frame k).
Definition with_lock (k : kernel) (l : Z) : kernel :=
  mkKernel (frames k) (threads k) (processes k) (m_run_queue k) (m_process_list k) l (m_pid_counter k) (kernel_frame k).
Definition with_kernel_frame (k : kernel) (f : KernelTrapFrame) : kernel :=
  mkKernel (frames k) (threads k) (processes k) (m_run_queue k) (m_process_list k) (m_process_list_lock k) (m_pid_counter k)
    ((kernel_frame k).1, f).

Definition thread_at (k : kernel) (p : Z) : outcome Thread := defined (threads k !! p).
Definition process_at (k : kernel) (p : Z) : outcome Process := defined (processes k !! p).

(** [find_first_match] on a list of pointers, with a test of the object. *)
Fixpoint find_pointer {A : Type} (store : gmap Z A) (test : A → bool) (l : list Z) : outcome (ErrorOr Z Error) :=
  match l with
  | [] => Ret (fail_with "No match found!")
  | p :: l' => let! x := defined (store !! p) in if test x then Ret (Value p) else find_pointer store test l'
  end.

Definition get_process (k : kernel) (pid : Z) : outcome (ErrorOr Z Error) :=
  find_pointer (processes k) (λ p, p_pid p =? pid) (m_process_list k).

Definition get_thread (k : kernel) (pid tid : Z) : outcome (ErrorOr Z Error) :=
  let! r := get_process k pid in
  match r with
  | Failure e => Ret (Failure e)
  | Value p => let! process := process_at k p in find_pointer (threads k) (λ t, m_tid t =? tid) (m_threads process)
  end.

Definition set_thread_state (k : kernel) (pid tid : Z) (s : ThreadState) : outcome kernel :=
  let! r := get_thread k pid tid in
  match r with
  | Failure _ => Ret k
  | Value p => let! t := thread_at k p in Ret (with_threads k (<[p := with_state t s]> (threads k)))
  end.

Definition unblock (k : kernel) (pid tid : Z) : outcome kernel := set_thread_state k pid tid Running.
Definition block (k : kernel) (pid tid : Z) : outcome kernel := set_thread_state k pid tid Blocked.

(** 0 is the null pointer. *)
Definition get_current_thread (k : kernel) : outcome Z :=
  let tf := (kernel_frame k).2 in
  let! r := get_thread k (current_process_id tf) (current_thread_id tf) in
  Ret (match r with Value p => p | Failure _ => 0 end).

Definition get_current_process (k : kernel) : outcome Z :=
  let! r := get_process k (current_process_id (kernel_frame k).2) in
  Ret (match r with Value p => p | Failure _ => 0 end).

(** [initialize_thread]: the frame of a new user thread. *)
Definition STACK_ADDRESS : Z := 0xf0000000.
Definition THREAD_FRAME_ADDRESS : Z := 0x1000.
Definition STACK_PAGES : Z := 2.

Definition initial_sstatus : Z := Z.lor (Z.lor (Z.shiftl 1 5) (Z.shiftl 1 13)) (Z.shiftl 1 18).

Definition initial_frame (program_counter satp frame : Z) : TrapFrame :=
  mkTrapFrame (<[2%nat := STACK_ADDRESS]> (replicate 32 0)) (replicate 32 0) program_counter initial_sstatus 0 0
    satp 0 0 frame.

Definition initialize_thread (k : kernel) (program_counter satp frame thread pid tid : Z) : Z * kernel :=
  (thread, with_threads (with_frames k (<[frame := initial_frame program_counter satp frame]> (frames k)))
             (<[thread := mkThread frame tid pid Running]> (threads k))).

(** [create_dummy_process] apart from the page table (see [AddressSpace.v]): the new process is listed and its thread queued.
    The pointers are the results of the allocations. *)
Definition add_process (k : kernel) (program_counter root satp frame thread process : Z) : kernel :=
  let current_pid := m_pid_counter k in
  let k := mkKernel (frames k) (threads k) (processes k) (m_run_queue k) (m_process_list k) (m_process_list_lock k)
             (u64 (m_pid_counter k + 1)) (kernel_frame k) in
  let k := (initialize_thread k program_counter satp frame thread current_pid 0).2 in
  let p := new_process current_pid thread root ProcessRunning in
  mkKernel (frames k) (threads k) (<[process := p]> (processes k)) (m_run_queue k ++ [thread])
    (m_process_list k ++ [process]) (m_process_list_lock k) (m_pid_counter k) (kernel_frame k).

(** * [class Scheduler] *)

(** [LinkedQueue::rotate_left]. *)
Definition rotate_left (q : list Z) : list Z :=
  match q with
  | [] => []
  | x :: q' => q' ++ [x]
  end.

(** The loop of [schedule]; it has no other way out than a running thread. *)
Fixpoint schedule_loop (fuel : nat) (k : kernel) (q : list Z) : outcome (Z * list Z) :=
  match fuel with
  | O => NoFuel
  | S fuel' =>
      let q := rotate_left q in
      runtime_assert (negb (bool_decide (q = [])))
        (let first := default 0 (head q) in
         let! t := thread_at k first in
         if bool_decide (m_state t = Running) then Ret (first, q) else schedule_loop fuel' k q)
  end.

Definition prepare_for_switch (k : kernel) (target : Z) : outcome kernel :=
  let! t := thread_at k target in
  let! user_tf := defined (frames k !! m_trap_frame t) in
  let '(address, kernel_tf) := kernel_frame k in
  let! sp := get_register (base kernel_tf) SP in
  let user_tf := with_kernel user_tf sp address in
  Ret (with_kernel_frame (with_frames k (<[m_trap_frame t := user_tf]> (frames k)))
         (mkKernelFrame (base kernel_tf) (cpu_id kernel_tf) (m_tid t) (m_pid t))).

(** [schedule]: the next thread, or null when the lock is taken. *)
Definition schedule (fuel : nat) (k : kernel) : outcome (Z * kernel) :=
  let '(locked, l) := try_lock (m_process_list_lock k) in
  let k := with_lock k l in
  if negb locked then Ret (0, k)
  else
    let! r := schedule_loop fuel k (m_run_queue k) in
    let k := with_lock (with_queue k r.2) (unlock (m_process_list_lock k)) in
    let! k := prepare_for_switch k r.1 in
    Ret (r.1, k).

(** [n] rounds of scheduling: the threads that were chosen. *)
Fixpoint schedule_rounds (fuel n : nat) (k : kernel) : outcome (list Z * kernel) :=
  match n with
  | O => Ret ([], k)
  | S n' =>
      let! r := schedule fuel k in
      let! rest := schedule_rounds fuel n' r.2 in
      Ret (r.1 :: rest.1, rest.2)
  end.

(** * The scheduler *)
Section Scheduling.
Implicit Types (k : kernel) (p : Z) (q : list Z).

Definition runs k p : Prop := m_state <$> threads k !! p = Some Running.
Definition waits k p : Prop := ∃ s, m_state <$> threads k !! p = Some s ∧ s ≠ Running.

(** The thread and its frame are objects, and the kernel frame has its registers. *)
Definition has_frame k p : Prop := ∃ t f, threads k !! p = Some t ∧ frames k !! m_trap_frame t = Some f.
Definition queue_ok k : Prop :=
  Forall (has_frame k) (m_run_queue k) ∧ length (regs (base (kernel_frame k).2)) = 32%nat.

Lemma rotate_left_inj q q' : rotate_left q = rotate_left q' → q = q'.
Proof.
  destruct q as [|x q], q' as [|y q']; simpl; try done; intros Hq.
  - by destruct q'.
  - by destruct q.
  - apply app_inj_tail in Hq as [-> ->]. done.
Qed.

Lemma rotate_left_length q : length (rotate_left q) = length q.
Proof. destruct q; simpl; [done|]. rewrite length_app; simpl; lia. Qed.

Lemma elem_of_rotate_left p q : p ∈ rotate_left q ↔ p ∈ q.
Proof. destruct q; simpl; [done|]. set_solver. Qed.

(** The loop stops at the first running thread of the rotated queue. *)
Lemma schedule_loop_finds k pre p post q fuel :
  rotate_left q = pre ++ p :: post → Forall (waits k) pre → runs k p → (length pre < fuel)%nat →
  schedule_loop fuel k q = Ret (p, p :: post ++ pre).
Proof.
  revert q post fuel. induction pre as [|y pre IH]; intros q post fuel Hq Hpre Hp Hfuel;
    (destruct fuel as [|fuel]; [simpl in Hfuel; lia|]); cbn [schedule_loop]; rewrite Hq.
  - unfold runs in Hp. simpl. unfold thread_at.
    destruct (threads k !! p) as [t|]; [|discriminate]. injection Hp as Hp. simpl.
    rewrite bool_decide_true by done. by rewrite app_nil_r.
  - inversion Hpre as [|? ? (s & Hs & Hrun) Hpre']; subst. simpl. unfold thread_at.
    destruct (threads k !! y) as [t|]; [|discriminate]. injection Hs as <-. simpl.
    rewrite bool_decide_false by done.
    rewrite (IH _ (post ++ [y])); [|simpl; by rewrite <- app_assoc|done|done|simpl in Hfuel; lia].
    by rewrite <- app_assoc.
Qed.

Lemma schedule_loop_stuck k q fuel :
  q ≠ [] → Forall (waits k) q → schedule_loop fuel k q = NoFuel.
Proof.
  revert q. induction fuel as [|fuel IH]; intros q Hne Hq; [done|]. cbn [schedule_loop].
  destruct q as [|x q]; [done|]. cbn [rotate_left].
  assert (Forall (waits k) (q ++ [x])) as Hq'.
  { inversion Hq; subst. apply Forall_app. auto. }
  destruct (q ++ [x]) as [|y q'] eqn:E; [by destruct q|]. simpl. unfold thread_at.
  inversion Hq' as [|? ? (s & Hs & Hrun) Hq'']; subst.
  destruct (threads k !! y) as [t|]; [|discriminate]. injection Hs as <-. simpl.
  rewrite bool_decide_false by done. by apply IH.
Qed.

(** The kernel after a switch to the thread [t] at [p], with the new queue. *)
Definition switched k (q : list Z) (t : Thread) (f : TrapFrame) : kernel :=
  let kf := (kernel_frame k).2 in
  mkKernel (<[m_trap_frame t := with_kernel f (default 0 (regs (base kf) !! SP)) (kernel_frame k).1]> (frames k))
    (threads k) (processes k) q (m_process_list k) 0 (m_pid_counter k)
    ((kernel_frame k).1, mkKernelFrame (base kf) (cpu_id kf) (m_tid t) (m_pid t)).

Lemma schedule_finds k fuel pre p post t f :
  m_process_list_lock k = 0 → rotate_left (m_run_queue k) = pre ++ p :: post →
  Forall (waits k) pre → runs k p → (length pre < fuel)%nat →
  threads k !! p = Some t → frames k !! m_trap_frame t = Some f →
  length (regs (base (kernel_frame k).2)) = 32%nat →
  schedule fuel k = Ret (p, switched k (p :: post ++ pre) t f).
Proof.
  intros Hlock Hq Hpre Hp Hfuel Ht Hf Hregs. unfold schedule, try_lock. rewrite Hlock. simpl.
  change (Forall (waits (with_lock k 1)) pre) in Hpre. change (runs (with_lock k 1) p) in Hp.
  rewrite (schedule_loop_finds (with_lock k 1) pre p post) by done. simpl.
  unfold prepare_for_switch, thread_at. simpl. rewrite Ht. simpl. rewrite Hf. simpl.
  unfold switched, get_register. destruct (kernel_frame k) as [a kf] eqn:Ek; cbn [fst snd base] in *.
  destruct (regs (base kf) !! SP) as [sp|] eqn:E.
  - simpl. unfold with_kernel_frame. simpl. rewrite Ek. reflexivity.
  - apply lookup_ge_None in E. unfold SP in E. lia.
Qed.

(** Every thread of the queue runs. *)
Definition all_run k : Prop :=
  m_process_list_lock k = 0 ∧ queue_ok k ∧ Forall (runs k) (m_run_queue k).

Lemma schedule_next k fuel p post :
  all_run k → rotate_left (m_run_queue k) = p :: post →
  ∃ k', schedule (S fuel) k = Ret (p, k') ∧ m_run_queue k' = p :: post ∧ all_run k' ∧
    current_thread_id (kernel_frame k').2 = default (-1) (m_tid <$> threads k !! p).
Proof.
  intros (Hlock & [Hframes Hregs] & Hrun) Hq.
  assert (p ∈ m_run_queue k) as Hin by (rewrite <- elem_of_rotate_left, Hq; set_solver).
  rewrite Forall_forall in Hframes, Hrun. destruct (Hframes _ Hin) as (t & f & Ht & Hf).
  rewrite (schedule_finds k (S fuel) [] p post t f) by (first [exact Hq | done | by constructor | by apply Hrun | simpl; lia]).
  rewrite app_nil_r. eexists. split_and!; [reflexivity|done| |by rewrite Ht].
  split_and!; [done|split; [|done]|].
  - apply Forall_forall. intros y Hy. destruct (Hframes y) as (t' & f' & Ht' & Hf').
    { rewrite <- elem_of_rotate_left, Hq. done. }
    unfold has_frame, switched; simpl. destruct (decide (m_trap_frame t' = m_trap_frame t)) as [E|E].
    + exists t'. eexists. split; [done|]. rewrite E. by rewrite lookup_insert_eq.
    + exists t', f'. split; [done|]. by rewrite lookup_insert_ne.
  - apply Forall_forall. intros y Hy. unfold runs; simpl. apply (Hrun y). rewrite <- elem_of_rotate_left, Hq. done.
Qed.

Lemma schedule_rounds_run k fuel a c :
  all_run k → rotate_left (m_run_queue k) = a ++ c →
  ∃ k', schedule_rounds (S fuel) (length a) k = Ret (a, k') ∧ all_run k' ∧
    rotate_left (m_run_queue k') = c ++ a.
Proof.
  revert k c. induction a as [|p a IH]; intros k c Hk Hq.
  - exists k. by rewrite app_nil_r.
  - destruct (schedule_next k fuel p (a ++ c) Hk Hq) as (k' & Hs & Hq' & Hk' & _).
    destruct (IH k' (c ++ [p])) as (k'' & Hr & Hk'' & Hq''); [done|rewrite Hq'; simpl; by rewrite app_assoc|].
    exists k''. cbn [length schedule_rounds]. rewrite Hs. cbn [obind snd fst]. rewrite Hr.
    split_and!; [done|done|]. rewrite Hq''. by rewrite <- app_assoc.
Qed.
End Scheduling.

(** C15: the scheduler: [schedule] with the lock free returns the first running
    thread behind the head of the queue in cyclic order (the head comes last) as
    soon as the fuel exceeds the number of threads before it, rotates the queue
    to it, gives the lock back, notes the thread and its process as the current
    ones and gives the thread's frame the kernel's stack pointer and frame; no
    thread or process changes.  When no thread of the queue runs it never
    returns; with an empty queue it halts; with the lock taken it returns null.
    It is fair: when all the threads run, as many rounds as there are threads
    choose each position of the queue once, in order, and restore the queue. *)
Theorem schedule_round_robin (k : kernel) :
  (∀ fuel pre p post t f,
     m_process_list_lock k = 0 → rotate_left (m_run_queue k) = pre ++ p :: post →
     Forall (waits k) pre → runs k p → (length pre < fuel)%nat →
     threads k !! p = Some t → frames k !! m_trap_frame t = Some f →
     length (regs (base (kernel_frame k).2)) = 32%nat →
     schedule fuel k = Ret (p, switched k (p :: post ++ pre) t f)) ∧
  (∀ fuel, m_process_list_lock k = 0 → m_run_queue k ≠ [] → Forall (waits k) (m_run_queue k) →
     schedule fuel k = NoFuel) ∧
  (∀ fuel, m_process_list_lock k = 0 → m_run_queue k = [] → schedule (S fuel) k = Halted) ∧
  (∀ fuel, m_process_list_lock k ≠ 0 → schedule fuel k = Ret (0, with_lock k 1)) ∧
  (∀ fuel, all_run k → ∃ k',
     schedule_rounds (S fuel) (length (m_run_queue k)) k = Ret (rotate_left (m_run_queue k), k') ∧
     m_run_queue k' = m_run_queue k ∧ all_run k').
Proof.
  split_and!.
  - intros. by apply schedule_finds.
  - intros fuel Hl Hne Hw. unfold schedule, try_lock. rewrite Hl. simpl.
    rewrite (schedule_loop_stuck (with_lock k 1)); done.
  - intros fuel Hl Hq. unfold schedule, try_lock. rewrite Hl. simpl. by rewrite Hq.
  - intros fuel Hl. unfold schedule, try_lock. rewrite (proj2 (Z.eqb_neq _ _) Hl). done.
  - intros fuel Hk.
    destruct (schedule_rounds_run k fuel (rotate_left (m_run_queue k)) []) as (k' & Hr & Hk' & Hq); [done|by rewrite app_nil_r|].
    exists k'. rewrite rotate_left_length in Hr. split_and!; [done| |done].
    by apply rotate_left_inj.
Qed.

Definition example_threads (s1 s2 s3 : ThreadState) : kernel :=
  let th n s := mkThread (100 + n) 0 n s in
  mkKernel {[101 := zero_frame; 102 := zero_frame; 103 := zero_frame]}
    {[1 := th 1 s1; 2 := th 2 s2; 3 := th 3 s3]} ∅ [1; 2; 3] [] 0 4 (500, mkKernelFrame zero_frame 0 0 0).

Lemma schedule_round_robin_witness :
  let k := example_threads Running Blocked Running in
  schedule 2 k = Ret (3, switched k [3; 1; 2] (mkThread 103 0 3 Running) zero_frame) ∧
  schedule 9 (example_threads Blocked Blocked Dead) = NoFuel ∧
  schedule 9 (with_lock k 1) = Ret (0, with_lock k 1) ∧
  ∃ k', schedule_rounds 1 3 (example_threads Running Running Running) = Ret ([2; 3; 1], k') ∧
    m_run_queue k' = [1; 2; 3] ∧ all_run k'.
Proof.
  split_and!.
  - apply (proj1 (schedule_round_robin _)) with (pre := [2]) (post := [1]); try reflexivity; try lia.
    + repeat constructor. exists Blocked. split; [reflexivity|discriminate].
    + simpl; lia.
  - apply (proj1 (proj2 (schedule_round_robin _))); [reflexivity|discriminate|].
    repeat constructor; eexists; (split; [reflexivity|discriminate]).
  - exact (proj1 (proj2 (proj2 (proj2 (schedule_round_robin (with_lock _ 1))))) 9%nat ltac:(discriminate)).
  - apply (proj2 (proj2 (proj2 (proj2 (schedule_round_robin (example_threads Running Running Running))))) 0%nat).
    split_and!; [reflexivity|split; [|reflexivity]|repeat constructor].
    repeat constructor; eexists _, _; split; reflexivity.
Defined.

(** * The process table *)
Section Table.
Implicit Types (k : kernel).

(** The process at each listed address exists and has a number below the
    counter; the threads of each process exist. *)
Definition listed k (p : Z) : Prop :=
  ∃ x, processes k !! p = Some x ∧ 0 ≤ p_pid x < m_pid_counter k ∧ Forall (λ t, is_Some (threads k !! t)) (m_threads x).
Definition table_ok k : Prop := Forall (listed k) (m_process_list k) ∧ in_word 64 (m_pid_counter k + 1).

(** No two places of the process list hold processes of one number. *)
Definition numbers_unique k : Prop :=
  ∀ i j p q x y, m_process_list k !! i = Some p → m_process_list k !! j = Some q →
    processes k !! p = Some x → processes k !! q = Some y → p_pid x = p_pid y → i = j.

Lemma find_pointer_spec {A} (store : gmap Z A) test l :
  Forall (λ p, is_Some (store !! p)) l →
  (∃ p x, find_pointer store test l = Ret (Value p) ∧ p ∈ l ∧ store !! p = Some x ∧ test x = true) ∨
  (find_pointer store test l = Ret (fail_with "No match found!") ∧
   ∀ p x, p ∈ l → store !! p = Some x → test x = false).
Proof.
  induction 1 as [|p l [x Hx] _ IH]; simpl.
  - right. split; [done|]. set_solver.
  - rewrite Hx. simpl. destruct (test x) eqn:E.
    + left. exists p, x. split_and!; [done|set_solver|done|done].
    + destruct IH as [(p' & x' & ? & ? & ?)|[? Hno]].
      * left. exists p', x'. split_and!; [done|set_solver|naive_solver..].
      * right. split; [done|]. intros p' x' [->|Hp]%elem_of_cons Hx'; [naive_solver|eauto].
Qed.

(** Changing the store where the test is not sensitive to it changes nothing. *)
Lemma find_pointer_ext {A} (s s' : gmap Z A) test l :
  (∀ p, p ∈ l → test <$> s !! p = test <$> s' !! p) → find_pointer s test l = find_pointer s' test l.
Proof.
  induction l as [|p l IH]; intros Hext; simpl; [done|].
  assert (test <$> s !! p = test <$> s' !! p) as Hp by (apply Hext; set_solver).
  destruct (s !! p) as [x|], (s' !! p) as [x'|]; simpl in Hp; try discriminate; simpl; [|done].
  injection Hp as ->. destruct (test x'); [done|]. apply IH. set_solver.
Qed.

Lemma find_pointer_app {A} (s : gmap Z A) test l l' :
  find_pointer s test l = Ret (fail_with "No match found!") →
  find_pointer s test (l ++ l') = find_pointer s test l'.
Proof.
  induction l as [|p l IH]; simpl; [done|]. destruct (s !! p) as [x|]; simpl; [|done].
  by destruct (test x).
Qed.

Lemma find_pointer_app_found {A} (s : gmap Z A) test l l' p :
  find_pointer s test l = Ret (Value p) → find_pointer s test (l ++ l') = Ret (Value p).
Proof.
  induction l as [|y l IH]; simpl; [done|]. destruct (s !! y) as [x|]; simpl; [|done].
  by destruct (test x).
Qed.

Lemma table_exists k : table_ok k → Forall (λ p, is_Some (processes k !! p)) (m_process_list k).
Proof. intros [Hl _]. eapply Forall_impl; [exact Hl|]. intros p (x & Hx & _). by exists x. Qed.

(** Changing the state of a thread changes no lookup. *)
Lemma get_thread_state k p t s pid tid :
  threads k !! p = Some t →
  get_thread (with_threads k (<[p := with_state t s]> (threads k))) pid tid = get_thread k pid tid.
Proof.
  intros Ht. unfold get_thread, get_process; simpl.
  destruct (find_pointer (processes k) _ _) as [[q|]| | |]; simpl; try done.
  unfold process_at; simpl. destruct (processes k !! q) as [x|]; simpl; [|done].
  apply find_pointer_ext. intros y _. destruct (decide (y = p)) as [->|].
  - by rewrite Ht, lookup_insert_eq.
  - by rewrite lookup_insert_ne.
Qed.

Lemma get_thread_found k pid tid p :
  table_ok k → get_thread k pid tid = Ret (Value p) → ∃ t, threads k !! p = Some t ∧ m_tid t = tid.
Proof.
  intros Hk Hg. unfold get_thread in Hg.
  destruct (find_pointer_spec (processes k) (λ p, p_pid p =? pid) _ (table_exists k Hk)) as [(q & x & Hq & Hin & Hx & _)|[Hq _]];
    unfold get_process in Hg; rewrite Hq in Hg; simpl in Hg; [|discriminate].
  unfold process_at in Hg. rewrite Hx in Hg. simpl in Hg.
  destruct Hk as [Hl _]. rewrite Forall_forall in Hl. destruct (Hl q Hin) as (x' & Hx' & _ & Hts).
  assert (x' = x) as -> by congruence.
  destruct (find_pointer_spec (threads k) (λ t, m_tid t =? tid) _ Hts) as [(y & t & Hy & _ & Ht & Htid)|[Hy _]];
    rewrite Hy in Hg; [|discriminate].
  injection Hg as ->. exists t. split; [done|]. by apply Z.eqb_eq.
Qed.

Lemma set_thread_state_found k pid tid p s :
  table_ok k → get_thread k pid tid = Ret (Value p) →
  ∃ t, threads k !! p = Some t ∧ m_tid t = tid ∧
    set_thread_state k pid tid s = Ret (with_threads k (<[p := with_state t s]> (threads k))).
Proof.
  intros Hk Hg. destruct (get_thread_found k pid tid p Hk Hg) as (t & Ht & Htid).
  exists t. split_and!; [done..|]. unfold set_thread_state. rewrite Hg. simpl. unfold thread_at. by rewrite Ht.
Qed.

(** What [add_process] leaves of the old objects. *)
Lemma get_process_added k pc root satp frame thread process pid :
  table_ok k → processes k !! process = None → pid ≠ m_pid_counter k →
  get_process (add_process k pc root satp frame thread process) pid = get_process k pid.
Proof.
  intros Hk Hfree Hpid. unfold get_process. simpl.
  assert (Forall (λ p, p ≠ process) (m_process_list k)) as Hne.
  { eapply Forall_impl; [exact (table_exists k Hk)|]. intros p [x Hx] ->. congruence. }
  assert (find_pointer (<[process := new_process (m_pid_counter k) thread root ProcessRunning]> (processes k))
            (λ p, p_pid p =? pid) (m_process_list k) = find_pointer (processes k) (λ p, p_pid p =? pid) (m_process_list k)) as Hold.
  { apply find_pointer_ext. intros p Hp. rewrite Forall_forall in Hne. by rewrite lookup_insert_ne by (intros ->; by apply (Hne p)). }
  destruct (find_pointer_spec (processes k) (λ p, p_pid p =? pid) _ (table_exists k Hk)) as [(q & x & Hq & _)|[Hq _]].
  - rewrite Hq in *. by apply find_pointer_app_found.
  - rewrite Hq in *. rewrite (find_pointer_app _ _ _ _ Hold). simpl. rewrite lookup_insert_eq. simpl.
    by rewrite (proj2 (Z.eqb_neq _ _)) by congruence.
Qed.

Lemma get_process_new k pc root satp frame thread process :
  table_ok k → processes k !! process = None →
  get_process (add_process k pc root satp frame thread process) (m_pid_counter k) = Ret (Value process).
Proof.
  intros Hk Hfree. unfold get_process. simpl.
  rewrite find_pointer_app.
  - simpl. rewrite lookup_insert_eq. simpl. by rewrite Z.eqb_refl.
  - rewrite (find_pointer_ext _ (processes k)).
    + destruct (find_pointer_spec (processes k) (λ p, p_pid p =? m_pid_counter k) _ (table_exists k Hk))
        as [(q & x & _ & Hin & Hx & Heq)|[Hq _]]; [|done].
      destruct Hk as [Hl _]. rewrite Forall_forall in Hl. destruct (Hl q Hin) as (x' & Hx' & Hb & _).
      apply Z.eqb_eq in Heq. assert (x' = x) by congruence. subst. lia.
    + intros p Hp. rewrite lookup_insert_ne; [done|]. intros ->.
      destruct (proj1 (Forall_forall _ _) (table_exists k Hk) p Hp) as [x Hx]. congruence.
Qed.

Lemma add_process_table k pc root satp frame thread process :
  table_ok k → processes k !! process = None → threads k !! thread = None → 0 ≤ m_pid_counter k →
  in_word 64 (m_pid_counter k + 2) →
  table_ok (add_process k pc root satp frame thread process).
Proof.
  intros [Hl Hw] Hfree Hthread Hpos Hw2. unfold table_ok. simpl. rewrite (wrap_small 64 _ Hw).
  split; [|by replace (m_pid_counter k + 1 + 1) with (m_pid_counter k + 2) by lia].
  unfold listed. simpl. rewrite (wrap_small 64 _ Hw). apply Forall_app. split; [|apply Forall_singleton].
  - eapply Forall_impl; [exact Hl|]. intros p (x & Hx & Hb & Hts). exists x.
    rewrite lookup_insert_ne by congruence. split_and!; [done|lia..|].
    eapply Forall_impl; [exact Hts|]. intros y [t Ht]. simpl. destruct (decide (thread = y)) as [->|].
    + rewrite lookup_insert_eq. by eexists.
    + rewrite lookup_insert_ne by done. by eexists.
  - eexists. rewrite lookup_insert_eq. split; [done|]. simpl. split; [lia|].
    repeat constructor. rewrite lookup_insert_eq. by eexists.
Qed.

(** A process of the extended list is an old one at its old place, with a number
    below the counter, or the new one at the end. *)
Lemma added_place k pc root satp frame thread process i p x (k' := add_process k pc root satp frame thread process) :
  table_ok k → processes k !! process = None → m_process_list k' !! i = Some p → processes k' !! p = Some x →
  (m_process_list k !! i = Some p ∧ processes k !! p = Some x ∧ p_pid x < m_pid_counter k) ∨
  (i = length (m_process_list k) ∧ p_pid x = m_pid_counter k).
Proof.
  intros [Hl _] Hfree Hi Hx. simpl in Hi, Hx. apply lookup_app_Some in Hi as [Hi|[Hge Hi]].
  - left. destruct (proj1 (Forall_forall _ _) Hl p) as (y & Hy & Hb & _); [by eapply list_elem_of_lookup_2|].
    rewrite lookup_insert_ne in Hx by congruence. split_and!; [done..|]. assert (x = y) as -> by congruence. lia.
  - right. apply list_lookup_singleton_Some in Hi as [Hi ->]. rewrite lookup_insert_eq in Hx. injection Hx as <-.
    split; [lia|done].
Qed.

Lemma add_process_unique k pc root satp frame thread process :
  table_ok k → numbers_unique k → processes k !! process = None →
  numbers_unique (add_process k pc root satp frame thread process).
Proof.
  intros Hk Hu Hfree i j p q x y Hi Hj Hx Hy He.
  destruct (added_place _ _ _ _ _ _ _ _ _ _ Hk Hfree Hi Hx) as [(Hi' & Hx' & ?)|[-> ?]],
    (added_place _ _ _ _ _ _ _ _ _ _ Hk Hfree Hj Hy) as [(Hj' & Hy' & ?)|[-> ?]]; [|lia|lia|done].
  by eapply (Hu i j p q).
Qed.

(** With unique numbers [get_process] returns the only listed process of the number. *)
Lemma get_process_iff k pid p :
  table_ok k → numbers_unique k →
  get_process k pid = Ret (Value p) ↔ p ∈ m_process_list k ∧ p_pid <$> processes k !! p = Some pid.
Proof.
  intros Hk Hu.
  destruct (find_pointer_spec (processes k) (λ x, p_pid x =? pid) _ (table_exists k Hk))
    as [(q & x & Hq & Hin & Hx & Ht)|[Hq Hno]]; unfold get_process; rewrite Hq.
  - apply Z.eqb_eq in Ht. split.
    + intros [= <-]. split; [done|]. by rewrite Hx; simpl; rewrite Ht.
    + intros [Hp Hy]. destruct (processes k !! p) as [y|] eqn:Ey; [|discriminate]. injection Hy as Hy.
      apply list_elem_of_lookup_1 in Hin as [i Hi]. apply list_elem_of_lookup_1 in Hp as [j Hj].
      assert (i = j) as -> by (apply (Hu i j q p x y); congruence). congruence.
  - split; [discriminate|]. intros [Hp Hy]. destruct (processes k !! p) as [y|] eqn:Ey; [|discriminate].
    injection Hy as Hy. pose proof (Hno p y Hp Ey) as Hf. apply Z.eqb_neq in Hf. congruence.
Qed.
End Table.

(** C16: the process table: in a table whose processes have distinct numbers below
    the counter, [get_process] returns the one listed process of the number, and
    fails exactly when there is none; creating a process lists it under the counter's
    number, which no other process has, makes its thread the last of the run queue,
    running and with the initial frame (stack pointer, program counter, supervisor
    status), changes no other lookup, and keeps the table well formed and its numbers
    distinct; [block] and [unblock] change the state of exactly the thread that
    [get_thread] finds, no lookup sees the change, and [unblock] after [block] leaves
    the thread running whatever its state was. *)
Theorem process_table (k : kernel) (Hk : table_ok k) (Hu : numbers_unique k) :
  (∀ pid, (∀ p, get_process k pid = Ret (Value p) ↔ p ∈ m_process_list k ∧ p_pid <$> processes k !! p = Some pid) ∧
     ((∃ p, get_process k pid = Ret (Value p)) ∨ get_process k pid = Ret (fail_with "No match found!"))) ∧
  (∀ pc root satp frame thread process, let k' := add_process k pc root satp frame thread process in
     processes k !! process = None → threads k !! thread = None → 0 ≤ m_pid_counter k → in_word 64 (m_pid_counter k + 2) →
     table_ok k' ∧ numbers_unique k' ∧ m_run_queue k' = m_run_queue k ++ [thread] ∧
     (∀ p, get_process k (m_pid_counter k) ≠ Ret (Value p)) ∧
     get_process k' (m_pid_counter k) = Ret (Value process) ∧ get_thread k' (m_pid_counter k) 0 = Ret (Value thread) ∧
     threads k' !! thread = Some (mkThread frame 0 (m_pid_counter k) Running) ∧
     (∃ f, frames k' !! frame = Some f ∧ get_register f SP = Ret STACK_ADDRESS ∧ sepc f = pc ∧ sstatus f = initial_sstatus) ∧
     ∀ pid, pid ≠ m_pid_counter k → get_process k' pid = get_process k pid) ∧
  (∀ pid tid p, get_thread k pid tid = Ret (Value p) → ∃ t k1 k2,
     threads k !! p = Some t ∧ m_tid t = tid ∧
     block k pid tid = Ret k1 ∧ threads k1 = <[p := with_state t Blocked]> (threads k) ∧
     unblock k1 pid tid = Ret k2 ∧ threads k2 = <[p := with_state t Running]> (threads k) ∧
     ∀ pid' tid', get_thread k1 pid' tid' = get_thread k pid' tid' ∧ get_thread k2 pid' tid' = get_thread k pid' tid' ∧
       get_process k1 pid' = get_process k pid' ∧ get_process k2 pid' = get_process k pid') ∧
  (∀ pid tid e, get_thread k pid tid = Ret (Failure e) → block k pid tid = Ret k ∧ unblock k pid tid = Ret k).
Proof.
  split_and!.
  - intros pid. split; [intros p; by apply get_process_iff|].
    destruct (find_pointer_spec (processes k) (λ p, p_pid p =? pid) _ (table_exists k Hk)) as [(q & x & Hq & _)|[Hq _]]; eauto.
  - intros pc root satp frame thread process k' Hp Ht Hpos Hw. split_and!.
    + by apply add_process_table.
    + by apply add_process_unique.
    + done.
    + intros q [Hin Hq]%get_process_iff; [|done..]. destruct Hk as [Hl _].
      destruct (proj1 (Forall_forall _ _) Hl q Hin) as (x & Hx & Hb & _). rewrite Hx in Hq. injection Hq as Hq. lia.
    + by apply get_process_new.
    + unfold get_thread. unfold k'. rewrite get_process_new by done. simpl. unfold process_at. simpl.
      rewrite lookup_insert_eq. simpl. by rewrite lookup_insert_eq.
    + unfold k'. simpl. by rewrite lookup_insert_eq.
    + eexists. unfold k'. simpl. by rewrite lookup_insert_eq.
    + intros pid Hpid. by apply get_process_added.
  - intros pid tid p Hg.
    destruct (set_thread_state_found k pid tid p Blocked Hk Hg) as (t & Ht & Htid & Hb).
    exists t, (with_threads k (<[p := with_state t Blocked]> (threads k))), (with_threads k (<[p := with_state t Running]> (threads k))).
    split_and!; try done.
    + unfold unblock, set_thread_state. rewrite get_thread_state by done. rewrite Hg. simpl.
      unfold thread_at. simpl. rewrite lookup_insert_eq. simpl. by rewrite insert_insert_eq.
    + intros. split_and!; [by apply get_thread_state..|done|done].
  - intros pid tid e Hg. unfold block, unblock, set_thread_state. by rewrite Hg.
Qed.

Definition example_table : kernel :=
  mkKernel {[101 := zero_frame]} {[1 := mkThread 101 0 1 Running]}
    {[50 := new_process 1 1 0 ProcessRunning]} [1] [50] 0 2 (500, mkKernelFrame zero_frame 0 0 1).

Lemma process_table_witness :
  table_ok example_table ∧ numbers_unique example_table ∧
  (let k' := add_process example_table 0x1000 7 8 102 2 51 in
   table_ok k' ∧ numbers_unique k' ∧ get_thread k' 2 0 = Ret (Value 2) ∧ get_process k' 1 = get_process example_table 1) ∧
  ∃ t k1 k2, threads example_table !! 1 = Some t ∧ block example_table 1 0 = Ret k1 ∧ unblock k1 1 0 = Ret k2.
Proof.
  assert (table_ok example_table) as Hk.
  { split; [|split; [discriminate|reflexivity]]. repeat constructor. eexists. split; [reflexivity|].
    split; [simpl; lia|]. repeat constructor. eexists. reflexivity. }
  assert (numbers_unique example_table) as Hu.
  { intros i j p q x y [-> _]%list_lookup_singleton_Some [-> _]%list_lookup_singleton_Some _ _ _. reflexivity. }
  destruct (process_table example_table Hk Hu) as (_ & Hadd & Hblock & _).
  split; [done|]. split; [done|]. split.
  - destruct (Hadd 0x1000 7 8 102 2 51) as (H1 & H1' & _ & _ & _ & H2 & _ & _ & H3);
      [reflexivity|reflexivity|simpl; lia|split; [discriminate|reflexivity]|].
    split; [exact H1|]. split; [exact H1'|]. split; [exact H2|]. apply H3. discriminate.
  - destruct (Hblock 1 0 1) as (t & k1 & k2 & H1 & _ & H2 & _ & H3 & _); [reflexivity|]. by exists t, k1, k2.
Defined.
