(* ===== verification/AddressSpace.v ===== *)
(** The address spaces of the kernel and of its processes: [init_memory] of
    [Kernel/Init.cpp], [map_system_defaults] of [MemoryManager.cpp], and
    [create_dummy_process] and [initialize_thread] of [ProcessManager.cpp] with
    the page tables they build ([Paging.v]) and the processes they list
    ([Processes.v]).

    The walk of the memory management unit, [mmu], is what the results are
    stated with: the physical address and the four permission bits read, write,
    execute and user of the entry found. *)
From S2P Require Import Prelude Bits Machine Files Processes PageAllocator KernelHeap Paging.

(** * The symbols of the linker script, as [MemoryManager] reads them *)
Record Layout : Type := mkLayout {
  _text_start : Z; _text_end : Z;
  _text_special_start : Z; _text_special_end : Z;
  _context_switching_start : Z; _context_switching_end : Z;
  _data_start : Z; _data_end : Z;
  _bss_start : Z; _bss_end : Z;
  _rodata_start : Z; _rodata_end : Z;
  _stack_start : Z; _stack_end : Z;
  _heap_start : Z; _heap_size : Z
}.

(** The getters of [MemoryManager]. *)
Definition get_text_start (l : Layout) : Z := _text_start l.
Definition get_text_end (l : Layout) : Z := _text_end l.
Definition get_text_special_start (l : Layout) : Z := _text_special_start l.
Definition get_text_special_end (l : Layout) : Z := _text_special_end l.
Definition get_context_switching_start (l : Layout) : Z := _context_switching_start l.
Definition get_context_switching_end (l : Layout) : Z := _context_switching_end l.
Definition get_data_start (l : Layout) : Z := _data_start l.
Definition get_data_end (l : Layout) : Z := _data_end l.
Definition get_bss_start (l : Layout) : Z := _bss_start l.
Definition get_bss_end (l : Layout) : Z := _bss_end l.
Definition get_rodata_start (l : Layout) : Z := _rodata_start l.
Definition get_rodata_end (l : Layout) : Z := _rodata_end l.
Definition get_stack_start (l : Layout) : Z := _stack_start l.
Definition get_stack_end (l : Layout) : Z := _stack_end l.
Definition get_heap_start (l : Layout) : Z := _heap_start l.
Definition get_heap_size (l : Layout) : Z := _heap_size l.

Definition ACCESS : Z := Z.shiftl 1 6.
Definition DIRTY : Z := Z.shiftl 1 7.

(** [MemoryManager::map_system_defaults]. *)
Definition map_system_defaults (l : Layout) (mm : MemoryManager) (m : memory) (root : Z) :
    outcome (MemoryManager * memory) :=
  let! s := identity_map_range mm m root (get_heap_start l) (u64 (get_heap_start l + get_heap_size l)) READ_WRITE in
  let! s := identity_map_range s.1 s.2 root (get_text_start l) (get_text_end l) READ_EXECUTE in
  let! s := identity_map_range s.1 s.2 root (get_rodata_start l) (get_rodata_end l) READ_EXECUTE in
  let! s := identity_map_range s.1 s.2 root (get_data_start l) (get_data_end l) READ_WRITE in
  let! s := identity_map_range s.1 s.2 root (get_bss_start l) (get_bss_end l) READ_WRITE in
  let! s := identity_map_range s.1 s.2 root (get_stack_start l) (get_stack_end l) READ_WRITE in
  let! s := map s.1 s.2 root 0x10000000 0x10000000 READ_WRITE 0 in
  let! s := identity_map_range s.1 s.2 root 0x02000000 0x0200ffff READ_WRITE in
  let! s := identity_map_range s.1 s.2 root 0x0c000000 0x0c002001 READ_WRITE in
  let! s := identity_map_range s.1 s.2 root 0x0c200000 0x0c208001 READ_WRITE in
  let! s := identity_map_range s.1 s.2 root (get_context_switching_start l) (get_context_switching_end l) READ_EXECUTE in
  identity_map_range s.1 s.2 root (get_text_special_start l) (get_text_special_end l) READ_EXECUTE.

(** * [struct SATP] and [CPU::build_satp] *)
Inductive SatpMode : Type := OFF | Sv39 | Sv48.

Definition satp_mode_value (mode : SatpMode) : Z := match mode with OFF => 0 | Sv39 => 8 | Sv48 => 9 end.

Definition build_satp (mode : SatpMode) (asid addr : Z) : Z :=
  bf_set 60 4 (satp_mode_value mode) (bf_set 44 16 asid (bf_set 0 44 (Z.shiftr addr 12) 0)).

(** [init_memory]: the root table, the manager, the allocator of the kernel heap,
    whose object is in a page of its own and whose heap is 64 pages more, and the
    value for the satp register.  The root is the result of [alloc], which does not
    clear the page. *)
Definition init_memory (l : Layout) (raw : list PageStatus) (m : memory) :
    outcome (Z * MemoryManager * memory * KernelMemoryAllocator * Z) :=
  let! mm := init (get_heap_start l) (get_heap_size l) raw in
  let! r := alloc mm 1 in
  let '(page_table, mm) := r in
  let! s := map_system_defaults l mm m page_table in
  let! r := zalloc s.1 s.2 1 in
  let '(page, mm, m) := r in
  let! r := allocator_init mm m page in
  let '(kernel_heap, mm, m) := r in
  Ret (page_table, mm, m, kernel_heap, build_satp Sv39 0 page_table).

(** * Processes *)

(** [initialize_thread] on the memory: the members of the new [TrapFrame] that it
    assigns ([kernel_satp], [regs[2]], [sstatus], [sepc], [kernel_addr]). *)
Definition write_trap_frame (m : memory) (trap_frame program_counter satp : Z) : outcome memory :=
  let! m := write64 m (u64 (trap_frame + 544)) satp in
  let! m := write64 m (u64 (trap_frame + 8 * 2)) STACK_ADDRESS in
  let! m := write64 m (u64 (trap_frame + 520)) initial_sstatus in
  let! m := write64 m (u64 (trap_frame + 512)) program_counter in
  write64 m (u64 (trap_frame + 568)) trap_frame.

(** The sections of the kernel image that a process sees, in the order of the calls. *)
Definition map_process_sections (l : Layout) (mm : MemoryManager) (m : memory) (root : Z) :
    outcome (MemoryManager * memory) :=
  let! s := identity_map_range mm m root (get_text_start l) (get_text_end l) USER_READ_EXECUTE in
  let! s := identity_map_range s.1 s.2 root (get_text_special_start l) (get_text_special_end l) USER_READ_EXECUTE in
  let! s := identity_map_range s.1 s.2 root (get_context_switching_start l) (get_context_switching_end l) READ_EXECUTE in
  let! s := identity_map_range s.1 s.2 root (get_data_start l) (get_data_end l) USER_READ_WRITE in
  let! s := identity_map_range s.1 s.2 root (get_bss_start l) (get_bss_end l) USER_READ_WRITE in
  identity_map_range s.1 s.2 root (get_rodata_start l) (get_rodata_end l) USER_READ.

(** [create_dummy_process]; [thread] and [process] are the results of [new]. *)
Definition create_dummy_process (l : Layout) (mm : MemoryManager) (m : memory) (k : kernel)
    (program_counter thread process : Z) : outcome (Z * MemoryManager * memory * kernel) :=
  let! r := zalloc mm m 1 in
  let '(root, mm, m) := r in
  let! s := map_process_sections l mm m root in
  let satp := build_satp Sv39 1 root in
  let! r := zalloc s.1 s.2 1 in
  let '(trap_frame, mm, m) := r in
  let! m := write_trap_frame m trap_frame program_counter satp in
  let! s := map mm m root THREAD_FRAME_ADDRESS trap_frame (Z.lor (Z.lor READ_WRITE ACCESS) DIRTY) 0 in
  let! r := zalloc s.1 s.2 STACK_PAGES in
  let '(stack_bottom, mm, m) := r in
  let! s := map_range mm m root (u64 (STACK_ADDRESS - PAGE_SIZE * STACK_PAGES)) STACK_ADDRESS stack_bottom USER_READ_WRITE in
  Ret (root, s.1, s.2, add_process k program_counter root satp trap_frame thread process).

(** [create_initial_processes], with the addresses of the two main functions. *)
Definition create_initial_processes (l : Layout) (mm : MemoryManager) (m : memory) (k : kernel)
    (dummy_process_main console_main thread1 process1 thread2 process2 : Z) : outcome (Z * Z * MemoryManager * memory * kernel) :=
  let! r := create_dummy_process l mm m k dummy_process_main thread1 process1 in
  let '(root, mm, m, k) := r in
  let! r := create_dummy_process l mm m k console_main thread2 process2 in
  let '(root2, mm, m, k) := r in
  Ret (root, root2, mm, m, k).

(** * Specification *)

(** An entry that points to the next table. *)
Definition pointed (e : Z) : option Z := if pte_valid e && negb (is_leaf e) then Some (get_ppn e) else None.

(** Read, write, execute, user. *)
Definition permissions (e : Z) : Z := bf_get 1 4 e.

(** The Sv39 walk to a page of 4 KiB. *)
Definition mmu (m : memory) (root va : Z) : option (Z * Z) :=
  t1 ← m !! (root + 8 * vpn2 va) ≫= pointed;
  t0 ← m !! (t1 + 8 * vpn1 va) ≫= pointed;
  e ← m !! (t0 + 8 * vpn0 va);
  if pte_valid e then Some (get_ppn e + va_offset va, permissions e) else None.

(** A range that is mapped to itself. *)
Record region : Type := mkRegion { r_start : Z; r_end : Z; r_bits : Z }.

Definition covers (r : region) (va : Z) : Prop := align_down (r_start r) 12 ≤ va < align_up (r_end r) 12.

#[global] Instance covers_dec r va : Decision (covers r va).
Proof. unfold covers. apply _. Defined.

(** The bits of all the regions whose pages hold the address; 0 when there is none. *)
Fixpoint granted (rs : list region) (va : Z) : Z :=
  match rs with
  | [] => 0
  | r :: rs' => if decide (covers r va) then Z.lor (r_bits r) (granted rs' va) else granted rs' va
  end.

(** What an identity map of the regions translates an address to. *)
Definition section_view (rs : list region) (va : Z) : option (Z * Z) :=
  if decide (granted rs va = 0) then None else Some (va, permissions (granted rs va)).

Definition system_regions (l : Layout) : list region := [
  mkRegion (get_heap_start l) (get_heap_start l + get_heap_size l) READ_WRITE;
  mkRegion (get_text_start l) (get_text_end l) READ_EXECUTE;
  mkRegion (get_rodata_start l) (get_rodata_end l) READ_EXECUTE;
  mkRegion (get_data_start l) (get_data_end l) READ_WRITE;
  mkRegion (get_bss_start l) (get_bss_end l) READ_WRITE;
  mkRegion (get_stack_start l) (get_stack_end l) READ_WRITE;
  mkRegion 0x10000000 0x10000001 READ_WRITE;
  mkRegion 0x02000000 0x0200ffff READ_WRITE;
  mkRegion 0x0c000000 0x0c002001 READ_WRITE;
  mkRegion 0x0c200000 0x0c208001 READ_WRITE;
  mkRegion (get_context_switching_start l) (get_context_switching_end l) READ_EXECUTE;
  mkRegion (get_text_special_start l) (get_text_special_end l) READ_EXECUTE].

Definition process_regions (l : Layout) : list region := [
  mkRegion (get_text_start l) (get_text_end l) USER_READ_EXECUTE;
  mkRegion (get_text_special_start l) (get_text_special_end l) USER_READ_EXECUTE;
  mkRegion (get_context_switching_start l) (get_context_switching_end l) READ_EXECUTE;
  mkRegion (get_data_start l) (get_data_end l) USER_READ_WRITE;
  mkRegion (get_bss_start l) (get_bss_end l) USER_READ_WRITE;
  mkRegion (get_rodata_start l) (get_rodata_end l) USER_READ].

(** A region is mapped by the loop of [identity_map_range]. *)
Definition region_ok (r : region) : Prop :=
  0 ≤ r_start r ≤ r_end r ∧ r_end r + 4096 ≤ 2 ^ 39 ∧ in_word 9 (r_bits r) ∧ Z.testbit (r_bits r) 0 = true.

Fixpoint regions_tables (rs : list region) : gset (list Z) :=
  match rs with
  | [] => ∅
  | r :: rs' => range_tables (align_down (r_start r) 12) (pages_of (r_start r) (r_end r)) ∪ regions_tables rs'
  end.

Lemma regions_tables_app rs rs' : regions_tables (rs ++ rs') = regions_tables rs ∪ regions_tables rs'.
Proof.
  induction rs as [|r rs IH]; simpl; [by rewrite (left_id_L ∅ (∪))|]. by rewrite IH, (assoc_L (∪)).
Qed.

(** [identity_map_range] of a list of regions, one after the other. *)
Fixpoint map_regions (rs : list region) (root : Z) (s : MemoryManager * memory) : outcome (MemoryManager * memory) :=
  match rs with
  | [] => Ret s
  | r :: rs' => let! s' := identity_map_range s.1 s.2 root (r_start r) (r_end r) (r_bits r) in map_regions rs' root s'
  end.

(** * The walk on a tree of tables *)
Lemma mmu_ok m root t va :
  tree m root t → mmu m root va = (λ e, (get_ppn e + va_offset va, permissions e)) <$> mapping m t va.
Proof.
  intros Htree. destruct (vpn_ok va) as (H0 & H1 & H2). unfold mmu, mapping, leaf_entry.
  pose proof (tree_root _ _ _ Htree) as Hr.
  destruct (tree_child _ _ _ Htree [] (vpn2 va) root Hr) as (e2 & -> & Hc2); [simpl; lia|done|].
  cbn [mbind option_bind]. unfold pointed. cbn [app] in Hc2. destruct (t !! [vpn2 va]) as [b|] eqn:Hb.
  2:{ subst e2. destruct (t !! [vpn2 va; vpn1 va]) eqn:Ha; [|done].
      apply (tree_parent _ _ _ Htree [vpn2 va]) in Ha as (_ & _ & [? ?]). congruence. }
  destruct Hc2 as (-> & -> & ->). cbn [negb andb mbind option_bind].
  destruct (tree_child _ _ _ Htree [vpn2 va] (vpn1 va) b Hb) as (e1 & -> & Hc1); [simpl; lia|done|].
  cbn [mbind option_bind]. cbn [app] in Hc1. destruct (t !! [vpn2 va; vpn1 va]) as [a|] eqn:Ha; [|by subst e1].
  destruct Hc1 as (-> & -> & ->). cbn [negb andb mbind option_bind].
  destruct (m !! (a + 8 * vpn0 va)) as [e|]; [|done]. simpl. by destruct (pte_valid e).
Qed.

(** The page number of an entry that [map] writes is that of a page. *)
Lemma get_ppn_page e : clean e → (4096 | get_ppn e).
Proof.
  intros [_ H9]. exists (Z.shiftr (get_ppn e) 12). change 4096 with (2 ^ 12). rewrite <- Z.shiftl_mul_pow2 by lia.
  apply Z.bits_inj'. intros i Hi. rewrite Z.shiftl_spec by lia. destruct (decide (12 ≤ i)).
  - rewrite Z.shiftr_spec by lia. f_equal. lia.
  - rewrite (Z.testbit_neg_r _ (i - 12)), get_ppn_bit by lia. case_bool_decide; [|done]. by replace (i - 2) with 9 by lia.
Qed.

(** The kernel's own walk finds the address of the hardware's. *)
Lemma mmu_translate m root t va pa perms :
  tree m root t → mmu m root va = Some (pa, perms) → translate m root va = Ret (Value pa).
Proof.
  intros Htree Hm. rewrite (mmu_ok _ _ _ _ Htree) in Hm. pose proof (translate_ok _ _ _ va Htree) as Ht.
  pose proof (clean_default _ _ _ va Htree) as Hcl.
  destruct (mapping m t va) as [e|] eqn:He; [|done]. injection Hm as <- _. rewrite Ht, lor_offset; [done|]. by apply get_ppn_page.
Qed.

(** * Entries of identity maps *)
Lemma permissions_lor a b : permissions (Z.lor a b) = Z.lor (permissions a) (permissions b).
Proof. unfold permissions. bit_ext i Hi. split_cmp; done. Qed.

Lemma permissions_map_entry paddr bits e :
  in_word 9 bits → permissions (map_entry paddr bits e) = Z.lor (permissions e) (permissions bits).
Proof.
  intros Hb. unfold map_entry, set_bits. rewrite permissions_lor. f_equal. unfold permissions, set_ppn.
  by rewrite !bf_get_set_ne by lia.
Qed.

(** The entry of an address to which the bits [g] were granted, 0 for no entry. *)
Definition entry_for (va g : Z) (o : option Z) : Prop :=
  match o with
  | None => g = 0
  | Some e => g ≠ 0 ∧ clean e ∧ pte_valid e = true ∧ get_ppn e = align_down va 12 ∧ permissions e = permissions g
  end.

Lemma entry_for_view va g o :
  entry_for va g o →
  (λ e, (get_ppn e + va_offset va, permissions e)) <$> o = if decide (g = 0) then None else Some (va, permissions g).
Proof.
  destruct o as [e|]; simpl; [|by intros ->].
  intros (Hg & _ & _ & -> & ->). rewrite decide_False by done. rewrite page_offset. do 2 f_equal. lia.
Qed.

Lemma bits_nonzero b x : Z.testbit b 0 = true → Z.lor x b ≠ 0.
Proof. intros Hb H. assert (Z.testbit (Z.lor x b) 0 = false) as Hf by by rewrite H. by rewrite Z.lor_spec, Hb, orb_true_r in Hf. Qed.

Lemma entry_for_map va g o bits :
  in_word 39 va → in_word 9 bits → Z.testbit bits 0 = true → entry_for va g o →
  entry_for va (Z.lor g bits) (Some (map_entry (align_down va 12) bits (default 0 o))).
Proof.
  intros Hva Hb Hb0 Ho. assert (clean (default 0 o) ∧ permissions (default 0 o) = permissions g) as [Hcl Hp].
  { destruct o; simpl in *; [naive_solver|]. subst g. split; [by vm_compute|done]. }
  destruct (map_entry_ok (align_down va 12) bits _ Hb Hcl) as [Hv [Hok _]]. split_and!; try done.
  - by apply bits_nonzero.
  - rewrite map_entry_ppn; [|by eapply (in_word_le 39), align_down_word|done|done].
    apply page_of_aligned; pose proof (align_down_spec va 12 ltac:(lia)) as [? ?]; [done|]. change (2 ^ 12) with 4096 in *. lia.
  - by rewrite permissions_map_entry, permissions_lor, Hp.
Qed.

(** * Sequences of identity maps *)
Section Regions.
Context {enough : MemoryManager → nat → Prop} `{!Supply enough}.
Context (P : gset (list Z)) (spare : nat) (root : Z).

Lemma map_regions_ok rs : ∀ mm m t g,
  tree m root t → free_pages_ok mm m t → regions_tables rs ⊆ P → room (enough := enough) P spare mm t →
  Forall region_ok rs → (∀ va, in_word 39 va → entry_for va (g va) (mapping m t va)) →
  ∃ mm' m' t', map_regions rs root (mm, m) = Ret (mm', m') ∧ tree m' root t' ∧ extends mm m t mm' m' t' ∧
    room (enough := enough) P spare mm' t' ∧
    ∀ va, in_word 39 va → entry_for va (Z.lor (g va) (granted rs va)) (mapping m' t' va).
Proof using All.
  induction rs as [|r rs IH]; intros mm m t g Htree Hfree HP Hroom Hok Hg.
  { exists mm, m, t. split_and!; [done..|by apply extends_refl|done|]. intros va Hva. rewrite Z.lor_0_r. by apply Hg. }
  cbn [regions_tables] in HP. apply union_subseteq in HP as [HPl HPr]. apply Forall_cons in Hok as [Hr Hok].
  destruct Hr as (Hse & He & Hb & Hb0). cbn [map_regions fst snd]. rewrite identity_map_range_pages by lia.
  destruct (pages_of_spec (r_start r) (r_end r)) as (Hn & _ & Hda & Hds & Hu); [lia..|].
  destruct (map_pages_ok P spare (r_bits r) (pages_of (r_start r) (r_end r)) mm m root t (align_down (r_start r) 12) (align_down (r_start r) 12))
    as (mm1 & m1 & t1 & Hmap & Htree1 & Hext1 & Hroom1 & Hm1); [assumption..|lia|lia|lia|lia|].
  rewrite Hmap. cbn [obind].
  destruct (IH mm1 m1 t1 (λ va, if decide (covers r va) then Z.lor (g va) (r_bits r) else g va))
    as (mm2 & m2 & t2 & Hrs & Htree2 & Hext2 & Hroom2 & Hm2); [assumption|apply Hext1|assumption..| |].
  - intros va Hva. rewrite Hm1 by done. rewrite Hn.
    destruct (decide (covers r va)) as [Hc|Hc]; [rewrite decide_True by exact Hc|rewrite decide_False by exact Hc; by apply Hg].
    replace (align_down (r_start r) 12 + (align_down va 12 - align_down (r_start r) 12)) with (align_down va 12) by lia.
    apply entry_for_map; auto.
  - exists mm2, m2, t2. split_and!; [done|done|by eapply extends_trans|done|].
    intros va Hva. specialize (Hm2 va Hva). cbn [granted]. case_decide; [|done]. by rewrite Z.lor_assoc.
Qed.
End Regions.

(** * The kernel's address space *)

(** The sections lie between the page of the thread frame and the user stack. *)
Definition section_ok (start end_ : Z) : Prop := 0x2000 ≤ start ≤ end_ ∧ end_ ≤ STACK_ADDRESS - 8192.

Definition layout_ok (l : Layout) : Prop :=
  section_ok (get_text_start l) (get_text_end l) ∧
  section_ok (get_text_special_start l) (get_text_special_end l) ∧
  section_ok (get_context_switching_start l) (get_context_switching_end l) ∧
  section_ok (get_data_start l) (get_data_end l) ∧ section_ok (get_bss_start l) (get_bss_end l) ∧
  section_ok (get_rodata_start l) (get_rodata_end l) ∧ section_ok (get_stack_start l) (get_stack_end l) ∧
  section_ok (get_heap_start l) (get_heap_start l + get_heap_size l).

Lemma section_region_ok start end_ bits :
  section_ok start end_ → in_word 9 bits → Z.testbit bits 0 = true → region_ok (mkRegion start end_ bits).
Proof. unfold section_ok, region_ok, STACK_ADDRESS. simpl. intros. split_and!; done || lia. Qed.

Lemma map_regions_one root r s :
  map_regions [r] root s = identity_map_range s.1 s.2 root (r_start r) (r_end r) (r_bits r).
Proof. simpl. by destruct (identity_map_range _ _ _ _ _ _). Qed.

(** A single [map] of a page to itself is a range of one page. *)
Lemma map_one_page mm m root bits :
  map mm m root 0x10000000 0x10000000 bits 0 = identity_map_range mm m root 0x10000000 0x10000001 bits.
Proof.
  rewrite identity_map_range_pages by lia. change (pages_of 0x10000000 0x10000001) with 1%nat.
  change (align_down 0x10000000 12) with 0x10000000. cbn [map_pages].
  by destruct (map mm m root 0x10000000 0x10000000 bits 0) as [[? ?]| | |].
Qed.

(** A chain of binds on both sides, one call after the other. *)
Ltac same_calls :=
  repeat match goal with
  | |- obind ?e _ = obind ?e _ => destruct e as [[? ?]| | |]; cbn [obind fst snd]; try reflexivity
  | |- ?e = obind ?e _ => destruct e as [[? ?]| | |]; reflexivity
  end.

Lemma map_system_defaults_regions l mm m root :
  layout_ok l → map_system_defaults l mm m root = map_regions (system_regions l) root (mm, m).
Proof.
  intros (_ & _ & _ & _ & _ & _ & _ & Hh & Hh'). unfold map_system_defaults, STACK_ADDRESS in *.
  rewrite wrap_small by (unfold in_word; lia).
  unfold system_regions. cbn [map_regions fst snd r_start r_end r_bits].
  same_calls. rewrite map_one_page. same_calls.
Qed.

Lemma map_process_sections_regions l mm m root :
  map_process_sections l mm m root = map_regions (process_regions l) root (mm, m).
Proof. unfold map_process_sections, process_regions. cbn [map_regions fst snd r_start r_end r_bits]. same_calls. Qed.

(** * Building an address space *)

(** A supply for blocks of any size: the last [n] pages are free. *)
Definition tail_free (mm : MemoryManager) (n : nat) : Prop :=
  (n ≤ length (m_pages mm))%nat ∧
  ∀ i, (length (m_pages mm) - n ≤ i < length (m_pages mm))%nat → m_pages mm !! i = Some Free.

Lemma tail_free_block mm p n :
  (1 ≤ p)%nat → tail_free mm (p + n) → ∃ i, first_fit (m_pages mm) p i ∧ tail_free (taking mm i p) n.
Proof.
  intros Hp [Hlen Hfree]. destruct (first_fit_exists (m_pages mm) p) as [i Hfit].
  { exists (length (m_pages mm) - (p + n))%nat. intros k Hk. apply Hfree. lia. }
  exists i. split; [done|]. destruct Hfit as [Hrun Hlow]. pose proof (free_run_length _ _ _ Hp Hrun).
  assert (i ≤ length (m_pages mm) - (p + n))%nat as Hi.
  { destruct (decide (i ≤ length (m_pages mm) - (p + n))%nat); [done|].
    destruct (Hlow (length (m_pages mm) - (p + n))%nat); [lia|]. intros k Hk. apply Hfree. lia. }
  split; simpl; rewrite length_inserts; [lia|]. intros j Hj.
  rewrite list_lookup_inserts_ge; [apply Hfree; lia|]. unfold block. rewrite length_app, length_replicate. simpl. lia.
Qed.

#[global] Instance tail_supply : Supply tail_free.
Proof. intros mm n Hn. by apply (tail_free_block mm 1 n); [lia|]. Qed.

(** The words from an address on. *)
Definition words_at (m : memory) (a : Z) (ws : list Z) : Prop :=
  ∀ i w, ws !! i = Some w → m !! (a + 8 * Z.of_nat i) = Some w.

(** The byte is in the page at an address. *)
Definition in_page (x b : Z) : Prop := x ≤ b < x + 4096.

(** An address space under construction since the state [mm0], [m0]: its tables
    and its own pages [priv] were free then, and nothing else was written. *)
Record space_ok (mm0 : MemoryManager) (m0 : memory) (mm : MemoryManager) (m : memory) (root : Z) (t : tables) (priv : list Z) : Prop := {
  so_tree : tree m root t;
  so_free : free_pages_ok mm m t;
  so_takes : takes mm0 mm;
  so_tables : ∀ q x, t !! q = Some x → free_page_at mm0 x ∧ ¬ free_page_at mm x;
  so_priv : ∀ x, x ∈ priv → free_page_at mm0 x ∧ ¬ free_page_at mm x ∧ table_ok m x ∧ ∀ q, t !! q ≠ Some x;
  so_frame : ∀ b, (∀ x, free_page_at mm0 x → ¬ in_page x b) → m !! b = m0 !! b;
  so_mapped : ∀ b k, mapped m0 b k → mapped m b k
}.

(** Two pages of the allocator or the tables do not overlap. *)
Lemma page_apart x y b : (4096 | x) → (4096 | y) → in_page x b → in_page y b → x = y.
Proof. intros [q ->] [r ->]. unfold in_page. lia. Qed.

Lemma table_not_free mm m t q x : free_pages_ok mm m t → t !! q = Some x → ¬ free_page_at mm x.
Proof. intros Hfree Hq (i & Hi & ->). by destruct (free_apart _ _ _ Hfree i q). Qed.

Lemma free_page_aligned mm m t x : free_pages_ok mm m t → free_page_at mm x → table_ok m x.
Proof. intros Hfree (i & Hi & ->). by apply (free_table _ _ _ Hfree). Qed.

Lemma table_ok_mapped m m' x : (∀ b k, mapped m b k → mapped m' b k) → table_ok m x → table_ok m' x.
Proof. intros Hmp (? & ? & ?). split; [done|split; [done|by apply Hmp]]. Qed.

(** A step of [map] in the space keeps the private pages and their words. *)
Lemma space_extends mm0 m0 mm m root t priv mm' m' t' :
  space_ok mm0 m0 mm m root t priv → tree m' root t' → extends mm m t mm' m' t' →
  space_ok mm0 m0 mm' m' root t' priv ∧ ∀ x b, x ∈ priv → in_page x b → m' !! b = m !! b.
Proof.
  intros [Htree Hfree Htk Htab Hpriv Hfr Hmp] Htree' [Hfree' Htk' Hsub Hnew Hframe Hmp' _].
  assert (∀ q x, t' !! q = Some x → x ∉ priv) as Hnp.
  { intros q x [Hq|Hq]%Hnew Hx; destruct (Hpriv x Hx) as (_ & Hnf & _ & Hnt); [by apply (Hnt q)|done]. }
  assert (∀ q x, t' !! q = Some x → free_page_at mm0 x) as Ht0.
  { intros q x [Hq|Hq]%Hnew; [by apply (Htab q)|by eapply takes_free_page]. }
  split; [constructor|].
  - done.
  - done.
  - destruct Htk, Htk'. split; [congruence|auto].
  - intros q x Hq. split; [by eapply Ht0|by eapply table_not_free].
  - intros x Hx. destruct (Hpriv x Hx) as (? & Hnf & Hok & Hnt).
    split; [done|split; [|split; [by eapply table_ok_mapped|]]].
    + intros Hf. apply Hnf. by eapply takes_free_page.
    + intros q Hq. by apply (Hnp q x).
  - intros b Hb. rewrite Hframe; [by apply Hfr|]. intros q x Hq. apply Hb. by eapply Ht0.
  - auto.
  - intros x b Hx Hb. apply Hframe. intros q y Hy Hyb. destruct (Hpriv x Hx) as (_ & _ & (Hxa & _) & _).
    pose proof (tree_ok _ _ _ Htree' _ _ Hy) as (Hya & _).
    apply (Hnp q y Hy). by rewrite <- (page_apart x y b).
Qed.

(** A tree depends on the words of its tables only. *)
Lemma tree_frame m m' root t :
  tree m root t → (∀ q x b, t !! q = Some x → in_page x b → m' !! b = m !! b) →
  (∀ b k, mapped m b k → mapped m' b k) →
  tree m' root t ∧ ∀ va, mapping m' t va = mapping m t va.
Proof.
  intros Htree Hfr Hmp.
  assert (∀ q x j, t !! q = Some x → index_ok j → m' !! (x + 8 * j) = m !! (x + 8 * j)) as Hslot.
  { intros q x j Hq Hj. apply (Hfr q x); [done|]. unfold in_page, index_ok in *. lia. }
  split.
  - constructor; try apply Htree.
    + intros q x Hq. eapply table_ok_mapped; [done|]. by eapply (tree_ok _ _ _ Htree).
    + intros q v x Hq Hl Hv. rewrite (Hslot q) by done. by apply (tree_child _ _ _ Htree).
    + intros q v x Hq Hl Hv. rewrite (Hslot q) by done. by apply (tree_leaf _ _ _ Htree q).
  - intros va. unfold mapping, leaf_entry. destruct (t !! [vpn2 va; vpn1 va]) as [x|] eqn:Hx; [|done].
    simpl. by rewrite (Hslot _ _ _ Hx) by apply vpn0_ok.
Qed.

(** The pages of a block. *)
Definition block_pages (mm : MemoryManager) (i p : nat) : list Z := (λ k, page_address mm (i + k)) <$> seq 0 p.

Lemma elem_of_block_pages mm i p x : x ∈ block_pages mm i p ↔ ∃ k, (k < p)%nat ∧ x = page_address mm (i + k).
Proof.
  unfold block_pages. rewrite list_elem_of_fmap. split.
  - intros (k & -> & [_ Hk]%elem_of_seq). exists k. split; [lia|done].
  - intros (k & Hk & ->). exists k. split; [done|]. apply elem_of_seq. lia.
Qed.

Lemma block_pages_free mm i p x : free_run (m_pages mm) i p → x ∈ block_pages mm i p → free_page_at mm x.
Proof. intros Hrun (k & Hk & ->)%elem_of_block_pages. exists (i + k)%nat. auto. Qed.

Lemma block_pages_taken mm i p x :
  (1 ≤ p)%nat → free_run (m_pages mm) i p → x ∈ block_pages mm i p → ¬ free_page_at (taking mm i p) x.
Proof.
  intros Hp Hrun (k & Hk & ->)%elem_of_block_pages (j & Hj & Heq). apply (page_address_inj mm) in Heq as <-.
  pose proof (free_run_length _ _ _ Hp Hrun). simpl in Hj.
  assert (length (block p) = p) as Hlen by (unfold block; rewrite length_app, length_replicate; simpl; lia).
  rewrite list_lookup_inserts in Hj by lia. unfold block in Hj.
  apply lookup_app_Some in Hj as [[? _]%lookup_replicate|[_ [_ ?]%list_lookup_singleton_Some]]; done.
Qed.

(** A byte outside the pages of a block. *)
Lemma outside_block mm i p b :
  (1 ≤ p)%nat → (∀ x, x ∈ block_pages mm i p → ¬ in_page x b) →
  b < page_address mm i ∨ page_address mm i + PAGE_SIZE * Z.of_nat p ≤ b.
Proof.
  intros Hp Hb. destruct (decide (page_address mm i ≤ b)); [|lia].
  destruct (decide (page_address mm i + PAGE_SIZE * Z.of_nat p ≤ b)); [by right|exfalso].
  change PAGE_SIZE with 4096 in *. set (k := Z.to_nat ((b - page_address mm i) / 4096)).
  pose proof (Z.div_mod (b - page_address mm i) 4096). pose proof (Z.mod_pos_bound (b - page_address mm i) 4096).
  assert (0 ≤ (b - page_address mm i) / 4096 < Z.of_nat p) by (split; [apply Z.div_pos|apply Z.div_lt_upper_bound]; lia).
  apply (Hb (page_address mm (i + k))); [apply elem_of_block_pages; exists k; split; [lia|done]|].
  unfold in_page, page_address in *. change PAGE_SIZE with 4096 in *. unfold k. lia.
Qed.

Lemma block_mapped mm m t i p :
  free_pages_ok mm m t → free_run (m_pages mm) i p → (1 ≤ p)%nat → mapped m (page_address mm i) (512 * p).
Proof.
  intros Hfree Hrun Hp. split.
  - destruct (free_table _ _ _ Hfree i) as (_ & _ & [? _]); [rewrite <- (Nat.add_0_r i); apply Hrun; lia|done].
  - intros j Hj. pose proof (Nat.div_mod_eq j 512). pose proof (Nat.mod_upper_bound j 512 ltac:(lia)).
    assert (j / 512 < p)%nat by (apply Nat.Div0.div_lt_upper_bound; lia).
    destruct (free_table _ _ _ Hfree (i + j / 512) (Hrun _ H1)) as (_ & _ & [_ Hm]).
    destruct (Hm (j mod 512)%nat) as [w Hw]; [lia|]. exists w. rewrite <- Hw. f_equal.
    unfold page_address. change PAGE_SIZE with 4096. lia.
Qed.

(** [zalloc] of a block of free pages, in terms of pages. *)
Lemma zalloc_block mm m t i (p : nat) :
  free_pages_ok mm m t → first_fit (m_pages mm) p i → (1 ≤ p)%nat → Z.of_nat p < 2 ^ 50 →
  ∃ m', zalloc mm m (Z.of_nat p) = Ret (page_address mm i, taking mm i p, m') ∧
    words_at m' (page_address mm i) (replicate (512 * p) 0) ∧
    (∀ b, (∀ x, x ∈ block_pages mm i p → ¬ in_page x b) → m' !! b = m !! b) ∧
    (∀ b k, mapped m b k → mapped m' b k).
Proof.
  intros Hfree Hfit Hp Hp'. pose proof (block_mapped mm m t i p Hfree (proj1 Hfit) Hp) as Hmap.
  destruct (zalloc_ok mm m p i) as (m' & Hz & Hzero & Hframe & Hmp & _); [apply Hfree|done..|].
  exists m'. split; [done|]. split; [|split; [|done]].
  - intros j w [-> Hj]%lookup_replicate. by apply Hzero.
  - intros b Hb. apply Hframe. by eapply outside_block.
Qed.

(** A cleared page is a root table with no mapping. *)
Lemma root_space mm0 m0 i m :
  free_pages_ok mm0 m0 ∅ → first_fit (m_pages mm0) 1 i → words_at m (page_address mm0 i) (replicate 512 0) →
  (∀ b, (∀ x, x ∈ block_pages mm0 i 1 → ¬ in_page x b) → m !! b = m0 !! b) → (∀ b k, mapped m0 b k → mapped m b k) →
  space_ok mm0 m0 (taking mm0 i 1) m (page_address mm0 i) {[ [] := page_address mm0 i ]} [] ∧
  ∀ va, mapping m {[ [] := page_address mm0 i ]} va = None.
Proof.
  intros Hfree Hfit Hzero Hfr Hmp. set (root := page_address mm0 i) in *.
  assert (m_pages mm0 !! i = Some Free) as Hi by (rewrite <- (Nat.add_0_r i); apply Hfit; lia).
  assert (table_ok m root) as Hok by (eapply table_ok_mapped; [done|by apply (free_table _ _ _ Hfree)]).
  assert (root ∈ block_pages mm0 i 1) as Hin by (apply elem_of_block_pages; exists 0%nat; by rewrite Nat.add_0_r; split; [lia|]).
  assert (∀ q x, ({[ [] := root ]} : tables) !! q = Some x → q = [] ∧ x = root) as Ht.
  { intros q x [<- <-]%lookup_singleton_Some. done. }
  split; [constructor|].
  - constructor.
    + apply lookup_singleton_eq.
    + by intros p q a [-> _]%Ht [-> _]%Ht.
    + by intros p a [_ ->]%Ht.
    + intros p v a [Hp _]%Ht. by destruct p.
    + intros p v a [-> ->]%Ht _ Hv. exists 0. split; [|by rewrite lookup_singleton_ne].
      unfold index_ok in Hv. replace v with (Z.of_nat (Z.to_nat v)) by lia. apply Hzero. apply lookup_replicate. split; [done|lia].
    + by intros p v a [-> _]%Ht.
  - apply (free_pages_alloc mm0 m0 ∅ i 1); [done|apply Hfit|lia|done|].
    intros q x [_ ->]%Ht. right. exists 0%nat. rewrite Nat.add_0_r. split; [lia|done].
  - apply taking_takes.
  - intros q x [_ ->]%Ht. split; [by exists i|]. eapply block_pages_taken; [lia|apply Hfit|done].
  - intros x []%not_elem_of_nil.
  - intros b Hb. apply Hfr. intros x Hx. apply Hb. eapply block_pages_free; [apply Hfit|done].
  - done.
  - intros va. unfold mapping, leaf_entry. by rewrite lookup_singleton_ne.
Qed.

(** The space starts with the root table that [zalloc] returns. *)
Lemma space_start mm0 m0 i :
  free_pages_ok mm0 m0 ∅ → first_fit (m_pages mm0) 1 i →
  ∃ m, zalloc mm0 m0 1 = Ret (page_address mm0 i, taking mm0 i 1, m) ∧
    space_ok mm0 m0 (taking mm0 i 1) m (page_address mm0 i) {[ [] := page_address mm0 i ]} [] ∧
    ∀ va, mapping m {[ [] := page_address mm0 i ]} va = None.
Proof.
  intros Hfree Hfit. destruct (zalloc_block mm0 m0 ∅ i 1) as (m & Hz & Hzero & Hfr & Hmp); [done..|].
  exists m. split; [done|]. by apply root_space.
Qed.

(** [zalloc] of pages that are not tables. *)
Lemma space_zalloc mm0 m0 mm m root t priv i (p : nat) :
  space_ok mm0 m0 mm m root t priv → first_fit (m_pages mm) p i → (1 ≤ p)%nat → Z.of_nat p < 2 ^ 50 →
  ∃ m', zalloc mm m (Z.of_nat p) = Ret (page_address mm i, taking mm i p, m') ∧
    space_ok mm0 m0 (taking mm i p) m' root t (block_pages mm i p ++ priv) ∧
    words_at m' (page_address mm i) (replicate (512 * p) 0) ∧
    (∀ x b, x ∈ priv → in_page x b → m' !! b = m !! b) ∧ ∀ va, mapping m' t va = mapping m t va.
Proof.
  intros [Htree Hfree Htk Htab Hpriv Hfr Hmp] Hfit Hp Hp'.
  destruct (zalloc_block mm m t i p) as (m' & Hz & Hzero & Hfr' & Hmp'); [done..|].
  assert (∀ x, x ∈ block_pages mm i p → free_page_at mm x) as Hbf by (intros; eapply block_pages_free; [apply Hfit|done]).
  assert (∀ x b, (4096 | x) → ¬ free_page_at mm x → in_page x b → m' !! b = m !! b) as Hkeep.
  { intros x b Hx Hnf Hb. apply Hfr'. intros y Hy Hyb. apply Hnf. rewrite (page_apart x y b); [by apply Hbf|done| |done|done].
    by eapply free_page_aligned; [|apply Hbf]. }
  destruct (tree_frame m m' root t Htree) as [Htree' Hmap].
  { intros q x b Hq Hb. apply (Hkeep x); [by apply (tree_ok _ _ _ Htree q)|by eapply table_not_free|done]. }
  { done. }
  pose proof (taking_takes mm i p) as Htk'.
  exists m'. split; [done|]. split; [constructor|split; [done|split; [|done]]].
  - done.
  - apply (free_pages_alloc mm m t i p); [done|apply Hfit|done|done|]. by left.
  - destruct Htk, Htk'. split; [congruence|auto].
  - intros q x Hq. destruct (Htab q x Hq) as [? Hnf]. split; [done|]. intros Hf. apply Hnf. by eapply takes_free_page.
  - intros x [Hx|Hx]%elem_of_app.
    + split; [by eapply takes_free_page, Hbf|]. split; [eapply block_pages_taken; [done|apply Hfit|done]|].
      split; [by eapply table_ok_mapped; [|eapply free_page_aligned; [|apply Hbf]]|].
      intros q Hq. by destruct (Htab q x Hq) as [_ []]; apply Hbf.
    + destruct (Hpriv x Hx) as (? & Hnf & Hok & Hnt). split; [done|]. split; [|split; [by eapply table_ok_mapped|done]].
      intros Hf. apply Hnf. by eapply takes_free_page.
  - intros b Hb. rewrite Hfr'; [by apply Hfr|]. intros x Hx. apply Hb. by eapply takes_free_page, Hbf.
  - auto.
  - intros x b Hx Hb. destruct (Hpriv x Hx) as (_ & Hnf & (Hxa & _) & _). by apply (Hkeep x).
Qed.

(** A store to a private page. *)
Lemma space_write mm0 m0 mm m root t priv x b w :
  space_ok mm0 m0 mm m root t priv → x ∈ priv → in_page x b →
  space_ok mm0 m0 mm (<[b := w]> m) root t priv ∧ ∀ va, mapping (<[b := w]> m) t va = mapping m t va.
Proof.
  intros [Htree Hfree Htk Htab Hpriv Hfr Hmp] Hx Hb. destruct (Hpriv x Hx) as (Hx0 & Hnf & (Hxa & _) & Hnt).
  assert (∀ b' k, mapped m b' k → mapped (<[b := w]> m) b' k) as Hmp' by (intros; by apply mapped_insert).
  destruct (tree_frame m (<[b := w]> m) root t Htree) as [Htree' Hmap].
  { intros q y b' Hq Hb'. apply lookup_insert_ne. intros <-. apply (Hnt q).
    rewrite (page_apart x y b); try done. by apply (tree_ok _ _ _ Htree q). }
  { done. }
  split; [constructor|done]; try done.
  - destruct Hfree as [? ? ? Hft ?]. constructor; try done. intros j Hj. by eapply table_ok_mapped, Hft.
  - intros y Hy. destruct (Hpriv y Hy) as (? & ? & Hok & ?). split_and!; try done; [by eapply table_ok_mapped..].
  - intros b' Hb'. rewrite lookup_insert_ne; [by apply Hfr|]. intros <-. by apply (Hb' x).
  - intros b' k Hbk. by apply Hmp', Hmp.
Qed.

(** ** The trap frame in memory *)

(** The 72 words of a [TrapFrame], in the order of its members. *)
Definition frame_words (f : TrapFrame) : list Z :=
  regs f ++ fregs f ++
    [sepc f; sstatus f; scause f; stval f; kernel_satp f; kernel_sp f; kernel_trap_frame_ptr f; kernel_addr f].

Lemma space_write_word mm0 m0 mm m root t priv x ws (i : nat) w :
  space_ok mm0 m0 mm m root t priv → x ∈ priv → words_at m x ws → (i < length ws ≤ 512)%nat → in_word 64 w →
  ∃ m', write64 m (u64 (x + 8 * Z.of_nat i)) w = Ret m' ∧ space_ok mm0 m0 mm m' root t priv ∧
    words_at m' x (<[i := w]> ws) ∧ ∀ va, mapping m' t va = mapping m t va.
Proof.
  intros Hs Hx Hws Hi Hw. destruct (so_priv _ _ _ _ _ _ _ Hs x Hx) as (_ & _ & (Hxa & Hxb & _) & _).
  destruct (lookup_lt_is_Some_2 ws i) as [o Ho]; [lia|].
  destruct (space_write mm0 m0 mm m root t priv x (x + 8 * Z.of_nat i) w Hs Hx) as [Hs' Hmap]; [unfold in_page; lia|].
  exists (<[x + 8 * Z.of_nat i := w]> m). split; [|split; [done|split; [|done]]].
  - rewrite (wrap_small 64 (x + _)) by (unfold in_word; lia). apply write64_Ret. split_and!.
    + apply word_aligned_iff. destruct Hxa as [q ->]. exists (512 * q + Z.of_nat i). lia.
    + eexists. by apply Hws.
    + by rewrite wrap_small.
  - intros j v [(<- & <- & _)|[Hne Hj]]%list_lookup_insert_Some; [apply lookup_insert_eq|].
    rewrite lookup_insert_ne by lia. by apply Hws.
Qed.

(** [initialize_thread] writes the frame that the thread is created with. *)
Lemma space_write_frame mm0 m0 mm m root t priv x program_counter satp :
  space_ok mm0 m0 mm m root t priv → x ∈ priv → words_at m x (replicate 512 0) →
  in_word 64 program_counter → in_word 64 satp →
  ∃ m', write_trap_frame m x program_counter satp = Ret m' ∧ space_ok mm0 m0 mm m' root t priv ∧
    words_at m' x (frame_words (initial_frame program_counter satp x)) ∧ ∀ va, mapping m' t va = mapping m t va.
Proof.
  intros Hs Hx Hz Hpc Hsatp. destruct (so_priv _ _ _ _ _ _ _ Hs x Hx) as (_ & _ & (_ & Hxb & _) & _).
  unfold write_trap_frame. change 544 with (8 * Z.of_nat 68). change (8 * 2) with (8 * Z.of_nat 2).
  change 520 with (8 * Z.of_nat 65). change 512 with (8 * Z.of_nat 64). change 568 with (8 * Z.of_nat 71).
  destruct (space_write_word _ _ _ _ _ _ _ x _ 68 satp Hs Hx Hz) as (m1 & -> & Hs1 & Hw1 & Hm1); [simpl; lia|done|]. cbn [obind].
  destruct (space_write_word _ _ _ _ _ _ _ x _ 2 STACK_ADDRESS Hs1 Hx Hw1) as (m2 & -> & Hs2 & Hw2 & Hm2); [simpl; lia|by vm_compute|]. cbn [obind].
  destruct (space_write_word _ _ _ _ _ _ _ x _ 65 initial_sstatus Hs2 Hx Hw2) as (m3 & -> & Hs3 & Hw3 & Hm3); [simpl; lia|by vm_compute|]. cbn [obind].
  destruct (space_write_word _ _ _ _ _ _ _ x _ 64 program_counter Hs3 Hx Hw3) as (m4 & -> & Hs4 & Hw4 & Hm4); [simpl; lia|done|]. cbn [obind].
  destruct (space_write_word _ _ _ _ _ _ _ x _ 71 x Hs4 Hx Hw4) as (m5 & -> & Hs5 & Hw5 & Hm5); [simpl; lia|unfold in_word; lia|].
  exists m5. split_and!; [done|done| |intros va; by rewrite Hm5, Hm4, Hm3, Hm2, Hm1].
  intros i w Hi. apply Hw5.
  transitivity ((frame_words (initial_frame program_counter satp x) ++ replicate 440 0) !! i); [reflexivity|].
  by apply lookup_app_l_Some.
Qed.

(** ** The value of the satp register *)
Lemma build_satp_word mode asid addr : in_word 64 (build_satp mode asid addr).
Proof. unfold build_satp. repeat (apply bf_set_bound; [lia..|]). by vm_compute. Qed.

Lemma build_satp_root mode asid addr : (4096 | addr) → in_word 56 addr → root_of_satp (build_satp mode asid addr) = addr.
Proof.
  intros [q ->] [? ?]. unfold root_of_satp, build_satp. rewrite !bf_get_set_ne, bf_get_set_eq by lia.
  rewrite Z.shiftr_div_pow2, Z.shiftl_mul_pow2 by lia. change (2 ^ 12) with 4096.
  rewrite Z.div_mul by lia. rewrite (wrap_small 44) by (unfold in_word; lia). apply wrap_small. unfold in_word. lia.
Qed.

(** ** The address space of a process *)
Definition process_tables (l : Layout) : gset (list Z) :=
  regions_tables (process_regions l) ∪ (page_tables THREAD_FRAME_ADDRESS ∪ range_tables (STACK_ADDRESS - 8192) 2).

Lemma process_tables_parts l :
  regions_tables (process_regions l) ⊆ process_tables l ∧ page_tables THREAD_FRAME_ADDRESS ⊆ process_tables l ∧
  range_tables (STACK_ADDRESS - 8192) 2 ⊆ process_tables l.
Proof.
  unfold process_tables. generalize (regions_tables (process_regions l)) (page_tables THREAD_FRAME_ADDRESS)
    (range_tables (STACK_ADDRESS - 8192) 2). set_solver.
Qed.

(** The trap frame page for the kernel only, the stack for the user, and the
    sections of the image at their own addresses. *)
Definition process_view (l : Layout) (trap_frame stack va : Z) : option (Z * Z) :=
  if decide (in_page THREAD_FRAME_ADDRESS va) then Some (trap_frame + (va - THREAD_FRAME_ADDRESS), permissions READ_WRITE)
  else if decide (STACK_ADDRESS - 8192 ≤ va < STACK_ADDRESS)
    then Some (stack + (va - (STACK_ADDRESS - 8192)), permissions USER_READ_WRITE)
  else section_view (process_regions l) va.

Lemma process_regions_ok l : layout_ok l → Forall region_ok (process_regions l).
Proof.
  intros (? & ? & ? & ? & ? & ? & _). unfold process_regions.
  repeat constructor; by (apply section_region_ok; [|by vm_compute|]).
Qed.

(** No section covers an address below or above the sections. *)
Lemma section_apart start end_ bits va :
  section_ok start end_ → va < 0x2000 ∨ STACK_ADDRESS - 8192 ≤ va → ¬ covers (mkRegion start end_ bits) va.
Proof.
  unfold section_ok, covers, STACK_ADDRESS. simpl. intros [Hs He] Hva Hc.
  pose proof (align_down_spec start 12 ltac:(lia)) as [? [q Hq]].
  pose proof (align_up_spec end_ 12 ltac:(lia) ltac:(lia) ltac:(lia)) as [? [r Hr]]. change (2 ^ 12) with 4096 in *. lia.
Qed.

Lemma process_regions_apart l va :
  layout_ok l → va < 0x2000 ∨ STACK_ADDRESS - 8192 ≤ va → granted (process_regions l) va = 0.
Proof.
  intros (? & ? & ? & ? & ? & ? & _) Hva. unfold process_regions. cbn [granted].
  by rewrite !decide_False by (by apply section_apart).
Qed.

Lemma tail_free_le mm n n' : (n' ≤ n)%nat → tail_free mm n → tail_free mm n'.
Proof. intros ? [? Hf]. split; [lia|]. intros i ?. apply Hf. lia. Qed.

(** The entry of a page that is mapped for the first time. *)
Lemma fresh_entry paddr bits va :
  in_word 56 paddr → (4096 | paddr) → in_word 9 bits →
  get_ppn (map_entry paddr bits 0) + va_offset va = paddr + va_offset va ∧ permissions (map_entry paddr bits 0) = permissions bits.
Proof.
  intros Hp Hal Hb. split; [|by rewrite permissions_map_entry].
  rewrite map_entry_ppn by (done || by vm_compute). f_equal. apply page_of_aligned; [done|lia].
Qed.

(** The regions of a list are mapped in a new space. *)
Lemma space_regions P spare rs mm0 m0 mm m root t :
  space_ok mm0 m0 mm m root t [] → (∀ va, mapping m t va = None) → Forall region_ok rs → regions_tables rs ⊆ P →
  room (enough := tail_free) P spare mm t →
  ∃ mm' m' t', map_regions rs root (mm, m) = Ret (mm', m') ∧ space_ok mm0 m0 mm' m' root t' [] ∧
    room (enough := tail_free) P spare mm' t' ∧ ∀ va, in_word 39 va → entry_for va (granted rs va) (mapping m' t' va).
Proof.
  intros Hs Hnone Hok HP Hroom.
  destruct (map_regions_ok P spare root rs mm m t (λ _, 0)) as (mm1 & m1 & t1 & Hmap & Htree & Hext & Hroom1 & Hm);
    [apply Hs|apply Hs|done..|intros va _; by rewrite Hnone|].
  destruct (space_extends _ _ _ _ _ _ _ _ _ _ Hs Htree Hext) as [Hs1 _]. by exists mm1, m1, t1.
Qed.

(** The room for a block of private pages. *)
Lemma space_block P spare mm0 m0 mm m root t priv (p : nat) :
  space_ok mm0 m0 mm m root t priv → room (enough := tail_free) P (p + spare) mm t → (1 ≤ p)%nat → Z.of_nat p < 2 ^ 50 →
  ∃ i m', zalloc mm m (Z.of_nat p) = Ret (page_address mm i, taking mm i p, m') ∧
    space_ok mm0 m0 (taking mm i p) m' root t (block_pages mm i p ++ priv) ∧ room (enough := tail_free) P spare (taking mm i p) t ∧
    words_at m' (page_address mm i) (replicate (512 * p) 0) ∧ (∀ x, x ∈ block_pages mm i p → free_page_at mm x) ∧
    (∀ x b, x ∈ priv → in_page x b → m' !! b = m !! b) ∧ ∀ va, mapping m' t va = mapping m t va.
Proof.
  intros Hs Hroom Hp Hp'. unfold room in Hroom. replace (size (P ∖ dom t) + (p + spare))%nat with (p + (size (P ∖ dom t) + spare))%nat in Hroom by lia.
  destruct (tail_free_block mm p _ Hp Hroom) as (i & Hfit & Htail).
  destruct (space_zalloc _ _ _ _ _ _ _ _ _ Hs Hfit Hp Hp') as (m' & Hz & Hs' & Hw & Hk & Hm). exists i, m'.
  split_and!; try done. intros x Hx. eapply block_pages_free; [apply Hfit|done].
Qed.

(** Mapping one page to a private page. *)
Lemma space_map P spare mm0 m0 mm m root t priv vaddr paddr bits :
  space_ok mm0 m0 mm m root t priv → room (enough := tail_free) P spare mm t → page_tables vaddr ⊆ P → in_word 9 bits →
  (4096 | vaddr) → in_word 39 vaddr →
  ∃ mm' m' t', map mm m root vaddr paddr bits 0 = Ret (mm', m') ∧ space_ok mm0 m0 mm' m' root t' priv ∧
    room (enough := tail_free) P spare mm' t' ∧ (∀ x b, x ∈ priv → in_page x b → m' !! b = m !! b) ∧
    ∀ va, in_word 39 va → mapping m' t' va =
      if decide (in_page vaddr va) then Some (map_entry paddr bits (default 0 (mapping m t vaddr))) else mapping m t va.
Proof.
  intros Hs Hroom HP Hb Hv8 Hv.
  destruct (map_ok P spare mm m root t vaddr paddr bits) as (mm1 & m1 & t1 & Hmap & Htree & Hext & Hroom1 & Hm);
    [apply Hs|apply Hs|done..|].
  destruct (space_extends _ _ _ _ _ _ _ _ _ _ Hs Htree Hext) as [Hs1 Hk].
  exists mm1, m1, t1. split_and!; [done..|]. intros va Hva. rewrite Hm.
  assert (align_down vaddr 12 = vaddr) as Hvv by (apply page_of_aligned; [done|lia]).
  pose proof (same_page_iff vaddr va Hv Hva) as Hsame. rewrite Hvv in Hsame.
  pose proof (page_of_aligned vaddr va Hv8) as Hpg. fold (in_page vaddr va) in Hpg.
  destruct (decide (in_page vaddr va)) as [Hin|Hin]; [rewrite decide_True|rewrite decide_False]; [done| |done|].
  - apply Hsame. symmetry. by apply Hpg.
  - intros Heq%Hsame. apply Hin, Hpg. done.
Qed.

(** Mapping a range of pages to private pages. *)
Lemma space_map_pages P spare bits n mm0 m0 mm m root t priv vaddr paddr :
  space_ok mm0 m0 mm m root t priv → room (enough := tail_free) P spare mm t → range_tables vaddr n ⊆ P → in_word 9 bits →
  (4096 | vaddr) → 0 ≤ vaddr → vaddr + 4096 * Z.of_nat n ≤ 2 ^ 39 → 0 ≤ paddr → paddr + 4096 * Z.of_nat n ≤ 2 ^ 56 →
  ∃ mm' m' t', map_pages mm m root vaddr paddr bits n = Ret (mm', m') ∧ space_ok mm0 m0 mm' m' root t' priv ∧
    room (enough := tail_free) P spare mm' t' ∧ (∀ x b, x ∈ priv → in_page x b → m' !! b = m !! b) ∧
    ∀ va, in_word 39 va → mapping m' t' va =
      if decide (vaddr ≤ va < vaddr + 4096 * Z.of_nat n)
      then Some (map_entry (paddr + (align_down va 12 - vaddr)) bits (default 0 (mapping m t va))) else mapping m t va.
Proof.
  intros Hs Hroom HP Hb Hv8 Hv Hvh Hp Hph.
  destruct (map_pages_ok P spare bits n mm m root t vaddr paddr) as (mm1 & m1 & t1 & Hmap & Htree & Hext & Hroom1 & Hm);
    [apply Hs|apply Hs|done..|].
  destruct (space_extends _ _ _ _ _ _ _ _ _ _ Hs Htree Hext) as [Hs1 Hk].
  by exists mm1, m1, t1.
Qed.

(** A private page keeps its words while its page is kept. *)
Lemma words_at_keep m m' x ws :
  words_at m x ws → (length ws ≤ 512)%nat → (∀ b, in_page x b → m' !! b = m !! b) → words_at m' x ws.
Proof.
  intros Hw Hl Hk i w Hi. pose proof (lookup_lt_Some _ _ _ Hi). rewrite Hk; [by apply Hw|]. unfold in_page. lia.
Qed.

Definition frame_bits : Z := Z.lor (Z.lor READ_WRITE ACCESS) DIRTY.

(** [create_dummy_process] up to the allocation of the stack. *)
Lemma create_frame_ok l spare mm0 m0 k program_counter thread process :
  layout_ok l → free_pages_ok mm0 m0 ∅ → tail_free mm0 (size (process_tables l) + 4 + spare) → in_word 64 program_counter →
  ∃ root trap_frame mm m t,
    create_dummy_process l mm0 m0 k program_counter thread process =
      (let! r := zalloc mm m STACK_PAGES in
       let '(stack_bottom, mm', m') := r in
       let! s := map_range mm' m' root (u64 (STACK_ADDRESS - PAGE_SIZE * STACK_PAGES)) STACK_ADDRESS stack_bottom USER_READ_WRITE in
       Ret (root, s.1, s.2, add_process k program_counter root (build_satp Sv39 1 root) trap_frame thread process)) ∧
    space_ok mm0 m0 mm m root t [trap_frame] ∧ room (enough := tail_free) (process_tables l) (2 + spare) mm t ∧
    words_at m trap_frame (frame_words (initial_frame program_counter (build_satp Sv39 1 root) trap_frame)) ∧
    ∀ va, in_word 39 va → if decide (in_page THREAD_FRAME_ADDRESS va)
      then mapping m t va = Some (map_entry trap_frame frame_bits 0) else entry_for va (granted (process_regions l) va) (mapping m t va).
Proof.
  intros Hl Hfree Htail Hpc. set (P := process_tables l) in *.
  destruct (tail_free_block mm0 1 (size P + (3 + spare))) as (i & Hfit & Htail1); [lia|by eapply tail_free_le; [|done]; lia|].
  destruct (space_start mm0 m0 i Hfree Hfit) as (m1 & Hz1 & Hs1 & Hnone).
  set (root := page_address mm0 i) in *. unfold create_dummy_process. rewrite Hz1. cbn [obind].
  assert (room (enough := tail_free) P (3 + spare) (taking mm0 i 1) {[ [] := root ]}) as Hroom1.
  { unfold room. eapply tail_free_le; [|done]. apply Nat.add_le_mono_r, subseteq_size, subseteq_difference_l. done. }
  rewrite map_process_sections_regions.
  destruct (space_regions P (3 + spare) (process_regions l) _ _ _ _ _ _ Hs1 Hnone) as (mm2 & m2 & t2 & -> & Hs2 & Hroom2 & Hm2);
    [by apply process_regions_ok|apply process_tables_parts|done|]. cbn [obind fst snd].
  destruct (space_block P (2 + spare) _ _ _ _ _ _ _ 1 Hs2 Hroom2) as (j & m3 & Hz3 & Hs3 & Hroom3 & Hw3 & _ & _ & Hm3); [lia|done|].
  change (Z.of_nat 1) with 1 in Hz3. rewrite Hz3. cbn [obind]. set (trap_frame := page_address mm2 j) in *.
  change (block_pages mm2 j 1 ++ []) with [page_address mm2 (j + 0)] in Hs3. rewrite Nat.add_0_r in Hs3. fold trap_frame in Hs3.
  destruct (space_write_frame _ _ _ _ _ _ _ trap_frame program_counter (build_satp Sv39 1 root) Hs3) as (m4 & -> & Hs4 & Hw4 & Hm4);
    [by left|done|done|apply build_satp_word|]. cbn [obind].
  destruct (space_map P (2 + spare) _ _ _ _ _ _ _ THREAD_FRAME_ADDRESS trap_frame frame_bits Hs4 Hroom3)
    as (mm5 & m5 & t5 & Hmap & Hs5 & Hroom5 & Hk5 & Hm5); [apply process_tables_parts|by vm_compute|by exists 1|by vm_compute|].
  fold frame_bits. rewrite Hmap. cbn [obind fst snd].
  exists root, trap_frame, mm5, m5, t5. split_and!; [done..| |].
  - eapply words_at_keep; [done|simpl; lia|]. intros b Hb. apply (Hk5 trap_frame); [by left|done].
  - intros va Hva. rewrite Hm5 by done. case_decide; rewrite !Hm4, !Hm3; [|by apply Hm2].
    specialize (Hm2 THREAD_FRAME_ADDRESS ltac:(by vm_compute)). rewrite process_regions_apart in Hm2 by (done || left; by vm_compute).
    destruct (mapping m2 t2 THREAD_FRAME_ADDRESS); [by destruct Hm2|done].
Qed.

Lemma block_pages_two mm i : block_pages mm i 2 = [page_address mm i; page_address mm i + 4096].
Proof.
  unfold block_pages, page_address. change PAGE_SIZE with 4096. simpl. f_equal; [|f_equal]; lia.
Qed.

(** The whole of [create_dummy_process]: what the process sees, its pages and their words. *)
Lemma create_dummy_process_ok l spare mm0 m0 k program_counter thread process :
  layout_ok l → free_pages_ok mm0 m0 ∅ → tail_free mm0 (size (process_tables l) + 4 + spare) → in_word 64 program_counter →
  ∃ root trap_frame stack mm m t,
    create_dummy_process l mm0 m0 k program_counter thread process =
      Ret (root, mm, m, add_process k program_counter root (build_satp Sv39 1 root) trap_frame thread process) ∧
    space_ok mm0 m0 mm m root t [stack; stack + 4096; trap_frame] ∧ tail_free mm spare ∧ NoDup [stack; stack + 4096; trap_frame] ∧
    (∀ va, in_word 39 va → mmu m root va = process_view l trap_frame stack va) ∧
    words_at m trap_frame (frame_words (initial_frame program_counter (build_satp Sv39 1 root) trap_frame)) ∧
    words_at m stack (replicate 1024 0).
Proof.
  intros Hl Hfree Htail Hpc.
  destruct (create_frame_ok l spare mm0 m0 k program_counter thread process) as (root & trap_frame & mm5 & m5 & t5 & -> & Hs5 & Hroom5 & Hw5 & Hm5);
    [done..|].
  destruct (space_block (process_tables l) spare _ _ _ _ _ _ _ 2 Hs5 Hroom5) as (s & m6 & Hz6 & Hs6 & Hroom6 & Hw6 & Hf6 & Hk6 & Hm6); [lia|done|].
  change STACK_PAGES with (Z.of_nat 2) at 1. rewrite Hz6. cbn [obind]. rewrite block_pages_two in Hs6, Hf6. set (stack := page_address mm5 s) in *.
  destruct (so_priv _ _ _ _ _ _ _ Hs6 stack) as (_ & _ & (Hsa & Hsb & _) & _); [by left|].
  destruct (so_priv _ _ _ _ _ _ _ Hs6 (stack + 4096)) as (_ & _ & (_ & Hsb2 & _) & _); [right; by left|].
  destruct (so_priv _ _ _ _ _ _ _ Hs6 trap_frame) as (_ & _ & (Hta & Htb & _) & _); [right; right; by left|].
  destruct (space_map_pages (process_tables l) spare USER_READ_WRITE 2 _ _ _ _ _ _ _ (STACK_ADDRESS - 8192) stack Hs6 Hroom6)
    as (mm7 & m7 & t7 & Hmap & Hs7 & Hroom7 & Hk7 & Hm7);
    [apply process_tables_parts|by vm_compute|by exists 983038|unfold STACK_ADDRESS; lia|unfold STACK_ADDRESS; lia|lia|destruct Hsa as [q Hq]; lia|].
  rewrite map_range_pages by (vm_compute; intuition discriminate).
  change (pages_of (u64 (STACK_ADDRESS - PAGE_SIZE * STACK_PAGES)) STACK_ADDRESS) with 2%nat.
  change (align_down (u64 (STACK_ADDRESS - PAGE_SIZE * STACK_PAGES)) 12) with (STACK_ADDRESS - 8192).
  assert (align_down stack 12 = stack) as -> by (apply page_of_aligned; [done|lia]).
  rewrite Hmap. cbn [obind fst snd]. exists root, trap_frame, stack, mm7, m7, t7. split_and!; [done|done| | | | |].
  - eapply tail_free_le; [|exact Hroom7]. lia.
  - assert (∀ x, x ∈ [stack; stack + 4096] → x ≠ trap_frame) as Hne.
    { intros x Hx ->. destruct (so_priv _ _ _ _ _ _ _ Hs5 trap_frame) as (_ & [] & _); [by left|by apply Hf6]. }
    apply NoDup_cons; split; [|apply NoDup_cons; split; [|apply NoDup_singleton]].
    + intros [H|H%list_elem_of_singleton]%elem_of_cons; [lia|]. by apply (Hne stack); [left|].
    + intros H%list_elem_of_singleton. by apply (Hne (stack + 4096)); [right; left|].
  - intros va Hva. rewrite (mmu_ok _ _ _ _ (so_tree _ _ _ _ _ _ _ Hs7)), Hm7, Hm6 by done. specialize (Hm5 va Hva).
    unfold process_view. change (STACK_ADDRESS - 8192 + 4096 * Z.of_nat 2) with STACK_ADDRESS.
    destruct (decide (in_page THREAD_FRAME_ADDRESS va)) as [Hin|Hin].
    + unfold in_page, THREAD_FRAME_ADDRESS, STACK_ADDRESS in *. rewrite decide_False by lia. rewrite Hm5. simpl.
      destruct (fresh_entry trap_frame frame_bits va) as [-> ->]; [unfold in_word; lia|done|by vm_compute|].
      assert (align_down va 12 = 4096) as Hda by (apply page_of_aligned; [by exists 1|lia]).
      rewrite page_offset, Hda. done.
    + case_decide as Hst; [|by rewrite (entry_for_view va (granted (process_regions l) va))].
      rewrite process_regions_apart in Hm5 by (done || lia). destruct (mapping m5 t5 va); [by destruct Hm5|]. simpl.
      pose proof (align_down_spec va 12 ltac:(lia)) as [Hd1 Hd2]. change (2 ^ 12) with 4096 in *.
      destruct Hsa as [q Hq], Hd2 as [r Hr]. unfold STACK_ADDRESS in *.
      destruct (fresh_entry (stack + (align_down va 12 - (0xf0000000 - 8192))) USER_READ_WRITE va) as [-> ->];
        [unfold in_word; lia|exists (q + r - 983038); lia|by vm_compute|].
      rewrite page_offset. do 2 f_equal. lia.
  - eapply words_at_keep; [exact Hw5|simpl; lia|]. intros b Hb.
    rewrite (Hk7 trap_frame), (Hk6 trap_frame); [done|by left|done|right; right; by left|done].
  - intros i w Hi. pose proof (lookup_lt_Some _ _ _ Hi) as Hlt. rewrite length_replicate in Hlt.
    destruct (decide (i < 512)%nat); [rewrite (Hk7 stack)|rewrite (Hk7 (stack + 4096))];
      [by apply Hw6|by left|unfold in_page; lia|by apply Hw6|right; by left|unfold in_page; lia].
Qed.

(** Another address space, or any memory that was not free, is as before. *)
Lemma space_other mm0 m0 mm m root t priv root0 t0 :
  space_ok mm0 m0 mm m root t priv → tree m0 root0 t0 → free_pages_ok mm0 m0 t0 →
  tree m root0 t0 ∧ free_pages_ok mm m t0 ∧ ∀ va, mmu m root0 va = mmu m0 root0 va.
Proof.
  intros [Htree Hfree Htk Htab Hpriv Hfr Hmp] Htree0 Hfree0.
  destruct (tree_frame m0 m root0 t0 Htree0) as [Htree' Hmap].
  { intros q x b Hq Hb. apply Hfr. intros y Hy Hyb. apply (table_not_free _ _ _ _ _ Hfree0 Hq).
    rewrite (page_apart x y b); [done|by apply (tree_ok _ _ _ Htree0 q)|by apply (free_page_aligned _ _ _ _ Hfree0)|done|done]. }
  { done. }
  split; [done|]. split.
  - destruct Hfree as [? ? ? Hft _], Htk as [Ha Hf]. constructor; try done.
    intros i q Hi Hq. apply (free_apart _ _ _ Hfree0 i q); [by apply Hf|]. rewrite Hq. unfold page_address. by rewrite Ha.
  - intros va. by rewrite (mmu_ok _ _ _ _ Htree'), (mmu_ok _ _ _ _ Htree0), Hmap.
Qed.

(** ** The kernel's space while the system starts *)

(** The space of the kernel maps the regions [rs] to themselves and nothing else,
    has the private pages [priv], and there is room for the tables [P] and
    [spare] pages more. *)
Record kernel_space (P : gset (list Z)) (mm0 : MemoryManager) (m0 : memory) (spare : nat) (mm : MemoryManager) (m : memory)
    (root : Z) (t : tables) (rs : list region) (priv : list Z) : Prop := {
  ks_space : space_ok mm0 m0 mm m root t priv;
  ks_room : room (enough := tail_free) P spare mm t;
  ks_view : ∀ va, in_word 39 va → entry_for va (granted rs va) (mapping m t va)
}.

Lemma granted_app rs rs' va : granted (rs ++ rs') va = Z.lor (granted rs va) (granted rs' va).
Proof. induction rs as [|r rs IH]; [done|]. simpl. rewrite IH. case_decide; [by rewrite Z.lor_assoc|done]. Qed.

Section Kernel.
Context (P : gset (list Z)) (mm0 : MemoryManager) (m0 : memory).

(** What the MMU makes of the kernel's addresses. *)
Lemma kernel_mmu spare mm m root t rs priv va :
  kernel_space P mm0 m0 spare mm m root t rs priv → in_word 39 va → mmu m root va = section_view rs va.
Proof using All.
  intros [Hs _ Hv] Hva. rewrite (mmu_ok _ _ _ _ (so_tree _ _ _ _ _ _ _ Hs)). by apply entry_for_view, Hv.
Qed.

(** Mapping one more region. *)
Lemma kernel_map spare mm m root t rs priv r :
  kernel_space P mm0 m0 spare mm m root t rs priv → region_ok r → regions_tables [r] ⊆ P →
  ∃ mm' m' t', identity_map_range mm m root (r_start r) (r_end r) (r_bits r) = Ret (mm', m') ∧
    kernel_space P mm0 m0 spare mm' m' root t' (rs ++ [r]) priv ∧ ∀ x b, x ∈ priv → in_page x b → m' !! b = m !! b.
Proof using All.
  intros [Hs Hroom Hv] Hr HP.
  destruct (map_regions_ok P spare root [r] mm m t (granted rs)) as (mm1 & m1 & t1 & Hmap & Htree & Hext & Hroom1 & Hm);
    [apply Hs|apply Hs|done|done|by constructor|done|].
  rewrite map_regions_one in Hmap. destruct (space_extends _ _ _ _ _ _ _ _ _ _ Hs Htree Hext) as [Hs1 Hk].
  exists mm1, m1, t1. split; [done|]. split; [|done]. constructor; [done|done|]. intros va Hva. rewrite granted_app. by apply Hm.
Qed.

(** Taking cleared pages. *)
Lemma kernel_zalloc spare mm m root t rs priv (p : nat) :
  kernel_space P mm0 m0 (p + spare) mm m root t rs priv → (1 ≤ p)%nat → Z.of_nat p < 2 ^ 50 →
  ∃ i m', zalloc mm m (Z.of_nat p) = Ret (page_address mm i, taking mm i p, m') ∧
    kernel_space P mm0 m0 spare (taking mm i p) m' root t rs (block_pages mm i p ++ priv) ∧
    words_at m' (page_address mm i) (replicate (512 * p) 0) ∧ (∀ x, x ∈ block_pages mm i p → x ∉ priv) ∧
    ∀ x b, x ∈ priv → in_page x b → m' !! b = m !! b.
Proof using All.
  intros [Hs Hroom Hv] Hp Hp'. destruct (space_block _ _ _ _ _ _ _ _ _ _ Hs Hroom Hp Hp') as (i & m' & Hz & Hs' & Hroom' & Hw & Hf & Hk & Hm).
  exists i, m'. split; [done|]. split; [constructor|split; [done|split; [|done]]]; [done|done| |].
  - intros va Hva. rewrite Hm. by apply Hv.
  - intros x Hx Hpriv. destruct (so_priv _ _ _ _ _ _ _ Hs x Hpriv) as (_ & [] & _). by apply Hf.
Qed.

(** Storing a word of a private page. *)
Lemma kernel_write spare mm m root t rs priv x ws (i : nat) w :
  kernel_space P mm0 m0 spare mm m root t rs priv → x ∈ priv → words_at m x ws → (i < length ws ≤ 512)%nat → in_word 64 w →
  ∃ m', write64 m (u64 (x + 8 * Z.of_nat i)) w = Ret m' ∧ kernel_space P mm0 m0 spare mm m' root t rs priv ∧
    words_at m' x (<[i := w]> ws) ∧ ∀ y b, y ∈ priv → y ≠ x → in_page y b → m' !! b = m !! b.
Proof using All.
  intros [Hs Hroom Hv] Hx Hws Hi Hw. destruct (space_write_word _ _ _ _ _ _ _ x ws i w Hs Hx Hws Hi Hw) as (m' & Hwr & Hs' & Hws' & Hm).
  exists m'. split; [done|]. split; [constructor; [done|done|intros va Hva; rewrite Hm; by apply Hv]|]. split; [done|].
  intros y b Hy Hne Hb. apply write64_Ret in Hwr as (_ & _ & ->). apply lookup_insert_ne. intros <-. apply Hne.
  destruct (so_priv _ _ _ _ _ _ _ Hs x Hx) as (_ & _ & (Hxa & Hxb & _) & _).
  destruct (so_priv _ _ _ _ _ _ _ Hs y Hy) as (_ & _ & (Hya & _) & _).
  rewrite wrap_small in Hb by (unfold in_word; lia). apply (page_apart y x (x + 8 * Z.of_nat i)); [done|done|done|unfold in_page; lia].
Qed.
End Kernel.

(** * Initial memory *)

(** The area that [MemoryManager::init] hands out pages of. *)
Definition page_area (l : Layout) : Z :=
  align_value (u64 (get_heap_start l + u64 (get_heap_size l / PAGE_SIZE * sizeof_Page))) PAGE_ORDER.

Lemma first_fit_unique t p i j : first_fit t p i → first_fit t p j → i = j.
Proof.
  intros [Hi Hi'] [Hj Hj']. destruct (decide (i < j)%nat) as [H|H]; [by destruct (Hj' i H)|].
  destruct (decide (j < i)%nat) as [H'|H']; [by destruct (Hi' j H')|lia].
Qed.

(** The manager right after [init]: the pages of the area are memory. *)
Lemma init_free_pages l raw m :
  layout_ok l → PAGE_SIZE ≤ get_heap_size l → Z.of_nat (length raw) = get_heap_size l / PAGE_SIZE → (2 ≤ length raw)%nat →
  (∀ i : nat, (i < length raw)%nat → mapped m (page_area l + 4096 * Z.of_nat i) 512) →
  ∃ mm, init (get_heap_start l) (get_heap_size l) raw = Ret mm ∧ free_pages_ok mm m ∅ ∧
    first_fit (m_pages mm) 1 1 ∧ page_address mm 1 = page_area l + 4096 ∧ tail_free mm (length raw - 1).
Proof.
  intros (_ & _ & _ & _ & _ & _ & _ & [Hs Hse]) Hsize Hlen Hlen2 Hmap. unfold STACK_ADDRESS in *. change PAGE_SIZE with 4096 in *.
  destruct (init_manager (get_heap_start l) (get_heap_size l) raw) as (mm & Hi & Hinv & Hp & Ha & _); [change PAGE_SIZE with 4096; lia..|].
  pose proof (init_alloc_start (get_heap_start l) (get_heap_size l)) as Hb. cbv zeta in Hb.
  destruct Hb as (Hb & Hn & Hn'); [change PAGE_SIZE with 4096; lia..|]. change PAGE_SIZE with 4096 in *.
  change (m_alloc_start mm = page_area l) in Ha.
  change (get_heap_start l + get_heap_size l / 4096 ≤ page_area l < get_heap_start l + get_heap_size l / 4096 + 4096) in Hb.
  exists mm. split; [done|].
  assert (4096 | page_area l) as Hal.
  { unfold page_area. rewrite align_value_12. unfold sizeof_Page. change PAGE_SIZE with 4096. rewrite Z.mul_1_r.
    rewrite (wrap_small 64 (_ / _)), wrap_small by (unfold in_word; lia).
    by pose proof (align_up_spec (get_heap_start l + get_heap_size l / 4096) 12 ltac:(lia) ltac:(lia) ltac:(lia)) as [_ ?]. }
  assert (∀ i, m_pages mm !! i = Some Free → (i < length raw)%nat) as Hlt.
  { intros i Hi'%lookup_lt_Some. rewrite Hp in Hi'. simpl in Hi'. rewrite length_replicate in Hi'. lia. }
  split; [constructor|split; [|split]].
  - apply Hinv.
  - by rewrite Ha.
  - rewrite (wf_length _ (inv_wf _ _ Hinv)), Hp, Ha. simpl. rewrite length_replicate. change PAGE_SIZE with 4096. lia.
  - intros i Hi'%Hlt. unfold page_address. rewrite Ha. change PAGE_SIZE with 4096. split; [|split; [lia|by apply Hmap]].
    apply Z.divide_add_r; [|by exists (Z.of_nat i); lia]. done.
  - done.
  - rewrite Hp. split; [|intros i' Hi']; [intros k Hk|].
    + replace (1 + k)%nat with 1%nat by lia. simpl. apply lookup_replicate. split; [done|lia].
    + intros Hr. specialize (Hr 0%nat ltac:(lia)). by replace (i' + 0)%nat with 0%nat in Hr by lia.
  - unfold page_address. rewrite Ha. change PAGE_SIZE with 4096. lia.
  - split; rewrite Hp; simpl; rewrite length_replicate; [lia|]. intros i Hi'.
    destruct i as [|i]; [lia|]. simpl. apply lookup_replicate. split; [done|lia].
Qed.

Lemma system_regions_ok l : layout_ok l → Forall region_ok (system_regions l).
Proof.
  intros (? & ? & ? & ? & ? & ? & ? & ?). unfold system_regions.
  repeat constructor; first [by (apply section_region_ok; [|by vm_compute|]) | by vm_compute].
Qed.

(** The pages of the heap. *)
Definition heap_pages (k : KernelMemoryAllocator) : list Z := (λ j, m_head k + 4096 * Z.of_nat j) <$> seq 0 64.

Lemma block_pages_nodup mm i p : NoDup (block_pages mm i p).
Proof.
  apply NoDup_fmap_2_strong; [|apply NoDup_seq]. intros x y _ _ Heq. apply page_address_inj in Heq. lia.
Qed.

Lemma heap_block mm i k : m_head k = page_address mm i → heap_pages k = block_pages mm i 64.
Proof.
  intros Hk. unfold heap_pages, block_pages. apply list_fmap_ext. intros _ j _. rewrite Hk.
  unfold page_address. change PAGE_SIZE with 4096. lia.
Qed.

(** The heap right after it was made, and the members of its object. *)
Definition new_heap_at (m : memory) (k : KernelMemoryAllocator) (page : Z) : Prop :=
  m_total_size k = 64 * 4096 ∧ tiles m (m_head k) [mkChunk (64 * 4096) false] (m_head k + 64 * 4096) ∧
  words_at m page [m_head k; m_total_size k; m_taken k].

(** The constructor of the kernel heap takes its pages. *)
Lemma kernel_heap_init P mm0 m0 spare mm m root t rs priv page ws :
  kernel_space P mm0 m0 (64 + spare) mm m root t rs priv → page ∈ priv → words_at m page ws → length ws = 512%nat →
  NoDup priv →
  ∃ k mm' m', allocator_init mm m page = Ret (k, mm', m') ∧
    kernel_space P mm0 m0 spare mm' m' root t rs (heap_pages k ++ priv) ∧ NoDup (heap_pages k ++ priv) ∧ new_heap_at m' k page.
Proof.
  intros Hk Hpage Hws Hlen Hnd.
  destruct (kernel_zalloc P mm0 m0 spare mm m root t rs priv 64 Hk) as (i & m1 & Hz & Hk1 & Hw1 & Hn1 & Hm1); [lia|done|].
  set (head := page_address mm i) in *. set (mm1 := taking mm i 64) in *.
  assert (head ∈ block_pages mm i 64) as Hhead by (apply elem_of_block_pages; exists 0%nat; split; [lia|by rewrite Nat.add_0_r]).
  assert (head ∈ block_pages mm i 64 ++ priv) as Hin by (apply elem_of_app; by left).
  assert (page ∈ block_pages mm i 64 ++ priv) as Hin' by (apply elem_of_app; by right).
  assert (page ≠ head) as Hne by (intros ->; by apply (Hn1 head)).
  destruct (so_priv _ _ _ _ _ _ _ (ks_space _ _ _ _ _ _ _ _ _ _ Hk1) head Hin) as (_ & _ & ([q Hq] & Hhb & _) & _).
  assert (words_at m1 head (replicate 512 0)) as Hw1'.
  { intros j w Hj. apply Hw1. apply lookup_replicate in Hj as [-> Hj]. apply lookup_replicate. split; [done|lia]. }
  assert (words_at m1 page ws) as Hws1 by (eapply words_at_keep; [exact Hws|lia|]; intros b Hb; by apply (Hm1 page)).
  destruct (kernel_write _ _ _ _ _ _ _ _ _ _ head _ 0 (u64 (set_free 0)) Hk1 Hin Hw1') as (m2 & Hwr2 & Hk2 & Hw2 & Hm2); [simpl; lia|done|].
  destruct (kernel_write _ _ _ _ _ _ _ _ _ _ head _ 0 (header (mkChunk (64 * 4096) false)) Hk2 Hin Hw2) as (m3 & Hwr3 & Hk3 & Hw3 & Hm3);
    [simpl; lia|apply header_word|].
  rewrite Z.mul_0_r, Z.add_0_r, (wrap_small 64 head) in Hwr2, Hwr3 by (unfold in_word; lia).
  set (k := mkKMA head (64 * 4096) 0).
  assert (KernelMemoryAllocator_new mm m = Ret (k, mm1, m3)) as Hnew.
  { unfold KernelMemoryAllocator_new. change ALLOCATION_SIZE with (Z.of_nat 64) at 1. rewrite Hz. cbn [obind].
    assert (word_aligned head = true) as Hal by (apply word_aligned_iff; exists (512 * q); lia).
    assert (read64 m1 head = Ret 0) as Hr1.
    { apply read64_Ret. split; [done|]. rewrite <- (Z.add_0_r head). apply (Hw1' 0%nat 0). reflexivity. }
    assert (read64 m2 head = Ret (u64 (set_free 0))) as Hr2.
    { apply read64_Ret. split; [done|]. rewrite <- (Z.add_0_r head). apply (Hw2 0%nat). reflexivity. }
    unfold update64. rewrite Hr1. cbn [obind].
    change (set_free 0) with (u64 (set_free 0)). rewrite Hwr2. cbn [obind]. rewrite Hr2. cbn [obind].
    change (set_size (ALLOCATION_SIZE * PAGE_SIZE) (u64 (set_free 0))) with (header (mkChunk (64 * 4096) false)).
    rewrite Hwr3. reflexivity. }
  assert (words_at m3 page ws) as Hws3.
  { eapply words_at_keep; [exact Hws1|lia|]. intros b Hb. by rewrite (Hm3 page), (Hm2 page). }
  destruct (kernel_write _ _ _ _ _ _ _ _ _ _ page _ 0 head Hk3 Hin' Hws3) as (m4 & Hwr4 & Hk4 & Hw4 & Hm4); [lia|unfold in_word; lia|].
  destruct (kernel_write _ _ _ _ _ _ _ _ _ _ page _ 1 (64 * 4096) Hk4 Hin' Hw4) as (m5 & Hwr5 & Hk5 & Hw5 & Hm5);
    [rewrite length_insert; lia|done|].
  destruct (kernel_write _ _ _ _ _ _ _ _ _ _ page _ 2 0 Hk5 Hin' Hw5) as (m6 & Hwr6 & Hk6 & Hw6 & Hm6);
    [rewrite !length_insert; lia|done|].
  exists k, mm1, m6. split; [|split; [|split; [|split; [done|split]]]].
  - unfold allocator_init. rewrite Hnew. cbn [obind k m_head m_total_size m_taken].
    change 0 with (Z.of_nat 0) at 1. rewrite Hwr4. cbn [obind]. change (8 * 1) with (8 * Z.of_nat 1). rewrite Hwr5. cbn [obind].
    change (8 * 2) with (8 * Z.of_nat 2). rewrite Hwr6. reflexivity.
  - by rewrite (heap_block mm i k).
  - rewrite (heap_block mm i k) by done. apply NoDup_app. split; [apply block_pages_nodup|]. split; [|done]. exact Hn1.
  - cbn [tiles c_size k m_head]. split; [|split; [split; [by vm_compute|by exists 32768]|done]].
    rewrite (Hm6 head), (Hm5 head), (Hm4 head) by (done || congruence || (unfold in_page; lia)).
    rewrite <- (Z.add_0_r head). apply (Hw3 0%nat). reflexivity.
  - cbn [k m_head m_total_size m_taken]. intros j w Hj.
    destruct j as [|[|[|j]]]; [..|done]; injection Hj as <-; apply Hw6;
      rewrite ?list_lookup_insert_ne by lia; apply list_lookup_insert_eq; rewrite ?length_insert; lia.
Qed.

(** [init_memory] makes the kernel's space. *)
Lemma init_memory_ok P spare l raw m :
  layout_ok l → PAGE_SIZE ≤ get_heap_size l → Z.of_nat (length raw) = get_heap_size l / PAGE_SIZE →
  regions_tables (system_regions l) ⊆ P → (size P + 67 + spare ≤ length raw)%nat →
  (∀ i : nat, (i < length raw)%nat → mapped m (page_area l + 4096 * Z.of_nat i) 512) →
  words_at m (page_area l + 4096) (replicate 512 0) →
  ∃ mm0 root mm m' kernel_heap page t,
    init_memory l raw m = Ret (root, mm, m', kernel_heap, build_satp Sv39 0 root) ∧
    root_of_satp (build_satp Sv39 0 root) = root ∧
    kernel_space P mm0 m spare mm m' root t (system_regions l) (heap_pages kernel_heap ++ [page]) ∧
    NoDup (heap_pages kernel_heap ++ [page]) ∧ new_heap_at m' kernel_heap page.
Proof.
  intros Hl Hsize Hlen HP Htables Hmap Hzero.
  destruct (init_free_pages l raw m) as (mm0 & Hinit & Hfree & Hfit & Haddr & Htail); [done..|lia|done|].
  rewrite <- Haddr in Hzero. destruct (root_space mm0 m 1 m Hfree Hfit Hzero) as [Hs Hnone]; [done..|].
  assert (room (enough := tail_free) P (1 + (64 + spare)) (taking mm0 1 1) {[ [] := page_address mm0 1 ]}) as Hroom.
  { destruct (tail_free_block mm0 1 (size P + (1 + (64 + spare)))) as (i & Hfit' & Ht); [lia|eapply tail_free_le; [|done]; lia|].
    rewrite (first_fit_unique _ _ _ _ Hfit' Hfit) in Ht. unfold room. eapply tail_free_le; [|done].
    apply Nat.add_le_mono_r, subseteq_size, subseteq_difference_l. done. }
  unfold init_memory. rewrite Hinit. cbn [obind].
  pose proof (alloc_takes mm0 1 1 (free_wf _ _ _ Hfree) ltac:(lia) Hfit) as Ha. change (Z.of_nat 1) with 1 in Ha.
  rewrite Ha. cbn [obind]. set (root := page_address mm0 1) in *. rewrite map_system_defaults_regions by done.
  destruct (space_regions P (1 + (64 + spare)) (system_regions l) _ _ _ _ _ _ Hs Hnone) as (mm1 & m1 & t1 & -> & Hs1 & Hroom1 & Hm1);
    [by apply system_regions_ok|done|done|]. cbn [obind fst snd].
  destruct (kernel_zalloc P mm0 m (64 + spare) mm1 m1 root t1 (system_regions l) [] 1) as (i & m2 & Hz & Hs2 & Hw & _); [done|lia|done|].
  change (Z.of_nat 1) with 1 in Hz. rewrite Hz. cbn [obind].
  change (block_pages mm1 i 1) with [page_address mm1 (i + 0)] in Hs2. rewrite Nat.add_0_r in Hs2. set (page := page_address mm1 i) in *.
  destruct (kernel_heap_init P mm0 m spare _ _ _ _ _ _ page _ Hs2 ltac:(by left) Hw eq_refl ltac:(apply NoDup_singleton))
    as (k & mm2 & m3 & -> & Hs3 & Hnd & Hheap). cbn [obind].
  exists mm0, root, mm2, m3, k, page, t1. split; [done|]. split; [|split; [done|split; [done|done]]].
  destruct (tree_ok _ _ _ (so_tree _ _ _ _ _ _ _ Hs) [] root) as (? & ? & _); [apply lookup_singleton_eq|].
  apply build_satp_root; [done|unfold in_word; lia].
Qed.

(** * Properties *)

(** From RAM whose second page is clear, [init_memory] returns the root of a
    page table in which every virtual address that a region of the kernel covers
    translates to itself with exactly the permissions of the regions that cover
    it, and no other address translates; the satp value names that root, and the
    kernel heap is one free chunk of 64 pages of its own, none of them a table. *)
Theorem init_memory_space (l : Layout) (raw : list PageStatus) (m : memory) :
  layout_ok l → PAGE_SIZE ≤ get_heap_size l → Z.of_nat (length raw) = get_heap_size l / PAGE_SIZE →
  (size (regions_tables (system_regions l)) + 67 ≤ length raw)%nat →
  (∀ i : nat, (i < length raw)%nat → mapped m (page_area l + 4096 * Z.of_nat i) 512) →
  words_at m (page_area l + 4096) (replicate 512 0) →
  ∃ root mm m' kernel_heap page t,
    init_memory l raw m = Ret (root, mm, m', kernel_heap, build_satp Sv39 0 root) ∧
    root_of_satp (build_satp Sv39 0 root) = root ∧
    (∀ va, in_word 39 va → mmu m' root va = section_view (system_regions l) va) ∧
    tree m' root t ∧ free_pages_ok mm m' t ∧ new_heap_at m' kernel_heap page ∧
    NoDup (heap_pages kernel_heap ++ [page]) ∧ ∀ x q, x ∈ heap_pages kernel_heap ++ [page] → t !! q ≠ Some x.
Proof.
  intros Hl Hsize Hlen Htables Hmap Hzero.
  destruct (init_memory_ok (regions_tables (system_regions l)) 0 l raw m)
    as (mm0 & root & mm & m' & h & page & t & Hi & Hr & Hk & Hnd & Hh); [done..|lia|done|done|].
  destruct (ks_space _ _ _ _ _ _ _ _ _ _ Hk). exists root, mm, m', h, page, t. split_and!; try done.
  - intros va Hva. by eapply kernel_mmu.
  - intros x q Hx. by apply so_priv0.
Qed.

(** C17: a new process sees its trap frame at the fixed address for the kernel
    only, two pages of its own stack, and the sections of the image at their own
    addresses with exactly the permissions granted to them; nothing else is
    mapped.  Its registers in memory are those of the frame the scheduler will
    switch to: the program counter, the top of the stack, a status word that
    returns to user mode (SPP clear) with interrupts enabled (SPIE set), and the
    satp value of its own root table. *)
Theorem process_address_space (l : Layout) (mm : MemoryManager) (m : memory) (k : kernel) (program_counter thread process : Z) :
  layout_ok l → free_pages_ok mm m ∅ → tail_free mm (size (process_tables l) + 4) → in_word 64 program_counter →
  ∃ root trap_frame stack mm' m',
    let satp := build_satp Sv39 1 root in
    let k' := add_process k program_counter root satp trap_frame thread process in
    create_dummy_process l mm m k program_counter thread process = Ret (root, mm', m', k') ∧
    root_of_satp satp = root ∧
    (∀ va, in_word 39 va → mmu m' root va = process_view l trap_frame stack va) ∧
    words_at m' stack (replicate 1024 0) ∧
    ∃ t f, threads k' !! thread = Some t ∧ m_trap_frame t = trap_frame ∧ frames k' !! trap_frame = Some f ∧
      words_at m' trap_frame (frame_words f) ∧ sepc f = program_counter ∧ kernel_satp f = satp ∧
      regs f !! 2%nat = Some STACK_ADDRESS ∧ Z.testbit (sstatus f) 8 = false ∧ Z.testbit (sstatus f) 5 = true.
Proof.
  intros Hl Hfree Htail Hpc.
  destruct (create_dummy_process_ok l 0 mm m k program_counter thread process) as (root & trap_frame & stack & mm' & m' & t & Hc & Hs & _ & _ & Hv & Hw & Hst);
    [done..|by rewrite Nat.add_0_r|done|].
  exists root, trap_frame, stack, mm', m'. cbv zeta. split_and!; [done| |done|done|].
  - destruct (tree_ok _ _ _ (so_tree _ _ _ _ _ _ _ Hs) [] root) as (? & ? & _); [apply Hs|].
    apply build_satp_root; [done|unfold in_word; lia].
  - eexists _, _. split; [apply lookup_insert_eq|]. split; [done|]. split; [apply lookup_insert_eq|]. by split_and!.
Qed.

(** Both processes, one after the other. *)
Lemma create_initial_processes_ok (l : Layout) (mm : MemoryManager) (m : memory) (k : kernel)
    (dummy_process_main console_main thread1 process1 thread2 process2 : Z) :
  layout_ok l → free_pages_ok mm m ∅ → tail_free mm (2 * (size (process_tables l) + 4)) →
  in_word 64 dummy_process_main → in_word 64 console_main →
  ∃ root1 frame1 stack1 root2 frame2 stack2 mm' m',
    let k' := add_process (add_process k dummy_process_main root1 (build_satp Sv39 1 root1) frame1 thread1 process1)
                console_main root2 (build_satp Sv39 1 root2) frame2 thread2 process2 in
    create_initial_processes l mm m k dummy_process_main console_main thread1 process1 thread2 process2 = Ret (root1, root2, mm', m', k') ∧
    (∀ va, in_word 39 va → mmu m' root1 va = process_view l frame1 stack1 va ∧ mmu m' root2 va = process_view l frame2 stack2 va) ∧
    NoDup [stack1; stack1 + 4096; frame1; stack2; stack2 + 4096; frame2] ∧
    Forall (free_page_at mm) [stack1; stack1 + 4096; frame1; stack2; stack2 + 4096; frame2] ∧
    (∀ root t va, tree m root t → free_pages_ok mm m t → mmu m' root va = mmu m root va).
Proof.
  intros Hl Hfree Htail Hpc1 Hpc2. set (n := (size (process_tables l) + 4)%nat) in *.
  destruct (create_dummy_process_ok l n mm m k dummy_process_main thread1 process1)
    as (root1 & frame1 & stack1 & mm1 & m1 & t1 & Hc1 & Hs1 & Htail1 & Hnd1 & Hv1 & _ & _); [done|done|by replace (size (process_tables l) + 4 + n)%nat with (2 * n)%nat by lia|done|].
  assert (free_pages_ok mm1 m1 ∅) as Hfree1 by (destruct (so_free _ _ _ _ _ _ _ Hs1); constructor; done).
  set (k1 := add_process _ _ _ _ _ _ _) in *.
  destruct (create_dummy_process_ok l 0 mm1 m1 k1 console_main thread2 process2)
    as (root2 & frame2 & stack2 & mm2 & m2 & t2 & Hc2 & Hs2 & _ & Hnd2 & Hv2 & _ & _); [done|done|by rewrite Nat.add_0_r|done|].
  exists root1, frame1, stack1, root2, frame2, stack2, mm2, m2. cbv zeta.
  pose proof (λ x Hx, so_priv _ _ _ _ _ _ _ Hs1 x Hx) as Hp1. pose proof (λ x Hx, so_priv _ _ _ _ _ _ _ Hs2 x Hx) as Hp2.
  split; [|split; [|split; [|split]]].
  - unfold create_initial_processes. rewrite Hc1. cbn [obind]. rewrite Hc2. done.
  - intros va Hva. split; [|by apply Hv2].
    destruct (space_other _ _ _ _ _ _ _ root1 t1 Hs2) as (_ & _ & ->); [apply Hs1|apply Hs1|by apply Hv1].
  - change (NoDup ([stack1; stack1 + 4096; frame1] ++ [stack2; stack2 + 4096; frame2])).
    apply NoDup_app. split; [done|]. split; [|done]. intros x Hx1 Hx2.
    destruct (Hp1 x Hx1) as (_ & [] & _). by apply Hp2.
  - change (Forall (free_page_at mm) ([stack1; stack1 + 4096; frame1] ++ [stack2; stack2 + 4096; frame2])).
    apply Forall_app. split; apply Forall_forall; intros x Hx; [by apply Hp1|].
    destruct (Hp2 x Hx) as (Hf & _). eapply takes_free_page; [apply (so_takes _ _ _ _ _ _ _ Hs1)|done].
  - intros root t va Ht Hf. destruct (space_other _ _ _ _ _ _ _ root t Hs1 Ht Hf) as (Ht1 & Hf1 & <-).
    by destruct (space_other _ _ _ _ _ _ _ root t Hs2 Ht1 Hf1) as (_ & _ & ->).
Qed.

(** C18: the two initial processes are isolated: each sees its own trap frame and
    stack, the six pages of these are all different and were free before, and
    every address space that existed before, the kernel's in particular,
    translates every address as it did.  Both threads are at the end of the run
    queue, in order. *)
Theorem initial_processes_isolated (l : Layout) (mm : MemoryManager) (m : memory) (k : kernel)
    (dummy_process_main console_main thread1 process1 thread2 process2 : Z) :
  layout_ok l → free_pages_ok mm m ∅ → tail_free mm (2 * (size (process_tables l) + 4)) →
  in_word 64 dummy_process_main → in_word 64 console_main →
  ∃ root1 frame1 stack1 root2 frame2 stack2 mm' m' k',
    create_initial_processes l mm m k dummy_process_main console_main thread1 process1 thread2 process2 = Ret (root1, root2, mm', m', k') ∧
    (∀ va, in_word 39 va → mmu m' root1 va = process_view l frame1 stack1 va ∧ mmu m' root2 va = process_view l frame2 stack2 va) ∧
    NoDup [stack1; stack1 + 4096; frame1; stack2; stack2 + 4096; frame2] ∧
    Forall (free_page_at mm) [stack1; stack1 + 4096; frame1; stack2; stack2 + 4096; frame2] ∧
    (∀ root t va, tree m root t → free_pages_ok mm m t → mmu m' root va = mmu m root va) ∧
    m_run_queue k' = m_run_queue k ++ [thread1; thread2].
Proof.
  intros Hl Hfree Htail Hpc1 Hpc2.
  destruct (create_initial_processes_ok l mm m k dummy_process_main console_main thread1 process1 thread2 process2)
    as (root1 & frame1 & stack1 & root2 & frame2 & stack2 & mm' & m' & Hc & Hrest); [done..|].
  exists root1, frame1, stack1, root2, frame2, stack2, mm', m'. eexists. split; [exact Hc|].
  destruct Hrest as (Hv & Hnd & Hf & Ho). split_and!; [done..|]. simpl. by rewrite <- app_assoc.
Qed.

(** ** Witnesses *)
Definition sample_layout : Layout :=
  mkLayout 0x80000000 0x80000800 0x80001000 0x80001010 0x80000800 0x80000900 0x80002000 0x80002100
    0x80002100 0x80003000 0x80001010 0x80001100 0x80003000 0x80005000 0x80010000 409600.

Definition sample_area : memory := zero_page_memory 0x80011000 0 (512 * 100).

Lemma sample_layout_ok : layout_ok sample_layout.
Proof. repeat split; vm_compute; discriminate. Qed.

Lemma sample_area_words i k : (i < 100)%nat → (k < 512)%nat → sample_area !! (0x80011000 + 4096 * Z.of_nat i + 8 * Z.of_nat k) = Some 0.
Proof.
  intros Hi Hk. apply zero_page_memory_lookup; [by exists 268444160| |lia].
  exists (268444160 + 512 * Z.of_nat i + Z.of_nat k). lia.
Qed.

Lemma sample_area_mapped i : (i < 100)%nat → mapped sample_area (0x80011000 + 4096 * Z.of_nat i) 512.
Proof.
  intros Hi. split; [apply word_aligned_iff; exists (268444160 + 512 * Z.of_nat i); lia|].
  intros k Hk. exists 0. by apply sample_area_words.
Qed.

Lemma sample_area_clear : words_at sample_area (0x80011000 + 4096) (replicate 512 0).
Proof. intros k w [-> Hk]%lookup_replicate. apply (sample_area_words 1); [lia|done]. Qed.

Lemma sample_init : ∃ mm, init 0x80010000 409600 (replicate 100 Taken) = Ret mm ∧ free_pages_ok mm sample_area ∅ ∧ tail_free mm 99.
Proof.
  destruct (init_free_pages sample_layout (replicate 100 Taken) sample_area sample_layout_ok) as (mm & Hi & Hf & _ & _ & Ht);
    [by vm_compute|by vm_compute|rewrite length_replicate; lia|apply sample_area_mapped|].
  rewrite length_replicate in Ht. exists mm. split; [exact Hi|]. split; [exact Hf|exact Ht].
Qed.

Lemma sample_system_tables : size (regions_tables (system_regions sample_layout)) = 7%nat.
Proof. vm_compute. reflexivity. Qed.

Lemma sample_process_tables : size (process_tables sample_layout) = 6%nat.
Proof. vm_compute. reflexivity. Qed.

Lemma sample_system_view :
  in_word 39 0x80000010 ∧ in_word 39 0x80008000 ∧
  section_view (system_regions sample_layout) 0x80000010 = Some (0x80000010, 5) ∧
  section_view (system_regions sample_layout) 0x80008000 = None.
Proof. by vm_compute. Qed.

Lemma sample_process_view frame stack :
  in_word 39 0x80000010 ∧ in_word 39 0x1008 ∧ in_word 39 0xeffffff8 ∧ in_word 39 0x80010000 ∧
  process_view sample_layout frame stack 0x80000010 = Some (0x80000010, 13) ∧
  process_view sample_layout frame stack 0x1008 = Some (frame + 8, 3) ∧
  process_view sample_layout frame stack 0xeffffff8 = Some (stack + 8184, 11) ∧
  process_view sample_layout frame stack 0x80010000 = None.
Proof. by vm_compute. Qed.

Lemma init_memory_space_witness :
  ∃ root mm m' kernel_heap, init_memory sample_layout (replicate 100 Taken) sample_area =
      Ret (root, mm, m', kernel_heap, build_satp Sv39 0 root) ∧
    mmu m' root 0x80000010 = Some (0x80000010, 5) ∧ mmu m' root 0x80008000 = None.
Proof.
  destruct (init_memory_space sample_layout (replicate 100 Taken) sample_area sample_layout_ok)
    as (root & mm & m' & h & page & t & Hi & _ & Hv & _);
    [by vm_compute|by vm_compute|rewrite sample_system_tables; simpl; lia|apply sample_area_mapped|apply sample_area_clear|].
  exists root, mm, m', h. split; [exact Hi|]. destruct sample_system_view as (H1 & H2 & <- & <-).
  split; [exact (Hv _ H1)|exact (Hv _ H2)].
Defined.

Lemma sample_programs : in_word 64 0x80000000 ∧ in_word 64 0x80000100.
Proof. by vm_compute. Qed.

Lemma process_address_space_witness :
  ∃ mm root mm' m' k' frame stack, init 0x80010000 409600 (replicate 100 Taken) = Ret mm ∧
    create_dummy_process sample_layout mm sample_area example_table 0x80000000 7000 8000 = Ret (root, mm', m', k') ∧
    mmu m' root 0x80000010 = Some (0x80000010, 13) ∧ mmu m' root 0x1008 = Some (frame + 8, 3) ∧
    mmu m' root 0xeffffff8 = Some (stack + 8184, 11) ∧ mmu m' root 0x80010000 = None.
Proof.
  destruct sample_init as (mm & Hi & Hf & Ht).
  destruct (process_address_space sample_layout mm sample_area example_table 0x80000000 7000 8000 sample_layout_ok Hf)
    as (root & frame & stack & mm' & m' & Hc & _ & Hv & _); [eapply tail_free_le; [|exact Ht]; rewrite sample_process_tables; lia|apply sample_programs|].
  exists mm, root, mm', m'. eexists. exists frame, stack. split; [exact Hi|]. split; [exact Hc|].
  destruct (sample_process_view frame stack) as (H1 & H2 & H3 & H4 & <- & <- & <- & <-).
  split; [exact (Hv _ H1)|]. split; [exact (Hv _ H2)|]. split; [exact (Hv _ H3)|exact (Hv _ H4)].
Defined.

Lemma initial_processes_isolated_witness :
  ∃ mm root1 root2 mm' m' k' stack1 stack2, init 0x80010000 409600 (replicate 100 Taken) = Ret mm ∧
    create_initial_processes sample_layout mm sample_area example_table 0x80000000 0x80000100 7000 8000 7100 8100 = Ret (root1, root2, mm', m', k') ∧
    mmu m' root1 0xeffffff8 = Some (stack1 + 8184, 11) ∧ mmu m' root2 0xeffffff8 = Some (stack2 + 8184, 11) ∧ stack1 ≠ stack2.
Proof.
  destruct sample_init as (mm & Hi & Hf & Ht).
  destruct (initial_processes_isolated sample_layout mm sample_area example_table 0x80000000 0x80000100 7000 8000 7100 8100 sample_layout_ok Hf)
    as (root1 & frame1 & stack1 & root2 & frame2 & stack2 & mm' & m' & k' & Hc & Hv & Hnd & _);
    [eapply tail_free_le; [|exact Ht]; rewrite sample_process_tables; lia|apply sample_programs|apply sample_programs|].
  exists mm, root1, root2, mm', m', k', stack1, stack2. split; [exact Hi|]. split; [exact Hc|].
  destruct (sample_process_view frame1 stack1) as (_ & _ & H3 & _ & _ & _ & <- & _).
  destruct (sample_process_view frame2 stack2) as (_ & _ & _ & _ & _ & _ & <- & _).
  destruct (Hv _ H3) as [Hv1 Hv2]. split; [exact Hv1|]. split; [exact Hv2|].
  intros <-. apply NoDup_cons in Hnd as [Hn _]. apply Hn. do 2 right. by left.
Defined.
