(* ===== verification/Boot.v ===== *)
(** The start of the system: [class System] of [System/System.cpp] with the kernel
    trap frames of the harts, and the part of [kmain] of [Kernel/Init.cpp] that
    sets up memory ([AddressSpace.v] has [init_memory]).

    The firmware is a parameter: the error that [SBI::sbi_hart_get_status] gives
    for a hart. *)
From S2P Require Import Prelude Bits Machine Files Processes PageAllocator KernelHeap Paging AddressSpace.

Section System.
Context (sbi_hart_get_status : Z → Z).

(** [System::init_harts]: the loop over the possible harts, [n] of them left. *)
Fixpoint count_harts (i : Z) (n : nat) (m_number_of_harts : Z) : Z :=
  match n with
  | O => m_number_of_harts
  | S n' => if sbi_hart_get_status i =? -3 then m_number_of_harts else count_harts (i + 1) n' (u64 (m_number_of_harts + 1))
  end.

Definition init_harts : Z := count_harts 0 100 0.

(** The members of a [KernelTrapFrame] that the constructor assigns: [cpu_id],
    [regs[2]], [kernel_sp], [kernel_trap_frame_ptr], [kernel_satp]. *)
Definition write_hart_frame (m : memory) (frame hart_stack_top satp i : Z) : outcome memory :=
  let! m := write64 m (u64 (frame + 576)) i in
  let! m := write64 m (u64 (frame + 8 * 2)) hart_stack_top in
  let! m := write64 m (u64 (frame + 552)) hart_stack_top in
  let! m := write64 m (u64 (frame + 560)) frame in
  write64 m (u64 (frame + 544)) satp.

(** The loop of [System::System]. *)
Fixpoint hart_frames (i : Z) (n : nat) (satp : Z) (mm : MemoryManager) (m : memory) (m_kernel_trap_frames : list Z) :
    outcome (list Z * MemoryManager * memory) :=
  match n with
  | O => Ret (m_kernel_trap_frames, mm, m)
  | S n' =>
      let! r := zalloc mm m 1 in
      let '(kernel_trap_frame, mm, m) := r in
      let! r := zalloc mm m 2 in
      let '(hart_stack_bottom, mm, m) := r in
      let! m := write_hart_frame m kernel_trap_frame (u64 (hart_stack_bottom + 4096 * 2)) satp i in
      hart_frames (i + 1) n' satp mm m (m_kernel_trap_frames ++ [kernel_trap_frame])
  end.

Definition new_system (satp : Z) (mm : MemoryManager) (m : memory) : outcome (list Z * MemoryManager * memory) :=
  hart_frames 0 (Z.to_nat init_harts) satp mm m [].

(** [get_kernel_trap_frame]; [hart_init] puts it into the registers sscratch and tp. *)
Definition get_kernel_trap_frame (m_kernel_trap_frames : list Z) (hart_id : Z) : outcome Z :=
  defined (m_kernel_trap_frames !! Z.to_nat hart_id).

(** [kmain] up to the mapping of the device tree blob: the root table, the frames
    of the harts, the value of tp and the allocator of the kernel heap.  The objects
    that [Logger::init] and [System::init] make with [new] are in the pages of that
    heap, whose words are those of [KernelHeap.v] and not followed here. *)
Definition boot_memory (l : Layout) (raw : list PageStatus) (m : memory) (header totalsize : Z) :
    outcome (Z * list Z * Z * KernelMemoryAllocator * MemoryManager * memory) :=
  let! r := init_memory l raw m in
  let '(page_table, mm, m, kernel_heap, satp) := r in
  let! r := new_system satp mm m in
  let '(frames, mm, m) := r in
  let! tp := get_kernel_trap_frame frames 0 in
  let! s := identity_map_range mm m page_table header (u64 (header + totalsize)) READ_WRITE in
  Ret (page_table, frames, tp, kernel_heap, s.1, s.2).

(** * Specification *)

(** The number of harts is [n]: the firmware knows the first [n], and not the next one. *)
Definition harts_are (n : nat) : Prop :=
  (n ≤ 100)%nat ∧ (∀ i : nat, (i < n)%nat → sbi_hart_get_status (Z.of_nat i) ≠ -3) ∧
  (n = 100%nat ∨ sbi_hart_get_status (Z.of_nat n) = -3).

Lemma count_harts_spec n d : ∀ i k, harts_are n → (i + d = n)%nat → (d ≤ k)%nat → (n = 100 → k = d)%nat →
  count_harts (Z.of_nat i) k (Z.of_nat i) = Z.of_nat n.
Proof using.
  induction d as [|d IH]; intros i k Hn Hi Hk H100.
  - destruct k as [|k]; cbn [count_harts]; [f_equal; lia|]. destruct Hn as (_ & _ & [Hn|Hn]); [specialize (H100 Hn); lia|].
    replace i with n by lia. by rewrite Hn.
  - destruct k as [|k]; [lia|]. cbn [count_harts]. destruct Hn as (Hn & Hs & Hl).
    rewrite (proj2 (Z.eqb_neq _ _)) by (apply Hs; lia).
    rewrite wrap_small by (unfold in_word; lia). replace (Z.of_nat i + 1) with (Z.of_nat (S i)) by lia.
    apply IH; [done|lia|lia|]. intros E. specialize (H100 E). lia.
Qed.

Lemma init_harts_spec n : harts_are n → init_harts = Z.of_nat n.
Proof using. intros Hn. apply (count_harts_spec n n 0 100); [done|lia|apply Hn|lia]. Qed.
End System.

(** The frame of a hart, and the words of a [KernelTrapFrame]. *)
Definition hart_frame (i frame stack satp : Z) : KernelTrapFrame :=
  mkKernelFrame (mkTrapFrame (<[2%nat := stack + 8192]> (replicate 32 0)) (replicate 32 0) 0 0 0 0 satp (stack + 8192) frame 0) i 0 0.

Definition kernel_frame_words (f : KernelTrapFrame) : list Z :=
  frame_words (base f) ++ [cpu_id f; current_thread_id f; current_process_id f].

(** The pages of the frames and stacks, the last ones first. *)
Fixpoint hart_pages (hs : list (Z * Z)) : list Z :=
  match hs with
  | [] => []
  | (frame, stack) :: hs' => hart_pages hs' ++ [stack; stack + 4096; frame]
  end.

Section Harts.
Context (P : gset (list Z)) (mm0 : MemoryManager) (m0 : memory) (root : Z) (t : tables) (rs : list region) (satp : Z).

(** The five stores to a cleared page make the frame of the hart. *)
Lemma write_hart_frame_ok spare mm m priv frame stack i :
  kernel_space P mm0 m0 spare mm m root t rs priv → frame ∈ priv → words_at m frame (replicate 512 0) →
  in_word 64 (stack + 8192) → in_word 64 i → in_word 64 satp → in_word 64 frame →
  ∃ m', write_hart_frame m frame (stack + 8192) satp i = Ret m' ∧ kernel_space P mm0 m0 spare mm m' root t rs priv ∧
    words_at m' frame (kernel_frame_words (hart_frame i frame stack satp)) ∧
    ∀ y b, y ∈ priv → y ≠ frame → in_page y b → m' !! b = m !! b.
Proof using All.
  intros Hk Hf Hz Htop Hi Hsatp Hfw. unfold write_hart_frame.
  change 576 with (8 * Z.of_nat 72). change (8 * 2) with (8 * Z.of_nat 2). change 552 with (8 * Z.of_nat 69).
  change 560 with (8 * Z.of_nat 70). change 544 with (8 * Z.of_nat 68).
  destruct (kernel_write _ _ _ _ _ _ _ _ _ _ frame _ 72 i Hk Hf Hz) as (m1 & -> & Hk1 & Hw1 & Hm1); [simpl; lia|done|]. cbn [obind].
  destruct (kernel_write _ _ _ _ _ _ _ _ _ _ frame _ 2 (stack + 8192) Hk1 Hf Hw1) as (m2 & -> & Hk2 & Hw2 & Hm2); [simpl; lia|done|]. cbn [obind].
  destruct (kernel_write _ _ _ _ _ _ _ _ _ _ frame _ 69 (stack + 8192) Hk2 Hf Hw2) as (m3 & -> & Hk3 & Hw3 & Hm3); [simpl; lia|done|]. cbn [obind].
  destruct (kernel_write _ _ _ _ _ _ _ _ _ _ frame _ 70 frame Hk3 Hf Hw3) as (m4 & -> & Hk4 & Hw4 & Hm4); [simpl; lia|done|]. cbn [obind].
  destruct (kernel_write _ _ _ _ _ _ _ _ _ _ frame _ 68 satp Hk4 Hf Hw4) as (m5 & -> & Hk5 & Hw5 & Hm5); [simpl; lia|done|].
  exists m5. split; [done|]. split; [done|]. split.
  - intros j w Hj. apply Hw5.
    transitivity ((kernel_frame_words (hart_frame i frame stack satp) ++ replicate 437 0) !! j); [reflexivity|]. by apply lookup_app_l_Some.
  - intros y b Hy Hne Hb. by rewrite (Hm5 y), (Hm4 y), (Hm3 y), (Hm2 y), (Hm1 y).
Qed.

(** One iteration of the loop. *)
Lemma hart_ok spare mm m priv i n frames :
  kernel_space P mm0 m0 (3 + spare) mm m root t rs priv → NoDup priv → in_word 64 i → in_word 64 satp →
  ∃ frame stack mm' m',
    hart_frames i (S n) satp mm m frames = hart_frames (i + 1) n satp mm' m' (frames ++ [frame]) ∧
    kernel_space P mm0 m0 spare mm' m' root t rs ([stack; stack + 4096; frame] ++ priv) ∧
    NoDup ([stack; stack + 4096; frame] ++ priv) ∧
    words_at m' frame (kernel_frame_words (hart_frame i frame stack satp)) ∧ words_at m' stack (replicate 1024 0) ∧
    ∀ x b, x ∈ priv → in_page x b → m' !! b = m !! b.
Proof using All.
  intros Hk Hnd Hi Hsatp. cbn [hart_frames].
  destruct (kernel_zalloc P mm0 m0 (2 + spare) mm m root t rs priv 1 Hk) as (j & m1 & Hz1 & Hk1 & Hw1 & Hn1 & Hm1); [lia|done|].
  change (Z.of_nat 1) with 1 in Hz1. rewrite Hz1. cbn [obind].
  change (block_pages mm j 1) with [page_address mm (j + 0)] in *. rewrite Nat.add_0_r in *. set (frame := page_address mm j) in *.
  destruct (kernel_zalloc P mm0 m0 spare _ m1 root t rs _ 2 Hk1) as (s & m2 & Hz2 & Hk2 & Hw2 & Hn2 & Hm2); [lia|done|].
  change (Z.of_nat 2) with 2 in Hz2. rewrite Hz2. cbn [obind]. rewrite block_pages_two in Hk2, Hn2. set (stack := page_address _ s) in *.
  destruct (so_priv _ _ _ _ _ _ _ (ks_space _ _ _ _ _ _ _ _ _ _ Hk2) frame) as (_ & _ & (_ & Hfb & _) & _); [right; right; by left|].
  destruct (so_priv _ _ _ _ _ _ _ (ks_space _ _ _ _ _ _ _ _ _ _ Hk2) stack) as (_ & _ & (_ & Hsb & _) & _); [by left|].
  rewrite (wrap_small 64 (stack + 4096 * 2)) by (unfold in_word; lia).
  assert (∀ x b, x ∈ frame :: priv → in_page x b → m2 !! b = m1 !! b) as Hm2' by exact Hm2.
  destruct (write_hart_frame_ok spare _ m2 _ frame stack i Hk2) as (m3 & Hwr & Hk3 & Hw3 & Hm3); [right; right; by left| |unfold in_word; lia|done|done|unfold in_word; lia|].
  { eapply words_at_keep; [exact Hw1|simpl; lia|]. intros b Hb. apply (Hm2' frame); [by left|done]. }
  change (stack + 4096 * 2) with (stack + 8192). rewrite Hwr. cbn [obind].
  exists frame, stack, (taking (taking mm j 1) s 2), m3. split; [done|]. split; [done|].
  assert (NoDup ([stack; stack + 4096; frame] ++ priv)) as Hnd'.
  { change (NoDup ([stack; stack + 4096] ++ frame :: priv)). apply NoDup_app. split; [|split; [done|]].
    - apply NoDup_cons. split; [|apply NoDup_singleton]. rewrite list_elem_of_singleton. lia.
    - apply NoDup_cons. split; [apply Hn1; by left|done]. }
  split; [done|]. split; [done|].
  assert (∀ x, x ∈ [stack; stack + 4096] ++ priv → x ≠ frame) as Hne.
  { intros x Hx ->. apply elem_of_app in Hx as [Hx|Hx]; [by apply (Hn2 frame Hx); left|]. by apply (Hn1 frame); [left|]. }
  split.
  - intros k w Hkw. pose proof (lookup_lt_Some _ _ _ Hkw) as Hlt. rewrite length_replicate in Hlt.
    destruct (decide (k < 512)%nat); [rewrite (Hm3 stack)|rewrite (Hm3 (stack + 4096))];
      first [by apply Hw2|unfold in_page; lia|apply Hne; by repeat first [left|right]|by repeat first [left|right]|idtac].
  - intros x b Hx Hb. rewrite (Hm3 x), (Hm2' x), (Hm1 x); first [done|by right|by do 3 right|apply Hne, elem_of_app; by right].
Qed.
End Harts.

(** The loop makes the frames of [n] harts. *)
Lemma hart_frames_ok P mm0 m0 root t rs satp spare n : ∀ mm m priv (i : nat) frames,
  kernel_space P mm0 m0 (3 * n + spare) mm m root t rs priv → NoDup priv → Z.of_nat (i + n) < 2 ^ 64 → in_word 64 satp →
  ∃ hs mm' m',
    hart_frames (Z.of_nat i) n satp mm m frames = Ret (frames ++ hs.*1, mm', m') ∧ length hs = n ∧
    kernel_space P mm0 m0 spare mm' m' root t rs (hart_pages hs ++ priv) ∧ NoDup (hart_pages hs ++ priv) ∧
    (∀ j frame stack, hs !! j = Some (frame, stack) →
      words_at m' frame (kernel_frame_words (hart_frame (Z.of_nat (i + j)) frame stack satp)) ∧ words_at m' stack (replicate 1024 0)) ∧
    ∀ x b, x ∈ priv → in_page x b → m' !! b = m !! b.
Proof.
  induction n as [|n IH]; intros mm m priv i frames Hk Hnd Hi Hsatp.
  { exists [], mm, m. simpl. rewrite app_nil_r. split_and!; done. }
  replace (3 * S n + spare)%nat with (3 + (3 * n + spare))%nat in Hk by lia.
  destruct (hart_ok P mm0 m0 root t rs satp _ mm m priv (Z.of_nat i) n frames Hk Hnd)
    as (frame & stack & mm1 & m1 & -> & Hk1 & Hnd1 & Hf1 & Hs1 & Hm1); [unfold in_word; lia|done|].
  replace (Z.of_nat i + 1) with (Z.of_nat (S i)) by lia.
  destruct (IH mm1 m1 _ (S i) (frames ++ [frame]) Hk1 Hnd1) as (hs & mm2 & m2 & -> & Hl & Hk2 & Hnd2 & Hw2 & Hm2); [lia|done|].
  exists ((frame, stack) :: hs), mm2, m2. cbn [hart_pages fmap list_fmap fst]. rewrite <- !app_assoc. split; [done|].
  split; [simpl; lia|]. split; [done|]. split; [done|]. split.
  - intros [|j] f s Hj; [|replace (i + S j)%nat with (S i + j)%nat by lia; by apply Hw2].
    injection Hj as <- <-. rewrite Nat.add_0_r. split.
    + eapply words_at_keep; [exact Hf1|simpl; lia|]. intros b Hb. apply (Hm2 frame); [|done]. by repeat first [left|right].
    + intros k w Hkw. pose proof (lookup_lt_Some _ _ _ Hkw) as Hlt. rewrite length_replicate in Hlt.
      destruct (decide (k < 512)%nat); [rewrite (Hm2 stack)|rewrite (Hm2 (stack + 4096))];
        first [by apply Hs1|by repeat first [left|right]|unfold in_page; lia].
  - intros x b Hx Hb. rewrite (Hm2 x); [by apply (Hm1 x)|by do 3 right|done].
Qed.

Lemma hart_pages_elem hs i frame stack :
  hs !! i = Some (frame, stack) → frame ∈ hart_pages hs ∧ stack ∈ hart_pages hs ∧ stack + 4096 ∈ hart_pages hs.
Proof.
  revert i. induction hs as [|[f s] hs IH]; intros [|i] Hi; [done..| |]; cbn [hart_pages].
  - injection Hi as <- <-. rewrite !elem_of_app. split_and!; right; by repeat first [left|right].
  - rewrite !elem_of_app. destruct (IH i Hi) as (? & ? & ?). split_and!; by left.
Qed.


(** Two harts on the sample of [AddressSpace.v]. *)
Definition two_harts (i : Z) : Z := if i <? 2 then 0 else -3.

Lemma sample_boot_tables : size (regions_tables (system_regions sample_layout ++ [mkRegion 0x82000000 0x82001000 READ_WRITE])) = 8%nat.
Proof. vm_compute. reflexivity. Qed.

