(* ===== verification/Sbi.v ===== *)
(** Requests to the firmware: [SBI/SBI.cpp] and [SBI/SBI.h].

    The firmware is an interface: it gets the registers of a request and answers
    with the registers [a0] and [a1].  What the other files take of it, the status
    of a hart ([Boot.v]), the characters of the console ([Logger.v]) and the timer
    ([Interrupts.v]), are requests of this file. *)
From S2P Require Import Prelude Bits Bytes Boot.

(** * [SBI.h] *)
Inductive SBIExtensionIDs : Type :=
| SBI_EXT_0_1_SET_TIMER | SBI_EXT_0_1_CONSOLE_PUTCHAR | SBI_EXT_0_1_CONSOLE_GETCHAR | SBI_EXT_0_1_CLEAR_IPI
| SBI_EXT_0_1_SEND_IPI | SBI_EXT_0_1_REMOTE_FENCE_I | SBI_EXT_0_1_REMOTE_SFENCE_VMA
| SBI_EXT_0_1_REMOTE_SFENCE_VMA_ASID | SBI_EXT_0_1_SHUTDOWN | SBI_EXT_BASE | SBI_EXT_TIME | SBI_EXT_IPI
| SBI_EXT_RFENCE | SBI_EXT_HSM | SBI_EXT_SRST | SBI_EXT_PMU | SBI_EXT_CONSOLE | SBI_EXT_EXPERIMENTAL_START
| SBI_EXT_EXPERIMENTAL_END | SBI_EXT_VENDOR_START | SBI_EXT_VENDOR_END.

Definition extension_id (e : SBIExtensionIDs) : Z :=
  match e with
  | SBI_EXT_0_1_SET_TIMER => 0x0
  | SBI_EXT_0_1_CONSOLE_PUTCHAR => 0x1
  | SBI_EXT_0_1_CONSOLE_GETCHAR => 0x2
  | SBI_EXT_0_1_CLEAR_IPI => 0x3
  | SBI_EXT_0_1_SEND_IPI => 0x4
  | SBI_EXT_0_1_REMOTE_FENCE_I => 0x5
  | SBI_EXT_0_1_REMOTE_SFENCE_VMA => 0x6
  | SBI_EXT_0_1_REMOTE_SFENCE_VMA_ASID => 0x7
  | SBI_EXT_0_1_SHUTDOWN => 0x8
  | SBI_EXT_BASE => 0x10
  | SBI_EXT_TIME => 0x54494D45
  | SBI_EXT_IPI => 0x735049
  | SBI_EXT_RFENCE => 0x52464E43
  | SBI_EXT_HSM => 0x48534D
  | SBI_EXT_SRST => 0x53525354
  | SBI_EXT_PMU => 0x504D55
  | SBI_EXT_CONSOLE => 0x4442434E
  | SBI_EXT_EXPERIMENTAL_START => 0x08000000
  | SBI_EXT_EXPERIMENTAL_END => 0x08FFFFFF
  | SBI_EXT_VENDOR_START => 0x09000000
  | SBI_EXT_VENDOR_END => 0x09FFFFFF
  end.

Record SBIRet : Type := mkRet { error : Z; value : Z }.

(** A register as a [long]. *)
Definition to_long (x : Z) : Z := if u64 x <? 2 ^ 63 then u64 x else u64 x - 2 ^ 64.

(** The registers of a request: [a0] to [a5], [a6] and [a7]. *)
Record request : Type := mkRequest { r_args : list Z; r_fid : Z; r_ext : Z }.

Class Firmware (W : Type) : Type := firmware : request → W → Z * Z * W.

Section SBI.
Context {W : Type} `{Firmware W}.

(** [int] parameters are extended with their sign. *)
Definition sbi_ecall (ext fid arg0 arg1 arg2 arg3 arg4 arg5 : Z) (w : W) : SBIRet * W :=
  let '(a0, a1, w) := firmware (mkRequest [u64 arg0; u64 arg1; u64 arg2; u64 arg3; u64 arg4; u64 arg5] (u64 fid) (u64 ext)) w in
  (mkRet (to_long a0) (to_long a1), w).

Definition sbi_console_putchar (ch : Z) (w : W) : W :=
  (sbi_ecall (extension_id SBI_EXT_0_1_CONSOLE_PUTCHAR) 0 ch 0 0 0 0 0 w).2.

Definition sbi_remote_sfence_vma_asid (hart_mask hart_mask_base start_addr size asid : Z) : W → SBIRet * W :=
  sbi_ecall (extension_id SBI_EXT_RFENCE) 2 hart_mask hart_mask_base start_addr size asid 0.

Definition sbi_hart_get_status (hartid : Z) : W → SBIRet * W :=
  sbi_ecall (extension_id SBI_EXT_HSM) 2 hartid 0 0 0 0 0.

Definition sbi_hart_stop : W → SBIRet * W := sbi_ecall (extension_id SBI_EXT_HSM) 1 0 0 0 0 0 0.

Definition sbi_set_timer (stime_value : Z) (w : W) : W :=
  (sbi_ecall (extension_id SBI_EXT_TIME) 0 stime_value 0 0 0 0 0 w).2.

Definition sbi_debug_console_write (num_bytes base_addr_lo base_addr_hi : Z) : W → SBIRet * W :=
  sbi_ecall (extension_id SBI_EXT_CONSOLE) 0 num_bytes base_addr_lo base_addr_hi 0 0 0.

Definition sbi_debug_console_read (num_bytes base_addr_lo base_addr_hi : Z) : W → SBIRet * W :=
  sbi_ecall (extension_id SBI_EXT_CONSOLE) 1 num_bytes base_addr_lo base_addr_hi 0 0 0.

Definition sbi_debug_console_write_byte (byte : Z) : W → SBIRet * W :=
  sbi_ecall (extension_id SBI_EXT_CONSOLE) 2 (u8 byte) 0 0 0 0 0.

(** [System::init_harts] with its requests: the loop of [Boot.count_harts]. *)
Fixpoint probe_harts (i : Z) (n : nat) (m_number_of_harts : Z) (w : W) : Z * W :=
  match n with
  | O => (m_number_of_harts, w)
  | S n' =>
      let '(hart, w) := sbi_hart_get_status i w in
      if error hart =? -3 then (m_number_of_harts, w) else probe_harts (i + 1) n' (u64 (m_number_of_harts + 1)) w
  end.

(** [DebugConsole::print] of each character, before the console device takes over. *)
Definition putchars (text : bytes) (w : W) : W := foldl (λ w c, sbi_console_putchar c w) w text.

(** The error that the firmware gives for a hart in the world [w]. *)
Definition hart_error (w : W) (hartid : Z) : Z := error (sbi_hart_get_status hartid w).1.

(** Asking for the status of harts counts them as [Boot.v] does, for a firmware that
    does not change for being asked. *)
Lemma probe_harts_count n : ∀ i k w, (∀ hartid, (sbi_hart_get_status hartid w).2 = w) →
  probe_harts i n k w = (count_harts (hart_error w) i n k, w).
Proof.
  induction n as [|n IH]; intros i k w Hw; [done|]. cbn [probe_harts count_harts]. unfold hart_error at 1.
  specialize (Hw i) as Hi. destruct (sbi_hart_get_status i w) as [r w']. cbn in Hi |- *. subst w'.
  destruct (error r =? -3); [done|]. by apply IH.
Qed.
End SBI.

(** Two requests never share their registers: the extensions have distinct numbers. *)
Lemma extension_id_inj e1 e2 : extension_id e1 = extension_id e2 → e1 = e2.
Proof. destruct e1, e2; intros Heq; first [reflexivity|discriminate Heq]. Qed.

Lemma to_long_small x : - 2 ^ 63 ≤ x < 2 ^ 63 → to_long x = x.
Proof.
  intros Hx. unfold to_long. destruct (Z.leb_spec 0 x).
  - rewrite wrap_small by (unfold in_word; lia). by rewrite (proj2 (Z.ltb_lt _ _)) by lia.
  - assert (u64 x = x + 2 ^ 64) as ->.
    { unfold wrap. symmetry. apply Z.mod_unique with (-1); lia. }
    rewrite (proj2 (Z.ltb_ge _ _)) by lia. lia.
Qed.

(** ** A firmware with a console, a timer and some harts *)
Record board : Type := mkBoard { console : bytes; timers : list Z; harts : Z }.

#[export] Instance board_firmware : Firmware board := λ r b,
  let a := default 0 (head (r_args r)) in
  if r_ext r =? extension_id SBI_EXT_0_1_CONSOLE_PUTCHAR then (0, 0, mkBoard (console b ++ [u8 a]) (timers b) (harts b))
  else if r_ext r =? extension_id SBI_EXT_TIME then (0, 0, mkBoard (console b) (timers b ++ [a]) (harts b))
  else if (r_ext r =? extension_id SBI_EXT_HSM) && (r_fid r =? 2) then
    if a <? harts b then (0, 0, b) else (2 ^ 64 - 3, 0, b)
  else (2 ^ 64 - 2, 0, b).

Lemma putchars_board text b : Forall is_byte text →
  putchars text b = mkBoard (console b ++ text) (timers b) (harts b).
Proof.
  revert b. induction text as [|c text IH]; intros b Hb; [cbn; rewrite app_nil_r; by destruct b|].
  apply Forall_cons in Hb as [Hc Hb]. unfold putchars in IH |- *. cbn [foldl]. rewrite IH by done.
  assert (sbi_console_putchar c b = mkBoard (console b ++ [u8 (u64 c)]) (timers b) (harts b)) as -> by reflexivity.
  assert (u8 (u64 c) = c) as ->. { unfold is_byte in Hc. rewrite (wrap_small 64 c) by (unfold in_word in *; lia). by apply wrap_small. }
  cbn [console timers harts]. by rewrite <- app_assoc.
Qed.

Lemma probe_board n : (0 ≤ n ≤ 100) → ∃ b, probe_harts 0 100 0 (mkBoard [] [] n) = (init_harts (hart_error (mkBoard [] [] n)), b).
Proof.
  intros Hn. eexists. apply probe_harts_count. intros i. unfold sbi_hart_get_status, sbi_ecall, firmware, board_firmware. cbn.
  by destruct (_ <? n).
Qed.
