(* ===== verification/Trap.v ===== *)
(** The assembly that enters and leaves traps: [Arch/riscv64/trap.S], with the
    register accesses of [Arch/riscv64/CPU.cpp] it shares with the kernel.

    The program is a list of instructions, run on a hart and the physical memory;
    every access goes through the walk of the MMU ([AddressSpace.v]).  [None] is
    an access or a fetch that faults.  The instructions mean what the RISC-V
    manuals say of them.  The position in the code is the list of the instructions
    left, whose addresses all lie in one page, [code]; the FS field of sstatus
    does not become dirty, and there is no TLB, so that fences do nothing. *)
From S2P Require Import Prelude Bits Machine PageAllocator Processes Paging AddressSpace Boot.

(** * The hart *)
Inductive csr : Type := Sscratch | Sepc | Sstatus | Scause | Stval | Satp | Stvec | Sie.

Record csr_file : Type := mkCsrs {
  c_sscratch : Z; c_sepc : Z; c_sstatus : Z; c_scause : Z; c_stval : Z; c_satp : Z; c_stvec : Z; c_sie : Z
}.

Definition read_csr (c : csr) (f : csr_file) : Z :=
  match c with
  | Sscratch => c_sscratch f | Sepc => c_sepc f | Sstatus => c_sstatus f | Scause => c_scause f
  | Stval => c_stval f | Satp => c_satp f | Stvec => c_stvec f | Sie => c_sie f
  end.

Definition write_csr (c : csr) (v : Z) (f : csr_file) : csr_file :=
  let '(mkCsrs a b s d t p e i) := f in
  match c with
  | Sscratch => mkCsrs v b s d t p e i | Sepc => mkCsrs a v s d t p e i | Sstatus => mkCsrs a b v d t p e i
  | Scause => mkCsrs a b s v t p e i | Stval => mkCsrs a b s d v p e i | Satp => mkCsrs a b s d t v e i
  | Stvec => mkCsrs a b s d t p v i | Sie => mkCsrs a b s d t p e v
  end.

(** The 32 integer registers, of which the first is always 0, and the 32
    floating-point registers. *)
Record hart : Type := mkHart {
  gpr : list Z; fpr : list Z; csrs : csr_file; pc : Z; supervisor : bool
}.

Definition reg (h : hart) (i : nat) : Z := default 0 (gpr h !! i).
Definition freg (h : hart) (i : nat) : Z := default 0 (fpr h !! i).

Definition set_reg (rd : nat) (v : Z) (h : hart) : hart :=
  if decide (rd = 0%nat) then h else mkHart (<[rd := v]> (gpr h)) (fpr h) (csrs h) (pc h) (supervisor h).
Definition set_freg (rd : nat) (v : Z) (h : hart) : hart :=
  mkHart (gpr h) (<[rd := v]> (fpr h)) (csrs h) (pc h) (supervisor h).
Definition set_csr (c : csr) (v : Z) (h : hart) : hart :=
  mkHart (gpr h) (fpr h) (write_csr c v (csrs h)) (pc h) (supervisor h).

(** * Translation and protection for the supervisor *)

(** Bits 38 to 63 of an Sv39 address are equal. *)
Definition canonical (va : Z) : bool := bool_decide (0 ≤ va < 2 ^ 38 ∨ 2 ^ 64 - 2 ^ 38 ≤ va < 2 ^ 64).

(** The physical address and the permissions read, write, execute, user. *)
Definition walk (m : memory) (satp va : Z) : option (Z * Z) :=
  if bf_get 60 4 satp =? satp_mode_value Sv39 then
    if canonical va then mmu m (root_of_satp satp) va else None
  else if bf_get 60 4 satp =? satp_mode_value OFF then Some (va, 7)
  else None.

(** Pages of the user need the SUM bit of sstatus for data, and are never executed. *)
Definition data_access (need : Z) (m : memory) (f : csr_file) (va : Z) : option Z :=
  '(pa, perms) ← walk m (c_satp f) va;
  if Z.testbit perms need && (negb (Z.testbit perms 3) || Z.testbit (c_sstatus f) 18) && word_aligned pa
  then Some pa else None.

Definition executable (m : memory) (satp va : Z) : bool :=
  match walk m satp va with
  | Some (_, perms) => Z.testbit perms 2 && negb (Z.testbit perms 3)
  | None => false
  end.

Definition load (m : memory) (f : csr_file) (va : Z) : option Z := pa ← data_access 0 m f va; m !! pa.

Definition store (m : memory) (f : csr_file) (va v : Z) : option memory :=
  pa ← data_access 1 m f va; match m !! pa with Some _ => Some (<[pa := v]> m) | None => None end.

(** The FS field: without it a floating-point instruction is illegal. *)
Definition fs_on (f : csr_file) : bool := negb (bf_get 13 2 (c_sstatus f) =? 0).

(** [sret]: back to the mode in SPP, with SPIE in SIE. *)
Definition sret_status (status : Z) : Z := bf_set 8 1 0 (bf_set 5 1 1 (bf_set 1 1 (bf_get 5 1 status) status)).

Definition sret (h : hart) : hart :=
  mkHart (gpr h) (fpr h) (write_csr Sstatus (sret_status (c_sstatus (csrs h))) (csrs h)) (c_sepc (csrs h))
    (Z.testbit (c_sstatus (csrs h)) 8).

(** What the hart does when it takes a trap to the supervisor. *)
Definition trap_status (from_supervisor : bool) (status : Z) : Z :=
  bf_set 8 1 (Z.b2z from_supervisor) (bf_set 5 1 (bf_get 1 1 status) (bf_set 1 1 0 status)).

Definition take_trap (cause tval : Z) (h : hart) : hart :=
  let f := csrs h in
  mkHart (gpr h) (fpr h)
    (mkCsrs (c_sscratch f) (pc h) (trap_status (supervisor h) (c_sstatus f)) cause tval (c_satp f) (c_stvec f) (c_sie f))
    (c_stvec f) true.

(** * Instructions *)
Inductive instr : Type :=
| Csrrw (rd : nat) (c : csr) (rs : nat)
| Csrr (rd : nat) (c : csr)
| Csrw (c : csr) (rs : nat)
| Sd (rs : nat) (offset : Z) (base : nat)
| Ld (rd : nat) (offset : Z) (base : nat)
| Fsd (rs : nat) (offset : Z) (base : nat)
| Fld (rd : nat) (offset : Z) (base : nat)
| Mv (rd rs : nat)
| Li (rd : nat) (imm : Z)
| Beq (rs1 rs2 : nat) (skipped : nat)      (** a branch over the next instructions *)
| SfenceVma
| Sret.

Definition exec (i : instr) (s : hart * memory) : option (hart * memory) :=
  let '(h, m) := s in
  match i with
  | Csrrw rd c rs => Some (set_reg rd (read_csr c (csrs h)) (set_csr c (reg h rs) h), m)
  | Csrr rd c => Some (set_reg rd (read_csr c (csrs h)) h, m)
  | Csrw c rs => Some (set_csr c (reg h rs) h, m)
  | Sd rs o b => m' ← store m (csrs h) (u64 (reg h b + o)) (reg h rs); Some (h, m')
  | Ld rd o b => v ← load m (csrs h) (u64 (reg h b + o)); Some (set_reg rd v h, m)
  | Fsd rs o b => if fs_on (csrs h) then m' ← store m (csrs h) (u64 (reg h b + o)) (freg h rs); Some (h, m') else None
  | Fld rd o b => if fs_on (csrs h) then v ← load m (csrs h) (u64 (reg h b + o)); Some (set_freg rd v h, m) else None
  | Mv rd rs => Some (set_reg rd (reg h rs) h, m)
  | Li rd imm => Some (set_reg rd imm h, m)
  | Beq _ _ _ | SfenceVma => Some s
  | Sret => Some (sret h, m)
  end.

(** Running a program whose instructions are in the page of [code]; [skip] of
    them are jumped over. *)
Fixpoint run (code : Z) (skip : nat) (p : list instr) (s : hart * memory) : option (hart * memory) :=
  match p with
  | [] => Some s
  | i :: p' =>
      match skip with
      | S k => run code k p' s
      | O =>
          if executable s.2 (c_satp (csrs s.1)) code then
            match i with
            | Beq r1 r2 n => run code (if reg s.1 r1 =? reg s.1 r2 then n else O) p' s
            | _ => s' ← exec i s; run code O p' s'
            end
          else None
      end
  end.

(** * [trap.S] *)
Definition sp : nat := 2.
Definition tp : nat := 4.
Definition t0 : nat := 5.
Definition t1 : nat := 6.
Definition t2 : nat := 7.
Definition a0 : nat := 10.
Definition t3 : nat := 28.
Definition t4 : nat := 29.
Definition t5 : nat := 30.
Definition t6 : nat := 31.

Definition REG_SIZE : Z := 8.
Definition TRAP_FRAME_ALIAS : Z := 0x1000.

Definition OFF_REGS : Z := 0.
Definition OFF_FREGS : Z := 256.
Definition OFF_SEPC : Z := 512.
Definition OFF_SSTATUS : Z := 520.
Definition OFF_SCAUSE : Z := 528.
Definition OFF_STVAL : Z := 536.
Definition OFF_DUAL_SATP : Z := 544.
Definition OFF_K_SP : Z := 552.
Definition OFF_K_TP : Z := 560.
Definition OFF_K_ADDR : Z := 568.

Definition save_gp (i : nat) : instr := Sd i (Z.of_nat i * REG_SIZE + OFF_REGS) t6.
Definition load_gp (i : nat) : instr := Ld i (Z.of_nat i * REG_SIZE + OFF_REGS) t6.
Definition save_fp (i : nat) : instr := Fsd i (Z.of_nat i * REG_SIZE + OFF_FREGS) t6.
Definition load_fp (i : nat) : instr := Fld i (Z.of_nat i * REG_SIZE + OFF_FREGS) t6.

(** [m_trap_vector], up to the call of [handle_interrupt]: the registers are saved, *)
Definition save_context : list instr :=
  Csrrw t6 Sscratch t6 :: (save_gp <$> seq 0 31) ++
  [Csrr t0 Sscratch; Sd t0 (31 * REG_SIZE + OFF_REGS) t6] ++ (save_fp <$> seq 0 32) ++
  [Csrr t0 Sepc; Sd t0 OFF_SEPC t6; Csrr t1 Sstatus; Sd t1 OFF_SSTATUS t6;
   Csrr t2 Scause; Sd t2 OFF_SCAUSE t6; Csrr t3 Stval; Sd t3 OFF_STVAL t6].

(** the address spaces are swapped, and the context of the kernel is loaded. *)
Definition enter_kernel : list instr :=
  [Ld t2 OFF_K_ADDR t6;
   Ld t4 OFF_DUAL_SATP t6; Csrr t5 Satp; Sd t5 OFF_DUAL_SATP t6;
   Beq t4 t5 2; Csrw Satp t4; SfenceVma;
   Mv t6 t2;
   Ld sp OFF_K_SP t6; Ld tp OFF_K_TP t6;
   Mv a0 t6].

Definition trap_entry : list instr := save_context ++ enter_kernel.

(** What follows the call, and [switch_to_user] from its [mv t6, a0] on. *)
Definition restore_csrs : list instr :=
  [Ld t0 OFF_SEPC t6; Csrw Sepc t0; Ld t1 OFF_SSTATUS t6; Csrw Sstatus t1;
   Ld t4 OFF_DUAL_SATP t6; Csrr t5 Satp; Sd t5 OFF_DUAL_SATP t6; Csrw Satp t4; SfenceVma;
   Li t6 TRAP_FRAME_ALIAS].

Definition restore_context : list instr :=
  (load_fp <$> seq 0 32) ++ (load_gp <$> filter (λ i, i ≠ 5%nat) (seq 1 30)) ++
  [Ld t0 (31 * REG_SIZE + OFF_REGS) t6; Csrw Sscratch t0; Ld t0 (5 * REG_SIZE + OFF_REGS) t6;
   Csrrw t6 Sscratch t6; Sret].

Definition trap_exit : list instr := Mv t6 a0 :: restore_csrs ++ restore_context.

(** The interrupts that [switch_to_user] enables: software, timer, external. *)
Definition enabled_interrupts : Z := Z.lor (Z.lor (Z.shiftl 1 1) (Z.shiftl 1 5)) (Z.shiftl 1 9).

(** [switch_to_user]; [m_trap_vector] is the address of the vector. *)
Definition switch_to_user (m_trap_vector : Z) : list instr :=
  [Li t0 m_trap_vector; Csrw Stvec t0;
   Li t0 enabled_interrupts; Csrw Sie t0] ++
  Mv t6 a0 :: restore_csrs ++ restore_context.

(** * [class CPU]: the registers as the kernel accesses them *)
Definition write_satp (value : Z) (h : hart) : hart := set_csr Satp value h.
Definition read_satp (h : hart) : Z := read_csr Satp (csrs h).
Definition sscratch_write (value : Z) (h : hart) : hart := set_csr Sscratch value h.
Definition sscratch_read (h : hart) : Z := read_csr Sscratch (csrs h).
Definition write_sstatus (value : Z) (h : hart) : hart := set_csr Sstatus value h.
Definition write_stvec (trap_vector : Z) (h : hart) : hart := set_csr Stvec trap_vector h.
Definition write_sie (value : Z) (h : hart) : hart := set_csr Sie value h.
Definition read_sie (h : hart) : Z := read_csr Sie (csrs h).

(** [System::set_trap_vector] and [hart_init]; the thread pointer is set by hand. *)
Definition set_trap_vector (trap_vector : Z) (h : hart) : hart := write_stvec trap_vector h.
Definition hart_init (trap_frame : Z) (h : hart) : hart := set_reg tp trap_frame (sscratch_write trap_frame h).

(** The hart while [kmain] starts: the satp of [init_memory], [System::init] and
    [set_default_trap_vector]. *)
Definition start_hart (satp trap_frame m_trap_vector : Z) (h : hart) : hart :=
  set_trap_vector m_trap_vector (hart_init trap_frame (write_satp satp h)).

(** * Specification *)

(** What a hart that took a trap leaves in its frame. *)
Definition saved (h : hart) (f : TrapFrame) : TrapFrame :=
  mkTrapFrame (gpr h) (fpr h) (c_sepc (csrs h)) (c_sstatus (csrs h)) (c_scause (csrs h)) (c_stval (csrs h))
    (c_satp (csrs h)) (kernel_sp f) (kernel_trap_frame_ptr f) (kernel_addr f).

(** The same frame with another satp value. *)
Definition with_satp (f : TrapFrame) (v : Z) : TrapFrame :=
  mkTrapFrame (regs f) (fregs f) (sepc f) (sstatus f) (scause f) (stval f) v (kernel_sp f) (kernel_trap_frame_ptr f)
    (kernel_addr f).

(** The hart that goes on with a frame. *)
Definition resumed (f : TrapFrame) (h : hart) : hart :=
  mkHart (regs f) (fregs f)
    (mkCsrs TRAP_FRAME_ALIAS (sepc f) (sret_status (sstatus f)) (c_scause (csrs h)) (c_stval (csrs h)) (kernel_satp f)
       (c_stvec (csrs h)) (c_sie (csrs h)))
    (sepc f) (Z.testbit (sstatus f) 8).

Definition registers_ok (l : list Z) : Prop := length l = 32%nat ∧ l !! 0%nat = Some 0.

Record hart_ok (h : hart) : Prop := { hart_gpr : registers_ok (gpr h); hart_fpr : length (fpr h) = 32%nat }.

Record frame_ok (f : TrapFrame) : Prop := {
  frame_regs : registers_ok (regs f);
  frame_fregs : length (fregs f) = 32%nat
}.

(** [words] from an address on. *)
Fixpoint store_words (m : memory) (a : Z) (ws : list Z) : memory :=
  match ws with
  | [] => m
  | w :: ws' => <[a := w]> (store_words m (a + 8) ws')
  end.

(** The memory with a trap frame at [a]. *)
Definition with_frame (m : memory) (a : Z) (f : TrapFrame) : memory := store_words m a (frame_words f).

(** The addresses of the entries that a walk reads. *)
Definition mmu_reads (m : memory) (root va : Z) : list Z :=
  let a2 := root + 8 * vpn2 va in
  a2 :: match m !! a2 ≫= pointed with
        | None => []
        | Some b =>
            let a1 := b + 8 * vpn1 va in
            a1 :: match m !! a1 ≫= pointed with None => [] | Some c => [c + 8 * vpn0 va] end
        end.

(** The address space [satp] shows the frame page [f] at [v], for the supervisor
    to read and write, and the code of the trap vector, and its tables for these
    addresses are not in that page. *)
Record shows (m : memory) (satp code v f : Z) : Prop := {
  sh_mode : bf_get 60 4 satp = satp_mode_value Sv39;
  sh_aligned : (4096 | v) ∧ 0 ≤ v < 2 ^ 38 ∧ (4096 | f) ∧ 0 ≤ code < 2 ^ 38;
  sh_frame : ∃ perms, mmu m (root_of_satp satp) v = Some (f, perms) ∧
    Z.testbit perms 0 = true ∧ Z.testbit perms 1 = true ∧ Z.testbit perms 3 = false;
  sh_code : executable m satp code = true;
  sh_reads : Forall (λ b, ¬ in_page f b) (mmu_reads m (root_of_satp satp) v ++ mmu_reads m (root_of_satp satp) code)
}.

(** * Words of a page *)
Lemma store_words_lookup ws : ∀ m a (i : nat) w, ws !! i = Some w → store_words m a ws !! (a + 8 * Z.of_nat i) = Some w.
Proof.
  induction ws as [|x ws IH]; intros m a [|i] w Hi; simplify_eq/=.
  - rewrite Z.add_0_r. apply lookup_insert_eq.
  - rewrite lookup_insert_ne by lia. replace (a + 8 * Z.of_nat (S i)) with (a + 8 + 8 * Z.of_nat i) by lia. by apply IH.
Qed.

Lemma store_words_outside ws : ∀ m a b, b < a ∨ a + 8 * Z.of_nat (length ws) ≤ b → store_words m a ws !! b = m !! b.
Proof.
  induction ws as [|x ws IH]; intros m a b Hb; simpl; [done|]. simpl in Hb.
  rewrite lookup_insert_ne by lia. apply IH. lia.
Qed.

Lemma store_words_insert ws : ∀ m a (i : nat) w,
  (i < length ws)%nat → <[a + 8 * Z.of_nat i := w]> (store_words m a ws) = store_words m a (<[i := w]> ws).
Proof.
  induction ws as [|x ws IH]; intros m a [|i] w Hi; simpl in *; [lia..| |].
  - by rewrite Z.add_0_r, insert_insert_eq.
  - rewrite insert_insert_ne by lia. f_equal. rewrite <- IH by lia. f_equal. lia.
Qed.

Lemma store_words_same ws : ∀ m a, words_at m a ws → store_words m a ws = m.
Proof.
  induction ws as [|x ws IH]; intros m a Hw; simpl; [done|]. rewrite IH.
  - apply insert_id. specialize (Hw 0%nat x eq_refl). by rewrite Z.add_0_r in Hw.
  - intros i w Hi. replace (a + 8 + 8 * Z.of_nat i) with (a + 8 * Z.of_nat (S i)) by lia. by apply Hw.
Qed.

Lemma store_words_below ws : ∀ m a b w, b < a → store_words (<[b := w]> m) a ws = <[b := w]> (store_words m a ws).
Proof.
  induction ws as [|x ws IH]; intros m a b w Hb; simpl; [done|]. rewrite IH by lia. by rewrite insert_insert_ne by lia.
Qed.

Lemma store_words_twice ws : ∀ ws' m a, length ws = length ws' → store_words (store_words m a ws') a ws = store_words m a ws.
Proof.
  induction ws as [|x ws IH]; intros [|x' ws'] m a Hlen; simplify_eq/=; [done|].
  rewrite store_words_below by lia. by rewrite insert_insert_eq, IH.
Qed.

Lemma with_frame_words f : length (regs f) = 32%nat → length (fregs f) = 32%nat → length (frame_words f) = 72%nat.
Proof. intros H1 H2. unfold frame_words. rewrite !length_app, H1, H2. done. Qed.

(** * The walk *)
Lemma mmu_agree m m' root va :
  (∀ b, b ∈ mmu_reads m root va → m' !! b = m !! b) → mmu m' root va = mmu m root va.
Proof.
  unfold mmu, mmu_reads. intros H. rewrite (H (root + 8 * vpn2 va)) by by left.
  destruct (m !! (root + 8 * vpn2 va) ≫= pointed) as [b|]; [|done]. cbn [mbind option_bind].
  rewrite (H (b + 8 * vpn1 va)) by (right; by left).
  destruct (m !! (b + 8 * vpn1 va) ≫= pointed) as [c|]; [|done]. cbn [mbind option_bind].
  by rewrite (H (c + 8 * vpn0 va)) by (do 2 right; by left).
Qed.

(** Addresses of one page translate alike. *)
Lemma mmu_in_page m root v k f perms :
  (4096 | v) → 0 ≤ v < 2 ^ 38 → 0 ≤ k < 4096 → mmu m root v = Some (f, perms) → mmu m root (v + k) = Some (f + k, perms).
Proof.
  intros [q Hq] Hv Hk. assert (align_down v 12 = v ∧ align_down (v + k) 12 = v) as [Hv1 Hv2].
  { pose proof (align_down_spec v 12 ltac:(lia)) as [? [a Ha]]. pose proof (align_down_spec (v + k) 12 ltac:(lia)) as [? [b Hb]].
    change (2 ^ 12) with 4096 in *. lia. }
  destruct (proj2 (same_page_iff v (v + k) ltac:(unfold in_word; lia) ltac:(unfold in_word; lia))) as (H2 & H1 & H0); [congruence|].
  unfold mmu. rewrite <- H2, <- H1, <- H0. destruct (m !! (root + 8 * vpn2 v) ≫= pointed) as [b|]; [|done]. cbn [mbind option_bind].
  destruct (m !! (b + 8 * vpn1 v) ≫= pointed) as [c|]; [|done]. cbn [mbind option_bind].
  destruct (m !! (c + 8 * vpn0 v)) as [e|]; [|done]. cbn [mbind option_bind]. destruct (pte_valid e); [|done].
  rewrite !page_offset, Hv1, Hv2. intros [= <- <-]. repeat f_equal; lia.
Qed.

(** * Steps of the program on a hart whose address space shows the frame page *)
Section Steps.
Context (code v f : Z) (m : memory).

Lemma shows_walk satp ws k :
  shows m satp code v f → (length ws ≤ 512)%nat → 0 ≤ k < 4096 →
  executable (store_words m f ws) satp code = true ∧
  ∃ perms, walk (store_words m f ws) satp (v + k) = Some (f + k, perms) ∧
    Z.testbit perms 0 = true ∧ Z.testbit perms 1 = true ∧ Z.testbit perms 3 = false.
Proof using All.
  intros [Hmode (Hva & Hv & Hfa & Hc) (perms & Hw & Hp) Hcode Hreads] Hlen Hk.
  apply Forall_app in Hreads as [Hr1 Hr2]. rewrite Forall_forall in Hr1, Hr2.
  assert (∀ b, ¬ in_page f b → store_words m f ws !! b = m !! b) as Hout.
  { intros b Hb. apply store_words_outside. unfold in_page in Hb. lia. }
  assert (canonical (v + k) = true ∧ canonical code = true) as [Hcv Hcc].
  { unfold canonical. destruct Hva as [q ->]. split; apply bool_decide_eq_true_2; lia. }
  split.
  - revert Hcode. unfold executable, walk. rewrite Hmode, Z.eqb_refl, Hcc. rewrite (mmu_agree m (store_words m f ws)); [done|]. intros b Hb. by apply Hout, Hr2.
  - exists perms. split; [|done]. unfold walk. rewrite Hmode, Z.eqb_refl, Hcv. apply mmu_in_page; [done..|].
    rewrite (mmu_agree m (store_words m f ws)); [done|]. intros b Hb. by apply Hout, Hr1.
Qed.

Context (ws : list Z) (Hlen : (length ws ≤ 512)%nat).

Lemma shows_address h base i :
  shows m (c_satp (csrs h)) code v f → reg h base = v → (i < 512)%nat →
  ∀ need, need = 0 ∨ need = 1 →
  data_access need (store_words m f ws) (csrs h) (u64 (reg h base + 8 * Z.of_nat i)) = Some (f + 8 * Z.of_nat i).
Proof using Hlen.
  intros Hs -> Hi need Hneed. pose proof (sh_aligned _ _ _ _ _ Hs) as (? & Hv & Hf & _).
  rewrite wrap_small by (unfold in_word; lia).
  destruct (shows_walk _ ws (8 * Z.of_nat i) Hs Hlen) as (_ & perms & Hw & H0 & H1 & H3); [lia|].
  unfold data_access. rewrite Hw. cbn [mbind option_bind]. rewrite H3, word_aligned_add8.
  assert (word_aligned f = true) as -> by (apply word_aligned_iff; destruct Hf as [q ->]; exists (512 * q); lia).
  by destruct Hneed as [-> | ->]; rewrite ?H0, ?H1.
Qed.

(** One step that is neither a branch nor a memory access. *)
Lemma run_plain h i p h' :
  shows m (c_satp (csrs h)) code v f → (∀ a b n, i ≠ Beq a b n) → exec i (h, store_words m f ws) = Some (h', store_words m f ws) →
  run code 0 (i :: p) (h, store_words m f ws) = run code 0 p (h', store_words m f ws).
Proof using Hlen.
  intros Hs Hi He. cbn [run fst snd]. destruct (shows_walk _ ws 0 Hs Hlen) as [-> _]; [lia|].
  destruct i; rewrite ?He; try done. by destruct (Hi rs1 rs2 skipped).
Qed.

Lemma run_sd h rs o base i p :
  shows m (c_satp (csrs h)) code v f → reg h base = v → o = 8 * Z.of_nat i → (i < length ws)%nat →
  run code 0 (Sd rs o base :: p) (h, store_words m f ws) = run code 0 p (h, store_words m f (<[i := reg h rs]> ws)).
Proof using Hlen.
  intros Hs Hb -> Hi. cbn [run fst snd]. destruct (shows_walk _ ws 0 Hs Hlen) as [-> _]; [lia|]. cbn [exec].
  unfold store. rewrite (shows_address h base i Hs Hb) by (lia || by right). cbn [mbind option_bind].
  destruct (lookup_lt_is_Some_2 ws i Hi) as [w Hw]. rewrite (store_words_lookup _ _ _ _ _ Hw). cbn [mbind option_bind].
  by rewrite store_words_insert.
Qed.

Lemma run_fsd h rs o base i p :
  shows m (c_satp (csrs h)) code v f → fs_on (csrs h) = true → reg h base = v → o = 8 * Z.of_nat i → (i < length ws)%nat →
  run code 0 (Fsd rs o base :: p) (h, store_words m f ws) = run code 0 p (h, store_words m f (<[i := freg h rs]> ws)).
Proof using Hlen.
  intros Hs Hfs Hb -> Hi. cbn [run fst snd]. destruct (shows_walk _ ws 0 Hs Hlen) as [-> _]; [lia|]. cbn [exec]. rewrite Hfs.
  unfold store. rewrite (shows_address h base i Hs Hb) by (lia || by right). cbn [mbind option_bind].
  destruct (lookup_lt_is_Some_2 ws i Hi) as [w Hw]. rewrite (store_words_lookup _ _ _ _ _ Hw). cbn [mbind option_bind].
  by rewrite store_words_insert.
Qed.

Lemma run_ld h rd o base i w p :
  shows m (c_satp (csrs h)) code v f → reg h base = v → o = 8 * Z.of_nat i → ws !! i = Some w →
  run code 0 (Ld rd o base :: p) (h, store_words m f ws) = run code 0 p (set_reg rd w h, store_words m f ws).
Proof using Hlen.
  intros Hs Hb -> Hw. pose proof (lookup_lt_Some _ _ _ Hw). apply run_plain; [done|done|]. cbn [exec]. unfold load.
  rewrite (shows_address h base i Hs Hb) by (lia || by left). cbn [mbind option_bind]. by rewrite (store_words_lookup _ _ _ _ _ Hw).
Qed.

Lemma run_fld h rd o base i w p :
  shows m (c_satp (csrs h)) code v f → fs_on (csrs h) = true → reg h base = v → o = 8 * Z.of_nat i → ws !! i = Some w →
  run code 0 (Fld rd o base :: p) (h, store_words m f ws) = run code 0 p (set_freg rd w h, store_words m f ws).
Proof using Hlen.
  intros Hs Hfs Hb -> Hw. pose proof (lookup_lt_Some _ _ _ Hw). apply run_plain; [done|done|]. cbn [exec]. rewrite Hfs. unfold load.
  rewrite (shows_address h base i Hs Hb) by (lia || by left). cbn [mbind option_bind]. by rewrite (store_words_lookup _ _ _ _ _ Hw).
Qed.

Lemma run_beq h r1 r2 n p :
  shows m (c_satp (csrs h)) code v f →
  run code 0 (Beq r1 r2 n :: p) (h, store_words m f ws) =
    run code (if reg h r1 =? reg h r2 then n else 0) p (h, store_words m f ws).
Proof using Hlen. intros Hs. cbn [run fst snd]. by destruct (shows_walk _ ws 0 Hs Hlen) as [-> _]; [lia|]. Qed.
End Steps.

(** * Sequences of stores and loads *)
Section Sequences.
Context (code v f : Z) (m : memory).

Lemma run_stores (g : nat → instr) (val : nat → Z) (start : nat) (h : hart) n :
  (∀ ws k p, (length ws ≤ 512)%nat → (start + k < length ws)%nat → (k < n)%nat →
     run code 0 (g k :: p) (h, store_words m f ws) = run code 0 p (h, store_words m f (<[(start + k)%nat := val k]> ws))) →
  ∀ p before old after, length before = start → length old = n → (length (before ++ old ++ after) ≤ 512)%nat →
  run code 0 ((g <$> seq 0 n) ++ p) (h, store_words m f (before ++ old ++ after)) =
    run code 0 p (h, store_words m f (before ++ (val <$> seq 0 n) ++ after)).
Proof.
  intros Hstep. assert (∀ k, (k ≤ n)%nat → ∀ p before old after, length before = start → length old = k →
    (length (before ++ old ++ after) ≤ 512)%nat →
    run code 0 ((g <$> seq 0 k) ++ p) (h, store_words m f (before ++ old ++ after)) =
      run code 0 p (h, store_words m f (before ++ (val <$> seq 0 k) ++ after))) as H; [|by apply H].
  induction k as [|k IH]; intros Hk p before old after Hb Ho Hl.
  { by apply nil_length_inv in Ho as ->. }
  destruct old as [|x old _] using rev_ind; [done|]. rewrite length_app in Ho. simpl in Ho.
  rewrite seq_S, !fmap_app, <- !app_assoc in *. cbn [fmap list_fmap app] in *.
  rewrite IH by (done || lia). rewrite !length_app in Hl. simpl in Hl.
  rewrite Hstep by (rewrite ?length_app, ?length_fmap, ?length_seq; simpl; lia). do 3 f_equal.
  rewrite insert_app_r_alt by lia. f_equal. rewrite insert_app_r_alt; rewrite length_fmap, length_seq; [|lia].
  by replace (start + (0 + k) - length before - k)%nat with 0%nat by lia.
Qed.

(** Loading a list of registers, one instruction each. *)
Lemma run_loads (g : nat → instr) (set : nat → hart → hart) (val : nat → Z) (M : memory) (P : nat → hart → Prop) (l : list nat) :
  (∀ k h p, P k h → run code 0 (g k :: p) (h, M) = run code 0 p (set k h, M)) →
  (∀ k k' h, P k h → P k' h → P k' (set k h)) →
  ∀ h p, (∀ k, k ∈ l → P k h) → run code 0 ((g <$> l) ++ p) (h, M) = run code 0 p (foldl (λ h k, set k h) h l, M).
Proof.
  intros Hg Hset. induction l as [|k l IH]; intros h p HP; [done|].
  cbn [fmap list_fmap app foldl]. rewrite Hg by (apply HP; by left). apply IH.
  intros k' Hk'. apply Hset; apply HP; [by left|by right].
Qed.
End Sequences.

Lemma seq_lookups (l : list Z) n : length l = n → (λ k, default 0 (l !! k)) <$> seq 0 n = l.
Proof.
  intros <-. apply list_eq. intros i. rewrite list_lookup_fmap. destruct (decide (i < length l)%nat) as [Hi|Hi].
  - rewrite lookup_seq_lt by done. simpl. destruct (lookup_lt_is_Some_2 l i Hi) as [x Hx]. by rewrite Hx.
  - rewrite lookup_seq_ge, (proj2 (lookup_ge_None l i)) by lia. done.
Qed.

(** ** Registers *)
Lemma reg_set_eq rd v h : rd ≠ 0%nat → (rd < length (gpr h))%nat → reg (set_reg rd v h) rd = v.
Proof. intros H0 Hl. unfold reg, set_reg. rewrite decide_False by done. simpl. by rewrite list_lookup_insert_eq. Qed.

Lemma reg_set_ne rd i v h : rd ≠ i → reg (set_reg rd v h) i = reg h i.
Proof. intros Hi. unfold reg, set_reg. case_decide; [done|]. simpl. by rewrite list_lookup_insert_ne. Qed.

Lemma length_set_reg rd v h : length (gpr (set_reg rd v h)) = length (gpr h).
Proof. unfold set_reg. case_decide; [done|]. apply length_insert. Qed.

Lemma csrs_set_reg rd v h : csrs (set_reg rd v h) = csrs h.
Proof. unfold set_reg. by case_decide. Qed.

Lemma csrs_set_csr c v h : csrs (set_csr c v h) = write_csr c v (csrs h).
Proof. done. Qed.

Lemma satp_written v h : c_satp (csrs (set_csr Satp v h)) = v.
Proof. unfold set_csr. by destruct (csrs h). Qed.

Lemma length_set_csr c v h : length (gpr (set_csr c v h)) = length (gpr h).
Proof. done. Qed.

Lemma reg_set_csr c v h i : reg (set_csr c v h) i = reg h i.
Proof. done. Qed.

(** Lengths of concatenations. *)
Ltac lens := repeat (progress (rewrite ?length_app; cbn [length app])); simpl; lia.

(** * Saving the context *)
Section Saving.
Context (code v f : Z) (m : memory) (h : hart) (F : TrapFrame).
Context (Hh : hart_ok h) (HF : frame_ok F) (Hs : shows m (c_satp (csrs h)) code v f).
Context (Hv : c_sscratch (csrs h) = v) (Hfs : fs_on (csrs h) = true).

(** The hart that has the address of the frame in [t6]. *)
Definition swapped : hart := set_reg t6 (c_sscratch (csrs h)) (set_csr Sscratch (reg h t6) h).

Definition tail_words : list Z :=
  [sepc F; sstatus F; scause F; stval F; kernel_satp F; kernel_sp F; kernel_trap_frame_ptr F; kernel_addr F].

Definition saved_tail : list Z :=
  [c_sepc (csrs h); c_sstatus (csrs h); c_scause (csrs h); c_stval (csrs h); kernel_satp F; kernel_sp F;
   kernel_trap_frame_ptr F; kernel_addr F].

(** The hart after the context was saved. *)
Definition after_saving : hart :=
  set_reg t3 (c_stval (csrs h)) (set_reg t2 (c_scause (csrs h)) (set_reg t1 (c_sstatus (csrs h))
    (set_reg t0 (c_sepc (csrs h)) (set_reg t0 (reg h t6) swapped)))).

Lemma swapped_length : length (gpr swapped) = 32%nat.
Proof using All. unfold swapped. rewrite length_set_reg. apply Hh. Qed.

Lemma swapped_frame : reg swapped t6 = v.
Proof using All. unfold swapped. rewrite reg_set_eq; [done|done|]. simpl. rewrite (proj1 (hart_gpr _ Hh)). unfold t6. lia. Qed.

Lemma swapped_reg k : (k < 31)%nat → reg swapped k = reg h k.
Proof using All. intros Hk. unfold swapped, t6. rewrite reg_set_ne by lia. done. Qed.

Lemma swapped_csrs : csrs swapped = write_csr Sscratch (reg h t6) (csrs h).
Proof using All. unfold swapped. by rewrite csrs_set_reg. Qed.

Lemma swapped_shows : shows m (c_satp (csrs swapped)) code v f.
Proof using All. rewrite swapped_csrs. by destruct (csrs h). Qed.

Lemma swapped_fs : fs_on (csrs swapped) = true.
Proof using All. rewrite swapped_csrs. by destruct (csrs h). Qed.

(** The integer registers. *)
Lemma save_integer p :
  run code 0 (Csrrw t6 Sscratch t6 :: (save_gp <$> seq 0 31) ++ [Csrr t0 Sscratch; Sd t0 (31 * REG_SIZE + OFF_REGS) t6] ++ p)
    (h, with_frame m f F) =
  run code 0 p (set_reg t0 (reg h t6) swapped, store_words m f (gpr h ++ fregs F ++ tail_words)).
Proof using All.
  pose proof swapped_length as Hl. pose proof swapped_shows as Hs'. pose proof swapped_frame as Hf'.
  destruct HF as [[Hr _] Hfr]. destruct (hart_gpr _ Hh) as [Hg _]. assert (length tail_words = 8%nat) as Ht by done. unfold with_frame, frame_words. fold tail_words.
  assert (∃ old x, regs F = old ++ [x] ∧ length old = 31%nat) as (old & x & -> & Ho).
  { destruct (regs F) as [|x old _] using rev_ind; [done|]. exists old, x. rewrite length_app in Hr. simpl in Hr. split; [done|lia]. }
  assert (∃ us y, gpr h = us ++ [y] ∧ length us = 31%nat) as (us & y & Hus & Hul).
  { destruct (gpr h) as [|y us _] using rev_ind; [done|]. exists us, y. rewrite length_app in Hg. simpl in Hg. split; [done|lia]. }
  rewrite (run_plain code v f m) with (h' := swapped); [|lens|done|done|done].
  rewrite <- (app_assoc old), <- (app_nil_l (old ++ _)).
  rewrite (run_stores code f m save_gp (reg h) 0 swapped 31); [|idtac|done|done|lens].
  2:{ intros ws k q Hw Hkw Hk. unfold save_gp. rewrite (run_sd code v f m) with (i := k);
        [|done|done|done|unfold REG_SIZE, OFF_REGS; lia|lia]. by rewrite swapped_reg. }
  assert ((reg h <$> seq 0 31) = us) as ->.
  { rewrite <- (seq_lookups us 31 Hul). apply list_fmap_ext. intros i k [-> Hi]%lookup_seq. unfold reg. rewrite Hus.
    by rewrite lookup_app_l by lia. }
  assert (reg h t6 = y) as Hy. { unfold reg. by rewrite Hus, lookup_app_r, Hul by (unfold t6; lia). }
  cbn [app].
  rewrite (run_plain code v f m) with (h' := set_reg t0 y swapped);
    [|lens|done|done|cbn [exec]; by rewrite swapped_csrs, <- Hy; destruct (csrs h)].
  rewrite (run_sd code v f m) with (i := 31%nat); [|lens|by rewrite csrs_set_reg|
    by rewrite reg_set_ne|done|lens].
  rewrite Hy, reg_set_eq by (done || (rewrite Hl; unfold t0; lia)). do 3 f_equal. rewrite Hus, <- app_assoc.
  rewrite insert_app_r_alt, Hul by lia. done.
Qed.

(** The floating-point registers. *)
Lemma save_floating k p :
  csrs k = csrs swapped → reg k t6 = v → fpr k = fpr h →
  run code 0 ((save_fp <$> seq 0 32) ++ p) (k, store_words m f (gpr h ++ fregs F ++ tail_words)) =
  run code 0 p (k, store_words m f (gpr h ++ fpr h ++ tail_words)).
Proof using All.
  intros Hkc Hkb Hkf. pose proof swapped_shows as Hs'. pose proof swapped_fs as Hfs'.
  destruct HF as [_ Hfr]. destruct (hart_gpr _ Hh) as [Hg _]. assert (length tail_words = 8%nat) as Ht by done.
  rewrite (run_stores code f m save_fp (freg k) 32 k 32); [|idtac|done|done|lens].
  2:{ intros ws i q Hw Hiw Hi. unfold save_fp. by rewrite (run_fsd code v f m) with (i := (32 + i)%nat);
        [|done|rewrite Hkc|rewrite Hkc|done|unfold REG_SIZE, OFF_FREGS; lia|lia]. }
  unfold freg. by rewrite Hkf, seq_lookups by apply Hh.
Qed.

Lemma insert_saved (a b c : list Z) (i : nat) w :
  length a = 32%nat → length b = 32%nat → <[(64 + i)%nat := w]> (a ++ b ++ c) = a ++ b ++ <[i := w]> c.
Proof using. intros Ha Hb. rewrite !insert_app_r_alt, Ha, Hb by lia. do 3 f_equal. lia. Qed.

(** A control register, through a scratch register. *)
Lemma save_csr c rd (i : nat) k tail p :
  shows m (c_satp (csrs k)) code v f → reg k t6 = v → length (gpr k) = 32%nat → rd ≠ t6 → (0 < rd < 32)%nat →
  length tail = 8%nat → (i < 8)%nat →
  run code 0 (Csrr rd c :: Sd rd (8 * Z.of_nat (64 + i)) t6 :: p) (k, store_words m f (gpr h ++ fpr h ++ tail)) =
  run code 0 p (set_reg rd (read_csr c (csrs k)) k, store_words m f (gpr h ++ fpr h ++ <[i := read_csr c (csrs k)]> tail)).
Proof using Hh.
  intros Hs' Hb Hl Hrd Hrd' Ht Hi. destruct (hart_gpr _ Hh) as [Hg _]. pose proof (hart_fpr _ Hh) as Hg'.
  rewrite (run_plain code v f m) with (h' := set_reg rd (read_csr c (csrs k)) k); [|lens|done|done|done].
  rewrite (run_sd code v f m) with (i := (64 + i)%nat); [|lens|by rewrite csrs_set_reg|by rewrite reg_set_ne|done|lens].
  by rewrite reg_set_eq, insert_saved by (done || lia).
Qed.

(** The whole context. *)
Lemma save_context_run p :
  run code 0 (save_context ++ p) (h, with_frame m f F) =
  run code 0 p (after_saving, store_words m f (gpr h ++ fpr h ++ saved_tail)).
Proof using All.
  pose proof swapped_shows as Hs'. pose proof swapped_csrs as Hcs. pose proof swapped_frame as Hf'. pose proof swapped_length as Hl.
  destruct (hart_gpr _ Hh) as [Hg _]. pose proof (hart_fpr _ Hh) as Hg'. assert (length tail_words = 8%nat) as Ht by done.
  assert (save_context ++ p = Csrrw t6 Sscratch t6 :: (save_gp <$> seq 0 31) ++ [Csrr t0 Sscratch; Sd t0 (31 * REG_SIZE + OFF_REGS) t6] ++
    ((save_fp <$> seq 0 32) ++ [Csrr t0 Sepc; Sd t0 OFF_SEPC t6; Csrr t1 Sstatus; Sd t1 OFF_SSTATUS t6;
       Csrr t2 Scause; Sd t2 OFF_SCAUSE t6; Csrr t3 Stval; Sd t3 OFF_STVAL t6] ++ p)) as -> by reflexivity.
  rewrite save_integer.
  rewrite save_floating; [|by rewrite csrs_set_reg|by rewrite reg_set_ne|].
  2:{ unfold swapped, set_reg. repeat case_decide; done. }
  unfold tail_words. change OFF_SEPC with (8 * Z.of_nat (64 + 0)). change OFF_SSTATUS with (8 * Z.of_nat (64 + 1)).
  change OFF_SCAUSE with (8 * Z.of_nat (64 + 2)). change OFF_STVAL with (8 * Z.of_nat (64 + 3)). unfold after_saving.
  set (k0 := set_reg t0 (reg h t6) swapped).
  assert (csrs k0 = csrs swapped) as Hk0 by (unfold k0; by rewrite csrs_set_reg).
  assert (reg k0 t6 = v) as Hb0 by (unfold k0; by rewrite reg_set_ne).
  assert (length (gpr k0) = 32%nat) as Hl0 by (unfold k0; by rewrite length_set_reg). clearbody k0.
  cbn [app]. rewrite (save_csr Sepc t0 0), (save_csr Sstatus t1 1), (save_csr Scause t2 2), (save_csr Stval t3 3);
    rewrite ?length_set_reg, ?csrs_set_reg, ?reg_set_ne by done; rewrite ?Hk0, ?Hcs; try done; try (unfold t0, t1, t2, t3; lia).
  unfold saved_tail. destruct (csrs h). simpl. reflexivity.
Qed.

Lemma lookup_saved (a b c : list Z) (i : nat) :
  length a = 32%nat → length b = 32%nat → (a ++ b ++ c) !! (64 + i)%nat = c !! i.
Proof using. intros Ha Hb. rewrite !lookup_app_r, Ha, Hb by lia. f_equal. lia. Qed.

(** Loading a word of the last eight of the frame. *)
Lemma load_tail u k rd (i : nat) w a b tail p :
  shows m (c_satp (csrs k)) code u f → reg k t6 = u → length a = 32%nat → length b = 32%nat →
  length tail = 8%nat → tail !! i = Some w →
  run code 0 (Ld rd (8 * Z.of_nat (64 + i)) t6 :: p) (k, store_words m f (a ++ b ++ tail)) =
  run code 0 p (set_reg rd w k, store_words m f (a ++ b ++ tail)).
Proof using.
  intros Hk Hb Ha Hb' Ht Hi. apply (run_ld code u f m) with (i := (64 + i)%nat); [lens|done|done|done|]. by rewrite lookup_saved.
Qed.

(** The hart when [handle_interrupt] is called. *)
Definition entered : hart :=
  set_reg a0 (kernel_addr F) (set_reg tp (kernel_trap_frame_ptr F) (set_reg sp (kernel_sp F) (set_reg t6 (kernel_addr F)
    (set_csr Satp (kernel_satp F) (set_reg t5 (c_satp (csrs h)) (set_reg t4 (kernel_satp F) (set_reg t2 (kernel_addr F) after_saving))))))).

Lemma set_satp_same k : c_satp (csrs k) = kernel_satp F → set_csr Satp (kernel_satp F) k = k.
Proof using. unfold set_csr. intros <-. destruct k as [? ? [] ? ?]. reflexivity. Qed.

Lemma after_saving_facts :
  length (gpr after_saving) = 32%nat ∧ reg after_saving t6 = v ∧ csrs after_saving = write_csr Sscratch (reg h t6) (csrs h).
Proof using All.
  pose proof swapped_csrs as Hcs. pose proof swapped_frame as Hf'. pose proof swapped_length as Hl.
  unfold after_saving. rewrite !length_set_reg, !csrs_set_reg, !reg_set_ne by done. done.
Qed.

(** Up to the swap of the address spaces. *)
Lemma enter_first p :
  run code 0 ([Ld t2 OFF_K_ADDR t6; Ld t4 OFF_DUAL_SATP t6; Csrr t5 Satp; Sd t5 OFF_DUAL_SATP t6] ++ p)
    (after_saving, store_words m f (gpr h ++ fpr h ++ saved_tail)) =
  run code 0 p (set_reg t5 (c_satp (csrs h)) (set_reg t4 (kernel_satp F) (set_reg t2 (kernel_addr F) after_saving)),
    with_frame m f (saved h F)).
Proof using All.
  destruct after_saving_facts as (Hl & Hb & Hc). destruct (hart_gpr _ Hh) as [Hg _]. pose proof (hart_fpr _ Hh) as Hg'.
  assert (c_satp (csrs after_saving) = c_satp (csrs h)) as Hsatp by (rewrite Hc; destruct (csrs h); reflexivity).
  assert (length saved_tail = 8%nat) as Ht by done.
  change OFF_K_ADDR with (8 * Z.of_nat (64 + 7)). change OFF_DUAL_SATP with (8 * Z.of_nat (64 + 4)). cbn [app].
  rewrite (load_tail v) with (w := kernel_addr F); [|by rewrite Hsatp|done..].
  rewrite (load_tail v) with (w := kernel_satp F); [|by rewrite csrs_set_reg, Hsatp|by rewrite reg_set_ne|done..].
  rewrite (run_plain code v f m) with (h' := set_reg t5 (c_satp (csrs h)) (set_reg t4 (kernel_satp F) (set_reg t2 (kernel_addr F) after_saving)));
    [|lens|by rewrite !csrs_set_reg, Hsatp|done|cbn [exec read_csr]; by rewrite !csrs_set_reg, Hsatp].
  rewrite (run_sd code v f m) with (i := (64 + 4)%nat); [|lens|by rewrite !csrs_set_reg, Hsatp|by rewrite !reg_set_ne|done|lens].
  rewrite reg_set_eq by (done || (rewrite !length_set_reg, Hl; unfold t5; lia)). by rewrite insert_saved.
Qed.

Context (Hk : shows m (kernel_satp F) code f f).

(** The swap, whether or not it changes the register. *)
Lemma swap_satp k p :
  csrs k = write_csr Sscratch (reg h t6) (csrs h) → reg k t4 = kernel_satp F → reg k t5 = c_satp (csrs h) →
  run code 0 ([Beq t4 t5 2; Csrw Satp t4; SfenceVma] ++ p) (k, with_frame m f (saved h F)) =
  run code 0 p (set_csr Satp (kernel_satp F) k, with_frame m f (saved h F)).
Proof using All.
  intros Hc H4 H5. destruct (hart_gpr _ Hh) as [Hg _]. pose proof (hart_fpr _ Hh) as Hg'.
  assert (length (frame_words (saved h F)) ≤ 512)%nat as Hl by (rewrite with_frame_words by done; lia).
  assert (c_satp (csrs k) = c_satp (csrs h)) as Hsatp by (rewrite Hc; destruct (csrs h); reflexivity).
  unfold with_frame. cbn [app]. rewrite (run_beq code v f m) by (done || by rewrite Hsatp). rewrite H4, H5.
  destruct (Z.eqb_spec (kernel_satp F) (c_satp (csrs h))) as [Heq|Hne].
  - rewrite set_satp_same by congruence. reflexivity.
  - rewrite (run_plain code v f m) with (h' := set_csr Satp (kernel_satp F) k); [|done|by rewrite Hsatp|done|cbn [exec]; by rewrite H4].
    rewrite (run_plain code f f m) with (h' := set_csr Satp (kernel_satp F) k); [done|done| |done|done].
    simpl. by destruct (csrs k).
Qed.

(** The context of the kernel. *)
Lemma load_kernel k p :
  c_satp (csrs k) = kernel_satp F → length (gpr k) = 32%nat → reg k t2 = f →
  run code 0 ([Mv t6 t2; Ld sp OFF_K_SP t6; Ld tp OFF_K_TP t6; Mv a0 t6] ++ p) (k, with_frame m f (saved h F)) =
  run code 0 p (set_reg a0 f (set_reg tp (kernel_trap_frame_ptr F) (set_reg sp (kernel_sp F) (set_reg t6 f k))),
    with_frame m f (saved h F)).
Proof using Hh Hk.
  intros Hc Hl H2. destruct (hart_gpr _ Hh) as [Hg _]. pose proof (hart_fpr _ Hh) as Hg'.
  assert (length (frame_words (saved h F)) ≤ 512)%nat as Hlw by (rewrite with_frame_words by done; lia).
  change OFF_K_SP with (8 * Z.of_nat (64 + 5)). change OFF_K_TP with (8 * Z.of_nat (64 + 6)). unfold with_frame. cbn [app].
  assert (reg (set_reg t6 f k) t6 = f) as Hb by (rewrite reg_set_eq; [done|done|rewrite Hl; unfold t6; lia]).
  rewrite (run_plain code f f m) with (h' := set_reg t6 f k); [|done|by rewrite Hc|done|cbn [exec]; by rewrite H2].
  unfold frame_words. rewrite (load_tail f) with (w := kernel_sp F); [|by rewrite csrs_set_reg, Hc|done..].
  rewrite (load_tail f) with (w := kernel_trap_frame_ptr F); [|by rewrite !csrs_set_reg, Hc|by rewrite reg_set_ne|done..].
  rewrite (run_plain code f f m) with (h' := set_reg a0 f (set_reg tp (kernel_trap_frame_ptr F) (set_reg sp (kernel_sp F) (set_reg t6 f k))));
    [done|exact Hlw|by rewrite !csrs_set_reg, Hc|done|].
  cbn [exec]. by rewrite !(reg_set_ne _ t6), Hb by done.
Qed.

Context (Hf : kernel_addr F = f).

(** From the trap to the call of [handle_interrupt]. *)
Lemma trap_entry_run :
  run code 0 trap_entry (h, with_frame m f F) = Some (entered, with_frame m f (saved h F)).
Proof using All.
  destruct after_saving_facts as (Hl & Hb & Hc).
  assert (trap_entry = save_context ++ [Ld t2 OFF_K_ADDR t6; Ld t4 OFF_DUAL_SATP t6; Csrr t5 Satp; Sd t5 OFF_DUAL_SATP t6] ++
    [Beq t4 t5 2; Csrw Satp t4; SfenceVma] ++ [Mv t6 t2; Ld sp OFF_K_SP t6; Ld tp OFF_K_TP t6; Mv a0 t6] ++ []) as -> by reflexivity.
  rewrite save_context_run, enter_first, swap_satp.
  2:{ by rewrite !csrs_set_reg. }
  2:{ rewrite reg_set_ne, reg_set_eq; [done|done|rewrite length_set_reg, Hl; unfold t4; lia|done]. }
  2:{ rewrite reg_set_eq; [done|done|rewrite !length_set_reg, Hl; unfold t5; lia]. }
  rewrite load_kernel.
  - unfold entered. by rewrite Hf.
  - apply satp_written.
  - rewrite length_set_csr. by rewrite !length_set_reg.
  - rewrite reg_set_csr, (reg_set_ne t5 t2), (reg_set_ne t4 t2) by done. rewrite reg_set_eq; [exact Hf|done|rewrite Hl; unfold t2; lia].
Qed.
End Saving.

(** * Restoring a context *)

(** The 32 elements of a list, one after the other. *)
Ltac split_32 l H := do 32 (destruct l as [|? l]; [discriminate H|]); destruct l; [|discriminate H]; clear H.

(** Setting all the registers. *)
Lemma all_fregs k (l : list Z) :
  length l = 32%nat → length (fpr k) = 32%nat →
  foldl (λ h i, set_freg i (default 0 (l !! i)) h) k (seq 0 32) = mkHart (gpr k) l (csrs k) (pc k) (supervisor k).
Proof. destruct k as [g fl c p s]. simpl fpr. intros Hl Hf. split_32 l Hl. split_32 fl Hf. reflexivity. Qed.

(** All integer registers but zero, [t0] and [t6] are loaded from the frame. *)
Definition loaded_gps : list nat := filter (λ i, i ≠ 5%nat) (seq 1 30).

Lemma all_regs k (l : list Z) x y :
  registers_ok l → length (gpr k) = 32%nat → gpr k !! 0%nat = Some 0 → l !! 5%nat = Some x → l !! 31%nat = Some y →
  <[31%nat := y]> (<[5%nat := x]> (gpr (foldl (λ h i, set_reg i (default 0 (l !! i)) h) k loaded_gps))) = l.
Proof.
  destruct k as [g fl c p s]. unfold registers_ok. cbn [gpr]. intros [Hl Hl0] Hg Hg0 H5 H31. split_32 l Hl. split_32 g Hg.
  cbn in Hl0, Hg0, H5, H31. injection Hl0 as ->. injection Hg0 as ->. injection H5 as ->. injection H31 as ->. reflexivity.
Qed.

Lemma foldl_set_reg (val : nat → Z) l : ∀ k,
  Forall (λ i, (0 < i < 31)%nat) l → length (gpr k) = 32%nat →
  let k' := foldl (λ h i, set_reg i (val i) h) k l in
  csrs k' = csrs k ∧ fpr k' = fpr k ∧ pc k' = pc k ∧ supervisor k' = supervisor k ∧ reg k' t6 = reg k t6 ∧
  length (gpr k') = 32%nat ∧ gpr k' !! 0%nat = gpr k !! 0%nat.
Proof.
  induction l as [|i l IH]; intros k Hl Hlen; [done|]. apply Forall_cons in Hl as [Hi Hl].
  destruct (IH (set_reg i (val i) k) Hl) as (Hc & Hf & Hp & Hs & Hr & Hn & H0); [by rewrite length_set_reg|].
  cbn [foldl]. cbv zeta in *. rewrite Hc, Hf, Hp, Hs, Hr, Hn, H0, csrs_set_reg, reg_set_ne by (unfold t6; lia).
  unfold set_reg. rewrite decide_False by lia. simpl. split_and!; try done. by rewrite list_lookup_insert_ne by lia.
Qed.

Lemma restored_values c a b d :
  write_csr Satp a (write_csr Sstatus b (write_csr Sepc d c)) = mkCsrs (c_sscratch c) d b (c_scause c) (c_stval c) a (c_stvec c) (c_sie c).
Proof. by destruct c. Qed.

Section Restoring.
Context (code f : Z) (m : memory) (h : hart) (F : TrapFrame).
Context (Hh : hart_ok h) (HF : frame_ok F) (Ha : reg h a0 = f).
Context (Hk : shows m (c_satp (csrs h)) code f f) (Hu : shows m (kernel_satp F) code TRAP_FRAME_ALIAS f).
Context (Hfs : bf_get 13 2 (sstatus F) ≠ 0).

(** The frame with the kernel's satp value in it. *)
Definition left_frame : TrapFrame := with_satp F (c_satp (csrs h)).

Definition restored_csrs : csr_file :=
  write_csr Satp (kernel_satp F) (write_csr Sstatus (sstatus F) (write_csr Sepc (sepc F) (csrs h))).

(** A hart that holds the address of the frame. *)
Definition holds_frame (base : Z) (c : csr_file) (k : hart) : Prop :=
  reg k t6 = base ∧ csrs k = c ∧ length (gpr k) = 32%nat ∧ gpr k !! 0%nat = Some 0 ∧ fpr k = fpr h.

Lemma holds_set_reg base c k rd w : rd ≠ t6 → rd ≠ 0%nat → holds_frame base c k → holds_frame base c (set_reg rd w k).
Proof using.
  intros H6 H0 (Hb & Hc & Hl & Hz & Hf). unfold holds_frame. rewrite reg_set_ne, csrs_set_reg, length_set_reg by done.
  split_and!; try done; unfold set_reg; rewrite decide_False by done; [|done]. simpl. by rewrite list_lookup_insert_ne.
Qed.

Lemma holds_set_csr base c k r w : holds_frame base c k → holds_frame base (write_csr r w c) (set_csr r w k).
Proof using. intros (Hb & <- & Hl & Hz & Hf). done. Qed.

Lemma holds_set_frame base base' c k : holds_frame base c k → holds_frame base' c (set_reg t6 base' k).
Proof using.
  intros (Hb & Hc & Hl & Hz & Hf). unfold holds_frame. rewrite reg_set_eq, csrs_set_reg, length_set_reg by (done || rewrite Hl; unfold t6; lia).
  split_and!; try done. unfold set_reg. simpl. by rewrite list_lookup_insert_ne.
Qed.

(** A control register from the frame, through a scratch register. *)
Lemma load_csr base c k r rd (i : nat) w tail p :
  holds_frame base c k → shows m (c_satp c) code base f → rd ≠ t6 → (0 < rd < 32)%nat → length tail = 8%nat → tail !! i = Some w →
  ∃ k', run code 0 (Ld rd (8 * Z.of_nat (64 + i)) t6 :: Csrw r rd :: p) (k, store_words m f (regs F ++ fregs F ++ tail)) =
      run code 0 p (k', store_words m f (regs F ++ fregs F ++ tail)) ∧ holds_frame base (write_csr r w c) k'.
Proof using HF.
  intros Hk' Hs Hrd Hrd' Ht Hi. pose proof Hk' as (Hb & Hc & Hl & _). destruct HF as [[Hr _] Hfr].
  exists (set_csr r w (set_reg rd w k)). split; [|apply holds_set_csr, holds_set_reg; [done|lia|done]].
  rewrite (load_tail code f m base) with (w := w); [|by rewrite Hc|done..].
  rewrite (run_plain code base f m) with (h' := set_csr r w (set_reg rd w k)); [done|lens|by rewrite csrs_set_reg, Hc|done|].
  cbn [exec]. by rewrite reg_set_eq by (done || lia).
Qed.

(** The control registers and the swap of the address spaces. *)
Lemma restore_csrs_run p :
  ∃ k, run code 0 (Mv t6 a0 :: restore_csrs ++ p) (h, with_frame m f F) = run code 0 p (k, with_frame m f left_frame) ∧
    holds_frame TRAP_FRAME_ALIAS restored_csrs k.
Proof using Hh HF Ha Hk Hu.
  destruct HF as [[Hr Hr0] Hfr]. destruct (hart_gpr _ Hh) as [Hg Hg0].
  assert (length (frame_words F) ≤ 512)%nat as Hw by (rewrite with_frame_words by done; lia).
  assert (length (frame_words left_frame) ≤ 512)%nat as Hw' by (rewrite with_frame_words by done; lia).
  unfold restore_csrs. cbn [app]. unfold with_frame.
  change OFF_SEPC with (8 * Z.of_nat (64 + 0)). change OFF_SSTATUS with (8 * Z.of_nat (64 + 1)). change OFF_DUAL_SATP with (8 * Z.of_nat (64 + 4)).
  assert (holds_frame f (csrs h) (set_reg t6 f h)) as H1 by (apply (holds_set_frame (reg h t6)); by split_and!).
  rewrite (run_plain code f f m) with (h' := set_reg t6 f h); [|done|done|done|cbn [exec]; by rewrite Ha]. unfold frame_words at 1.
  destruct (load_csr f _ _ Sepc t0 0 (sepc F) [sepc F; sstatus F; scause F; stval F; kernel_satp F; kernel_sp F; kernel_trap_frame_ptr F; kernel_addr F]
    (Ld t1 (8 * Z.of_nat (64 + 1)) t6 :: Csrw Sstatus t1 :: Ld t4 (8 * Z.of_nat (64 + 4)) t6 :: Csrr t5 Satp :: Sd t5 (8 * Z.of_nat (64 + 4)) t6 ::
     Csrw Satp t4 :: SfenceVma :: Li t6 TRAP_FRAME_ALIAS :: p) H1 Hk) as (k2 & -> & H2); [done|unfold t0; lia|done|done|].
  assert (∀ v, c_satp (write_csr Sepc v (csrs h)) = c_satp (csrs h)) as Hs2 by (intros; destruct (csrs h); reflexivity).
  destruct (load_csr f _ _ Sstatus t1 1 (sstatus F) [sepc F; sstatus F; scause F; stval F; kernel_satp F; kernel_sp F; kernel_trap_frame_ptr F; kernel_addr F]
    (Ld t4 (8 * Z.of_nat (64 + 4)) t6 :: Csrr t5 Satp :: Sd t5 (8 * Z.of_nat (64 + 4)) t6 ::
     Csrw Satp t4 :: SfenceVma :: Li t6 TRAP_FRAME_ALIAS :: p) H2) as (k3 & -> & H3); [by rewrite Hs2|done|unfold t1; lia|done|done|].
  set (c3 := write_csr Sstatus (sstatus F) (write_csr Sepc (sepc F) (csrs h))) in *.
  assert (c_satp c3 = c_satp (csrs h)) as Hs3 by (unfold c3; destruct (csrs h); reflexivity).
  pose proof H3 as (Hb3 & Hc3 & Hl3 & _).
  rewrite (load_tail code f m f) with (w := kernel_satp F); [|by rewrite Hc3, Hs3|done..].
  set (k4 := set_reg t4 (kernel_satp F) k3). assert (holds_frame f c3 k4) as H4 by by apply holds_set_reg.
  assert (reg k4 t4 = kernel_satp F) as H44 by (unfold k4; rewrite reg_set_eq; [done|done|rewrite Hl3; unfold t4; lia]). clearbody k4.
  pose proof H4 as (_ & Hc4 & Hl4 & _).
  set (k5 := set_reg t5 (c_satp (csrs h)) k4). assert (holds_frame f c3 k5) as H5 by by apply holds_set_reg.
  rewrite (run_plain code f f m) with (h' := k5); [|exact Hw|by rewrite Hc4, Hs3|done|cbn [exec read_csr]; by rewrite Hc4, Hs3].
  assert (reg k5 t5 = c_satp (csrs h)) as H55 by (unfold k5; rewrite reg_set_eq; [done|done|rewrite Hl4; unfold t5; lia]).
  assert (reg k5 t4 = kernel_satp F) as H54 by (unfold k5; by rewrite reg_set_ne). clearbody k5.
  pose proof H5 as (Hb5 & Hc5 & _).
  rewrite (run_sd code f f m) with (i := (64 + 4)%nat); [|exact Hw|by rewrite Hc5, Hs3|done|done|lens].
  rewrite H55, insert_saved by done. cbn [insert list_insert].
  assert (holds_frame f restored_csrs (set_csr Satp (kernel_satp F) k5)) as H6 by by apply holds_set_csr.
  assert (c_satp restored_csrs = kernel_satp F) as Hs6 by (unfold restored_csrs; destruct (csrs h); reflexivity).
  rewrite (run_plain code f f m) with (h' := set_csr Satp (kernel_satp F) k5); [|exact Hw'|by rewrite Hc5, Hs3|done|cbn [exec]; by rewrite H54].
  generalize dependent (set_csr Satp (kernel_satp F) k5). intros k6 H6. pose proof H6 as (_ & Hc6 & _).
  rewrite (run_plain code TRAP_FRAME_ALIAS f m) with (h' := k6); [|exact Hw'|by rewrite Hc6, Hs6|done|done].
  exists (set_reg t6 TRAP_FRAME_ALIAS k6). split; [|by eapply holds_set_frame].
  by rewrite (run_plain code TRAP_FRAME_ALIAS f m) with (h' := set_reg t6 TRAP_FRAME_ALIAS k6); [|exact Hw'|rewrite Hc6, Hs6|done|done].
Qed.

(** ** The registers *)

(** A hart in the address space of the thread. *)
Definition in_thread (k : hart) : Prop := csrs k = restored_csrs ∧ reg k t6 = TRAP_FRAME_ALIAS.

Lemma left_words : length (frame_words left_frame) = 72%nat.
Proof using HF. destruct HF as [[Hr _] Hfr]. by apply with_frame_words. Qed.

Lemma in_thread_shows k : in_thread k → shows m (c_satp (csrs k)) code TRAP_FRAME_ALIAS f.
Proof using Hu. intros [-> _]. unfold restored_csrs. by rewrite restored_values. Qed.

Lemma in_thread_fs k : in_thread k → fs_on (csrs k) = true.
Proof using Hfs.
  intros [-> _]. unfold restored_csrs, fs_on. rewrite restored_values. simpl. by destruct (Z.eqb_spec (bf_get 13 2 (sstatus F)) 0).
Qed.

Lemma left_reg i : (i < 32)%nat → frame_words left_frame !! i = Some (default 0 (regs F !! i)).
Proof using HF.
  intros Hi. destruct HF as [[Hr _] Hfr]. unfold frame_words. cbn [regs left_frame with_satp]. rewrite lookup_app_l by lia.
  destruct (lookup_lt_is_Some_2 (regs F) i) as [x ->]; [lia|done].
Qed.

Lemma left_freg i : (i < 32)%nat → frame_words left_frame !! (32 + i)%nat = Some (default 0 (fregs F !! i)).
Proof using HF.
  intros Hi. destruct HF as [[Hr _] Hfr]. unfold frame_words. cbn [regs fregs left_frame with_satp].
  rewrite lookup_app_r, Hr by lia. replace (32 + i - 32)%nat with i by lia. rewrite lookup_app_l by lia.
  destruct (lookup_lt_is_Some_2 (fregs F) i) as [x ->]; [lia|done].
Qed.

Lemma load_reg i k o p :
  in_thread k → (i < 32)%nat → o = 8 * Z.of_nat i → ∀ rd,
  run code 0 (Ld rd o t6 :: p) (k, with_frame m f left_frame) =
  run code 0 p (set_reg rd (default 0 (regs F !! i)) k, with_frame m f left_frame).
Proof using HF Hu.
  intros Hk' Hi Ho rd. pose proof left_words as Hl. apply (run_ld code TRAP_FRAME_ALIAS f m) with (i := i);
    [lia|by apply in_thread_shows|apply Hk'|done|by apply left_reg].
Qed.

Lemma restore_floating k p :
  in_thread k → length (fpr k) = 32%nat →
  run code 0 ((load_fp <$> seq 0 32) ++ p) (k, with_frame m f left_frame) =
  run code 0 p (mkHart (gpr k) (fregs F) (csrs k) (pc k) (supervisor k), with_frame m f left_frame).
Proof using HF Hu Hfs.
  intros Hk' Hlf. destruct HF as [_ Hfr]. rewrite <- (all_fregs k (fregs F)) by done.
  apply (run_loads code load_fp _ (λ i, default 0 (fregs F !! i)) (with_frame m f left_frame) (λ i k, in_thread k ∧ (i < 32)%nat)).
  - intros i k' q [Hk'' Hi]. pose proof left_words as Hl. unfold load_fp. apply (run_fld code TRAP_FRAME_ALIAS f m) with (i := (32 + i)%nat);
      [lia|by apply in_thread_shows|by apply in_thread_fs|apply Hk''|unfold REG_SIZE, OFF_FREGS; lia|by apply left_freg].
  - intros i i' k' [Hk'' _] [_ Hi']. done.
  - intros i Hi%elem_of_seq. split; [done|lia].
Qed.

Lemma restore_integer k p :
  in_thread k →
  run code 0 ((load_gp <$> loaded_gps) ++ p) (k, with_frame m f left_frame) =
  run code 0 p (foldl (λ h i, set_reg i (default 0 (regs F !! i)) h) k loaded_gps, with_frame m f left_frame).
Proof using HF Hu.
  intros Hk'.
  apply (run_loads code load_gp _ (λ i, default 0 (regs F !! i)) (with_frame m f left_frame) (λ i k, in_thread k ∧ (i < 31)%nat)).
  - intros i k' q [Hk'' Hi]. unfold load_gp. apply load_reg; [done|lia|unfold REG_SIZE, OFF_REGS; lia].
  - intros i i' k' [[Hc Hb] Hi] [_ Hi']. split; [|done]. split; [by rewrite csrs_set_reg|]. rewrite reg_set_ne; [done|unfold t6; lia].
  - intros i [_ Hi%elem_of_seq]%list_elem_of_filter. split; [done|lia].
Qed.

(** The last five instructions, with [x] and [y] for [t0] and [t6]. *)
Definition departed (x y : Z) (k : hart) : hart :=
  sret (set_reg t6 y (set_csr Sscratch TRAP_FRAME_ALIAS (set_reg t0 x (set_csr Sscratch y (set_reg t0 y k))))).

Lemma departed_resumed k x y :
  in_thread k → fpr k = fregs F → <[31%nat := y]> (<[5%nat := x]> (gpr k)) = regs F → departed x y k = resumed F h.
Proof using.
  intros [Hc _] Hf Hg. unfold departed, set_reg, t0, t6, set_csr, sret, resumed. rewrite !decide_False by done.
  cbn [gpr fpr csrs pc supervisor]. rewrite Hc, Hf. unfold restored_csrs. rewrite restored_values. cbn.
  f_equal. by rewrite <- Hg, list_insert_insert_eq.
Qed.

Lemma depart k x y :
  in_thread k → length (gpr k) = 32%nat → regs F !! 5%nat = Some x → regs F !! 31%nat = Some y →
  run code 0 [Ld t0 (31 * REG_SIZE + OFF_REGS) t6; Csrw Sscratch t0; Ld t0 (5 * REG_SIZE + OFF_REGS) t6; Csrrw t6 Sscratch t6; Sret]
    (k, with_frame m f left_frame) = Some (departed x y k, with_frame m f left_frame).
Proof using HF Hu.
  intros Hk' Hl Hx Hy. pose proof left_words as Hlw. pose proof Hk' as [Hc Hb].
  rewrite (load_reg 31) by (done || unfold REG_SIZE, OFF_REGS; lia). rewrite Hy. cbn [default]. unfold with_frame.
  set (k1 := set_csr Sscratch y (set_reg t0 y k)).
  assert (∀ w a b c d, c_satp (write_csr Sscratch w (write_csr Satp a (write_csr Sstatus b (write_csr Sepc c d)))) = a) as Hsatp
    by (intros; rewrite restored_values; reflexivity).
  rewrite (run_plain code TRAP_FRAME_ALIAS f m) with (h' := k1);
    [|lia|rewrite csrs_set_reg; by apply in_thread_shows|done|cbn [exec]; unfold k1; by rewrite reg_set_eq by (done || rewrite Hl; unfold t0; lia)].
  assert (c_satp (csrs k1) = kernel_satp F) as Hs1 by (unfold k1; rewrite csrs_set_csr, csrs_set_reg, Hc; apply Hsatp).
  assert (reg k1 t6 = TRAP_FRAME_ALIAS) as Hb1 by (unfold k1; by rewrite reg_set_csr, reg_set_ne).
  assert (frame_words left_frame !! 5%nat = Some x) as H5 by (rewrite left_reg by lia; by rewrite Hx).
  rewrite (run_ld code TRAP_FRAME_ALIAS f m) with (i := 5%nat) (w := x); [|lia|by rewrite Hs1|done|done|done].
  set (k2 := set_reg t0 x k1). assert (csrs k2 = csrs k1) as Hc2 by (unfold k2; by rewrite csrs_set_reg).
  assert (reg k2 t6 = TRAP_FRAME_ALIAS) as Hb2 by (unfold k2; by rewrite reg_set_ne).
  assert (c_sscratch (csrs k1) = y) as Hy1 by (unfold k1; rewrite csrs_set_csr; by destruct (csrs (set_reg t0 y k))).
  set (k3 := set_reg t6 y (set_csr Sscratch TRAP_FRAME_ALIAS k2)).
  assert (c_satp (csrs k3) = kernel_satp F) as Hs3.
  { unfold k3. rewrite csrs_set_reg, csrs_set_csr, Hc2, <- Hs1. by destruct (csrs k1). }
  rewrite (run_plain code TRAP_FRAME_ALIAS f m) with (h' := k3);
    [|lia|by rewrite Hc2, Hs1|done|cbn [exec read_csr]; unfold k3; by rewrite Hc2, Hb2, Hy1].
  rewrite (run_plain code TRAP_FRAME_ALIAS f m) with (h' := sret k3); [done|lia|by rewrite Hs3|done|done].
Qed.

(** From the return of [handle_interrupt] to the thread. *)
Lemma trap_exit_run :
  run code 0 trap_exit (h, with_frame m f F) = Some (resumed F h, with_frame m f left_frame).
Proof using Hh HF Ha Hk Hu Hfs.
  pose proof HF as [Hr Hfr]. pose proof Hr as [Hrl _].
  assert (trap_exit = Mv t6 a0 :: restore_csrs ++ (load_fp <$> seq 0 32) ++ (load_gp <$> loaded_gps) ++
    [Ld t0 (31 * REG_SIZE + OFF_REGS) t6; Csrw Sscratch t0; Ld t0 (5 * REG_SIZE + OFF_REGS) t6; Csrrw t6 Sscratch t6; Sret]) as -> by reflexivity.
  edestruct restore_csrs_run as (k & -> & Hb & Hc & Hl & Hz & Hf).
  rewrite restore_floating; [|done|rewrite Hf; apply Hh]. set (k1 := mkHart _ _ _ _ _).
  assert (in_thread k1) as H1 by done. rewrite (restore_integer k1) by done.
  destruct (foldl_set_reg (λ i, default 0 (regs F !! i)) loaded_gps k1) as (Hc2 & Hf2 & _ & _ & Hb2 & Hl2 & _); [|done|].
  { apply Forall_forall. intros i [_ Hi%elem_of_seq]%list_elem_of_filter. lia. }
  destruct (lookup_lt_is_Some_2 (regs F) 5) as [x Hx]; [lia|]. destruct (lookup_lt_is_Some_2 (regs F) 31) as [y Hy]; [lia|].
  pose proof (all_regs k1 (regs F) x y Hr Hl Hz Hx Hy) as Hg.
  generalize dependent (foldl (λ h i, set_reg i (default 0 (regs F !! i)) h) k1 loaded_gps). intros k2 Hc2 Hf2 Hb2 Hl2 Hg.
  assert (in_thread k2) as H2 by (split; [by rewrite Hc2|by rewrite Hb2]).
  rewrite (depart k2 x y) by done. by rewrite departed_resumed.
Qed.
End Restoring.

(** * Threads and the kernel *)

(** One trap: [handler] stands for the compiled [handle_interrupt]. *)
Definition trap (code : Z) (handler : hart * memory → option (hart * memory)) (cause tval : Z) (s : hart * memory) :
    option (hart * memory) :=
  s1 ← run code 0 trap_entry (take_trap cause tval s.1, s.2);
  s2 ← handler s1;
  run code 0 trap_exit s2.

(** A thread that runs in user mode, with the frame [F] at [f]. *)
Record running (code : Z) (m : memory) (f : Z) (F : TrapFrame) (h : hart) : Prop := {
  run_hart : hart_ok h;
  run_mode : supervisor h = false;
  run_scratch : c_sscratch (csrs h) = TRAP_FRAME_ALIAS;
  run_fs : bf_get 13 2 (c_sstatus (csrs h)) ≠ 0;
  run_frame : frame_ok F ∧ kernel_addr F = f ∧ words_at m f (frame_words F);
  run_user : shows m (c_satp (csrs h)) code TRAP_FRAME_ALIAS f;
  run_kernel : shows m (kernel_satp F) code f f
}.

(** A thread whose context is in the frame [F] at [f], to be resumed by a kernel
    that runs in the address space [K]. *)
Record ready (K code : Z) (m : memory) (f : Z) (F : TrapFrame) : Prop := {
  ready_frame : frame_ok F ∧ kernel_addr F = f ∧ words_at m f (frame_words F);
  ready_fs : bf_get 13 2 (sstatus F) ≠ 0;
  ready_mode : Z.testbit (sstatus F) 8 = false;
  ready_user : shows m (kernel_satp F) code TRAP_FRAME_ALIAS f;
  ready_kernel : shows m K code f f
}.

(** The kernel is about to go on with the frame at [f]. *)
Record returning (K f : Z) (k : hart) : Prop := {
  ret_hart : hart_ok k;
  ret_satp : c_satp (csrs k) = K;
  ret_frame : reg k a0 = f
}.

(** ** Address spaces do not depend on the words of the frame *)
Lemma mmu_reads_agree m m' root va :
  (∀ b, b ∈ mmu_reads m root va → m' !! b = m !! b) → mmu_reads m' root va = mmu_reads m root va.
Proof.
  unfold mmu_reads. intros H. rewrite (H (root + 8 * vpn2 va)) by by left. f_equal.
  destruct (m !! (root + 8 * vpn2 va) ≫= pointed) as [b|]; [|done]. by rewrite (H (b + 8 * vpn1 va)) by (right; by left).
Qed.

Lemma shows_store m satp code v f ws :
  shows m satp code v f → (length ws ≤ 512)%nat → shows (store_words m f ws) satp code v f.
Proof.
  intros Hs Hlen. destruct (shows_walk code v f m satp ws 0 Hs Hlen) as [He _]; [lia|].
  destruct Hs as [Hmode Ha (perms & Hw & Hp) Hc Hr]. apply Forall_app in Hr as [Hr1 Hr2]. pose proof Hr1 as Hr1'. pose proof Hr2 as Hr2'.
  rewrite Forall_forall in Hr1, Hr2.
  assert (∀ b, ¬ in_page f b → store_words m f ws !! b = m !! b) as Hout.
  { intros b Hb. apply store_words_outside. unfold in_page in Hb. lia. }
  constructor; [done|done| |done|].
  - exists perms. split; [|done]. rewrite (mmu_agree m (store_words m f ws)); [done|]. intros b Hb. by apply Hout, Hr1.
  - rewrite !(mmu_reads_agree m (store_words m f ws)); [by apply Forall_app|intros b Hb; by apply Hout, Hr2|intros b Hb; by apply Hout, Hr1].
Qed.

Lemma words_at_stored m a ws : words_at (store_words m a ws) a ws.
Proof. intros i w Hi. by apply store_words_lookup. Qed.

Lemma frame_in_page F : frame_ok F → (length (frame_words F) ≤ 512)%nat.
Proof. intros [[Hr _] Hf]. rewrite with_frame_words by done. lia. Qed.

(** ** Status words *)
Lemma trap_status_fs b s : bf_get 13 2 (trap_status b s) = bf_get 13 2 s.
Proof. unfold trap_status. by rewrite !bf_get_set_ne by lia. Qed.

Lemma sret_status_fs s : bf_get 13 2 (sret_status s) = bf_get 13 2 s.
Proof. unfold sret_status. by rewrite !bf_get_set_ne by lia. Qed.

Lemma trap_status_user s : Z.testbit (trap_status false s) 8 = false.
Proof. unfold trap_status. by rewrite bf_set_spec by lia. Qed.

(** A trap from user mode and the return from it leave the status of a program
    that was itself returned to. *)
Lemma status_back s : Z.testbit s 5 = true → Z.testbit s 8 = false → sret_status (trap_status false s) = s.
Proof.
  intros H5 H8. apply Z.bits_inj'. intros i Hi. unfold sret_status, trap_status.
  destruct (decide (i = 8)) as [-> |]; [rewrite bf_set_spec by lia; by rewrite H8|].
  destruct (decide (i = 5)) as [-> |]; [rewrite !bf_set_spec by lia; by rewrite H5|].
  assert (bf_get 5 1 (bf_set 8 1 (Z.b2z false) (bf_set 5 1 (bf_get 1 1 s) (bf_set 1 1 0 s))) = bf_get 1 1 s) as ->.
  { rewrite bf_get_set_ne, bf_get_set_eq by lia. apply wrap_small. by apply bf_get_bound. }
  rewrite !bf_set_spec by lia. destruct (decide (i = 1)) as [-> |]; [by rewrite bf_get_spec by lia|]. split_cmp; done.
Qed.

(** ** Entering and leaving *)

(** A trap suspends the running thread: its whole context is in its frame, and
    nothing else was written. *)
Lemma trap_entry_ok code m f F h cause tval :
  running code m f F h →
  let h' := take_trap cause tval h in
  let m' := with_frame m f (saved h' F) in
  run code 0 trap_entry (h', m) = Some (entered h' F, m') ∧
  ready (kernel_satp F) code m' f (saved h' F) ∧
  reg (entered h' F) a0 = f ∧ reg (entered h' F) sp = kernel_sp F ∧ reg (entered h' F) tp = kernel_trap_frame_ptr F ∧
  c_satp (csrs (entered h' F)) = kernel_satp F ∧ supervisor (entered h' F) = true ∧
  ∀ b, ¬ in_page f b → m' !! b = m !! b.
Proof.
  intros [Hh Hmode Hscr Hfs (HF & Hf & Hw) Hu Hk]. cbv zeta. set (h' := take_trap cause tval h).
  assert (hart_ok h') as Hh' by (destruct Hh; by constructor).
  assert (fs_on (csrs h') = true) as Hfs'.
  { unfold fs_on, h', take_trap. cbn. rewrite trap_status_fs. by destruct (Z.eqb_spec (bf_get 13 2 (c_sstatus (csrs h))) 0). }
  assert (frame_ok (saved h' F)) as HF' by (destruct Hh'; by constructor).
  pose proof (trap_entry_run code TRAP_FRAME_ALIAS f m h' F Hh' HF Hu Hscr Hfs' Hk Hf) as Hrun.
  unfold with_frame in Hrun at 1. rewrite (store_words_same _ m f Hw) in Hrun.
  destruct (after_saving_facts code TRAP_FRAME_ALIAS f m h' F Hh' HF Hu Hscr Hfs') as (Hl & _ & Hc).
  split; [exact Hrun|]. split; [|split; [|split; [|split; [|split; [|split]]]]].
  - constructor.
    + split; [done|]. split; [done|]. apply words_at_stored.
    + cbn. by rewrite trap_status_fs.
    + cbn. rewrite Hmode. apply trap_status_user.
    + apply shows_store; [done|by apply frame_in_page].
    + apply shows_store; [done|by apply frame_in_page].
  - unfold entered. rewrite reg_set_eq; [done|done|]. rewrite !length_set_reg, length_set_csr, !length_set_reg, Hl. unfold a0. lia.
  - unfold entered. rewrite (reg_set_ne a0 sp), (reg_set_ne tp sp) by done. rewrite reg_set_eq; [done|done|].
    rewrite !length_set_reg, length_set_csr, !length_set_reg, Hl. unfold sp. lia.
  - unfold entered. rewrite (reg_set_ne a0 tp) by done. rewrite reg_set_eq; [done|done|].
    rewrite !length_set_reg, length_set_csr, !length_set_reg, Hl. unfold tp. lia.
  - unfold entered. rewrite !csrs_set_reg. apply satp_written.
  - reflexivity.
  - intros b Hb. apply store_words_outside. pose proof (with_frame_words (saved h' F)) as Hlen.
    destruct HF' as [[Hr _] Hfr]. rewrite Hlen by done. unfold in_page in Hb. lia.
Qed.

(** The return to a thread that is ready. *)
Lemma trap_exit_ok code m f F k K :
  ready K code m f F → returning K f k →
  run code 0 trap_exit (k, m) = Some (resumed F k, with_frame m f (with_satp F K)) ∧
  running code (with_frame m f (with_satp F K)) f (with_satp F K) (resumed F k).
Proof.
  intros [(HF & Hf & Hw) Hfs Hmode Hu Hk] [Hh Hs Ha]. split.
  - rewrite <- (store_words_same _ m f Hw) at 1. fold (with_frame m f F). rewrite <- Hs in Hk |- *.
    apply (trap_exit_run code f m k F Hh HF Ha Hk Hu Hfs).
  - assert (frame_ok (with_satp F K)) as HF' by (destruct HF; by constructor). constructor.
    + destruct HF. by constructor.
    + exact Hmode.
    + reflexivity.
    + cbn. by rewrite sret_status_fs.
    + split; [done|]. split; [done|]. apply words_at_stored.
    + apply shows_store; [exact Hu|by apply frame_in_page].
    + apply shows_store; [exact Hk|by apply frame_in_page].
Qed.

(** A trap, the kernel's work, and the return to the thread that it names. *)
Lemma trap_goes_on code handler cause tval m f F h k m1 g G :
  running code m f F h →
  handler (entered (take_trap cause tval h) F, with_frame m f (saved (take_trap cause tval h) F)) = Some (k, m1) →
  returning (kernel_satp F) g k → ready (kernel_satp F) code m1 g G →
  let m2 := with_frame m1 g (with_satp G (kernel_satp F)) in
  trap code handler cause tval (h, m) = Some (resumed G k, m2) ∧
  running code m2 g (with_satp G (kernel_satp F)) (resumed G k).
Proof.
  intros Hrun Hh Hret Hready. destruct (trap_entry_ok code m f F h cause tval Hrun) as (He & _).
  destruct (trap_exit_ok code m1 g G k (kernel_satp F) Hready Hret) as [Hx Hrun'].
  split; [|exact Hrun']. unfold trap. cbn [fst snd]. rewrite He. cbn [mbind option_bind]. rewrite Hh. exact Hx.
Qed.

(** * Properties *)

(** C20: a trap of a running thread suspends it, and whichever thread the kernel
    then names runs on with the context in its frame.  The handler is called in
    the kernel's address space with the frame of the thread, the kernel's stack
    and its thread pointer; at that time the thread is itself ready to be resumed
    and no other memory has changed.  If the handler returns, still in the kernel's
    address space, the frame of a thread that is ready, then that thread runs:
    its registers, program counter and address space are those of its frame, and
    its frame again holds what the next trap needs. *)
Theorem trap_switch code handler cause tval m f F h k m1 g G :
  running code m f F h →
  let h' := take_trap cause tval h in
  handler (entered h' F, with_frame m f (saved h' F)) = Some (k, m1) →
  returning (kernel_satp F) g k → ready (kernel_satp F) code m1 g G →
  (reg (entered h' F) a0 = f ∧ reg (entered h' F) sp = kernel_sp F ∧ reg (entered h' F) tp = kernel_trap_frame_ptr F ∧
   c_satp (csrs (entered h' F)) = kernel_satp F ∧ supervisor (entered h' F) = true) ∧
  ready (kernel_satp F) code (with_frame m f (saved h' F)) f (saved h' F) ∧
  (∀ b, ¬ in_page f b → with_frame m f (saved h' F) !! b = m !! b) ∧
  let m2 := with_frame m1 g (with_satp G (kernel_satp F)) in
  trap code handler cause tval (h, m) = Some (resumed G k, m2) ∧
  running code m2 g (with_satp G (kernel_satp F)) (resumed G k) ∧
  gpr (resumed G k) = regs G ∧ fpr (resumed G k) = fregs G ∧ pc (resumed G k) = sepc G ∧
  c_satp (csrs (resumed G k)) = kernel_satp G.
Proof.
  intros Hrun h' Hh Hret Hready. destruct (trap_entry_ok code m f F h cause tval Hrun) as (He & Hr & Ha & Hsp & Htp & Hc & Hs & Hm).
  destruct (trap_goes_on code handler cause tval m f F h k m1 g G Hrun Hh Hret Hready) as [Hx Hrun'].
  split; [by split_and!|]. split; [exact Hr|]. split; [exact Hm|]. cbv zeta. split; [exact Hx|by split_and!].
Qed.

(** A trap is transparent: if the handler returns to the interrupted thread
    and kept its context in the frame, the program goes on with every integer and
    floating-point register, the program counter, the status, the address space
    and the mode it had, although its registers carried the kernel's values in
    between. *)
Theorem trap_transparent code handler cause tval m f F h k m1 G :
  running code m f F h → Z.testbit (c_sstatus (csrs h)) 5 = true → Z.testbit (c_sstatus (csrs h)) 8 = false →
  let S := saved (take_trap cause tval h) F in
  handler (entered (take_trap cause tval h) F, with_frame m f S) = Some (k, m1) →
  returning (kernel_satp F) f k → ready (kernel_satp F) code m1 f G →
  regs G = regs S → fregs G = fregs S → sepc G = sepc S → sstatus G = sstatus S → kernel_satp G = kernel_satp S →
  ∃ h2 m2, trap code handler cause tval (h, m) = Some (h2, m2) ∧
    gpr h2 = gpr h ∧ fpr h2 = fpr h ∧ pc h2 = pc h ∧ supervisor h2 = supervisor h ∧
    c_sstatus (csrs h2) = c_sstatus (csrs h) ∧ c_satp (csrs h2) = c_satp (csrs h) ∧ c_sscratch (csrs h2) = c_sscratch (csrs h) ∧
    running code m2 f (with_satp G (kernel_satp F)) h2.
Proof.
  intros Hrun H5 H8 S Hh Hret Hready Hr Hf Hp Hs Hk.
  destruct (trap_goes_on code handler cause tval m f F h k m1 f G Hrun Hh Hret Hready) as [Ht Hrun'].
  fold S in Ht, Hrun'.
  pose proof (run_mode _ _ _ _ _ Hrun) as Hmode.
  exists (resumed G k), (with_frame m1 f (with_satp G (kernel_satp F))). split; [exact Ht|].
  assert (sstatus S = trap_status false (c_sstatus (csrs h))) as HS by (unfold S; cbn; by rewrite Hmode).
  split; [exact Hr|]. split; [exact Hf|]. split; [exact Hp|]. split; [|split; [|split; [exact Hk|split; [|exact Hrun']]]].
  - change (Z.testbit (sstatus G) 8 = supervisor h). rewrite Hs, HS, Hmode. apply trap_status_user.
  - change (sret_status (sstatus G) = c_sstatus (csrs h)). rewrite Hs, HS. by apply status_back.
  - symmetry. apply (run_scratch _ _ _ _ _ Hrun).
Qed.

Lemma switch_prologue code m f F k K m_trap_vector :
  frame_ok F → words_at m f (frame_words F) → shows m K code f f → returning K f k →
  ∃ k', run code 0 (switch_to_user m_trap_vector) (k, m) = run code 0 trap_exit (k', m) ∧ returning K f k' ∧
    c_stvec (csrs k') = m_trap_vector ∧ c_sie (csrs k') = enabled_interrupts.
Proof.
  intros HF Hw Hk [[[Hg Hg0] Hg'] Hs Ha]. pose proof (frame_in_page F HF) as Hl.
  assert (∃ ws, (length ws ≤ 512)%nat ∧ store_words m f ws = m) as (ws & Hlw & Hm) by (exists (frame_words F); split; [done|by apply store_words_same]).
  rewrite <- Hm. set (k1 := set_reg t0 m_trap_vector k). set (k2 := set_csr Stvec m_trap_vector k1).
  set (k3 := set_reg t0 enabled_interrupts k2). set (k4 := set_csr Sie enabled_interrupts k3). exists k4.
  assert (length (gpr k1) = 32%nat) as Hl1 by (unfold k1; by rewrite length_set_reg).
  assert (length (gpr k2) = 32%nat) as Hl2 by done. assert (csrs k1 = csrs k) as Hc1 by (unfold k1; apply csrs_set_reg).
  assert (csrs k3 = csrs k2) as Hc3 by (unfold k3; apply csrs_set_reg).
  assert (c_satp (csrs k2) = K) as Hs2 by (unfold k2; rewrite csrs_set_csr, Hc1; destruct (csrs k); exact Hs).
  split; [|split; [constructor|split]].
  - unfold switch_to_user. cbn [app].
    rewrite (run_plain code f f m) with (h' := k1); [|done|by rewrite Hs|done|done].
    rewrite (run_plain code f f m) with (h' := k2); [|done|by rewrite Hc1, Hs|done|
      cbn [exec]; unfold k1 at 1; by rewrite reg_set_eq by (done || rewrite Hg; unfold t0; lia)].
    rewrite (run_plain code f f m) with (h' := k3); [|done|by rewrite Hs2|done|done].
    rewrite (run_plain code f f m) with (h' := k4); [|done|by rewrite Hc3, Hs2|done|
      cbn [exec]; unfold k3 at 1; by rewrite reg_set_eq by (done || rewrite Hl2; unfold t0; lia)].
    reflexivity.
  - constructor; unfold k4, k3, k2, k1, set_reg; repeat (rewrite decide_False by done); cbn [gpr fpr set_csr]; [|done].
    split; [by rewrite !length_insert|]. by rewrite !list_lookup_insert_ne.
  - unfold k4. rewrite csrs_set_csr, Hc3. by destruct (csrs k2).
  - unfold k4. rewrite reg_set_csr. unfold k3. rewrite reg_set_ne by done. unfold k2. rewrite reg_set_csr. unfold k1. by rewrite reg_set_ne.
  - unfold k4. rewrite csrs_set_csr, Hc3. unfold k2. rewrite csrs_set_csr. by destruct (csrs k1).
  - unfold k4. rewrite csrs_set_csr. by destruct (csrs k3).
Qed.

(** C21: [switch_to_user] starts a new thread: with the frame that the creation of a
    process and the scheduler leave in memory, the hart runs at the program counter
    in user mode, in the process's address space, with the stack pointer at the top
    of the stack, every other register 0, interrupts on, and the trap vector set;
    the next trap finds all that it needs. *)
Theorem first_switch K code m_trap_vector m f program_counter satp kernel_stack kernel_pointer k :
  let G := with_kernel (initial_frame program_counter satp f) kernel_stack kernel_pointer in
  words_at m f (frame_words G) → shows m satp code TRAP_FRAME_ALIAS f → shows m K code f f → returning K f k →
  ∃ h m', run code 0 (switch_to_user m_trap_vector) (k, m) = Some (h, m') ∧ running code m' f (with_satp G K) h ∧
    pc h = program_counter ∧ c_satp (csrs h) = satp ∧ reg h sp = STACK_ADDRESS ∧ (∀ i, i ≠ sp → reg h i = 0) ∧
    (∀ i, freg h i = 0) ∧ Z.testbit (c_sstatus (csrs h)) 1 = true ∧ c_stvec (csrs h) = m_trap_vector ∧
    c_sie (csrs h) = enabled_interrupts.
Proof.
  intros G Hw Hu Hk Hret. assert (frame_ok G) as HG by (repeat split).
  destruct (switch_prologue code m f G k K m_trap_vector HG Hw Hk Hret) as (k' & -> & Hret' & Hv & Hi).
  assert (ready K code m f G) as Hready by (constructor; [by split_and!|by vm_compute|by vm_compute|exact Hu|exact Hk]).
  destruct (trap_exit_ok code m f G k' K Hready Hret') as [-> Hrun].
  exists (resumed G k'), (with_frame m f (with_satp G K)). split; [done|]. split; [exact Hrun|].
  split; [done|]. split; [done|]. split; [done|]. split; [|split; [|split; [by vm_compute|by split]]].
  - intros i Hi'. unfold reg. cbn [resumed gpr G with_kernel initial_frame regs]. unfold sp in Hi'.
    destruct (decide (i < 32)%nat); [|by rewrite lookup_ge_None_2 by (rewrite length_insert, length_replicate; lia)].
    rewrite list_lookup_insert_ne by done. by rewrite lookup_replicate_2.
  - intros i. unfold freg. cbn [resumed fpr G with_kernel initial_frame fregs].
    destruct (decide (i < 32)%nat); [by rewrite lookup_replicate_2|by rewrite lookup_ge_None_2 by (rewrite length_replicate; lia)].
Qed.

(** C22: a trap that the kernel itself takes before the first process runs never
    reaches the handler: [System::System] leaves the address of the frame of a hart
    in [sscratch] but not in its [kernel_addr], so the vector goes on with a frame
    at address 0, and the load of the stack pointer faults. *)
Theorem kernel_trap_faults code cause tval m i frame stack h :
  let F := base (hart_frame i frame stack (c_satp (csrs h))) in
  hart_ok h → c_sscratch (csrs h) = frame → bf_get 13 2 (c_sstatus (csrs h)) ≠ 0 →
  words_at m frame (frame_words F) → shows m (c_satp (csrs h)) code frame frame → walk m (c_satp (csrs h)) OFF_K_SP = None →
  Forall (λ b, ¬ in_page frame b) (mmu_reads m (root_of_satp (c_satp (csrs h))) OFF_K_SP) →
  run code 0 trap_entry (take_trap cause tval h, m) = None.
Proof.
  intros F Hh Hscr Hfs Hw Hk Hnull Hreads. set (h' := take_trap cause tval h).
  assert (hart_ok h') as Hh' by (destruct Hh; by constructor). assert (frame_ok F) as HF by (repeat split).
  assert (fs_on (csrs h') = true) as Hfs'.
  { unfold fs_on, h', take_trap. cbn. rewrite trap_status_fs. by destruct (Z.eqb_spec (bf_get 13 2 (c_sstatus (csrs h))) 0). }
  destruct (after_saving_facts code frame frame m h' F Hh' HF Hk Hscr Hfs') as (Hl & _ & Hc).
  rewrite <- (store_words_same _ m frame Hw). fold (with_frame m frame F).
  assert (trap_entry = save_context ++ [Ld t2 OFF_K_ADDR t6; Ld t4 OFF_DUAL_SATP t6; Csrr t5 Satp; Sd t5 OFF_DUAL_SATP t6] ++
    [Beq t4 t5 2; Csrw Satp t4; SfenceVma] ++ [Mv t6 t2; Ld sp OFF_K_SP t6; Ld tp OFF_K_TP t6; Mv a0 t6]) as -> by reflexivity.
  rewrite (save_context_run code frame frame m h' F Hh' HF Hk Hscr Hfs'), (enter_first code frame frame m h' F Hh' HF Hk Hscr Hfs').
  set (k := set_reg t5 _ _).
  assert (csrs k = write_csr Sscratch (reg h' t6) (csrs h')) as Hck by (unfold k; by rewrite !csrs_set_reg).
  assert (reg k t4 = kernel_satp F) as H4 by (unfold k; rewrite (reg_set_ne t5 t4) by done; rewrite reg_set_eq; [done|done|rewrite length_set_reg, Hl; unfold t4; lia]).
  assert (reg k t5 = c_satp (csrs h')) as H5 by (unfold k; rewrite reg_set_eq; [done|done|rewrite !length_set_reg, Hl; unfold t5; lia]).
  assert (reg k t2 = 0) as H2 by (unfold k; rewrite (reg_set_ne t5 t2), (reg_set_ne t4 t2) by done; rewrite reg_set_eq; [done|done|rewrite Hl; unfold t2; lia]).
  assert (length (gpr k) = 32%nat) as Hlk by (unfold k; by rewrite !length_set_reg). clearbody k.
  rewrite (swap_satp code frame frame m h' F Hh' HF Hk Hscr Hfs' Hk k) by done. cbn [app].
  set (k6 := set_csr Satp (kernel_satp F) k). assert (c_satp (csrs k6) = c_satp (csrs h)) as Hs6 by apply satp_written.
  assert (frame_ok (saved h' F)) as HF' by (destruct Hh'; by constructor). pose proof (frame_in_page _ HF') as Hlw. unfold with_frame.
  rewrite (run_plain code frame frame m) with (h' := set_reg t6 0 k6); [|done|by rewrite Hs6|done|cbn [exec]; unfold k6; by rewrite reg_set_csr, H2].
  cbn [run fst snd]. rewrite csrs_set_reg, Hs6. destruct (shows_walk code frame frame m _ (frame_words (saved h' F)) 0 Hk Hlw) as [-> _]; [lia|].
  cbn [exec]. rewrite reg_set_eq by (done || (unfold k6; rewrite length_set_csr, Hlk; unfold t6; lia)).
  change (u64 (0 + OFF_K_SP)) with OFF_K_SP. unfold load, data_access. rewrite csrs_set_reg, Hs6.
  assert (walk (store_words m frame (frame_words (saved h' F))) (c_satp (csrs h)) OFF_K_SP = None) as ->; [|reflexivity].
  revert Hnull. unfold walk. rewrite (sh_mode _ _ _ _ _ Hk), Z.eqb_refl. change (canonical OFF_K_SP) with true.
  rewrite (mmu_agree m (store_words m frame (frame_words (saved h' F)))); [done|]. intros b Hb. apply store_words_outside.
  rewrite Forall_forall in Hreads. specialize (Hreads b Hb). unfold in_page in Hreads. lia.
Qed.

(** What the kernel inherits from the thread: its global pointer, and in [sscratch],
    where the vector would look for the frame of a trap in the kernel, its [t6]. *)
Lemma entered_inherits code m f F h cause tval :
  running code m f F h →
  reg (entered (take_trap cause tval h) F) 3 = reg h 3 ∧
  c_sscratch (csrs (entered (take_trap cause tval h) F)) = reg h t6.
Proof.
  intros _. unfold entered, after_saving, swapped. rewrite !csrs_set_reg, csrs_set_csr, !csrs_set_reg, csrs_set_csr. split.
  - unfold a0, tp, sp, t0, t1, t2, t3, t4, t5, t6. rewrite !reg_set_ne by done. rewrite reg_set_csr.
    rewrite !reg_set_ne by done. reflexivity.
  - by destruct (csrs (take_trap cause tval h)).
Qed.

(** ** The address spaces that the kernel builds *)

(** A walk on a tree reads its tables only. *)
Lemma tree_reads m root t va b :
  tree m root t → b ∈ mmu_reads m root va → ∃ q x, t !! q = Some x ∧ in_page x b.
Proof.
  intros Htree. destruct (vpn_ok va) as (H0 & H1 & H2). pose proof (tree_root _ _ _ Htree) as Hr. unfold mmu_reads.
  assert (∀ x j, index_ok j → in_page x (x + 8 * j)) as Hin by (unfold in_page, index_ok; intros; lia).
  intros [-> |Hb]%elem_of_cons; [exists [], root; auto|].
  destruct (tree_child _ _ _ Htree [] (vpn2 va) root Hr) as (e2 & He2 & Hc2); [simpl; lia|done|]. rewrite He2 in Hb. cbn [mbind option_bind app] in *.
  unfold pointed in Hb at 1. destruct (t !! [vpn2 va]) as [x|] eqn:Hx; [|subst e2; change (pte_valid 0) with false in Hb; by apply not_elem_of_nil in Hb].
  destruct Hc2 as (Hv & Hlf & <-). rewrite Hv, Hlf in Hb. cbn [negb andb] in Hb.
  apply elem_of_cons in Hb as [-> |Hb]; [exists [vpn2 va], (get_ppn e2); auto|].
  destruct (tree_child _ _ _ Htree [vpn2 va] (vpn1 va) _ Hx) as (e1 & He1 & Hc1); [simpl; lia|done|]. rewrite He1 in Hb. cbn [mbind option_bind app] in *.
  unfold pointed in Hb. destruct (t !! [vpn2 va; vpn1 va]) as [y|] eqn:Hy; [|subst e1; change (pte_valid 0) with false in Hb; by apply not_elem_of_nil in Hb].
  destruct Hc1 as (Hv1 & Hlf1 & <-). rewrite Hv1, Hlf1 in Hb. cbn [negb andb] in Hb.
  apply list_elem_of_singleton in Hb as ->. exists [vpn2 va; vpn1 va], (get_ppn e1). auto.
Qed.

Lemma shows_of_tree m satp root t code v f perms code_perms :
  tree m root t → (∀ q, t !! q ≠ Some f) → (4096 | f) → (4096 | v) → 0 ≤ v < 2 ^ 38 → 0 ≤ code < 2 ^ 38 →
  root_of_satp satp = root → bf_get 60 4 satp = satp_mode_value Sv39 →
  mmu m root v = Some (f, perms) → Z.testbit perms 0 = true → Z.testbit perms 1 = true → Z.testbit perms 3 = false →
  mmu m root code = Some (code, code_perms) → Z.testbit code_perms 2 = true → Z.testbit code_perms 3 = false →
  shows m satp code v f.
Proof.
  intros Htree Hf Hfa Hva Hv Hc Hroot Hmode Hw H0 H1 H3 Hwc H2 H3'. constructor; [done|done| | |].
  - exists perms. by rewrite Hroot.
  - unfold executable, walk. rewrite Hmode, Z.eqb_refl. unfold canonical. rewrite bool_decide_eq_true_2 by lia. by rewrite Hroot, Hwc, H2, H3'.
  - rewrite Hroot. apply Forall_app. split; apply Forall_forall; intros b Hb Hin;
      destruct (tree_reads _ _ _ _ _ Htree Hb) as (q & x & Hq & Hx);
      destruct (tree_ok _ _ _ Htree q x Hq) as (Hxa & _); apply (Hf q); by rewrite <- (page_apart x f b).
Qed.

Lemma satp_mode asid addr : bf_get 60 4 (build_satp Sv39 asid addr) = satp_mode_value Sv39.
Proof. unfold build_satp. rewrite bf_get_set_eq by lia. by vm_compute. Qed.

(** A new process, next to a kernel that has its frame and the vector mapped, is
    what [first_switch] starts from. *)
Lemma new_process_shown l mm m k program_counter thread process code root0 t0 :
  layout_ok l → free_pages_ok mm m t0 → tree m root0 t0 → tail_free mm (size (process_tables l) + 4) → in_word 64 program_counter →
  0x2000 ≤ code < STACK_ADDRESS - 8192 → section_view (process_regions l) code = Some (code, permissions READ_EXECUTE) →
  mmu m root0 code = Some (code, permissions READ_EXECUTE) →
  ∃ root frame mm' m' k', create_dummy_process l mm m k program_counter thread process = Ret (root, mm', m', k') ∧
    words_at m' frame (frame_words (initial_frame program_counter (build_satp Sv39 1 root) frame)) ∧
    shows m' (build_satp Sv39 1 root) code TRAP_FRAME_ALIAS frame ∧
    ∀ K, root_of_satp K = root0 → bf_get 60 4 K = satp_mode_value Sv39 → frame < 2 ^ 38 →
      mmu m root0 frame = Some (frame, permissions READ_WRITE) → shows m' K code frame frame.
Proof.
  intros Hl Hfree0 Htree0 Htail Hpc Hcode Hview Hkcode.
  assert (free_pages_ok mm m ∅) as Hfree by (destruct Hfree0; constructor; done).
  destruct (create_dummy_process_ok l 0 mm m k program_counter thread process) as (root & frame & stack & mm' & m' & t & Hc & Hs & _ & _ & Hv & Hw & _);
    [done|done|by rewrite Nat.add_0_r|done|].
  destruct (space_other _ _ _ _ _ _ _ root0 t0 Hs Htree0 Hfree0) as (Htree0' & Hfree0' & Hkeep).
  destruct (so_priv _ _ _ _ _ _ _ Hs frame) as (Hff & Hnf & (Hfa & Hfb & _) & Hft); [by do 2 right; left|].
  unfold STACK_ADDRESS in Hcode.
  exists root, frame, mm', m'. eexists. split; [exact Hc|]. split; [exact Hw|]. split.
  - destruct (tree_ok _ _ _ (so_tree _ _ _ _ _ _ _ Hs) [] root) as (? & ? & _); [apply Hs|].
    apply (shows_of_tree m' _ root t code TRAP_FRAME_ALIAS frame (permissions READ_WRITE) (permissions READ_EXECUTE));
      [apply Hs|done|done|by exists 1|by vm_compute|lia|apply build_satp_root; [done|unfold in_word; lia]|apply satp_mode| |done..| |done|done].
    + rewrite Hv by by vm_compute. unfold process_view. rewrite decide_True by by vm_compute. f_equal. f_equal. change TRAP_FRAME_ALIAS with THREAD_FRAME_ADDRESS. lia.
    + rewrite Hv by (unfold in_word; lia). unfold process_view. rewrite !decide_False; [done|unfold STACK_ADDRESS; lia|].
      unfold in_page, THREAD_FRAME_ADDRESS. lia.
  - intros K HK HKm Hfs Hkf.
    apply (shows_of_tree m' K root0 t0 code frame frame (permissions READ_WRITE) (permissions READ_EXECUTE));
      try done; try lia; [|by rewrite Hkeep..].
    intros q Hq. by apply (table_not_free _ _ _ _ _ Hfree0 Hq).
Qed.

(** ** An example *)

(** The frame is at 0x80010000 and the vector at 0x80000000; the thread's root table
    is at 0x80011000 and the kernel's at 0x80016000. *)
Definition example_entries : list (Z * Z) :=
  [(0x80011000, Z.lor (0x80012 * 1024) 1);          (* the thread: from 0 *)
   (0x80012000, Z.lor (0x80013 * 1024) 1);
   (0x80013008, Z.lor (0x80010 * 1024) 0xc7);       (* the frame at 0x1000 *)
   (0x80011010, Z.lor (0x80014 * 1024) 1);          (* from 0x80000000 *)
   (0x80014000, Z.lor (0x80015 * 1024) 1);
   (0x80015000, Z.lor (0x80000 * 1024) 0x4b);       (* the vector *)
   (0x80016000, 0);
   (0x80016010, Z.lor (0x80017 * 1024) 1);          (* the kernel: from 0x80000000 *)
   (0x80017000, Z.lor (0x80018 * 1024) 1);
   (0x80018000, Z.lor (0x80000 * 1024) 0x4b);
   (0x80018080, Z.lor (0x80010 * 1024) 0xc7)].      (* the frame *)

Definition example_tables : memory := list_to_map example_entries.
Definition thread_satp : Z := build_satp Sv39 1 0x80011000.
Definition kernel_root_satp : Z := build_satp Sv39 0 0x80016000.

Lemma reads_outside f l : forallb (λ b, negb ((f <=? b) && (b <? f + 4096))) l = true → Forall (λ b, ¬ in_page f b) l.
Proof.
  intros H. apply Forall_forall. intros b Hb. rewrite forallb_forall in H. apply list_elem_of_In, H in Hb.
  apply negb_true_iff, andb_false_iff in Hb as [Hb%Z.leb_gt|Hb%Z.ltb_ge]; unfold in_page; lia.
Qed.

Lemma example_user_base : shows example_tables thread_satp 0x80000000 TRAP_FRAME_ALIAS 0x80010000.
Proof.
  constructor; [by vm_compute| | |by vm_compute|].
  - split; [by exists 1|]. split; [by vm_compute|]. split; [by exists 0x80010|by vm_compute].
  - exists 3. by vm_compute.
  - apply reads_outside. vm_compute. reflexivity.
Qed.

Lemma example_kernel_base : shows example_tables kernel_root_satp 0x80000000 0x80010000 0x80010000.
Proof.
  constructor; [by vm_compute| | |by vm_compute|].
  - split; [by exists 0x80010|]. split; [by vm_compute|]. split; [by exists 0x80010|by vm_compute].
  - exists 3. by vm_compute.
  - apply reads_outside. vm_compute. reflexivity.
Qed.

Definition example_code : Z := 0x80000000.
Definition example_frame_page : Z := 0x80010000.

(** The frame of the new thread, and the kernel that switches to it. *)
Definition new_frame : TrapFrame := with_kernel (initial_frame 0x80000100 thread_satp example_frame_page) 0x80020000 0x80021000.

Definition example_kernel : hart :=
  mkHart (<[10%nat := example_frame_page]> (replicate 32 0)) (replicate 32 0) (mkCsrs 0 0 0 0 0 kernel_root_satp 0 0) 0 true.

Lemma example_returning : returning kernel_root_satp example_frame_page example_kernel.
Proof. by repeat split. Qed.

Lemma example_shown F : frame_ok F →
  shows (with_frame example_tables example_frame_page F) thread_satp example_code TRAP_FRAME_ALIAS example_frame_page ∧
  shows (with_frame example_tables example_frame_page F) kernel_root_satp example_code example_frame_page example_frame_page.
Proof.
  intros HF. split; (apply shows_store; [|by apply frame_in_page]); [exact example_user_base|exact example_kernel_base].
Qed.

(** The thread that runs, the memory then, and a handler that gives the same frame back. *)
Definition example_thread : hart := resumed new_frame example_kernel.
Definition example_saved : TrapFrame := with_satp new_frame kernel_root_satp.
Definition example_memory : memory := with_frame example_tables example_frame_page example_saved.
Definition same_frame (s : hart * memory) : option (hart * memory) := Some s.

Lemma new_frame_ok : frame_ok new_frame.
Proof. by repeat split. Qed.

Lemma example_running : running example_code example_memory example_frame_page example_saved example_thread.
Proof.
  destruct (example_shown example_saved ltac:(by repeat split)) as [Hu Hk].
  constructor; [by repeat split|done|done|by vm_compute| |exact Hu|exact Hk].
  split; [by repeat split|]. split; [done|]. apply words_at_stored.
Qed.

Lemma example_entered :
  let h' := take_trap 8 0 example_thread in
  returning kernel_root_satp example_frame_page (entered h' example_saved) ∧
  ready kernel_root_satp example_code (with_frame example_memory example_frame_page (saved h' example_saved))
    example_frame_page (saved h' example_saved).
Proof.
  destruct (trap_entry_ok _ _ _ _ _ 8 0 example_running) as (_ & Hr & _). split; [|exact Hr].
  by repeat split.
Qed.

Lemma first_switch_witness :
  ∃ h m', run example_code 0 (switch_to_user 0x80000000) (example_kernel, with_frame example_tables example_frame_page new_frame) = Some (h, m') ∧
    pc h = 0x80000100 ∧ reg h sp = STACK_ADDRESS ∧ reg h a0 = 0 ∧ c_satp (csrs h) = thread_satp.
Proof.
  destruct (example_shown new_frame new_frame_ok) as [Hu Hk].
  destruct (first_switch kernel_root_satp example_code 0x80000000 _ example_frame_page 0x80000100 thread_satp 0x80020000 0x80021000 example_kernel
    (words_at_stored _ _ _) Hu Hk example_returning) as (h & m' & Hr & _ & Hp & Hs & Hsp & H0 & _).
  exists h, m'. split; [exact Hr|]. split; [exact Hp|]. split; [exact Hsp|]. split; [apply H0; discriminate|exact Hs].
Defined.

Lemma trap_switch_witness :
  ∃ h2 m2, trap example_code same_frame 8 0 (example_thread, example_memory) = Some (h2, m2) ∧
    running example_code m2 example_frame_page (with_satp (saved (take_trap 8 0 example_thread) example_saved) kernel_root_satp) h2.
Proof.
  destruct example_entered as [Hret Hready].
  destruct (trap_switch example_code same_frame 8 0 example_memory example_frame_page example_saved example_thread _ _ _ _
    example_running eq_refl Hret Hready) as (_ & _ & _ & Ht & Hr & _).
  eexists _, _. split; [exact Ht|exact Hr].
Defined.

Lemma trap_transparent_witness :
  ∃ h2 m2, trap example_code same_frame 8 0 (example_thread, example_memory) = Some (h2, m2) ∧
    gpr h2 = gpr example_thread ∧ pc h2 = 0x80000100 ∧ c_satp (csrs h2) = thread_satp.
Proof.
  destruct example_entered as [Hret Hready].
  destruct (trap_transparent example_code same_frame 8 0 example_memory example_frame_page example_saved example_thread _ _ _
    example_running eq_refl eq_refl eq_refl Hret Hready eq_refl eq_refl eq_refl eq_refl eq_refl)
    as (h2 & m2 & Ht & Hg & _ & Hp & _ & _ & Hs & _).
  exists h2, m2. split; [exact Ht|]. split; [exact Hg|]. split; [exact Hp|exact Hs].
Defined.

(** The kernel of the example, before the first process: hart 0, its frame on the same page. *)
Definition booting_kernel : hart :=
  start_hart kernel_root_satp example_frame_page example_code
    (mkHart (replicate 32 0) (replicate 32 0) (mkCsrs 0 0 (Z.shiftl 1 13) 0 0 0 0 0) 0x80000200 true).

Lemma kernel_trap_faults_witness :
  run example_code 0 trap_entry (take_trap 13 0 booting_kernel,
    with_frame example_tables example_frame_page (base (hart_frame 0 example_frame_page 0x80020000 kernel_root_satp))) = None.
Proof.
  destruct (example_shown (base (hart_frame 0 example_frame_page 0x80020000 kernel_root_satp)) ltac:(by repeat split)) as [_ Hk].
  apply (kernel_trap_faults example_code 13 0 _ 0 example_frame_page 0x80020000 booting_kernel);
    [by repeat split|reflexivity|discriminate|apply words_at_stored|exact Hk|vm_compute; reflexivity|apply reads_outside; vm_compute; reflexivity].
Defined.
