(* ===== verification/Logger.v ===== *)
(** The kernel log: [Kernel/Logger.cpp] and [Utils/DebugConsole.cpp].

    A message is the text of its [String].  Where the text goes is state: the
    characters sent to the firmware's console, the texts written to the console
    device, and the log buffer of [Containers.v]. *)
From S2P Require Import Prelude Bits Bytes Strings Containers.

Definition characters (s : string) : bytes := (λ c, Z.of_N (Ascii.N_of_ascii c)) <$> String.list_ascii_of_string s.

(** * [class Logger] *)
Definition BufferSize : Z := 10000.

(** [LogLevel], by its underlying value. *)
Definition LevelError : Z := 0.
Definition LevelWarning : Z := 1.
Definition LevelInfo : Z := 2.
Definition LevelDebug : Z := 3.

Inductive LogOutput : Type := SBI | Console | LogFile.

Record Logger : Type := mkLogger {
  m_output : LogOutput;
  m_level : Z;
  m_console : Z;                          (** 0 is the null pointer *)
  m_buffer : CircularStringBuffer.t;
  sbi_text : bytes;                       (** what was put to the firmware's console *)
  console_writes : list bytes             (** what was written to the device *)
}.

Definition new_logger : outcome Logger :=
  let! b := CircularStringBuffer.new BufferSize in Ret (mkLogger SBI LevelDebug 0 b [] []).

Definition with_output (this : Logger) (o : LogOutput) : Logger :=
  mkLogger o (m_level this) (m_console this) (m_buffer this) (sbi_text this) (console_writes this).
Definition with_buffer (this : Logger) (b : CircularStringBuffer.t) : Logger :=
  mkLogger (m_output this) (m_level this) (m_console this) b (sbi_text this) (console_writes this).
Definition put_sbi (this : Logger) (t : bytes) : Logger :=
  mkLogger (m_output this) (m_level this) (m_console this) (m_buffer this) (sbi_text this ++ t) (console_writes this).
Definition put_console (this : Logger) (t : bytes) : Logger :=
  mkLogger (m_output this) (m_level this) (m_console this) (m_buffer this) (sbi_text this) (console_writes this ++ [t]).

Definition switch_to_sbi (this : Logger) : Logger := with_output this SBI.
Definition switch_to_logfile (this : Logger) : Logger := with_output this LogFile.
Definition switch_to_console (this : Logger) : Logger := with_output this Console.

Definition write_text (b : CircularStringBuffer.t) (t : bytes) : outcome CircularStringBuffer.t :=
  CircularStringBuffer.write b (t ++ [0]) (Z.of_nat (length t)).

(** [log(message, level, include_timestamp)]; [now] is the value of
    [Timer::current_time_in_ms]. *)
Definition log (now : Z) (this : Logger) (message : bytes) (level : Z) (include_timestamp : bool) : outcome Logger :=
  if m_level this <? level then Ret this
  else
    match m_output this with
    | SBI => Ret (put_sbi this message)
    | Console => Ret (if m_console this =? 0 then this else put_console this message)
    | LogFile =>
        let! formatted :=
          if include_timestamp then format (characters "[{}] {}" ++ [0]) [ArgNumber now; ArgString message] else Ret message in
        let! b := write_text (m_buffer this) formatted in Ret (with_buffer this b)
    end.

(** [log(char)], for [DebugConsole]. *)
Definition log_char (this : Logger) (c : Z) : Logger :=
  if m_console this =? 0 then put_sbi this [c] else put_console this [c].

(** [devices]: the console devices that the device manager has. *)
Definition try_console_lookup (now : Z) (this : Logger) (devices : list Z) : outcome Logger :=
  if negb (m_console this =? 0) then Ret this
  else
    match devices with
    | [] => Ret this
    | d :: _ =>
        let this := mkLogger Console (m_level this) d (m_buffer this) (sbi_text this) (console_writes this) in
        log now this (characters "Logger: Console device found. Switching!" ++ [10]) LevelDebug true
    end.

Definition log_to_console (now : Z) (this : Logger) (message : bytes) : outcome Logger :=
  let previous := m_output this in
  let! this := log now (with_output this Console) message (m_level this) true in
  Ret (with_output this previous).

Definition print_logfile (now : Z) (this : Logger) : outcome Logger :=
  let previous := m_output this in
  let! s := CircularStringBuffer.to_string (m_buffer this) in
  let message := take (Z.to_nat (m_length s)) (m_value s) in
  let! this := log now (with_output this Console) message (m_level this) true in
  Ret (with_output this previous).

Definition get_buffer_size (this : Logger) : Z := CircularStringBuffer.size (m_buffer this).

(** [log(fmt, args...)], [logln] and [logln_direct]. *)
Definition log_format (now : Z) (this : Logger) (fmt : bytes) (args : list argument) : outcome Logger :=
  let! t := format fmt args in log now this t LevelDebug true.

Definition logln (now : Z) (this : Logger) (fmt : bytes) (args : list argument) : outcome Logger :=
  let! this := log_format now this fmt args in log now this [10] LevelDebug false.

Definition logln_direct (now : Z) (this : Logger) (fmt : bytes) (args : list argument) : outcome Logger :=
  let! t := format fmt args in log_to_console now this t.

(** * [class DebugConsole] *)
Definition print_char (use_device : bool) (this : Logger) (c : Z) : Logger :=
  if use_device then log_char this c else put_sbi this [c].

Fixpoint print (use_device : bool) (this : Logger) (str : bytes) : outcome Logger :=
  match str with
  | [] => Undef
  | c :: str' => if c =? 0 then Ret this else print use_device (print_char use_device this c) str'
  end.

Fixpoint println (use_device : bool) (this : Logger) (str : bytes) : outcome Logger :=
  match str with
  | [] => Undef
  | c :: str' =>
      if c =? 0 then Ret (print_char use_device this 10) else println use_device (print_char use_device this c) str'
  end.

(** The overloads for [String], whose text is [str]. *)
Definition print_string (use_device : bool) (this : Logger) (str : bytes) : Logger :=
  foldl (print_char use_device) this str.
Definition println_string (use_device : bool) (this : Logger) (str : bytes) : Logger :=
  print_char use_device (print_string use_device this str) 10.

(** A buffer of 64 characters. *)
Definition print_number (use_device : bool) (this : Logger) (number base : Z) : outcome Logger :=
  let! buffer := itoa (replicate 64 0) number base in print use_device this buffer.
Definition print_ln_number (use_device : bool) (this : Logger) (number base : Z) : outcome Logger :=
  let! this := print_number use_device this number base in Ret (print_char use_device this 10).

(** * What the log keeps and where it goes *)
Section Logging.
Implicit Types (this : Logger) (message : bytes).

Definition stamped (now : Z) message : bytes := characters "[" ++ numeral now 10 ++ characters "] " ++ message.

Lemma number_text_decimal n : in_word 64 n → number_text n [] = Ret (numeral n 10).
Proof.
  intros Hn. unfold number_text. rewrite !bool_decide_false by discriminate.
  pose proof (numeral_word n Hn) as Hl.
  destruct (itoa_spec (replicate 64 0) n 10) as (rest & -> & _); [lia|done|rewrite length_replicate; lia|].
  cbn [obind]. apply cstring_text_spec. apply numeral_nonzero. lia.
Qed.

Lemma stamp_text now message :
  in_word 64 now → format (characters "[{}] {}" ++ [0]) [ArgNumber now; ArgString message] = Ret (stamped now message).
Proof.
  intros Hn. pose (ps := [mkPiece (characters "[") [] (ArgNumber now); mkPiece (characters "] ") [] (ArgString message)]).
  change (format (formats ps [] ++ [0]) (piece_arg <$> ps) = Ret (stamped now message)).
  unfold format. rewrite cstring_text_spec by (repeat constructor; discriminate).
  cbn [obind]. rewrite process_pieces by (repeat constructor; discriminate).
  cbn [render ps piece_arg piece_flags literal app argument_text]. rewrite wrap_small by done.
  rewrite number_text_decimal by done. cbn [obind]. unfold stamped. by rewrite !app_nil_r.
Qed.

(** The log file holds [l]. *)
Definition log_holds this (l : bytes) : Prop := CircularStringBuffer.holds (m_buffer this) l.

Lemma log_file_appends now this message level (stamp : bool) l :
  m_output this = LogFile → level ≤ m_level this → in_word 64 now → log_holds this l →
  let t := if stamp then stamped now message else message in
  Forall is_byte message → Z.of_nat (length l + length t) < CircularStringBuffer.m_size (m_buffer this) →
  ∃ b, log now this message level stamp = Ret (with_buffer this b) ∧ CircularStringBuffer.holds b (l ++ t).
Proof.
  intros Ho Hl Hn Hb t Hm Hfit. unfold log. rewrite (proj2 (Z.ltb_ge _ _)), Ho by done.
  assert ((if stamp then format (characters "[{}] {}" ++ [0]) [ArgNumber now; ArgString message] else Ret message) = Ret t) as ->.
  { unfold t. destruct stamp; [by apply stamp_text|done]. }
  cbn [obind]. unfold write_text.
  destruct (buffer_write_fits (m_buffer this) l t [0] Hb) as (b & -> & Hb').
  - unfold t. destruct stamp; [|done]. unfold stamped. rewrite !Forall_app.
    split; [repeat constructor; discriminate|]. split; [apply numeral_bytes; lia|]. split; [repeat constructor; discriminate|done].
  - done.
  - exists b. split; done.
Qed.

Lemma buffer_to_string (b : CircularStringBuffer.t) l :
  CircularStringBuffer.holds b l → Forall is_byte l → Forall (λ c, c ≠ 0) l →
  ∃ s, CircularStringBuffer.to_string b = Ret s ∧ take (Z.to_nat (m_length s)) (m_value s) = l.
Proof.
  intros [(r & Hb) Hh Hc Hs _] Hl Hz. unfold CircularStringBuffer.to_string. rewrite Hb, Hh.
  destruct (create_holds l r) as (s & Hs' & Hholds); [done|done|rewrite Hc, Hb, length_app in Hs; lia|].
  exists s. split; [done|]. destruct Hholds as [_ (rest & Hv & _) Hlen]. rewrite Hv, Hlen. by rewrite Nat2Z.id, take_app_length.
Qed.

Lemma log_console now this message level stamp :
  m_output this = Console → level ≤ m_level this →
  log now this message level stamp = Ret (if m_console this =? 0 then this else put_console this message).
Proof. intros Ho Hl. unfold log. by rewrite (proj2 (Z.ltb_ge _ _)), Ho by done. Qed.
End Logging.

(** The kernel log: a message above the level is dropped; with the output
    SBI its characters go to the firmware's console, with the output console
    to the device, and nowhere when there is no device; with the output log file
    the buffer holds it behind the earlier text, with the time in front of it if
    it is wanted, as long as there is room.  [log_to_console] and [print_logfile]
    write the message, and the text of the log file, to the device and leave
    output and log file as they were. *)
Theorem logger_outputs (now : Z) (this : Logger) (message : bytes) (level : Z) (stamp : bool) :
  in_word 64 now → Forall is_byte message →
  (m_level this < level → log now this message level stamp = Ret this) ∧
  (level ≤ m_level this →
     (m_output this = SBI → log now this message level stamp = Ret (put_sbi this message)) ∧
     (m_output this = Console → log now this message level stamp = Ret (if m_console this =? 0 then this else put_console this message)) ∧
     (∀ l, let t := if stamp then stamped now message else message in
        m_output this = LogFile → log_holds this l → Z.of_nat (length l + length t) < CircularStringBuffer.m_size (m_buffer this) →
        ∃ b, log now this message level stamp = Ret (with_buffer this b) ∧ CircularStringBuffer.holds b (l ++ t))) ∧
  log_to_console now this message = Ret (if m_console this =? 0 then this else put_console this message) ∧
  (∀ l, log_holds this l → Forall is_byte l → Forall (λ c, c ≠ 0) l →
     print_logfile now this = Ret (if m_console this =? 0 then this else put_console this l)).
Proof.
  intros Hn Hm. split_and!.
  - intros Hl. unfold log. by rewrite (proj2 (Z.ltb_lt _ _)).
  - intros Hl. split_and!.
    + intros Ho. unfold log. by rewrite (proj2 (Z.ltb_ge _ _)), Ho by done.
    + intros Ho. by apply log_console.
    + intros l t Ho Hb Hfit. by apply log_file_appends.
  - unfold log_to_console. rewrite log_console by done. destruct this; simpl. by destruct (_ =? 0).
  - intros l Hb Hl Hz. unfold print_logfile. destruct (buffer_to_string _ l Hb Hl Hz) as (s & -> & Ht). cbn [obind].
    rewrite Ht, log_console by done. destruct this; simpl. by destruct (_ =? 0).
Qed.

Definition small_log (o : LogOutput) (console : Z) : Logger :=
  mkLogger o LevelDebug console (CircularStringBuffer.mk ([65; 66] ++ replicate 30 0) 32 2) [] [].

Lemma small_log_holds o c : log_holds (small_log o c) [65; 66].
Proof. constructor; simpl; [by eexists|lia..]. Qed.

Lemma logger_outputs_witness :
  log 5 (small_log SBI 0) [72; 105] LevelInfo true = Ret (put_sbi (small_log SBI 0) [72; 105]) ∧
  (∃ b, log 12 (small_log LogFile 0) [72] LevelInfo true = Ret (with_buffer (small_log LogFile 0) b) ∧
        CircularStringBuffer.holds b ([65; 66] ++ [91; 49; 50; 93; 32; 72])) ∧
  print_logfile 5 (small_log LogFile 9) = Ret (put_console (small_log LogFile 9) [65; 66]).
Proof.
  split_and!.
  - apply (logger_outputs 5 (small_log SBI 0) [72; 105] LevelInfo true); [done|repeat constructor; done|discriminate|reflexivity].
  - destruct (logger_outputs 12 (small_log LogFile 0) [72] LevelInfo true) as (_ & H & _); [done|repeat constructor; done|].
    apply (proj2 (proj2 (H ltac:(discriminate))) [65; 66]); [reflexivity|apply small_log_holds|reflexivity].
  - destruct (logger_outputs 5 (small_log LogFile 9) [] LevelInfo true) as (_ & _ & _ & H); [done|constructor|].
    apply (H [65; 66]); [apply small_log_holds|repeat constructor; done|repeat constructor; discriminate].
Defined.
