(* ===== verification/Runtime.v ===== *)
(** What the kernel's code is built on: failed assertions ([Utils/Assertions.cpp],
    [CPU::halt]), the guards of function-local statics and the canary that the
    compiler asks for ([Utils/cxx.cpp]), [Utils/Math.h], and the objects that exist
    once, with the order in which [kmain] makes them. *)
From S2P Require Import Prelude Bits Machine PageAllocator Bytes Strings Containers Logger.

(** * [runtime_assert_impl] *)

(** [CPU::halt] is a single [wfi], which ends with the next interrupt; [resumes]
    says whether one comes.  The code behind it goes on then. *)
Definition halt {A : Type} (resumes : bool) (a : A) : outcome A := if resumes then Ret a else Halted.

(** The messages; [file] is the name of the function, as a C string. *)
Definition print_assertion (use_device : bool) (this : Logger) (message file : bytes) (line : Z) : outcome Logger :=
  let! this := print use_device this (characters "Assetion in " ++ [0]) in
  let! this := print use_device this file in
  let! this := print use_device this (characters " at line " ++ [0]) in
  let! this := print_number use_device this (u64 line) 10 in
  let! this := print use_device this (characters ": " ++ [0]) in
  println use_device this message.

Definition runtime_assert_impl (use_device resumes : bool) (this : Logger) (condition : bool) (message file : bytes) (line : Z) : outcome Logger :=
  if negb condition then let! this := print_assertion use_device this message file line in halt resumes this else Ret this.

Section Assertions.
Implicit Types (this : Logger).

Lemma print_text ud this b s : text b s → print ud this b = Ret (print_string ud this s).
Proof.
  intros (rest & -> & Hs). revert this. induction Hs as [|c s Hc _ IH]; intros this; [done|].
  cbn [app print]. rewrite (proj2 (Z.eqb_neq _ _) Hc). by rewrite IH.
Qed.

Lemma println_text ud this b s : text b s → println ud this b = Ret (println_string ud this s).
Proof.
  intros (rest & -> & Hs). revert this. induction Hs as [|c s Hc _ IH]; intros this; [done|].
  cbn [app println]. rewrite (proj2 (Z.eqb_neq _ _) Hc). by rewrite IH.
Qed.

Lemma print_number_text ud this n : in_word 64 n → print_number ud this n 10 = Ret (print_string ud this (numeral n 10)).
Proof.
  intros Hn. unfold print_number.
  pose proof (numeral_word n Hn) as Hl.
  destruct (itoa_spec (replicate 64 0) n 10) as (rest & -> & _); [lia|done|rewrite length_replicate; lia|].
  cbn [obind]. apply print_text. exists rest. split; [done|]. apply numeral_nonzero. lia.
Qed.

Lemma print_string_app ud this s t : print_string ud (print_string ud this s) t = print_string ud this (s ++ t).
Proof. unfold print_string. by rewrite foldl_app. Qed.

(** The text of a literal. *)
Lemma literal_text (s : string) : bool_decide (Forall (λ c, c ≠ 0) (characters s)) = true → text (characters s ++ [0]) (characters s).
Proof. intros Hs%bool_decide_eq_true. by exists []. Qed.

Definition assertion_text (message file : bytes) (line : Z) : bytes :=
  characters "Assetion in " ++ file ++ characters " at line " ++ numeral line 10 ++ characters ": " ++ message ++ [10].

(** A failed assertion names function, line and message.  It stops the hart only
    as long as no interrupt comes; then the caller goes on as if the condition
    held. *)
Lemma assertion_prints ud resumes this message file line m f :
  text message m → text file f → in_word 64 line →
  runtime_assert_impl ud resumes this false message file line = halt resumes (print_string ud this (assertion_text m f line)) ∧
  runtime_assert_impl ud resumes this true message file line = Ret this.
Proof.
  intros Hm Hf Hl. split; [|done]. unfold runtime_assert_impl, print_assertion. cbn [negb].
  rewrite (print_text _ _ _ _ (literal_text "Assetion in " eq_refl)). cbn [obind].
  rewrite (print_text _ _ _ _ Hf). cbn [obind]. rewrite (print_text _ _ _ _ (literal_text " at line " eq_refl)). cbn [obind].
  rewrite (wrap_small 64 _ Hl), (print_number_text _ _ _ Hl). cbn [obind].
  rewrite (print_text _ _ _ _ (literal_text ": " eq_refl)). cbn [obind].
  rewrite (println_text _ _ _ _ Hm). cbn [obind]. unfold println_string.
  change (print_char ud ?x 10) with (print_string ud x [10]). by rewrite !print_string_app.
Qed.
End Assertions.

(** [KernelMemoryAllocator::debug] writes to the console device, whatever the
    output of the log is: before there is one, as at its only call in [kmain],
    nothing appears. *)
Definition heap_debug (now : Z) (this : Logger) (total_size free_size used_size : Z) : outcome Logger :=
  let! t := format (characters "KernelMemoryAllocator: total size: {16}, free size: {16}, used size: {16}" ++ [10; 0])
              [ArgNumber total_size; ArgNumber free_size; ArgNumber used_size] in
  log_to_console now this t.

Lemma heap_debug_silent now this total free used this' :
  m_console this = 0 → heap_debug now this total free used = Ret this' → this' = this.
Proof.
  intros Hc. unfold heap_debug, log_to_console. intros (t & _ & H)%obind_Ret. rewrite log_console in H by done.
  cbn in H. rewrite Hc in H. cbn in H. injection H as <-. by destruct this; cbn in *; subst.
Qed.

(** * [MemoryManager::debug_output] *)
Definition print_line_number (use_device : bool) (this : Logger) (title : string) (buffer : bytes) (n : Z) : outcome (bytes * Logger) :=
  let! this := print use_device this (characters title ++ [0]) in
  let! buffer := itoa buffer n 10 in
  let! this := println use_device this buffer in Ret (buffer, this).

(** The count is an [int]. *)
Definition debug_output (use_device : bool) (this : Logger) (mm : MemoryManager) : outcome Logger :=
  let buffer := replicate 64 0 in
  let! this := println use_device this (characters "PageController: Debugging sequence started!" ++ [0]) in
  let! r := print_line_number use_device this "Total number of pages: " buffer (m_number_of_pages mm) in
  let allocated := count_used (take (Z.to_nat (m_number_of_pages mm)) (m_pages mm)) in
  let! _ := if allocated <? 2 ^ 31 then Ret tt else Undef in
  let! r := print_line_number use_device r.2 "Allocated: " r.1 allocated in
  let! r := print_line_number use_device r.2 "Free: " r.1 (u64 (m_number_of_pages mm - allocated)) in
  Ret r.2.

Definition page_report (s : Statistics) : bytes :=
  characters "PageController: Debugging sequence started!" ++ [10] ++
  characters "Total number of pages: " ++ numeral (total_pages s) 10 ++ [10] ++
  characters "Allocated: " ++ numeral (used_pages s) 10 ++ [10] ++
  characters "Free: " ++ numeral (free_pages s) 10 ++ [10].

Lemma print_line_number_text ud this title buffer n :
  bool_decide (Forall (λ c, c ≠ 0) (characters title)) = true → in_word 64 n → length buffer = 64%nat →
  ∃ buffer', print_line_number ud this title buffer n =
      Ret (buffer', print_string ud this (characters title ++ numeral n 10 ++ [10])) ∧ length buffer' = 64%nat.
Proof.
  intros Ht Hn Hl. unfold print_line_number. rewrite (print_text _ _ _ _ (literal_text title Ht)). cbn [obind].
  pose proof (numeral_word n Hn) as Hd.
  destruct (itoa_spec buffer n 10) as (rest & -> & Hr); [lia|done|lia|]. cbn [obind].
  rewrite (println_text _ _ _ (numeral n 10)) by (exists rest; split; [done|apply numeral_nonzero; lia]).
  eexists. split; [|by rewrite Hr]. cbn [obind]. unfold println_string.
  change (print_char ud ?x 10) with (print_string ud x [10]). rewrite !print_string_app. by rewrite ?app_assoc.
Qed.

Lemma count_used_le t : 0 ≤ count_used t ≤ Z.of_nat (length t).
Proof. unfold count_used. pose proof (length_filter (λ s, PageAllocator.is_free s = false) t). lia. Qed.

(** The report has the numbers of [get_statistics]: what is free and what is not
    adds up to all pages, while the count fits an [int]. *)
Theorem page_report_printed ud this mm :
  wf_manager mm → m_number_of_pages mm < 2 ^ 31 →
  debug_output ud this mm = Ret (print_string ud this (page_report (PageAllocator.get_statistics mm))) ∧
  let s := PageAllocator.get_statistics mm in free_pages s + used_pages s = total_pages s ∧ 0 ≤ free_pages s ∧ 0 ≤ used_pages s.
Proof.
  intros Hw Hn. pose proof (wf_length mm Hw) as Hl.
  pose proof (count_used_le (take (Z.to_nat (m_number_of_pages mm)) (m_pages mm))) as Hc. rewrite length_take in Hc.
  cbn [PageAllocator.get_statistics free_pages used_pages total_pages].
  set (used := count_used _) in *.
  assert (u64 (m_number_of_pages mm - used) = m_number_of_pages mm - used) as Hf by (apply wrap_small; unfold in_word; lia).
  split; [|rewrite Hf; lia]. unfold debug_output. fold used.
  rewrite (println_text _ _ _ _ (literal_text "PageController: Debugging sequence started!" eq_refl)). cbn [obind].
  destruct (print_line_number_text ud (println_string ud this (characters "PageController: Debugging sequence started!"))
    "Total number of pages: " (replicate 64 0) (m_number_of_pages mm)) as (b1 & -> & H1);
    [reflexivity|unfold in_word; lia|reflexivity|]. cbn [obind fst snd].
  rewrite (proj2 (Z.ltb_lt _ _)) by lia. cbn [obind].
  match goal with |- context [print_line_number ud ?x "Allocated: " b1 used] =>
    destruct (print_line_number_text ud x "Allocated: " b1 used) as (b2 & -> & H2); [reflexivity|unfold in_word; lia|done|] end.
  cbn [obind fst snd].
  match goal with |- context [print_line_number ud ?x "Free: " b2 ?n] =>
    destruct (print_line_number_text ud x "Free: " b2 n) as (b3 & -> & H3); [reflexivity|rewrite Hf; unfold in_word; lia|done|] end.
  cbn [obind fst snd]. f_equal. unfold println_string. change (print_char ud ?x 10) with (print_string ud x [10]).
  rewrite !print_string_app. f_equal. unfold page_report. cbn [PageAllocator.get_statistics free_pages used_pages total_pages].
  fold used. by rewrite <- !app_assoc.
Qed.

Lemma page_report_printed_witness :
  let mm := sample_manager [Last; Free; Taken; Last; Free; Free; Free] in
  used_pages (PageAllocator.get_statistics mm) = 3 ∧ ∀ ud this, ∃ t, debug_output ud this mm = Ret (print_string ud this t).
Proof.
  intros mm. split; [reflexivity|]. intros ud this.
  destruct (page_report_printed ud this mm sample_wf eq_refl) as [H _]. eexists. exact H.
Defined.

(** * [cxx.cpp] *)

(** The first byte of a guard: has the static been made. *)
Definition cxa_guard_acquire (guard : Z) : bool := guard =? 0.
Definition cxa_guard_release (guard : Z) : Z := 1.

(** A pass through the declaration of a function-local static. *)
Definition local_static {S : Type} (init : S → outcome S) (guard : Z) (s : S) : outcome (Z * S) :=
  if cxa_guard_acquire guard then let! s := init s in Ret (cxa_guard_release guard, s) else Ret (guard, s).

Fixpoint passes {S : Type} (init : S → outcome S) (n : nat) (guard : Z) (s : S) : outcome (Z * S) :=
  match n with O => Ret (guard, s) | Datatypes.S n' => let! r := local_static init guard s in passes init n' r.1 r.2 end.

Lemma passes_made {S : Type} (init : S → outcome S) n : ∀ guard s, guard ≠ 0 → passes init n guard s = Ret (guard, s).
Proof.
  induction n as [|n IH]; intros guard s Hg; [done|]. cbn [passes]. unfold local_static, cxa_guard_acquire.
  rewrite (proj2 (Z.eqb_neq _ _) Hg). cbn [obind fst snd]. by apply IH.
Qed.

(** The initialiser runs exactly once, however often control passes. *)
Lemma local_static_once {S : Type} (init : S → outcome S) n s s' :
  init s = Ret s' → passes init (Datatypes.S n) 0 s = Ret (1, s').
Proof. intros Hi. cbn [passes]. unfold local_static. cbn. rewrite Hi. cbn. by apply passes_made. Qed.

(** [__stack_chk_guard_setup]: the bytes of the canary. *)
Definition stack_chk_guard_setup (stack_chk_guard : bytes) : outcome bytes :=
  let size := Z.of_nat (length stack_chk_guard) in
  let! g := put_byte stack_chk_guard (size - 1) 255 in
  let! g := put_byte g (size - 2) 10 in
  put_byte g 0 0.

(** The canary has a zero byte below a line feed, where strings end. *)
Example stack_guard : stack_chk_guard_setup (replicate 8 0) = Ret [0; 0; 0; 0; 0; 0; 10; 255].
Proof. reflexivity. Qed.

(** * [Math.h] *)
Definition min (first second : Z) : Z := if first <? second then first else second.

Lemma min_is_min a b : min a b = Z.min a b.
Proof. unfold min. destruct (Z.ltb_spec a b); lia. Qed.

(** * The objects that exist once

    The static pointers of the managers, by their class; a class without an entry
    has a null pointer.  An [init] gets the address of the object it makes.  What
    the constructors do is in the files of their classes; here it matters which
    managers they ask for. *)
Module Managers.
Inductive manager : Type :=
| MemoryManager | KernelMemoryAllocator | Logger | System | VirtualFileSystem | DeviceTree | DeviceManager
| DriverManager | ProcessManager | InterruptManager | Plic | Timer | Scheduler | SyscallManager.

#[global] Instance manager_eq : EqDecision manager.
Proof. solve_decision. Defined.

(** The order of the constructors, as numbers. *)
Definition index (m : manager) : positive :=
  match m with
  | MemoryManager => 1 | KernelMemoryAllocator => 2 | Logger => 3 | System => 4 | VirtualFileSystem => 5 | DeviceTree => 6
  | DeviceManager => 7 | DriverManager => 8 | ProcessManager => 9 | InterruptManager => 10 | Plic => 11 | Timer => 12
  | Scheduler => 13 | SyscallManager => 14
  end%positive.
Definition of_index (p : positive) : option manager :=
  List.find (λ m, bool_decide (index m = p))
    [MemoryManager; KernelMemoryAllocator; Logger; System; VirtualFileSystem; DeviceTree; DeviceManager; DriverManager;
     ProcessManager; InterruptManager; Plic; Timer; Scheduler; SyscallManager].
#[global] Instance manager_countable : Countable manager.
Proof. refine {| encode := index; decode := of_index |}. by intros []. Defined.

Abbreviation statics := (gmap manager Z).

(** [the]: an assertion, but for [ProcessManager], which is not checked. *)
Definition the (m : manager) (s : statics) : outcome Z := runtime_assert (bool_decide (is_Some (s !! m))) (defined (s !! m)).
Definition ProcessManager_the (s : statics) : outcome Z := defined (s !! ProcessManager).

(** The pattern of most classes: [if(!s) s = new ...]. *)
Definition init_once (m : manager) (constructor : statics → outcome statics) (object : Z) (s : statics) : outcome statics :=
  if bool_decide (is_Some (s !! m)) then Ret s
  else
    let! _ := the KernelMemoryAllocator s in
    let! s := constructor s in Ret (<[m := object]> s).

Definition asks (m : manager) (s : statics) : outcome statics := let! _ := the m s in Ret s.

(** The first objects live in pages of their own. *)
Definition MemoryManager_init (object : Z) (s : statics) : outcome statics := Ret (<[MemoryManager := object]> s).
Definition KernelMemoryAllocator_init (object : Z) (s : statics) : outcome statics :=
  let! s := asks MemoryManager s in Ret (<[KernelMemoryAllocator := object]> s).

Definition Logger_init : Z → statics → outcome statics := init_once Logger Ret.
Definition VirtualFileSystem_init : Z → statics → outcome statics := init_once VirtualFileSystem Ret.
Definition Scheduler_init : Z → statics → outcome statics := init_once Scheduler Ret.
Definition SyscallManager_init : Z → statics → outcome statics := init_once SyscallManager Ret.
Definition DeviceManager_init : Z → statics → outcome statics := init_once DeviceManager (asks VirtualFileSystem).
(** It logs in either case. *)
Definition Plic_init (object : Z) (s : statics) : outcome statics :=
  if bool_decide (is_Some (s !! Plic)) then asks Logger s
  else init_once Plic (λ s, let! s := asks Logger s in asks DeviceTree s) object s.

(** [System::System] takes pages, and [hart_init] needs the finished object. *)
Definition System_init (object : Z) (s : statics) : outcome statics :=
  if bool_decide (is_Some (s !! System)) then Ret s
  else let! s := init_once System (asks MemoryManager) object s in asks System s.

(** [magic]: the header begins with the number of a flattened device tree. *)
Definition DeviceTree_init (magic : bool) (object : Z) (s : statics) : outcome statics :=
  if bool_decide (is_Some (s !! DeviceTree)) then Ret s
  else let! s := init_once DeviceTree Ret object s in runtime_assert magic (asks KernelMemoryAllocator s).

Definition DriverManager_init (object : Z) (s : statics) : outcome statics :=
  if bool_decide (is_Some (s !! DriverManager)) then Ret s
  else let! s := init_once DriverManager Ret object s in asks KernelMemoryAllocator s.

Definition ProcessManager_init (object : Z) (s : statics) : outcome statics :=
  let! s := asks KernelMemoryAllocator s in Ret (<[ProcessManager := object]> s).

Definition InterruptManager_init (object plic : Z) (s : statics) : outcome statics :=
  if bool_decide (is_Some (s !! InterruptManager)) then Ret s
  else let! s := init_once InterruptManager Ret object s in Plic_init plic s.

(** [found]: the node /cpus and its frequency are there. *)
Definition Timer_init (found : bool) (object : Z) (s : statics) : outcome statics :=
  if bool_decide (is_Some (s !! Timer)) then Ret s
  else
    let! s := asks DeviceTree s in
    runtime_assert found (let! s := asks KernelMemoryAllocator s in Ret (<[Timer := object]> s)).

(** [kmain] with [init_memory]: every [init] and every [the] of its lines, in
    order; for the calls that use other managers, the comment names the call.  [a]
    gives the addresses. *)
Definition kmain (magic found : bool) (a : manager → Z) (s : statics) : outcome statics :=
  let! s := MemoryManager_init (a MemoryManager) s in
  let! s := asks MemoryManager s in                                   (* alloc, map_system_defaults, zalloc *)
  let! s := KernelMemoryAllocator_init (a KernelMemoryAllocator) s in
  let! s := Logger_init (a Logger) s in
  let! s := System_init (a System) s in
  let! s := asks KernelMemoryAllocator s in let! s := asks Logger s in  (* debug *)
  let! s := asks System s in
  let! s := asks MemoryManager s in                                   (* identity_map_range *)
  let! s := VirtualFileSystem_init (a VirtualFileSystem) s in
  let! s := DeviceTree_init magic (a DeviceTree) s in
  let! s := DeviceManager_init (a DeviceManager) s in
  let! s := asks DeviceTree s in                                      (* install_from_device_tree *)
  let! s := DriverManager_init (a DriverManager) s in
  let! s := asks DriverManager s in let! s := asks DeviceTree s in let! s := asks DeviceManager s in   (* init_drivers *)
  let! s := asks DeviceManager s in let! s := asks DriverManager s in   (* load_drivers *)
  let! s := asks DeviceManager s in let! s := asks VirtualFileSystem s in
  let! s := ProcessManager_init (a ProcessManager) s in
  let! _ := ProcessManager_the s in let! s := asks MemoryManager s in   (* create_initial_processes *)
  let! s := InterruptManager_init (a InterruptManager) (a Plic) s in
  let! s := asks InterruptManager s in let! s := asks Plic s in let! s := asks DeviceManager s in
  let! s := asks Logger s in let! s := asks DeviceManager s in          (* try_console_lookup *)
  let! s := asks Logger s in                                          (* dbgln *)
  let! s := Timer_init found (a Timer) s in
  let! s := Scheduler_init (a Scheduler) s in
  let! s := SyscallManager_init (a SyscallManager) s in
  let! s := asks Logger s in                                          (* switch_to_logfile *)
  let! s := asks Scheduler s in let! s := asks Timer s in let! _ := ProcessManager_the s in asks System s.   (* start_scheduling *)

(** ** What the order guarantees *)
Lemma the_set m s x : s !! m = Some x → the m s = Ret x.
Proof. intros Hs. unfold the. rewrite Hs. done. Qed.

Lemma asks_set m s : is_Some (s !! m) → asks m s = Ret s.
Proof. intros [x Hx]. unfold asks. by rewrite (the_set _ _ _ Hx). Qed.

(** A second [init] keeps the object, but for three classes. *)
Lemma init_once_again m c object s x : s !! m = Some x → init_once m c object s = Ret s.
Proof. intros Hs. unfold init_once. by rewrite Hs, bool_decide_true by by eexists. Qed.

Lemma init_once_first m c object s s' :
  s !! m = None → is_Some (s !! KernelMemoryAllocator) → c s = Ret s' → init_once m c object s = Ret (<[m := object]> s').
Proof.
  intros Hm [x Hx] Hc. unfold init_once. rewrite Hm, bool_decide_false by (by intros [? ?]).
  rewrite (the_set _ _ _ Hx). cbn [obind]. by rewrite Hc.
Qed.

(** [kmain] asks for no manager before it is made, makes each of them once, and
    needs only a valid device tree with a frequency. *)
Theorem managers_in_order (a : manager → Z) :
  (∃ s, kmain true true a ∅ = Ret s ∧ ∀ m, s !! m = Some (a m)) ∧
  (∀ found, kmain false found a ∅ = Halted) ∧ kmain true false a ∅ = Halted ∧
  the Logger ∅ = Halted ∧ ProcessManager_the ∅ = Undef ∧
  (∀ m constructor object s x, s !! m = Some x → init_once m constructor object s = Ret s) ∧
  (∀ object s x, s !! KernelMemoryAllocator = Some x →
     ProcessManager_init object s = Ret (<[ProcessManager := object]> s) ∧
     MemoryManager_init object s = Ret (<[MemoryManager := object]> s)).
Proof.
  split_and!.
  - eexists. split; [vm_compute; reflexivity|]. by intros [].
  - intros found. vm_compute. reflexivity.
  - vm_compute. reflexivity.
  - reflexivity.
  - reflexivity.
  - intros m constructor object s x. apply init_once_again.
  - intros object s x Hs. split; [|done]. unfold ProcessManager_init. rewrite asks_set by by eexists. done.
Qed.
End Managers.
