(* ===== verification/Mmio.v ===== *)
(** Device registers: the interface of the memory-mapped devices that the drivers
    use, and register files, which keep what is written to them.  *)
From S2P Require Import Prelude Bits.

(** What a device makes of volatile accesses of 1, 2 or 4 bytes; a read may
    change the device, as claiming an interrupt or taking a character does. *)
Class Bus (D : Type) : Type := {
  load : nat → Z → D → Z * D;
  store : nat → Z → Z → D → D
}.

(** Read a register, write it back changed. *)
Definition modify `{Bus D} (width : nat) (address : Z) (f : Z → Z) (d : D) : D :=
  let '(v, d) := load width address d in store width address (f v) d.

(** A file of registers of one width, which are 0 before they are written. *)
Abbreviation registers := (gmap Z Z).

Definition register (r : registers) (address : Z) : Z := default 0 (r !! address).

#[export] Instance register_file : Bus registers := {
  load width address r := (register r address, r);
  store width address v r := <[address := wrap (8 * Z.of_nat width) v]> r
}.

Lemma register_store_eq w a v r : register (store w a v r) a = wrap (8 * Z.of_nat w) v.
Proof. unfold register. cbn [store register_file]. by rewrite lookup_insert_eq. Qed.

Lemma register_store_ne w a a' v r : a ≠ a' → register (store w a v r) a' = register r a'.
Proof. intros. unfold register. cbn [store register_file]. by rewrite lookup_insert_ne. Qed.

Lemma modify_register w a f r : modify w a f r = store w a (f (register r a)) r.
Proof. done. Qed.

(** A register file that is watched: the stores in order. *)
Record watched : Type := mkWatched { values : registers; stores : list (Z * Z) }.

#[export] Instance watched_file : Bus watched := {
  load width address d := (register (values d) address, d);
  store width address v d := mkWatched (store width address v (values d)) (stores d ++ [(address, wrap (8 * Z.of_nat width) v)])
}.
