(* ===== verification/Plic.v ===== *)
(** The interrupt controller: [Arch/riscv64/Interrupts/Plic.cpp] and the
    [InterruptManager], which configures it for the devices. *)
From S2P Require Import Prelude Bits Mmio.

(** [PlicOffsets]. *)
Definition Priority : Z := 0x000000.
Definition Pending : Z := 0x001000.
Definition InterruptEnable : Z := 0x002000.
Definition PriorityThreshold : Z := 0x200000.
Definition Claim : Z := 0x200004.
Definition Complete : Z := 0x200004.

Section Plic.
Context {D : Type} `{Bus D}.
Variable m_base : Z.

(** The terms with [id] and [context_id] are 32-bit, the sum is 64-bit. *)
Definition enable_address (context_id id : Z) : Z :=
  u64 (m_base + InterruptEnable + u32 (4 * (id / 32)) + u32 (0x80 * context_id)).
Definition priority_address (id : Z) : Z := u64 (m_base + Priority + u32 (4 * id)).
Definition threshold_address (context_id : Z) : Z := u64 (m_base + PriorityThreshold + u32 (0x1000 * context_id)).
Definition claim_address (context_id : Z) : Z := u64 (m_base + Claim + u32 (0x1000 * context_id)).
Definition pending_address (id : Z) : Z := u64 (m_base + Pending + u32 (4 * (id / 32))).
Definition actual_id (id : Z) : Z := Z.shiftl 1 (id mod 32).

Definition enable (context_id id : Z) (d : D) : D :=
  modify 4 (enable_address context_id id) (λ v, Z.lor v (actual_id id)) d.

Definition disable (context_id id : Z) (d : D) : D :=
  modify 4 (enable_address context_id id) (λ v, Z.land v (u32 (Z.lnot (actual_id id)))) d.

Definition set_priority (id priority : Z) (d : D) : D := store 4 (priority_address id) (Z.land (u8 priority) 7) d.

Definition set_threshold (context_id threshold : Z) (d : D) : D :=
  store 4 (threshold_address context_id) (Z.land (u8 threshold) 7) d.

(** [next] and [complete]. *)
Definition next (context_id : Z) (d : D) : option Z * D :=
  let '(claim, d) := load 4 (claim_address context_id) d in (if claim =? 0 then None else Some claim, d).

Definition complete (context_id id : Z) (d : D) : D := store 4 (claim_address context_id) id d.

Definition is_pending (id : Z) (d : D) : bool * D :=
  let '(v, d) := load 4 (pending_address id) d in (negb (Z.land v (actual_id id) =? 0), d).

(** * [class InterruptManager] *)
Definition DEFAULT_CONTEXT_ID : Z := 1.

Definition handle_interrupt_id (interrupt_id : Z) : ErrorOr unit Error := fail_with "InterruptManager: Not implemented.".

(** Context and interrupt numbers are converted from 64 to 32 bits. *)
Definition enable_interrupt (context_id interrupt_id : Z) (d : D) : D := enable (u32 context_id) (u32 interrupt_id) d.
Definition disable_interrupt (context_id interrupt_id : Z) (d : D) : D := disable (u32 context_id) (u32 interrupt_id) d.

Definition enable_device_interrupt (d : D) (interrupt_id : Z) : D :=
  set_priority (u32 interrupt_id) 1 (enable DEFAULT_CONTEXT_ID (u32 interrupt_id) d).

(** [devices]: the interrupts of each device. *)
Definition enable_device_interrupts (devices : list (list Z)) (d : D) : D :=
  foldl (foldl enable_device_interrupt) d devices.

Definition set_default_threshold (threshold : Z) (d : D) : D := set_threshold DEFAULT_CONTEXT_ID threshold d.
End Plic.

(** * The enabled interrupts, on a file of registers *)
Section Enabled.
Variable m_base : Z.
Implicit Types (r : registers).

(** The numbers that the registers below the thresholds have room for. *)
Definition context_ok (c : Z) : Prop := 0 ≤ c < 15872.
Definition id_ok (i : Z) : Prop := 0 ≤ i < 1024.

Definition enabled r (context_id id : Z) : bool := Z.testbit (register r (enable_address m_base context_id id)) (id mod 32).
Definition words_ok r : Prop := ∀ a, in_word 32 (register r a).

Lemma enable_address_small c i :
  0 ≤ m_base → m_base < 2 ^ 62 → context_ok c → id_ok i →
  enable_address m_base c i = m_base + InterruptEnable + 4 * (i / 32) + 128 * c.
Proof.
  unfold context_ok, id_ok, enable_address, InterruptEnable. intros Hb Hb' Hc Hi.
  pose proof (Z.div_lt_upper_bound i 32 32 ltac:(lia) ltac:(lia)). pose proof (Z.div_pos i 32 ltac:(lia) ltac:(lia)).
  rewrite (wrap_small 32 (4 * _)), (wrap_small 32 (0x80 * _)) by (unfold in_word; lia).
  rewrite wrap_small by (unfold in_word; lia). lia.
Qed.

(** Distinct interrupts of a context, or distinct contexts, have distinct bits. *)
Lemma enable_bits_differ c i c' i' :
  0 ≤ m_base → m_base < 2 ^ 62 → context_ok c → id_ok i → context_ok c' → id_ok i' →
  enable_address m_base c i = enable_address m_base c' i' → i mod 32 = i' mod 32 → (c, i) = (c', i').
Proof.
  intros Hb Hb' Hc Hi Hc' Hi'. rewrite !enable_address_small by done. intros Ha Hm. unfold id_ok in *.
  pose proof (Z.div_mod i 32 ltac:(lia)). pose proof (Z.div_mod i' 32 ltac:(lia)).
  pose proof (Z.div_lt_upper_bound i 32 32 ltac:(lia) ltac:(lia)). pose proof (Z.div_pos i 32 ltac:(lia) ltac:(lia)).
  pose proof (Z.div_lt_upper_bound i' 32 32 ltac:(lia) ltac:(lia)). pose proof (Z.div_pos i' 32 ltac:(lia) ltac:(lia)).
  f_equal; lia.
Qed.

Lemma actual_id_bit id j : 0 ≤ j → Z.testbit (actual_id id) j = bool_decide (j = id mod 32).
Proof.
  intros Hj. pose proof (Z.mod_pos_bound id 32 ltac:(lia)). unfold actual_id.
  rewrite Z.shiftl_spec by done. case_bool_decide as Hjm; [by rewrite Hjm, Z.sub_diag|].
  destruct (decide (j < id mod 32)); [by rewrite Z.testbit_neg_r by lia|].
  rewrite Z.bits_above_log2; [done|lia|simpl; lia].
Qed.

(** Writing a word changes only the bits of its register. *)
Lemma enabled_store c i c' i' v r :
  enabled (store 4 (enable_address m_base c i) v r) c' i' =
    if decide (enable_address m_base c i = enable_address m_base c' i') then Z.testbit (u32 v) (i' mod 32) else enabled r c' i'.
Proof.
  unfold enabled. case_decide as Ha; [by rewrite <- Ha, register_store_eq|by rewrite register_store_ne].
Qed.

Lemma word_bit v i : Z.testbit (u32 v) (i mod 32) = Z.testbit v (i mod 32).
Proof.
  pose proof (Z.mod_pos_bound i 32 ltac:(lia)). rewrite wrap_testbit by lia. by rewrite bool_decide_true by lia.
Qed.

Lemma enabled_enable c i c' i' r :
  0 ≤ m_base → m_base < 2 ^ 62 → context_ok c → id_ok i → context_ok c' → id_ok i' →
  enabled (enable m_base c i r) c' i' = bool_decide ((c, i) = (c', i')) || enabled r c' i'.
Proof.
  intros Hb Hb' Hc Hi Hc' Hi'. pose proof (Z.mod_pos_bound i' 32 ltac:(lia)).
  unfold enable. rewrite modify_register, enabled_store. case_decide as Ha.
  - rewrite word_bit, Z.lor_spec, actual_id_bit by lia. unfold enabled. rewrite Ha, orb_comm. f_equal.
    apply bool_decide_ext. split; [intros Hm; by apply enable_bits_differ|by intros [= -> ->]].
  - rewrite bool_decide_false; [done|]. by intros [= -> ->].
Qed.

Lemma enabled_disable c i c' i' r :
  0 ≤ m_base → m_base < 2 ^ 62 → context_ok c → id_ok i → context_ok c' → id_ok i' →
  enabled (disable m_base c i r) c' i' = negb (bool_decide ((c, i) = (c', i'))) && enabled r c' i'.
Proof.
  intros Hb Hb' Hc Hi Hc' Hi'. pose proof (Z.mod_pos_bound i' 32 ltac:(lia)).
  unfold disable. rewrite modify_register, enabled_store. case_decide as Ha.
  - rewrite word_bit, Z.land_spec, word_bit, Z.lnot_spec, actual_id_bit by lia. unfold enabled. rewrite Ha, andb_comm. f_equal. f_equal.
    apply bool_decide_ext. split; [intros Hm; by apply enable_bits_differ|by intros [= -> ->]].
  - rewrite bool_decide_false; [done|]. by intros [= -> ->].
Qed.

Lemma enabled_priority p i c' i' r :
  0 ≤ m_base → m_base < 2 ^ 62 → id_ok i → context_ok c' → id_ok i' →
  enabled (set_priority m_base i p r) c' i' = enabled r c' i'.
Proof.
  intros Hb Hb' Hi Hc' Hi'. unfold enabled, set_priority. rewrite register_store_ne; [done|].
  rewrite enable_address_small by done. unfold priority_address, Priority, InterruptEnable, id_ok, context_ok in *.
  pose proof (Z.div_pos i' 32 ltac:(lia) ltac:(lia)).
  rewrite (wrap_small 32), wrap_small by (unfold in_word; lia). lia.
Qed.

(** The devices' interrupts are exactly what the manager enables. *)
Lemma enabled_devices devices r c' i' :
  0 ≤ m_base → m_base < 2 ^ 62 → Forall (Forall id_ok) devices → context_ok c' → id_ok i' →
  enabled (enable_device_interrupts m_base devices r) c' i' =
    (bool_decide (c' = DEFAULT_CONTEXT_ID) && bool_decide (i' ∈ mjoin devices)) || enabled r c' i'.
Proof.
  intros Hb Hb' Hd Hc' Hi'. unfold enable_device_interrupts.
  assert (∀ ids r, Forall id_ok ids → enabled (foldl (enable_device_interrupt m_base) r ids) c' i' =
    (bool_decide (c' = DEFAULT_CONTEXT_ID) && bool_decide (i' ∈ ids)) || enabled r c' i') as Hids.
  { clear r Hd. induction ids as [|i ids IH]; intros r Hids; cbn [foldl].
    { by rewrite andb_false_r. }
    apply Forall_cons in Hids as [Hi Hids]. rewrite IH by done. unfold enable_device_interrupt.
    rewrite (wrap_small 32 i) by (unfold id_ok in Hi; unfold in_word; lia).
    rewrite enabled_priority, enabled_enable by (done || unfold context_ok, DEFAULT_CONTEXT_ID; lia).
    rewrite orb_assoc. f_equal. rewrite <- !bool_decide_and, <- bool_decide_or. apply bool_decide_ext.
    rewrite elem_of_cons. naive_solver. }
  revert r. induction Hd as [|ids devices Hd Hds IH]; intros r; cbn [foldl mjoin list_join].
  { by rewrite andb_false_r. }
  rewrite IH, Hids by done. rewrite orb_assoc. f_equal. rewrite <- !bool_decide_and, <- bool_decide_or. apply bool_decide_ext.
  rewrite elem_of_app. naive_solver.
Qed.
End Enabled.

(** C27: the interrupt controller, for every base below 2^62, the 1024 interrupt
    numbers and the contexts whose registers lie below the thresholds: [enable]
    and [disable] set and clear the bit of exactly one interrupt of one context
    and write no other register; after [enable_device_interrupts] the default
    context has exactly the interrupts of the devices enabled, next to those that
    were, with priority 1, and no other context has changed. *)
Theorem plic_enables (m_base : Z) (r : registers) :
  0 ≤ m_base → m_base < 2 ^ 62 →
  (∀ c i c' i', context_ok c → id_ok i → context_ok c' → id_ok i' →
     enabled m_base (enable m_base c i r) c' i' = bool_decide ((c, i) = (c', i')) || enabled m_base r c' i' ∧
     enabled m_base (disable m_base c i r) c' i' = negb (bool_decide ((c, i) = (c', i'))) && enabled m_base r c' i') ∧
  (∀ c i a, a ≠ enable_address m_base c i →
     register (enable m_base c i r) a = register r a ∧ register (disable m_base c i r) a = register r a) ∧
  (∀ devices c' i', Forall (Forall id_ok) devices → context_ok c' → id_ok i' →
     enabled m_base (enable_device_interrupts m_base devices r) c' i' =
       (bool_decide (c' = DEFAULT_CONTEXT_ID) && bool_decide (i' ∈ mjoin devices)) || enabled m_base r c' i') ∧
  (∀ i, id_ok i → register (enable_device_interrupt m_base r i) (priority_address m_base i) = 1).
Proof.
  intros Hb Hb'. split_and!.
  - intros c i c' i' Hc Hi Hc' Hi'. split; [by apply enabled_enable|by apply enabled_disable].
  - intros c i a Ha. unfold enable, disable. rewrite !modify_register. by rewrite !register_store_ne.
  - intros devices c' i' Hd Hc Hi. by apply enabled_devices.
  - intros i Hi. unfold enable_device_interrupt, set_priority.
    rewrite (wrap_small 32 i) by (unfold id_ok in Hi; unfold in_word; lia). by rewrite register_store_eq.
Qed.

Lemma plic_enables_witness :
  enabled 0xc000000 (enable_device_interrupts 0xc000000 [[10]; [1; 33]] ∅) 1 33 = true ∧
  enabled 0xc000000 (enable_device_interrupts 0xc000000 [[10]; [1; 33]] ∅) 0 33 = false.
Proof.
  destruct (plic_enables 0xc000000 ∅ ltac:(lia) ltac:(lia)) as (_ & _ & Hd & _).
  assert (Forall (Forall id_ok) [[10]; [1; 33]]) as Hok by (repeat constructor; unfold id_ok; lia).
  split; rewrite Hd; try exact Hok; try reflexivity; unfold context_ok, id_ok; lia.
Defined.
