(* ===== verification/Syscalls.v ===== *)
(** System calls: [Syscalls/SyscallManager.cpp], the handlers of [Process] in
    [SyscallFile.cpp], [SyscallProcess.cpp] and [SyscallDebug.cpp], the
    [SyscallStatistics], and [Userspace].

    The handlers run on the kernel of [Processes.v], on the open [File] objects,
    and on a world that they reach through the interface [SyscallWorld]: memory,
    file systems, requests, statistics.  What they log is recorded as calls,
    which [perform] carries out on the log of [Logger.v]. *)
From S2P Require Import Prelude Bits Machine Paging Bytes Strings Containers Files Processes Logger.

(** * [Kernel/API/Syscall.h] *)
Inductive SysError : Type := SysFailed | SysBlocked.

Definition syscall_names : list string :=
  ["open"; "close"; "dbgln"; "read"; "write"; "exit"; "dmesg"; "stats"; "mem"; "ls"]%string.

Definition Count : Z := 10.

(** * Calls of the log *)
Inductive log_call : Type :=
| Logln (fmt : bytes) (args : list argument)          (** [dbgln] *)
| LoglnDirect (fmt : bytes) (args : list argument)    (** [dbglog_direct] *)
| PrintLogfile
| DebugPrintln (message : bytes).                     (** [DebugConsole::print] and [println] *)

Definition perform (use_device : bool) (now : Z) (this : Logger) (call : log_call) : outcome Logger :=
  match call with
  | Logln fmt args => logln now this (fmt ++ [0]) args
  | LoglnDirect fmt args => logln_direct now this (fmt ++ [0]) args
  | PrintLogfile => print_logfile now this
  | DebugPrintln message => Ret (println_string use_device this message)
  end.

(** * What the handlers use of the rest of the kernel *)
Class SyscallWorld (W : Type) : Type := {
  kernel_memory : W → memory;
  vfs_open : bytes → Z → W → outcome (ErrorOr Z Error * W);
  vfs_list_directory : bytes → W → outcome (ErrorOr (list bytes) Error * W);
  (** [Inode::read] of an open file: offset, buffer, size *)
  inode_read : Z → Z → Z → Z → W → outcome (ErrorOr (Request.t Z) Error * W);
  request_contexts : W → Request.contexts;
  set_request_contexts : Request.contexts → W → W;
  page_statistics : W → Z * Z * Z;
  heap_statistics : W → Z * Z * Z;
  log_size : W → Z;
  time_register : W → Z
}.

Section Syscalls.
Context {W : Type} `{SyscallWorld W}.

Record state : Type := mkState {
  kern : kernel;
  world : W;
  files : gmap Z File.t;              (** the [File] objects by address *)
  m_statistics : Array.t Z;           (** of the [SyscallManager] *)
  calls : list log_call
}.

Definition with_kern (s : state) (k : kernel) : state := mkState k (world s) (files s) (m_statistics s) (calls s).
Definition with_world (s : state) (w : W) : state := mkState (kern s) w (files s) (m_statistics s) (calls s).
Definition with_files (s : state) (f : gmap Z File.t) : state := mkState (kern s) (world s) f (m_statistics s) (calls s).
Definition add_call (s : state) (c : log_call) : state :=
  mkState (kern s) (world s) (files s) (m_statistics s) (calls s ++ [c]).

(** [m_fd_table] of the process at [process]. *)
Definition with_fd_table (s : state) (process : Z) (t : FileDescriptorTable.t) : outcome state :=
  let! p := process_at (kern s) process in
  Ret (with_kern s (with_processes (kern s)
         (<[process := mkProcess (p_pid p) (p_gid p) (m_page_table p) (p_state p) t (m_threads p)]> (processes (kern s))))).

(** * [Userspace::get]: only the first address is translated *)
Definition user_get (s : state) (root address : Z) : outcome (ErrorOr Z Error * state) :=
  let! r := translate (kernel_memory (world s)) root address in
  match r with
  | Failure e => Ret (Failure e, add_call s (DebugPrintln (characters "Failed to translate address: " ++ characters (m_message e))))
  | Value a => Ret (Value a, s)
  end.

(** The C string at an address of the kernel. *)
Fixpoint cstring_at (fuel : nat) (m : memory) (a : Z) : outcome bytes :=
  match fuel with
  | O => NoFuel
  | S fuel' => let! c := read8 m a in if c =? 0 then Ret [] else let! t := cstring_at fuel' m (u64 (a + 1)) in Ret (c :: t)
  end.

(** An [int] parameter that is used as an index. *)
Definition int_index (a : Z) : Z := u64 (to_int a).

Abbreviation result := (ErrorOr Z SysError * state)%type.

(** * [SyscallFile.cpp]

    [fuel] bounds the length of strings; [file_address] is the result of [new File]. *)
Definition handle_open (fuel : nat) (file_address : Z) (s : state) (process path flags : Z) : outcome result :=
  let! p := process_at (kern s) process in
  let! r := user_get s (m_page_table p) path in
  match r.1 with
  | Failure _ => Ret (Failure SysFailed, r.2)
  | Value a =>
      let! path_in_kernel := cstring_at fuel (kernel_memory (world r.2)) a in
      let! o := vfs_open path_in_kernel flags (world r.2) in
      let s := with_world r.2 o.2 in
      match o.1 with
      | Failure _ => Ret (Failure SysFailed, s)
      | Value descriptor =>
          let! t := FileDescriptorTable.open (m_fd_table p) file_address in
          match t.1 with
          | Failure _ => Ret (Failure SysFailed, s)   (* the last reference to the new file goes *)
          | Value fd =>
              let! s := with_fd_table (with_files s (<[file_address := File.new descriptor flags]> (files s))) process t.2 in
              Ret (Value fd, s)
          end
      end
  end.

Definition handle_close (s : state) (process fd : Z) : outcome result :=
  let! p := process_at (kern s) process in
  let! descriptor := FileDescriptorTable.index (m_fd_table p) fd in
  if descriptor =? 0 then Ret (Failure SysFailed, s)
  else
    let! t := FileDescriptorTable.close (m_fd_table p) fd in
    let! s := with_fd_table s process t.2 in
    Ret (Value 0, with_files s (delete descriptor (files s))).

Definition handle_read (s : state) (process file_descriptor buffer size : Z) : outcome result :=
  let! p := process_at (kern s) process in
  let! file := FileDescriptorTable.index (m_fd_table p) (int_index file_descriptor) in
  let! b := user_get s (m_page_table p) buffer in
  let s := b.2 in
  match b.1 with
  | Failure _ =>
      Ret (Failure SysFailed, add_call s (Logln (characters "Syscalls::handle_read: Failed to get buffer from userspace.") []))
  | Value a =>
      let! f := defined (files s !! file) in
      let! r := File.read (λ offset w, inode_read (File.m_open_file_descriptor f) offset a size w) f (world s) in
      let '(answer, f, w) := r in
      let s := with_files (with_world s w) (<[file := f]> (files s)) in
      match answer with
      | Failure e =>
          Ret (Failure SysFailed,
               add_call s (Logln (characters "Syscalls::handle_read: Read operation failed: {}") [ArgString (characters (m_message e))]))
      | Value request =>
          let! current_thread := get_current_thread (kern s) in
          runtime_assert (negb (current_thread =? 0))
            (if Request.is_blocked request then
               let! t := thread_at (kern s) current_thread in
               let! cs := Request.assign (request_contexts (world s)) request (p_pid p) (m_tid t) in
               let! k := block (kern s) (p_pid p) (m_tid t) in
               Ret (Failure SysBlocked, with_kern (with_world s (set_request_contexts cs (world s))) k)
             else
               let! n := Request.release_value request in Ret (Value n, s))
      end
  end.

Definition handle_write (s : state) (process file_descriptor buffer size : Z) : outcome result :=
  Ret (Failure SysFailed, s).

(** * [SyscallProcess.cpp] *)
Definition handle_exit (s : state) (process exit_code : Z) : outcome result :=
  let! p := process_at (kern s) process in
  Ret (Value (u64 (to_int exit_code)),
       with_kern s (with_processes (kern s)
         (<[process := mkProcess (p_pid p) (p_gid p) (m_page_table p) ProcessDead (m_fd_table p) (m_threads p)]> (processes (kern s))))).

(** * [SyscallDebug.cpp] *)
Definition newline : bytes := [10].
Definition line : bytes := characters "{}" ++ newline.
Definition quoted (s : string) : bytes := [34] ++ characters s ++ [34].

Definition handle_dbgln (fuel : nat) (s : state) (process message : Z) : outcome result :=
  let! p := process_at (kern s) process in
  let! r := user_get s (m_page_table p) message in
  match r.1 with
  | Failure _ => Ret (Failure SysFailed, r.2)
  | Value a =>
      let! t := cstring_at fuel (kernel_memory (world r.2)) a in
      Ret (Value 0, add_call r.2 (LoglnDirect line [ArgString t]))
  end.

Definition handle_dmesg (s : state) : outcome result := Ret (Value 0, add_call s PrintLogfile).

(** [SyscallStatistics::for_each] with the callback of [handle_stats]. *)
Fixpoint statistics_text (stats : Array.t Z) (i : Z) (names : list string) : outcome bytes :=
  match names with
  | [] => Ret []
  | name :: names' =>
      let! count := Array.get stats i in
      let! t := format (quoted "{}" ++ characters ": {}, " ++ [0]) [ArgString (characters name); ArgNumber count] in
      let! rest := statistics_text stats (i + 1) names' in
      Ret (t ++ rest)
  end.

Definition handle_stats (s : state) : outcome result :=
  let! syscalls := statistics_text (m_statistics s) 0 syscall_names in
  let fmt := characters "\{" ++ quoted "cpus" ++ characters ": [\{" ++ quoted "id" ++ characters ": 0, " ++ quoted "time"
               ++ characters ": {}, " ++ quoted "syscalls" ++ characters ": \{ {} }}}" ++ newline in
  Ret (Value 0, add_call s (LoglnDirect fmt [ArgNumber (time_register (world s)); ArgString syscalls])).

Definition handle_ls (s : state) : outcome result :=
  let! r := vfs_list_directory [47] (world s) in
  let s := with_world s r.2 in
  match r.1 with
  | Failure _ => Ret (Failure SysFailed, s)
  | Value entries => Ret (Value 0, foldl (λ s name, add_call s (LoglnDirect line [ArgString name])) s entries)
  end.

Definition handle_mem (s : state) : outcome result :=
  let '(total_pages, free_pages, used_pages) := page_statistics (world s) in
  let '(total_size, free_size, used_size) := heap_statistics (world s) in
  let fmt a b c := characters "\{" ++ quoted a ++ characters ": {}, " ++ quoted b ++ characters ": {}, " ++ quoted c
                     ++ characters ": {}}" ++ [0] in
  let! memory := format (fmt "total_pages" "free_pages" "used_pages")%string [ArgNumber total_pages; ArgNumber free_pages; ArgNumber used_pages] in
  let! kernel_memory := format (fmt "total_bytes" "free_bytes" "used_bytes")%string [ArgNumber total_size; ArgNumber free_size; ArgNumber used_size] in
  let line := characters "\{" ++ quoted "memory" ++ characters ": {}, " ++ quoted "kernel_memory_allocator" ++ characters ": {}, "
                ++ quoted "logfile" ++ characters ": {}}" ++ newline in
  Ret (Value 0, add_call s (LoglnDirect line [ArgString memory; ArgString kernel_memory; ArgNumber (log_size (world s))])).

(** * [SyscallManager::handle_syscall] *)

(** [syscall_handlers], with the conversions of [SyscallWrapper]. *)
Definition call_handler (fuel : nat) (file_address : Z) (s : state) (process id : Z) (a0 a1 a2 : Z) : outcome result :=
  match Z.to_nat id with
  | 0%nat => handle_open fuel file_address s process a0 a1
  | 1%nat => handle_close s process a0
  | 2%nat => handle_dbgln fuel s process a0
  | 3%nat => handle_read s process a0 a1 a2
  | 4%nat => handle_write s process a0 a1 a2
  | 5%nat => handle_exit s process a0
  | 6%nat => handle_dmesg s
  | 7%nat => handle_stats s
  | 8%nat => handle_mem s
  | _ => handle_ls s
  end.

(** [SyscallStatistics::increment]. *)
Definition increment (stats : Array.t Z) (id : Z) : outcome (Array.t Z) :=
  let! n := Array.get stats id in Array.set stats id (u64 (n + 1)).

Fixpoint get_registers (f : TrapFrame) (offsets : list nat) : outcome (list Z) :=
  match offsets with
  | [] => Ret []
  | o :: offsets' => let! v := get_register f o in let! vs := get_registers f offsets' in Ret (v :: vs)
  end.

Definition set_frame (s : state) (address : Z) (f : TrapFrame) : state :=
  with_kern s (with_frames (kern s) (<[address := f]> (frames (kern s)))).

Definition used_size (s : state) : Z := (heap_statistics (world s)).2.

Definition handle_syscall (fuel : nat) (file_address : Z) (s : state) (process id : Z) :
    outcome (ErrorOr unit SysError * state) :=
  if Count <=? id then Ret (Value tt, s)
  else
    let! p := process_at (kern s) process in
    let s := add_call s (Logln (characters "SyscallManager: Process {} called syscall {}") [ArgNumber (p_pid p); ArgNumber id]) in
    let! stats := increment (m_statistics s) id in
    let s := mkState (kern s) (world s) (files s) stats (calls s) in
    let! current_thread := get_current_thread (kern s) in
    let! t := thread_at (kern s) current_thread in
    let! f := defined (frames (kern s) !! m_trap_frame t) in
    let! args := get_registers f [GP0; GP1; GP2; GP3; GP4; GP5; GP6] in
    let arg i := default 0 (args !! i) in
    let s := add_call s (Logln (characters "SyscallManager: Arguments: {16}, {16}, {16}, {16}, {16}, {16}, {16}")
                              ((ArgNumber <$> args) ++ [ArgNumber id])) in
    let before := used_size s in
    let! r := call_handler fuel file_address s process id (arg 0%nat) (arg 1%nat) (arg 2%nat) in
    let '(answer, s) := r in
    let s := add_call s (Logln (characters "SyscallManager: Memory usage before: {}, after: {}, diff: {}")
                              [ArgNumber before; ArgNumber (used_size s); ArgNumber (used_size s - before)]) in
    let finish s value :=
      let! f := defined (frames (kern s) !! m_trap_frame t) in
      let! f := set_register f GP0 value in
      Ret (Value tt, set_frame s (m_trap_frame t) f) in
    match answer with
    | Failure SysBlocked => Ret (Failure SysBlocked, s)
    | Failure SysFailed =>
        finish (add_call s (Logln (characters "SyscallManager: Error in syscall handler {}!") [ArgNumber id])) (-1)
    | Value v => finish (add_call s (Logln (characters "SyscallManager: Successfully handled syscall {}") [ArgNumber id])) v
    end.
End Syscalls.

(** * What system calls leave alone *)
Section Effects.
Context {W : Type} `{SyscallWorld W}.
Implicit Types (s : state (W := W)) (k : kernel).

(** The parts of the kernel that no handler touches. *)
Record untouched k k' : Prop := {
  same_frames : frames k' = frames k;
  same_kernel_frame : kernel_frame k' = kernel_frame k;
  same_queue : m_run_queue k' = m_run_queue k;
  same_list : m_process_list k' = m_process_list k;
  same_lock : m_process_list_lock k' = m_process_list_lock k
}.

#[local] Instance untouched_refl : Reflexive untouched.
Proof. by constructor. Qed.

Definition keeps s s' : Prop := untouched (kern s) (kern s') ∧ m_statistics s' = m_statistics s.

Lemma handler_keeps_refl s : keeps s s.
Proof. by split. Qed.

Lemma handler_keeps_trans s1 s2 s3 : keeps s1 s2 → keeps s2 s3 → keeps s1 s3.
Proof. intros [[] H12] [[] H23]. split; [constructor|]; congruence. Qed.

Lemma block_untouched k pid tid st k' : set_thread_state k pid tid st = Ret k' → untouched k k'.
Proof. unfold set_thread_state. intros Hb. inv_outcome. destruct x; inv_outcome; by constructor. Qed.

Lemma user_get_keeps s root a r : user_get s root a = Ret r → keeps s r.2 ∧ kern r.2 = kern s.
Proof. unfold user_get. intros Hu. inv_outcome. destruct x; inv_outcome; split; done. Qed.

Lemma with_fd_table_keeps s process t s' : with_fd_table s process t = Ret s' → keeps s s'.
Proof. unfold with_fd_table. intros Hw. inv_outcome. done. Qed.

#[local] Arguments characters : simpl never.
#[local] Arguments quoted : simpl never.
#[local] Arguments format : simpl never.
#[local] Arguments add_call : simpl never.
#[local] Arguments syscall_names : simpl never.

(** Split the matches on values that are known to return. *)
Ltac inv_result :=
  repeat (inv_outcome; simpl in *;
    match goal with
    | Hm : match ?r with Value _ => _ | Failure _ => _ end = Ret _ |- _ => destruct r eqn:?
    | Hm : (if ?b then _ else _) = Ret _ |- _ => destruct b eqn:?
    | Hm : (let '(_, _) := ?x in _) = Ret _ |- _ => destruct x eqn:?
    | Hu : user_get _ _ _ = Ret _ |- _ => apply user_get_keeps in Hu as [? ?]
    | Hw : with_fd_table _ _ _ = Ret _ |- _ => apply with_fd_table_keeps in Hw
    | Hb : block _ _ _ = Ret _ |- _ => apply block_untouched in Hb
    end);
  inv_outcome; simpl in *;
  try match goal with
  | |- keeps ?s _ => first [ exact (handler_keeps_refl s) | eassumption | exact (conj (untouched_refl _) eq_refl)
      | match goal with Hk : keeps s ?s2 |- _ => first [ exact Hk | exact (handler_keeps_trans s s2 _ Hk ltac:(eassumption))
          | match goal with Hu : untouched _ ?k |- keeps _ (with_kern ?s3 _) => exact (handler_keeps_trans s s2 (with_kern s3 k) Hk (conj Hu eq_refl)) end ] end ]
  end.

Lemma open_keeps fuel a s process path flags r : handle_open fuel a s process path flags = Ret r → keeps s r.2.
Proof. unfold handle_open. intros Ho. inv_result. Qed.

Lemma close_keeps s process fd r : handle_close s process fd = Ret r → keeps s r.2.
Proof. unfold handle_close. intros Ho. inv_result. Qed.

Lemma read_keeps s process fd buffer size r : handle_read s process fd buffer size = Ret r → keeps s r.2.
Proof. unfold handle_read. intros Ho. inv_result. Qed.

Lemma ls_keeps s r : handle_ls s = Ret r → keeps s r.2.
Proof.
  unfold handle_ls. intros Ho. inv_result. assert (keeps s (with_world s x.2)) as Hk by exact (handler_keeps_refl s).
  clear Heqe. revert Hk. generalize (with_world s x.2).
  induction result as [|e es IH]; intros s' Hs; simpl; [exact Hs|]. apply IH. exact Hs.
Qed.

Lemma dbgln_keeps fuel s process message r : handle_dbgln fuel s process message = Ret r → keeps s r.2.
Proof. unfold handle_dbgln. intros Ho. inv_result. Qed.

Lemma stats_keeps s r : handle_stats s = Ret r → keeps s r.2.
Proof. unfold handle_stats. intros Ho. inv_outcome. exact (handler_keeps_refl s). Qed.

Lemma mem_keeps s r : handle_mem s = Ret r → keeps s r.2.
Proof.
  unfold handle_mem. destruct (page_statistics _) as [[? ?] ?], (heap_statistics _) as [[? ?] ?].
  intros Ho. inv_outcome. exact (handler_keeps_refl s).
Qed.

Lemma exit_keeps s process code r : handle_exit s process code = Ret r → keeps s r.2.
Proof. unfold handle_exit. intros Ho. inv_outcome. split; [by constructor|done]. Qed.

Lemma handler_keeps fuel a s process id a0 a1 a2 r : call_handler fuel a s process id a0 a1 a2 = Ret r → keeps s r.2.
Proof.
  unfold call_handler.
  intros Hc.
  repeat match type of Hc with match ?x with O => _ | S _ => _ end = _ => destruct x end;
    [by eapply open_keeps|by eapply close_keeps|by eapply dbgln_keeps|by eapply read_keeps| |by eapply exit_keeps|
     |by eapply stats_keeps|by eapply mem_keeps|by eapply ls_keeps];
    injection Hc as <-; exact (handler_keeps_refl s).
Qed.
(** The counters of the system calls are [l]. *)
Definition counts (a : Array.t Z) (l : list Z) : Prop :=
  Array.m_array a = Some <$> l ∧ Array.m_size a = Count ∧ length l = 10%nat.

Lemma increment_counts a l (i : nat) n :
  counts a l → l !! i = Some n → ∃ a', increment a (Z.of_nat i) = Ret a' ∧ counts a' (<[i := u64 (n + 1)]> l).
Proof.
  intros (Ha & Hs & Hl) Hi. pose proof (lookup_lt_Some _ _ _ Hi). unfold increment, Array.get, Array.set, read_slot, put_slot, slot.
  rewrite Hs, (proj2 (Z.ltb_lt _ _)), (proj2 (Z.leb_le 0 _)), Nat2Z.id, Ha, list_lookup_fmap, Hi by (unfold Count; lia).
  simpl. eexists. split; [done|]. split_and!; [by rewrite list_fmap_insert|done|by rewrite length_insert].
Qed.

(** The state in which a handler is called. *)
Definition entered s (p : Process) (id : Z) (stats : Array.t Z) (args : list Z) : state :=
  mkState (kern s) (world s) (files s) stats
    (calls s ++ [Logln (characters "SyscallManager: Process {} called syscall {}") [ArgNumber (p_pid p); ArgNumber id];
                 Logln (characters "SyscallManager: Arguments: {16}, {16}, {16}, {16}, {16}, {16}, {16}")
                   ((ArgNumber <$> args) ++ [ArgNumber id])]).

(** The argument registers of a frame. *)
Definition arguments (f : TrapFrame) : list Z := take 7 (drop GP0 (regs f)).

Lemma get_arguments f : length (regs f) = 32%nat → get_registers f [GP0; GP1; GP2; GP3; GP4; GP5; GP6] = Ret (arguments f).
Proof.
  destruct f as [l fl ? ? ? ? ? ? ? ?]. simpl. intros Hl.
  do 17 (destruct l as [|? l]; [discriminate|]). reflexivity.
Qed.

(** The frame with which the thread goes on after the answer of the handler. *)
Definition answered (f : TrapFrame) (r : ErrorOr Z SysError) : TrapFrame :=
  match r with
  | Value v => with_regs f (<[GP0 := u64 v]> (regs f))
  | Failure SysFailed => with_regs f (<[GP0 := 2 ^ 64 - 1]> (regs f))
  | Failure SysBlocked => f
  end.

Lemma set_GP0 f v : length (regs f) = 32%nat → set_register f GP0 v = Ret (with_regs f (<[GP0 := u64 v]> (regs f))).
Proof.
  intros Hl. unfold set_register. destruct (regs f !! GP0) eqn:E; [done|].
  apply lookup_ge_None in E. unfold GP0 in E. lia.
Qed.

Lemma dispatch_returns fuel a s process (id : nat) p tp t f stats r s2 :
  (id < 10)%nat → processes (kern s) !! process = Some p → get_current_thread (kern s) = Ret tp →
  threads (kern s) !! tp = Some t → frames (kern s) !! m_trap_frame t = Some f → length (regs f) = 32%nat →
  increment (m_statistics s) (Z.of_nat id) = Ret stats →
  let arg i := default 0 (arguments f !! i) in
  call_handler fuel a (entered s p (Z.of_nat id) stats (arguments f)) process (Z.of_nat id) (arg 0%nat) (arg 1%nat) (arg 2%nat) = Ret (r, s2) →
  ∃ s', handle_syscall fuel a s process (Z.of_nat id) =
      Ret (match r with Failure SysBlocked => Failure SysBlocked | _ => Value tt end, s') ∧
    frames (kern s') = <[m_trap_frame t := answered f r]> (frames (kern s)) ∧
    m_statistics s' = stats ∧ world s' = world s2 ∧ files s' = files s2 ∧
    threads (kern s') = threads (kern s2) ∧ processes (kern s') = processes (kern s2) ∧ m_run_queue (kern s') = m_run_queue (kern s) ∧
    kernel_frame (kern s') = kernel_frame (kern s) ∧ m_process_list_lock (kern s') = m_process_list_lock (kern s) ∧
    kern s' = with_frames (kern s2) (<[m_trap_frame t := answered f r]> (frames (kern s))).
Proof.
  intros Hid Hp Htp Ht Hf Hl Hst arg Hc. unfold handle_syscall.
  rewrite (proj2 (Z.leb_gt _ _)) by (unfold Count; lia).
  unfold process_at, thread_at, add_call. rewrite Hp. cbn [defined obind m_statistics kern world files calls]. rewrite Hst.
  cbn [obind]. rewrite Htp. cbn [obind]. rewrite Ht. cbn [defined obind]. rewrite Hf. cbn [defined obind].
  rewrite (get_arguments _ Hl). cbn [obind]. rewrite <- app_assoc.
  change ([?x] ++ [?y]) with [x; y]. unfold entered, arg in Hc. cbn [app] in *. rewrite Hc. cbn [obind].
  destruct (handler_keeps _ _ _ _ _ _ _ _ _ Hc) as [[Hk1 Hk2 Hk3 Hk4 Hk5] Hks]. simpl in Hk1, Hk2, Hk3, Hk5, Hks.
  destruct r as [v|[]].
  - rewrite Hk1, Hf. cbn [defined obind]. rewrite (set_GP0 _ _ Hl). cbn [obind].
    eexists. split; [reflexivity|]. simpl. by rewrite Hk1.
  - rewrite Hk1, Hf. cbn [defined obind]. rewrite (set_GP0 _ _ Hl). cbn [obind].
    eexists. split; [reflexivity|]. simpl. by rewrite Hk1.
  - eexists. split; [reflexivity|]. simpl. rewrite insert_id by done. split_and!; try done. rewrite <- Hk1. by destruct (kern s2).
Qed.
End Effects.

(** * Properties *)

(** A system call with an unknown number changes nothing.  Any other is
    counted, and its handler gets the first arguments of the current thread's
    frame; when the handler returns so does the call: its value, or all ones for
    an error, is put into the first argument register of that frame, the call of
    a thread that must wait reports that and leaves the frame as it was, and no
    other register of any thread changes, in particular not the program counter. *)
Theorem syscall_dispatch `{SyscallWorld W} (fuel : nat) (file_address : Z) (s : state (W := W)) (process : Z) :
  (∀ id, Count ≤ id → handle_syscall fuel file_address s process id = Ret (Value tt, s)) ∧
  (∀ (id : nat) n l p tp t f,
     counts (m_statistics s) l → l !! id = Some n →
     processes (kern s) !! process = Some p → get_current_thread (kern s) = Ret tp →
     threads (kern s) !! tp = Some t → frames (kern s) !! m_trap_frame t = Some f → length (regs f) = 32%nat →
     ∃ stats, counts stats (<[id := u64 (n + 1)]> l) ∧
       let arg i := default 0 (arguments f !! i) in
       ∀ r s2,
         call_handler fuel file_address (entered s p (Z.of_nat id) stats (arguments f)) process (Z.of_nat id)
           (arg 0%nat) (arg 1%nat) (arg 2%nat) = Ret (r, s2) →
         ∃ s', handle_syscall fuel file_address s process (Z.of_nat id) =
             Ret (match r with Failure SysBlocked => Failure SysBlocked | _ => Value tt end, s') ∧
           frames (kern s') = <[m_trap_frame t := answered f r]> (frames (kern s)) ∧ sepc (answered f r) = sepc f ∧
           m_statistics s' = stats ∧ world s' = world s2 ∧ files s' = files s2 ∧
           threads (kern s') = threads (kern s2) ∧ processes (kern s') = processes (kern s2) ∧
           m_run_queue (kern s') = m_run_queue (kern s)).
Proof.
  split.
  - intros id Hid. unfold handle_syscall. by rewrite (proj2 (Z.leb_le _ _)).
  - intros id n l p tp t f Hc Hn Hp Htp Ht Hf Hl.
    destruct (increment_counts _ _ _ _ Hc Hn) as (stats & Hst & Hc'). exists stats. split; [done|]. intros arg r s2 Hr.
    assert (id < 10)%nat as Hid by (destruct Hc as (_ & _ & <-); by eapply lookup_lt_Some).
    destruct (dispatch_returns fuel file_address s process id p tp t f stats r s2 Hid Hp Htp Ht Hf Hl Hst Hr) as (s' & Hs' & Hfr & Hrest).
    exists s'. split; [done|]. split; [done|]. split; [by destruct r as [|[]]|]. naive_solver.
Qed.

(** * Opening and closing *)
Section Files.
Context {W : Type} `{SyscallWorld W}.
Implicit Types (s : state (W := W)).

Lemma with_table_again s process p t t' s' :
  processes (kern s) !! process = Some p → with_fd_table s process t = Ret s' →
  with_fd_table s' process t' = with_fd_table s process t'.
Proof.
  intros Hp Hw. unfold with_fd_table, process_at in *. rewrite Hp in *. simpl in *. injection Hw as <-. simpl.
  rewrite lookup_insert_eq. simpl. by rewrite insert_insert_eq.
Qed.

Lemma with_table_same s process p :
  processes (kern s) !! process = Some p → with_fd_table s process (m_fd_table p) = Ret s.
Proof.
  intros Hp. unfold with_fd_table, process_at. rewrite Hp. simpl. f_equal. destruct p; simpl.
  rewrite insert_id by done. destruct s as [k ? ? ? ?]; simpl. by destruct k.
Qed.

Lemma user_get_value s root address a :
  translate (kernel_memory (world s)) root address = Ret (Value a) → user_get s root address = Ret (Value a, s).
Proof. intros Ht. unfold user_get. by rewrite Ht. Qed.

Lemma user_get_failure s root address e :
  translate (kernel_memory (world s)) root address = Ret (Failure e) →
  user_get s root address =
    Ret (Failure e, add_call s (DebugPrintln (characters "Failed to translate address: " ++ characters (m_message e)))).
Proof. intros Ht. unfold user_get. by rewrite Ht. Qed.

(** The steps of [handle_open] up to the file system. *)
Lemma open_reaches fuel file s process p path flags a t r :
  processes (kern s) !! process = Some p → translate (kernel_memory (world s)) (m_page_table p) path = Ret (Value a) →
  cstring_at fuel (kernel_memory (world s)) a = Ret t → vfs_open t flags (world s) = Ret r →
  handle_open fuel file s process path flags =
    match r.1 with
    | Failure _ => Ret (Failure SysFailed, with_world s r.2)
    | Value descriptor =>
        let! t := FileDescriptorTable.open (m_fd_table p) file in
        match t.1 with
        | Failure _ => Ret (Failure SysFailed, with_world s r.2)
        | Value fd =>
            let! s := with_fd_table (with_files (with_world s r.2) (<[file := File.new descriptor flags]> (files s))) process t.2 in
            Ret (Value fd, s)
        end
    end.
Proof.
  intros Hp Ha Ht Hr. unfold handle_open, process_at. rewrite Hp. simpl. rewrite (user_get_value _ _ _ _ Ha). simpl.
  rewrite Ht. simpl. by rewrite Hr.
Qed.
End Files.

(** C23: [open] on a path that the file system opens takes the lowest free
    number of the process for a new file at offset 0, and [close] of that number
    gives back the table, the files and the rest of the kernel as they were
    (the file system keeps its own state).  [open] fails, and leaves process and
    files alone, when the path is not mapped, when the file system fails, and
    when all numbers are taken; [close] fails on a free number and stops the
    kernel from number 256 on. *)
Theorem syscall_open_close `{SyscallWorld W} (s : state (W := W)) process p l :
  processes (kern s) !! process = Some p → FileDescriptorTable.holds (m_fd_table p) l →
  (∀ fuel file path flags a t descriptor w',
     translate (kernel_memory (world s)) (m_page_table p) path = Ret (Value a) →
     cstring_at fuel (kernel_memory (world s)) a = Ret t → vfs_open t flags (world s) = Ret (Value descriptor, w') →
     file ≠ 0 → files s !! file = None →
     match list_find (λ x, x = 0) l with
     | Some (i, _) => ∃ s1 p1,
         handle_open fuel file s process path flags = Ret (Value (Z.of_nat i), s1) ∧
         files s1 !! file = Some (File.new descriptor flags) ∧
         processes (kern s1) !! process = Some p1 ∧ FileDescriptorTable.holds (m_fd_table p1) (<[i := file]> l) ∧
         handle_close s1 process (Z.of_nat i) = Ret (Value 0, with_world s w')
     | None => handle_open fuel file s process path flags = Ret (Failure SysFailed, with_world s w')
     end) ∧
  (∀ fuel file path flags a t e w',
     translate (kernel_memory (world s)) (m_page_table p) path = Ret (Value a) →
     cstring_at fuel (kernel_memory (world s)) a = Ret t → vfs_open t flags (world s) = Ret (Failure e, w') →
     handle_open fuel file s process path flags = Ret (Failure SysFailed, with_world s w')) ∧
  (∀ fuel file path flags e,
     translate (kernel_memory (world s)) (m_page_table p) path = Ret (Failure e) →
     ∃ c, handle_open fuel file s process path flags = Ret (Failure SysFailed, add_call s c)) ∧
  (∀ i, l !! i = Some 0 → handle_close s process (Z.of_nat i) = Ret (Failure SysFailed, s)) ∧
  (∀ fd, 256 ≤ fd → handle_close s process fd = Halted).
Proof.
  intros Hp Hl. split_and!.
  - intros fuel file path flags a t descriptor w' Ha Ht Hv Hfile Hnew.
    rewrite (open_reaches fuel file s process p path flags a t _ Hp Ha Ht Hv). cbn [fst snd].
    pose proof (table_open _ l file Hl) as Ho. destruct (list_find (λ x, x = 0) l) as [[i x]|] eqn:Hfind.
    + destruct Ho as (t' & -> & Ht'). cbn [obind fst snd].
      apply list_find_Some in Hfind as (Hi & -> & _).
      set (s0 := with_files (with_world s w') (<[file := File.new descriptor flags]> (files s))).
      assert (∃ s1, with_fd_table s0 process t' = Ret s1 ∧ files s1 = <[file := File.new descriptor flags]> (files s) ∧
        ∃ p1, processes (kern s1) !! process = Some p1 ∧ m_fd_table p1 = t') as (s1 & Hs1 & Hf1 & p1 & Hp1 & Hp1').
      { unfold with_fd_table, process_at. simpl. rewrite Hp. simpl. eexists. split; [done|]. split; [done|]. simpl.
        rewrite lookup_insert_eq. by eexists. }
      rewrite Hs1. cbn [obind]. exists s1, p1. split; [done|]. split; [by rewrite Hf1, lookup_insert_eq|]. split; [done|].
      split; [by rewrite Hp1'|]. unfold handle_close, process_at. rewrite Hp1. cbn [defined obind]. rewrite Hp1'.
      assert (<[i := file]> l !! i = Some file) as Hfi by (apply list_lookup_insert_eq; by eapply lookup_lt_Some).
      rewrite (table_index _ _ _ _ Ht' Hfi). cbn [obind]. rewrite (proj2 (Z.eqb_neq _ _) Hfile).
      destruct (table_close _ _ _ _ Ht' Hfi Hfile) as (t'' & -> & Ht''). cbn [obind snd].
      rewrite list_insert_insert_eq, list_insert_id in Ht'' by done.
      rewrite (table_unique _ _ _ Ht'' Hl), (with_table_again s0 process p t') by done.
      rewrite (with_table_same s0 process p) by done. cbn [obind]. unfold s0, with_files, with_world. simpl.
      by rewrite delete_insert_id.
    + rewrite Ho. done.
  - intros fuel file path flags a t e w' Ha Ht Hv. by rewrite (open_reaches fuel file s process p path flags a t _ Hp Ha Ht Hv).
  - intros fuel file path flags e Ha. unfold handle_open, process_at. rewrite Hp. simpl.
    rewrite (user_get_failure _ _ _ _ Ha). by eexists.
  - intros i Hi. unfold handle_close, process_at. rewrite Hp. simpl. by rewrite (table_index _ _ _ _ Hl Hi).
  - intros fd Hfd. unfold handle_close, process_at. rewrite Hp. simpl. by rewrite (table_index_outside _ _ _ Hl Hfd).
Qed.

(** * Reading *)
Section Reading.
Context {W : Type} `{SyscallWorld W}.
Implicit Types (s : state (W := W)).

(** [handle_read] once the buffer is translated and the file found. *)
Lemma read_reaches s process p l (fd buffer size : Z) (k : nat) file a f answer f' w :
  processes (kern s) !! process = Some p → FileDescriptorTable.holds (m_fd_table p) l →
  int_index fd = Z.of_nat k → l !! k = Some file →
  translate (kernel_memory (world s)) (m_page_table p) buffer = Ret (Value a) → files s !! file = Some f →
  File.read (λ offset w, inode_read (File.m_open_file_descriptor f) offset a size w) f (world s) = Ret (answer, f', w) →
  handle_read s process fd buffer size =
    let s := with_files (with_world s w) (<[file := f']> (files s)) in
    match answer with
    | Failure e =>
        Ret (Failure SysFailed,
             add_call s (Logln (characters "Syscalls::handle_read: Read operation failed: {}") [ArgString (characters (m_message e))]))
    | Value request =>
        let! current_thread := get_current_thread (kern s) in
        runtime_assert (negb (current_thread =? 0))
          (if Request.is_blocked request then
             let! t := thread_at (kern s) current_thread in
             let! cs := Request.assign (request_contexts (world s)) request (p_pid p) (m_tid t) in
             let! k := block (kern s) (p_pid p) (m_tid t) in
             Ret (Failure SysBlocked, with_kern (with_world s (set_request_contexts cs (world s))) k)
           else
             let! n := Request.release_value request in Ret (Value n, s))
    end.
Proof.
  intros Hp Hl Hk Hfile Ha Hf Hread. unfold handle_read, process_at. rewrite Hp. cbn [defined obind].
  rewrite Hk, (table_index _ _ _ _ Hl Hfile). cbn [obind]. rewrite (user_get_value _ _ _ _ Ha). cbn [obind fst snd].
  rewrite Hf. cbn [defined obind]. rewrite Hread. done.
Qed.

(** The thread that [get_current_thread] returns is the one its numbers name. *)
Lemma current_thread_found k tp pid :
  table_ok k → get_current_thread k = Ret tp → tp ≠ 0 → current_process_id (kernel_frame k).2 = pid →
  ∃ t, threads k !! tp = Some t ∧ get_thread k pid (m_tid t) = Ret (Value tp).
Proof.
  intros Hk Hc Hne Hpid. unfold get_current_thread in Hc. apply obind_Ret in Hc as (g & Hg & He).
  destruct g as [q|e]; injection He as <-; [|done]. rewrite Hpid in Hg.
  destruct (get_thread_found _ _ _ _ Hk Hg) as (t & Ht & Htid). exists t. by rewrite Htid.
Qed.
End Reading.

(** C24: [read] from an open file: what the inode reads at once is returned and
    moves the offset of the file; when the inode must wait, the current thread
    is blocked, the request learns the process and thread to wake, nothing is
    read, and waking what the request names makes exactly that thread run again;
    an error of the inode or an unmapped buffer gives an error.  A closed number
    is dereferenced as a null pointer, and a number that is not below 256 as an
    unsigned number, such as -1, stops the kernel. *)
Theorem syscall_read `{SyscallWorld W} (s : state (W := W)) process p l fd buffer size :
  processes (kern s) !! process = Some p → FileDescriptorTable.holds (m_fd_table p) l →
  (256 ≤ int_index fd → handle_read s process fd buffer size = Halted) ∧
  (∀ (k : nat) file, int_index fd = Z.of_nat k → l !! k = Some file →
     (∀ e, translate (kernel_memory (world s)) (m_page_table p) buffer = Ret (Failure e) →
        ∃ c1 c2, handle_read s process fd buffer size = Ret (Failure SysFailed, add_call (add_call s c1) c2)) ∧
     (∀ a, translate (kernel_memory (world s)) (m_page_table p) buffer = Ret (Value a) →
        (files s !! file = None → handle_read s process fd buffer size = Undef) ∧
        (∀ f w', files s !! file = Some f →
           let reads answer := inode_read (File.m_open_file_descriptor f) (File.m_offset f) a size (world s) = Ret (answer, w') in
           (∀ e, reads (Failure e) →
              ∃ c, handle_read s process fd buffer size = Ret (Failure SysFailed, add_call (with_world s w') c)) ∧
           (∀ tp, table_ok (kern s) → get_current_thread (kern s) = Ret tp → tp ≠ 0 →
              current_process_id (kernel_frame (kern s)).2 = p_pid p →
              (∀ n, reads (Value (Request.create_finalized n)) →
                 handle_read s process fd buffer size =
                   Ret (Value n, with_files (with_world s w')
                     (<[file := File.mk (File.m_open_file_descriptor f) (u64 (File.m_offset f + n)) (File.m_mode f)]> (files s)))) ∧
              (∀ c, c ≠ 0 → reads (Value (Request.mk Containers.Optional.empty c Request.Blocked)) →
                 request_contexts w' !! c = Some (Request.mkContext 0 0) →
                 ∃ t k1 k2,
                   handle_read s process fd buffer size =
                     Ret (Failure SysBlocked, with_kern (with_world s (set_request_contexts
                            (<[c := Request.mkContext (p_pid p) (m_tid t)]> (request_contexts w')) w')) k1) ∧
                   threads (kern s) !! tp = Some t ∧ threads k1 = <[tp := with_state t Blocked]> (threads (kern s)) ∧
                   frames k1 = frames (kern s) ∧
                   unblock k1 (p_pid p) (m_tid t) = Ret k2 ∧ threads k2 = <[tp := with_state t Running]> (threads (kern s))))))).
Proof.
  intros Hp Hl. split.
  { intros Hfd. unfold handle_read, process_at. rewrite Hp. simpl. by rewrite (table_index_outside _ _ _ Hl Hfd). }
  intros k file Hk Hfile. split.
  { intros e He. unfold handle_read, process_at. rewrite Hp. simpl. rewrite Hk, (table_index _ _ _ _ Hl Hfile). simpl.
    rewrite (user_get_failure _ _ _ _ He). by eexists _, _. }
  intros a Ha. split.
  { intros Hf. unfold handle_read, process_at. rewrite Hp. simpl. rewrite Hk, (table_index _ _ _ _ Hl Hfile). simpl.
    rewrite (user_get_value _ _ _ _ Ha). simpl. by rewrite Hf. }
  intros f w' Hf reads. split; [|intros tp Htab Htp Hne Hcur; split].
  - intros e He. eexists. rewrite (read_reaches s process p l fd buffer size k file a f (Failure e) f w' Hp Hl Hk Hfile Ha Hf).
    + rewrite insert_id by done. by destruct s.
    + unfold File.read. by rewrite He.
  - intros n Hn. rewrite (read_reaches s process p l fd buffer size k file a f (Value (Request.create_finalized n))
      (File.mk (File.m_open_file_descriptor f) (u64 (File.m_offset f + n)) (File.m_mode f)) w' Hp Hl Hk Hfile Ha Hf).
    + cbn [kern with_files with_world]. rewrite Htp. simpl. by rewrite (proj2 (Z.eqb_neq _ _) Hne).
    + unfold File.read. by rewrite Hn.
  - intros c Hc Hr Hctx.
    destruct (current_thread_found _ _ _ Htab Htp Hne Hcur) as (t & Ht & Hg).
    destruct (set_thread_state_found _ _ _ _ Blocked Htab Hg) as (t' & Ht' & _ & Hb).
    rewrite Ht in Ht'. injection Ht' as <-.
    exists t. eexists _, _. split; [|split; [done|split; [|split; [|split]]]].
    + rewrite (read_reaches s process p l fd buffer size k file a f
        (Value (Request.mk Containers.Optional.empty c Request.Blocked)) f w' Hp Hl Hk Hfile Ha Hf).
      2:{ unfold File.read. by rewrite Hr. }
      cbn [kern with_files with_world]. rewrite Htp. simpl. rewrite (proj2 (Z.eqb_neq _ _) Hne). simpl.
      unfold thread_at. rewrite Ht. simpl. unfold Request.assign. simpl. rewrite (proj2 (Z.eqb_neq _ _) Hc), Hctx. simpl.
      unfold block. rewrite Hb. simpl. rewrite insert_id by done. by destruct s.
    + done.
    + done.
    + unfold unblock, set_thread_state. rewrite get_thread_state by done. rewrite Hg. simpl.
      unfold thread_at. simpl. rewrite lookup_insert_eq. reflexivity.
    + simpl. by rewrite insert_insert_eq.
Qed.

(** ** Witnesses: a world with one file whose first five bytes are at hand *)
Definition demo_open (path : bytes) (flags : Z) (w : Request.contexts) : outcome (ErrorOr Z Error * Request.contexts) :=
  Ret (if decide (path = [47; 97]) then Value 77 else fail_with "Not found", w).

Definition demo_read (descriptor offset a size : Z) (w : Request.contexts) : outcome (ErrorOr (Request.t Z) Error * Request.contexts) :=
  if offset =? 0 then Ret (Value (Request.create_finalized 5), w)
  else let r := Request.create_blocked w 9 in Ret (Value r.1, r.2).

#[local] Instance demo_world : SyscallWorld Request.contexts := {
  kernel_memory w := {[0x1000 := 3; 0x100 := 24879]};
  vfs_open := demo_open;
  vfs_list_directory path w := Ret (Value [[97]], w);
  inode_read := demo_read;
  request_contexts w := w;
  set_request_contexts cs w := cs;
  page_statistics w := (4, 3, 1);
  heap_statistics w := (64, 32, 32);
  log_size w := 0;
  time_register w := 7
}.

Definition demo_process : Process := new_process 1 1 0x1000 ProcessRunning.

Definition demo_frame (args : list Z) : TrapFrame :=
  with_regs zero_frame (list_inserts GP0 args (replicate 32 0)).

Definition demo_state (args : list Z) (opened : gmap Z File.t) (table : FileDescriptorTable.t) : state (W := Request.contexts) :=
  mkState
    (mkKernel {[101 := demo_frame args]} {[1 := mkThread 101 0 1 Running]}
       {[50 := mkProcess 1 1 0x1000 ProcessRunning table [1]]} [1] [50] 0 2 (500, mkKernelFrame zero_frame 0 0 1))
    ∅ opened (Array.new 0 Count) [].

Lemma demo_table args opened table : table_ok (kern (demo_state args opened table)).
Proof.
  split; [|split; [discriminate|reflexivity]]. repeat constructor. eexists. split; [reflexivity|].
  split; [simpl; lia|]. repeat constructor. eexists. reflexivity.
Qed.

(** [exit] with the argument -1, which the caller gets back. *)
Lemma syscall_dispatch_witness :
  let s := demo_state [2 ^ 64 - 1] ∅ FileDescriptorTable.new in
  handle_syscall 9 200 s 50 10 = Ret (Value tt, s) ∧
  ∃ s', handle_syscall 9 200 s 50 5 = Ret (Value tt, s') ∧
    frames (kern s') = <[101 := answered (demo_frame [2 ^ 64 - 1]) (Value (2 ^ 64 - 1))]> (frames (kern s)).
Proof.
  intros s. split; [by apply (proj1 (syscall_dispatch 9 200 s 50))|].
  destruct (proj2 (syscall_dispatch 9 200 s 50) 5%nat 0 (replicate 10 0) (mkProcess 1 1 0x1000 ProcessRunning FileDescriptorTable.new [1])
    1 (mkThread 101 0 1 Running) (demo_frame [2 ^ 64 - 1])) as (stats & _ & Hd);
    [split_and!; reflexivity|reflexivity|reflexivity|reflexivity|reflexivity|reflexivity|reflexivity|].
  edestruct (Hd (Value (2 ^ 64 - 1))) as (s' & Hs' & Hf & _); [reflexivity|]. exists s'. split; [exact Hs'|exact Hf].
Defined.

Lemma syscall_open_close_witness :
  let s := demo_state [] ∅ FileDescriptorTable.new in
  ∃ s1, handle_open 9 200 s 50 0x100 0 = Ret (Value 0, s1) ∧ files s1 !! 200 = Some (File.new 77 0) ∧
    handle_close s1 50 0 = Ret (Value 0, s).
Proof.
  intros s.
  destruct (syscall_open_close s 50 (mkProcess 1 1 0x1000 ProcessRunning FileDescriptorTable.new [1]) (replicate 256 0))
    as (Hopen & _); [reflexivity|apply new_table|].
  destruct (Hopen 9%nat 200 0x100 0 0x100 [47; 97] 77 ∅) as (s1 & p1 & H1 & H2 & _ & _ & H3);
    [vm_compute; reflexivity|vm_compute; reflexivity|reflexivity|discriminate|reflexivity|].
  exists s1. split; [exact H1|]. split; [exact H2|]. exact H3.
Defined.

Lemma syscall_read_witness :
  let table := FileDescriptorTable.mk (Array.mk (<[0%nat := Some 200]> (replicate 256 (Some 0))) 256) in
  let s offset := demo_state [] {[200 := File.mk 77 offset 0]} table in
  handle_read (s 0) 50 (2 ^ 64 - 1) 0x100 64 = Halted ∧
  (∃ s', handle_read (s 0) 50 0 0x100 64 = Ret (Value 5, s') ∧ files s' !! 200 = Some (File.mk 77 5 0)) ∧
  ∃ s' k, handle_read (s 5) 50 0 0x100 64 = Ret (Failure SysBlocked, s') ∧
    world s' !! 9 = Some (Request.mkContext 1 0) ∧ unblock (kern s') 1 0 = Ret k.
Proof.
  intros table s.
  assert (FileDescriptorTable.holds table (<[0%nat := 200]> (replicate 256 0))) as Hholds by (constructor; reflexivity).
  pose (p := mkProcess 1 1 0x1000 ProcessRunning table [1]).
  destruct (syscall_read (s 0) 50 p _ (2 ^ 64 - 1) 0x100 64 eq_refl Hholds) as [Hout _].
  destruct (syscall_read (s 0) 50 p _ 0 0x100 64 eq_refl Hholds) as [_ Hread].
  destruct (syscall_read (s 5) 50 p _ 0 0x100 64 eq_refl Hholds) as [_ Hwait].
  split; [apply Hout; discriminate|].
  destruct (Hread 0%nat 200 eq_refl eq_refl) as [_ Hr]. destruct (Hwait 0%nat 200 eq_refl eq_refl) as [_ Hw].
  destruct (proj2 (proj2 (Hr 0x100 ltac:(vm_compute; reflexivity)) (File.mk 77 0 0) ∅ eq_refl) 1 (demo_table _ _ _) eq_refl ltac:(done) eq_refl) as [Hn _].
  destruct (proj2 (proj2 (Hw 0x100 ltac:(vm_compute; reflexivity)) (File.mk 77 5 0) {[9 := Request.mkContext 0 0]} eq_refl) 1 (demo_table _ _ _) eq_refl ltac:(done) eq_refl) as [_ Hb].
  split.
  - eexists. split; [apply (Hn 5); reflexivity|reflexivity].
  - destruct (Hb 9 ltac:(done) eq_refl eq_refl) as (t & k1 & k2 & H1 & H2 & _ & _ & H3 & _). injection H2 as <-.
    eexists _, _. split; [exact H1|]. split; [reflexivity|exact H3].
Defined.
