(* ===== verification/Devices.v ===== *)
(** Devices and drivers: [Devices/Device.h], [Device.cpp], [DeviceManager.cpp],
    [Drivers/DriverManager.cpp] and the descriptors of the two device drivers.

    Devices and drivers are objects in stores by address, 0 is the null pointer.
    What a virtual function of a device or driver does is the interface
    [DeviceVirtuals]; the console implements it in [Console.v]. *)
From S2P Require Import Prelude Bits Machine PageAllocator Paging Bytes Strings Processes Mmio.

(** * [Device.h] *)
Inductive UnderlyingDeviceType : Type := VirtIO | SBIConsole | Universal.

Inductive UnderlyingDevice : Type :=
| VirtIODevice (m_mmio_device : Z)
| SBIConsoleDevice
| UniversalDevice (m_device_id m_vendor_id : Z) (m_device_tree_path m_device_type : bytes) (m_address : Z).

Definition underlying_type (u : UnderlyingDevice) : UnderlyingDeviceType :=
  match u with VirtIODevice _ => VirtIO | SBIConsoleDevice => SBIConsole | UniversalDevice _ _ _ _ _ => Universal end.

Inductive DeviceType : Type := NoDevice | Network | Block | Console | Entropy | Gpu | Input | Memory.

#[global] Instance DeviceType_eq : EqDecision DeviceType.
Proof. solve_decision. Defined.
#[global] Instance UnderlyingDeviceType_eq : EqDecision UnderlyingDeviceType.
Proof. solve_decision. Defined.

Record Device : Type := mkDevice {
  m_device_type : DeviceType;
  m_interrupts : list Z;
  m_needs_driver : bool;
  m_driver : Z;
  m_underlying_device : UnderlyingDevice
}.

(** The constructors of the device classes. *)
Definition new_device (u : UnderlyingDevice) (interrupts : list Z) : Device := mkDevice NoDevice interrupts false 0 u.
Definition new_console (u : UnderlyingDevice) (interrupts : list Z) : Device := mkDevice Console interrupts true 0 u.
Definition new_block (u : UnderlyingDevice) (interrupts : list Z) : Device := mkDevice Block interrupts true 0 u.

Definition has_driver (d : Device) : bool := negb (m_driver d =? 0).
Definition set_driver (d : Device) (driver : Z) : Device :=
  mkDevice (m_device_type d) (m_interrupts d) (m_needs_driver d) driver (m_underlying_device d).

(** [handles_interrupt]: the comparison is of 64-bit numbers. *)
Definition handles_interrupt (d : Device) (interrupt_id : Z) : bool := existsb (λ i, interrupt_id =? i) (m_interrupts d).

(** * Drivers *)
Inductive DeviceDriverDescriptor : Type := VirtIODeviceDriverDescriptor | NS16550ADriverDescriptor.

Definition device_type_text (u : UnderlyingDevice) : bytes :=
  match u with UniversalDevice _ _ _ t _ => t | _ => [] end.

Definition ns16550a : bytes := [110; 115; 49; 54; 53; 53; 48; 97].

(** [is_compatible_with]; texts are compared as [String::equals_ignore_case] does. *)
Definition block_is_compatible_with (d : Device) : bool :=
  bool_decide (underlying_type (m_underlying_device d) = VirtIO) && bool_decide (m_device_type d = Block).

Definition uart_is_compatible_with (d : Device) : bool :=
  bool_decide (m_device_type d = Console) && bool_decide (underlying_type (m_underlying_device d) = Universal) &&
  bool_decide (to_lower <$> device_type_text (m_underlying_device d) = to_lower <$> ns16550a).

Definition is_compatible_with (descriptor : DeviceDriverDescriptor) (d : Device) : bool :=
  match descriptor with
  | VirtIODeviceDriverDescriptor => block_is_compatible_with d
  | NS16550ADriverDescriptor => uart_is_compatible_with d
  end.

Inductive driver_kind : Type := BlockIO | NS16550A.

(** [instantiate_driver]: what [new] makes. *)
Definition instantiate_block_driver (d : Device) : ErrorOr driver_kind Error :=
  if negb (block_is_compatible_with d) then fail_with "Device is not compatible."
  else if bool_decide (m_device_type d = Block) then Value BlockIO
  else fail_with "Device is not compatible. Driver could not be instantiated.".

Definition instantiate_uart_driver (d : Device) : ErrorOr driver_kind Error := Value NS16550A.

Definition instantiate_driver (descriptor : DeviceDriverDescriptor) (d : Device) : ErrorOr driver_kind Error :=
  match descriptor with
  | VirtIODeviceDriverDescriptor => instantiate_block_driver d
  | NS16550ADriverDescriptor => instantiate_uart_driver d
  end.

(** [register_default_drivers]. *)
Definition default_descriptors : list DeviceDriverDescriptor := [VirtIODeviceDriverDescriptor; NS16550ADriverDescriptor].

Definition register_device_driver (l : list DeviceDriverDescriptor) (d : DeviceDriverDescriptor) : list DeviceDriverDescriptor := l ++ [d].

Definition find_compatible_drivers (descriptors : list DeviceDriverDescriptor) (d : Device) : list DeviceDriverDescriptor :=
  filter (λ x, is_compatible_with x d = true) descriptors.

(** * The virtual functions *)
Class DeviceVirtuals (S : Type) : Type := {
  device_store : S → gmap Z Device;
  set_device_store : gmap Z Device → S → S;
  (** the object [operator new] makes for a driver, and its [init] with the device *)
  new_driver : driver_kind → Z → S → Z * S;
  driver_init : Z → Z → S → outcome S;
  (** [Device::handle_interrupt] of the device at an address *)
  device_handle_interrupt : Z → Z → S → outcome (ErrorOr unit Error * S)
}.

(** * [class DeviceManager] *)
Section DeviceManager.
Context {S : Type} `{DeviceVirtuals S}.

(** [m_devices] is the list of the devices. *)
Definition add_device (m_devices : list Z) (device : Z) : list Z := m_devices ++ [device].

Definition delegate_device_interrupt (m_devices : list Z) (interrupt_id : Z) (s : S) : outcome (ErrorOr unit Error * S) :=
  let! r := find_pointer (device_store s) (λ d, handles_interrupt d interrupt_id) m_devices in
  match r with
  | Failure _ => Ret (fail_with "Couldn't delegate interrupt. No device found!.", s)
  | Value device => device_handle_interrupt device interrupt_id s
  end.

(** The body of the loop of [load_drivers]. *)
Definition load_driver (descriptors : list DeviceDriverDescriptor) (device : Z) (s : S) : outcome S :=
  let! d := defined (device_store s !! device) in
  if has_driver d || negb (m_needs_driver d) then Ret s
  else
    match find_compatible_drivers descriptors d with
    | [] => Ret s
    | descriptor :: _ =>
        match instantiate_driver descriptor d with
        | Failure _ => Ret s
        | Value kind =>
            let '(driver, s) := new_driver kind device s in
            let s := set_device_store (<[device := set_driver d driver]> (device_store s)) s in
            driver_init driver device s
        end
    end.

Fixpoint load_drivers (descriptors : list DeviceDriverDescriptor) (m_devices : list Z) (s : S) : outcome S :=
  match m_devices with
  | [] => Ret s
  | device :: rest => let! s := load_driver descriptors device s in load_drivers descriptors rest s
  end.

Fixpoint get_devices_of_type (store : gmap Z Device) (type : DeviceType) (m_devices : list Z) : outcome (list Z) :=
  match m_devices with
  | [] => Ret []
  | device :: rest =>
      let! d := defined (store !! device) in
      let! l := get_devices_of_type store type rest in
      Ret (if bool_decide (m_device_type d = type) then device :: l else l)
  end.
End DeviceManager.

(** [try_to_load_mmio_device] on a mapped page: the device that its registers name. *)
Definition MagicValue : Z := 0x74726976.

Definition probe_mmio_device `{Bus D} (address : Z) (interrupts : list Z) (d : D) : ErrorOr Device Error * D :=
  let '(magic, d) := load 4 address d in
  if magic =? MagicValue then
    let '(_, d) := load 4 (address + 4) d in
    let '(id, d) := load 4 (address + 8) d in
    let u := VirtIODevice address in
    (Value (if id =? 4 then mkDevice Entropy interrupts false 0 u
            else if id =? 2 then new_block u interrupts else new_device u interrupts), d)
  else (fail_with "Not a VirtIO device.", d).

(** [try_to_load_mmio_device]: map the page, probe it, list the device.  The
    new device gets the address [object]. *)
Definition try_to_load_mmio_device `{Bus D} (mm : MemoryManager) (m : memory) (root address : Z) (interrupts : list Z)
    (object : Z) (m_devices : list Z) (store : gmap Z Device) (d : D) :
    outcome (ErrorOr Z Error * (MemoryManager * memory) * (list Z * gmap Z Device) * D) :=
  let! mapped := identity_map_range mm m root address (u64 (address + 0x1000)) READ_WRITE in
  let '(r, d) := probe_mmio_device address interrupts d in
  Ret (match r with
       | Failure e => (Failure e, mapped, (m_devices, store), d)
       | Value device => (Value object, mapped, (m_devices ++ [object], <[object := device]> store), d)
       end).

(** * What the virtual functions promise *)
Definition descriptor_of (k : driver_kind) : DeviceDriverDescriptor :=
  match k with BlockIO => VirtIODeviceDriverDescriptor | NS16550A => NS16550ADriverDescriptor end.

Class DeviceLaws (S : Type) `{DeviceVirtuals S} : Prop := {
  store_set : ∀ st (s : S), device_store (set_device_store st s) = st;
  store_new : ∀ k p (s : S), device_store (new_driver k p s).2 = device_store s;
  new_not_null : ∀ k p (s : S), (new_driver k p s).1 ≠ 0;
  (** a driver can be initialised with a device that it is compatible with *)
  init_returns : ∀ k p d (s : S),
    device_store s !! p = Some d → is_compatible_with (descriptor_of k) d = true →
    let '(driver, s1) := new_driver k p s in
    let st := <[p := set_driver d driver]> (device_store s1) in
    ∃ s', driver_init driver p (set_device_store st s1) = Ret s' ∧ device_store s' = st
}.

Section Loading.
Context {S : Type} `{DeviceLaws S}.
Implicit Types (s : S) (d : Device).

(** The drivers that a device could have. *)
Definition wants_driver (descriptors : list DeviceDriverDescriptor) d : bool :=
  negb (has_driver d) && m_needs_driver d && existsb (λ x, is_compatible_with x d) descriptors.

Lemma find_compatible_head descriptors d :
  match find_compatible_drivers descriptors d with
  | [] => existsb (λ x, is_compatible_with x d) descriptors = false
  | x :: _ => is_compatible_with x d = true ∧ existsb (λ x, is_compatible_with x d) descriptors = true
  end.
Proof.
  unfold find_compatible_drivers. induction descriptors as [|x l IH]; [done|]. rewrite filter_cons. simpl.
  destruct (is_compatible_with x d) eqn:E; simpl; [by rewrite E|exact IH].
Qed.

Lemma instantiate_compatible x d :
  is_compatible_with x d = true → ∃ k, instantiate_driver x d = Value k ∧ descriptor_of k = x.
Proof.
  destruct x; intros Hc; [|by exists NS16550A]. exists BlockIO. unfold instantiate_driver, instantiate_block_driver. simpl in Hc. rewrite Hc.
  unfold block_is_compatible_with in Hc. apply andb_true_iff in Hc as [_ Hb]. by rewrite Hb.
Qed.

Lemma load_driver_spec descriptors p d s :
  device_store s !! p = Some d →
  ∃ s', load_driver descriptors p s = Ret s' ∧
    if wants_driver descriptors d
    then ∃ driver, driver ≠ 0 ∧ device_store s' = <[p := set_driver d driver]> (device_store s)
    else s' = s.
Proof.
  intros Hp. unfold load_driver, wants_driver. rewrite Hp. cbn [defined obind].
  destruct (has_driver d); [by exists s|]. cbn [orb negb]. destruct (m_needs_driver d); [|by exists s]. cbn [negb andb].
  pose proof (find_compatible_head descriptors d) as Hf. destruct (find_compatible_drivers descriptors d) as [|x l].
  { rewrite Hf. by exists s. }
  destruct Hf as [Hc ->]. destruct (instantiate_compatible x d Hc) as (k & -> & Hk). rewrite <- Hk in Hc.
  pose proof (init_returns k p d s Hp Hc) as Hi. pose proof (store_new k p s) as Hs. pose proof (new_not_null k p s) as Hn.
  destruct (new_driver k p s) as [driver s1]. simpl in *. destruct Hi as (s' & Hi & Hst). exists s'. split; [done|].
  exists driver. split; [done|]. by rewrite Hst, Hs.
Qed.

(** What loading the drivers of [l] may do to a device. *)
Definition served (descriptors : list DeviceDriverDescriptor) (listed : Prop) d d' : Prop :=
  (wants_driver descriptors d = true ∧ listed ∧ ∃ driver, driver ≠ 0 ∧ d' = set_driver d driver) ∨
  ((wants_driver descriptors d = false ∨ ¬ listed) ∧ d' = d).

Lemma wants_driver_served descriptors d driver : driver ≠ 0 → wants_driver descriptors (set_driver d driver) = false.
Proof. intros Hd. unfold wants_driver, has_driver. simpl. by rewrite (proj2 (Z.eqb_neq _ _) Hd). Qed.

Lemma load_drivers_spec descriptors l : ∀ s,
  Forall (λ p, is_Some (device_store s !! p)) l →
  ∃ s', load_drivers descriptors l s = Ret s' ∧
    ∀ q d, device_store s !! q = Some d → ∃ d', device_store s' !! q = Some d' ∧ served descriptors (q ∈ l) d d'.
Proof.
  induction l as [|p l IH]; intros s Hl.
  { exists s. split; [done|]. intros q d Hq. exists d. split; [done|]. right. split; [|done]. right. set_solver. }
  apply Forall_cons in Hl as [[d Hp] Hl]. destruct (load_driver_spec descriptors p d s Hp) as (s1 & Hs1 & Hd). simpl. rewrite Hs1. simpl.
  destruct (wants_driver descriptors d) eqn:Hw.
  - destruct Hd as (driver & Hdr & Hst). destruct (IH s1) as (s' & Hs' & Hq').
    { eapply Forall_impl; [exact Hl|]. intros q [x Hx]. rewrite Hst. destruct (decide (p = q)) as [->|].
      - rewrite lookup_insert_eq. by eexists.
      - rewrite lookup_insert_ne by done. by eexists. }
    exists s'. split; [done|]. intros q x Hq. destruct (decide (p = q)) as [<-|Hne].
    + assert (x = d) as -> by congruence.
      destruct (Hq' p (set_driver d driver)) as (d' & Hd' & Hserved); [by rewrite Hst, lookup_insert_eq|].
      exists d'. split; [done|]. left. split; [done|]. split; [set_solver|]. exists driver. split; [done|].
      destruct Hserved as [(Hw' & _)|[_ ->]]; [by rewrite wants_driver_served in Hw'|done].
    + destruct (Hq' q x) as (d' & Hd' & Hserved); [by rewrite Hst, lookup_insert_ne|].
      exists d'. split; [done|]. destruct Hserved as [(? & ? & ?)|[[?|?] ?]]; [left|right|right]; set_solver.
  - subst s1. destruct (IH s Hl) as (s' & Hs' & Hq'). exists s'. split; [done|]. intros q x Hq.
    destruct (Hq' q x Hq) as (d' & Hd' & Hserved). exists d'. split; [done|].
    destruct Hserved as [(? & ? & ?)|[[?|?] ?]]; [left; set_solver|right; set_solver|].
    right. split; [|done]. destruct (decide (p = q)) as [<-|]; [left; congruence|right; set_solver].
Qed.

(** The first listed device that has the interrupt. *)
Lemma delegate_first s pre p d post interrupt_id :
  Forall (λ q, ∃ x, device_store s !! q = Some x ∧ handles_interrupt x interrupt_id = false) pre →
  device_store s !! p = Some d → handles_interrupt d interrupt_id = true →
  delegate_device_interrupt (pre ++ p :: post) interrupt_id s = device_handle_interrupt p interrupt_id s.
Proof.
  intros Hpre Hp Hd. unfold delegate_device_interrupt. rewrite find_pointer_app.
  - simpl. rewrite Hp. simpl. by rewrite Hd.
  - induction Hpre as [|q pre (x & Hx & Hh) _ IH]; [done|]. simpl. rewrite Hx. simpl. by rewrite Hh.
Qed.
End Loading.

(** [load_drivers] always returns; every listed device that needs a driver,
    has none and is compatible with a registered one gets the first such driver,
    initialised with the device, and no other device changes.  An interrupt goes to the first listed device that has it; when no
    device has it the result is an error and nothing happens. *)
Theorem device_manager {S : Type} `{DeviceLaws S} (s : S) (descriptors : list DeviceDriverDescriptor) (m_devices : list Z) :
  Forall (λ p, is_Some (device_store s !! p)) m_devices →
  (∃ s', load_drivers descriptors m_devices s = Ret s' ∧
     (∀ q d, device_store s !! q = Some d → ∃ d', device_store s' !! q = Some d' ∧ served descriptors (q ∈ m_devices) d d')) ∧
  (∀ interrupt_id pre p d post, m_devices = pre ++ p :: post →
     Forall (λ q, ∃ x, device_store s !! q = Some x ∧ handles_interrupt x interrupt_id = false) pre →
     device_store s !! p = Some d → handles_interrupt d interrupt_id = true →
     delegate_device_interrupt m_devices interrupt_id s = device_handle_interrupt p interrupt_id s) ∧
  (∀ interrupt_id, Forall (λ q, ∃ x, device_store s !! q = Some x ∧ handles_interrupt x interrupt_id = false) m_devices →
     delegate_device_interrupt m_devices interrupt_id s = Ret (fail_with "Couldn't delegate interrupt. No device found!.", s)).
Proof.
  intros Hl. split_and!.
  - by apply load_drivers_spec.
  - intros interrupt_id pre p d post -> Hpre Hp Hd. by eapply delegate_first.
  - intros interrupt_id Hno. unfold delegate_device_interrupt.
    destruct (find_pointer_spec (device_store s) (λ d, handles_interrupt d interrupt_id) m_devices Hl) as [(p & x & _ & Hin & Hx & Ht)|[-> _]]; [|done].
    rewrite Forall_forall in Hno. destruct (Hno p Hin) as (y & Hy & Hf). congruence.
Qed.
