(* ===== verification/Init.v ===== *)
(** File systems at start: the constructor of [Devices/DeviceManager.cpp], which
    mounts the file system of the devices, and the part of [kmain] of
    [Kernel/Init.cpp] behind the drivers, which looks for a block device
    ([Devices.v]), loads the file system on it and mounts that as the root ([Vfs.v]).

    What [FATFileSystem::try_create] does with a device is a parameter ([Fat.v] has
    it for a disk).  The first part of [kmain] is in [Boot.v]. *)
From S2P Require Import Prelude Bits Bytes Strings HashMap Containers Files Vfs Logger Devices.

(** [DeviceManager::DeviceManager], with the new [RamFileSystem] at [m_devfs]: what is
    printed, and the virtual file system. *)
Definition new_device_manager (m_devfs : Z) (vfs : VirtualFileSystem.t) : outcome (string * VirtualFileSystem.t) :=
  let! m := VirtualFileSystem.mount vfs (characters "/dev") m_devfs in
  Ret ((if has_value m.1 then "DeviceManager: DevFS mounted on /dev" else "DeviceManager: Failed to mount /dev")%string, m.2).

Section Init.
Context {W : Type} `{FileSystemOps W}.
Context (try_create : Z → W → outcome (ErrorOr Z Error * W)).

Definition message (text : string) : string := "MatteOS: " +:+ text.

(** The messages that are printed, the virtual file system and the world. *)
Definition setup_root_filesystem (store : gmap Z Device) (m_devices : list Z) (vfs : VirtualFileSystem.t) (w : W) :
    outcome (list string * VirtualFileSystem.t * W) :=
  let! block_devices := get_devices_of_type store Block m_devices in
  match block_devices with
  | [] => Ret ([message "No block devices found."], vfs, w)
  | device :: _ =>
      let printed := [message "Setting up the root filesystem."] in
      let! d := defined (store !! device) in
      let! r := VirtualFileSystem.device_load_filesystem (bool_decide (m_device_type d = Block)) (try_create device) w in
      match r.1 with
      | Failure _ => Ret (printed ++ [message "Failed to load root filesystem."], vfs, r.2)
      | Value root =>
          let printed := printed ++ [message "Mounting the root filesystem."] in
          let! m := VirtualFileSystem.mount_root_fs vfs root r.2 in
          let '(mounted, vfs, w) := m in
          if has_error mounted then Ret (printed ++ [message "Unable to mount the root filesystem."], vfs, w)
          else Ret (printed ++ [message "Root filesystem loaded and mounted."], vfs, w)
      end
  end.

(** ** The device *)
Definition has_type (store : gmap Z Device) (type : DeviceType) (p : Z) : Prop :=
  ∃ d, store !! p = Some d ∧ m_device_type d = type.

Lemma devices_of_type_none store type l :
  Forall (λ p, ∃ other, other ≠ type ∧ has_type store other p) l → get_devices_of_type store type l = Ret [].
Proof.
  induction 1 as [|p l (other & Hne & d & Hd & <-) Hl IH]; [done|]. cbn [get_devices_of_type].
  rewrite Hd. cbn [defined obind]. rewrite IH. cbn [obind]. by rewrite bool_decide_false.
Qed.

Lemma devices_of_type_first store type pre p post :
  Forall (λ p, ∃ other, other ≠ type ∧ has_type store other p) pre → has_type store type p →
  Forall (λ p, is_Some (store !! p)) post →
  ∃ rest, get_devices_of_type store type (pre ++ p :: post) = Ret (p :: rest).
Proof.
  intros Hpre (d & Hd & Ht) Hpost.
  assert (∃ rest, get_devices_of_type store type post = Ret rest) as [rest Hrest].
  { induction Hpost as [|q post [x Hx] Hpost [rest IH]]; [by eexists|]. cbn [get_devices_of_type].
    rewrite Hx. cbn [defined obind]. rewrite IH. cbn [obind]. by eexists. }
  exists rest. induction Hpre as [|q pre (other & Hne & x & Hx & <-) Hpre IH]; cbn [app get_devices_of_type].
  - rewrite Hd. cbn [defined obind]. rewrite Hrest. cbn [obind]. by rewrite bool_decide_true.
  - rewrite Hx. cbn [defined obind]. rewrite IH. cbn [obind]. by rewrite bool_decide_false.
Qed.

(** ** The mount points *)

(** The mounts at start, without and with a root. *)
Definition mounts_are (vfs : VirtualFileSystem.t) (inode : Z) (mounts : list (string * Z)) : Prop :=
  VirtualFileSystem.m_root_inode vfs = inode ∧
  for_each (VirtualFileSystem.m_mounts vfs) = (λ m, (characters m.1, VirtualFileSystem.mkMount m.2 0)) <$> mounts.

Lemma devices_mounted m_devfs : ∃ printed vfs,
  new_device_manager m_devfs VirtualFileSystem.new = Ret (printed, vfs) ∧ mounts_are vfs 0 [("/dev"%string, m_devfs)].
Proof. eexists _, _. split; [vm_compute; reflexivity|split; vm_compute; reflexivity]. Qed.

Lemma mount_root m_devfs root inode printed vfs (w w' : W) :
  new_device_manager m_devfs VirtualFileSystem.new = Ret (printed, vfs) → fs_root root w = Ret (Value inode, w') →
  ∃ vfs', VirtualFileSystem.mount_root_fs vfs root w = Ret (Value tt, vfs', w') ∧
    mounts_are vfs' inode [("/"%string, root); ("/dev"%string, m_devfs)].
Proof.
  intros Hv Hroot. vm_compute in Hv. injection Hv as <- <-.
  unfold VirtualFileSystem.mount_root_fs. rewrite Hroot. cbn [obind fst snd].
  eexists. split; [vm_compute; reflexivity|]. split; vm_compute; reflexivity.
Qed.

(** The first component decides. *)
Definition is_device_path (path : list bytes) : bool := bool_decide (head path = Some (characters "dev")).

Lemma path_resolves vfs m_devfs inode root path (w : W) :
  mounts_are vfs inode [("/"%string, root); ("/dev"%string, m_devfs)] → inode ≠ 0 → inode_fs inode w = Ret root → root ≠ 0 → m_devfs ≠ 0 →
  VirtualFileSystem.longest_common_prefix vfs path w = Ret (Value (if is_device_path path then (m_devfs, 1) else (root, 0))).
Proof.
  intros [Hi Hm] Hne Hfs Hr Hd. unfold VirtualFileSystem.longest_common_prefix. rewrite Hi, (proj2 (Z.eqb_neq _ 0)), Hfs by done.
  change (for_each (VirtualFileSystem.m_mounts vfs) =
    [(characters "/", VirtualFileSystem.mkMount root 0); (characters "/dev", VirtualFileSystem.mkMount m_devfs 0)]) in Hm.
  cbn [obind]. rewrite Hm. cbn [foldl].
  assert (∀ acc, VirtualFileSystem.visit_mount path acc (characters "/", VirtualFileSystem.mkMount root 0) = acc) as ->.
  { intros acc. unfold VirtualFileSystem.visit_mount. cbn [fst snd]. change (split_spec separator (characters "/")) with (@nil bytes). by destruct path. }
  assert (VirtualFileSystem.visit_mount path (root, 0) (characters "/dev", VirtualFileSystem.mkMount m_devfs 0) =
    (if is_device_path path then (m_devfs, 1) else (root, 0))) as ->.
  { unfold VirtualFileSystem.visit_mount, is_device_path. cbn [fst snd].
    change (split_spec separator (characters "/dev")) with [characters "dev"].
    destruct path as [|c path]; cbn [VirtualFileSystem.match_parts head]; [by rewrite bool_decide_false|].
    destruct (decide (c = characters "dev")) as [->|Hc]; [|by rewrite bool_decide_false by congruence].
    rewrite bool_decide_true by done. by destruct path. }
  destruct (is_device_path path); cbn [fst]; by rewrite (proj2 (Z.eqb_neq _ 0)).
Qed.

Lemma no_root_fails vfs l path mode (w : W) : mounts_are vfs 0 l →
  VirtualFileSystem.open vfs path mode w = Ret (fail_with "No root filesystem mounted!", w).
Proof. intros [Hi _]. unfold VirtualFileSystem.open, VirtualFileSystem.longest_common_prefix. by rewrite Hi. Qed.
End Init.

(** * Properties *)

(** C38: file systems at start.  The devices are mounted at /dev.  Without a block
    device nothing else is mounted; with one, the file system on the first of them is
    loaded, and if it has a root directory, that becomes the root: paths that start
    with dev are looked up on the file system of the devices behind that component,
    all others on this one with all of their components; listing a directory lists
    the root, and /dev/tty0 is opened as /tty0 on the file system of the devices.
    When there is no block device or loading it fails, every later open fails, also
    that of a device. *)
Theorem file_systems_at_start {W : Type} `{FileSystemOps W} try_create store m_devices m_devfs (w : W) printed vfs :
  new_device_manager m_devfs VirtualFileSystem.new = Ret (printed, vfs) →
  let setup := setup_root_filesystem try_create store m_devices vfs w in
  let no_file_opens vfs := ∀ path mode w', VirtualFileSystem.open vfs path mode w' = Ret (fail_with "No root filesystem mounted!", w') in
  (Forall (λ p, ∃ other, other ≠ Block ∧ has_type store other p) m_devices →
     setup = Ret ([message "No block devices found."], vfs, w) ∧ no_file_opens vfs) ∧
  (∀ pre p post r w1, m_devices = pre ++ p :: post →
     Forall (λ p, ∃ other, other ≠ Block ∧ has_type store other p) pre → has_type store Block p →
     Forall (λ p, is_Some (store !! p)) post → try_create p w = Ret (r, w1) →
     match r with
     | Failure _ => (∃ printed, setup = Ret (printed, vfs, w1)) ∧ no_file_opens vfs
     | Value root => ∀ i w2, fs_root root w1 = Ret (i, w2) →
         match i with
         | Failure _ => (∃ printed, setup = Ret (printed, vfs, w2)) ∧ no_file_opens vfs
         | Value inode => ∃ printed vfs', setup = Ret (printed, vfs', w2) ∧
             ∀ w', inode ≠ 0 → inode_fs inode w' = Ret root → root ≠ 0 → m_devfs ≠ 0 →
               (∀ path, VirtualFileSystem.longest_common_prefix vfs' path w' =
                  Ret (Value (if is_device_path path then (m_devfs, 1) else (root, 0)))) ∧
               VirtualFileSystem.list_directory vfs' [separator] w' = list_directory_of inode w' ∧
               VirtualFileSystem.open vfs' (characters "/dev/tty0") 0 w' =
                 (let! _ := fs_exists m_devfs (characters "/tty0") w' in fs_open_file m_devfs (characters "/tty0") 0 w')
         end
     end).
Proof.
  intros Hv setup no_file_opens. destruct (devices_mounted m_devfs) as (printed' & vfs0 & Hv' & Hm). rewrite Hv in Hv'. injection Hv' as <- <-.
  assert (no_file_opens vfs) as Hno by (intros path mode w'; by eapply no_root_fails). split.
  - intros Hl. split; [|exact Hno]. unfold setup, setup_root_filesystem. by rewrite (devices_of_type_none _ _ _ Hl).
  - intros pre p post r w1 -> Hpre Hp Hpost Hr. destruct (devices_of_type_first _ _ pre p post Hpre Hp Hpost) as [rest Hrest].
    destruct Hp as (d & Hd & Ht). unfold setup, setup_root_filesystem. rewrite Hrest. cbn [obind]. rewrite Hd. cbn [defined obind].
    rewrite bool_decide_true by done. cbn [VirtualFileSystem.device_load_filesystem negb]. rewrite Hr. cbn [obind fst snd].
    destruct r as [root|e]; [|split; [by eexists|exact Hno]]. intros [inode|e] w2 Hi.
    + destruct (mount_root m_devfs root inode printed vfs w1 w2 Hv Hi) as (vfs' & -> & Hm'). cbn [obind has_error has_value negb].
      eexists _, vfs'. split; [done|]. intros w' Hne Hfs Hroot Hdev.
      assert (∀ path, VirtualFileSystem.longest_common_prefix vfs' path w' =
        Ret (Value (if is_device_path path then (m_devfs, 1) else (root, 0)))) as Hpath by (intros path; by apply path_resolves with inode).
      split; [exact Hpath|]. split.
      * unfold VirtualFileSystem.list_directory. by rewrite (proj1 Hm'), (proj2 (Z.eqb_neq inode 0)).
      * unfold VirtualFileSystem.open. change (split_spec separator (characters "/dev/tty0")) with [characters "dev"; characters "tty0"].
        rewrite Hpath. cbn [obind]. change (is_device_path [characters "dev"; characters "tty0"]) with true. cbn iota.
        rewrite (proj2 (Z.eqb_neq _ 0)) by done.
        change (VirtualFileSystem.relative_path [characters "dev"; characters "tty0"] 1) with (characters "/tty0").
        change (mode_is 0 Exclusive) with false. destruct (fs_exists m_devfs (characters "/tty0") w') as [b| | |]; [|done..].
        cbn [obind]. by rewrite andb_false_r.
    + unfold VirtualFileSystem.mount_root_fs. rewrite Hi. cbn [obind fst snd has_error has_value negb]. split; [by eexists|exact Hno].
Qed.

(** ** Witness: a disk behind the console, with a file system at 7 whose root is 9 *)
#[local] Instance sample_file_systems : FileSystemOps unit := {
  fs_exists fs path w := Ret true;
  fs_open_file fs path mode w := Ret (Value (fs + 1), w);
  fs_root fs w := Ret (Value 9, w);
  inode_fs inode w := Ret 7;
  list_directory_of inode w := Ret (Value [characters "hello.txt"], w)
}.

Definition sample_devices : gmap Z Device := {[ 1 := new_console SBIConsoleDevice []; 2 := new_block (VirtIODevice 0x10008000) [8] ]}.

Definition sample_try_create (device : Z) (w : unit) : outcome (ErrorOr Z Error * unit) := Ret (Value 7, w).

Lemma file_systems_at_start_witness :
  ∃ printed vfs printed' vfs', new_device_manager 5 VirtualFileSystem.new = Ret (printed, vfs) ∧
    setup_root_filesystem sample_try_create sample_devices [1; 2] vfs tt = Ret (printed', vfs', tt) ∧
    VirtualFileSystem.longest_common_prefix vfs' [characters "hello.txt"] tt = Ret (Value (7, 0)) ∧
    VirtualFileSystem.open vfs' (characters "/dev/tty0") 0 tt = Ret (Value 6, tt).
Proof.
  destruct (devices_mounted 5) as (printed & vfs & Hv & _).
  destruct (file_systems_at_start sample_try_create sample_devices [1; 2] 5 tt printed vfs Hv) as [_ Hs].
  specialize (Hs [1] 2 [] (Value 7) tt eq_refl).
  destruct (Hs ltac:(constructor; [exists Console; split; [discriminate|eexists; split; reflexivity]|constructor])
    ltac:(eexists; split; reflexivity) ltac:(constructor) eq_refl (Value 9) tt eq_refl) as (printed' & vfs' & Hset & Hpaths).
  destruct (Hpaths tt) as (Hl & _ & Ho); [discriminate|reflexivity|discriminate|discriminate|].
  exists printed, vfs, printed', vfs'. split; [exact Hv|]. split; [exact Hset|]. split; [rewrite Hl; reflexivity|].
  rewrite Ho. reflexivity.
Defined.
