(* ===== verification/Console.v ===== *)
(** The console: [Devices/Console/ConsoleDevice.cpp] and the UART driver
    [Drivers/Console/NS16550ADriver.cpp], which implement the virtual functions of
    [Devices.v].

    A [String] is its text.  The registers of the UART are those of a [Bus]; the
    properties are stated for [uart], which has a queue of received characters
    and keeps what it transmits. *)
From S2P Require Import Prelude Bits Bytes Containers Files Processes Mmio Devices.

(** * The driver of a UART whose registers are at [address] *)
Section NS16550A.
Context {D : Type} `{Bus D}.
Variable address : Z.

(** The stores of [init], in order. *)
Definition init_stores : list (Z * Z) :=
  [(1, 0x00); (3, 0x80); (0, 0x03); (1, 0x00); (3, 0x03); (2, 0x07); (1, 0x01); (4, 0x0F)].

Definition uart_init (d : D) : D := foldl (λ d s, store 1 (address + s.1) s.2 d) d init_stores.

Definition uart_write (c : Z) (d : D) : D := store 1 address c d.
Definition uart_write_text (message : bytes) (d : D) : D := foldl (λ d c, uart_write c d) d message.

Definition read_char (d : D) : ErrorOr Z Error * D :=
  let '(status, d) := load 1 (address + 5) d in
  if Z.land status 1 =? 0 then (fail_with "No data available.", d)
  else let '(c, d) := load 1 address d in (Value c, d).

(** [m_buffer] and [m_lines]. *)
Record input : Type := mkInput { m_buffer : bytes; m_lines : list bytes }.

Definition read_line (i : input) : ErrorOr bytes Error * input :=
  match m_lines i with
  | [] => (fail_with "Buffer is empty.", i)
  | l :: ls => (Value l, mkInput (m_buffer i) ls)
  end.

Definition line_available (i : input) : bool := negb (bool_decide (m_lines i = [])).

Definition carriage_return : Z := 13.
Definition line_feed : Z := 10.

(** One character is taken for each interrupt. *)
Definition driver_interrupt (i : input) (d : D) : input * D :=
  let '(r, d) := read_char d in
  match r with
  | Failure _ => (i, d)
  | Value c =>
      if c =? carriage_return then (mkInput [] (m_lines i ++ [m_buffer i]), uart_write line_feed d)
      else (mkInput (m_buffer i ++ [c]) (m_lines i), uart_write c d)
  end.
End NS16550A.

(** * The world of the devices *)
Inductive driver : Type :=
| BlockIODriver (device : Z)
| NS16550ADriver (device : Z) (i : input).

Section Console.
Context {D : Type} `{Bus D}.

Record world : Type := mkWorld {
  w_devices : gmap Z Device;
  w_drivers : gmap Z driver;
  w_requests : gmap Z (list Z);        (** [m_requests] of the console devices: contexts *)
  w_contexts : Request.contexts;
  w_kernel : kernel;
  w_bus : D;
  w_fresh : positive                   (** the next result of [operator new] *)
}.

Definition with_devices (w : world) (s : gmap Z Device) : world :=
  mkWorld s (w_drivers w) (w_requests w) (w_contexts w) (w_kernel w) (w_bus w) (w_fresh w).
Definition with_driver (w : world) (p : Z) (x : driver) : world :=
  mkWorld (w_devices w) (<[p := x]> (w_drivers w)) (w_requests w) (w_contexts w) (w_kernel w) (w_bus w) (w_fresh w).
Definition with_requests (w : world) (p : Z) (l : list Z) : world :=
  mkWorld (w_devices w) (w_drivers w) (<[p := l]> (w_requests w)) (w_contexts w) (w_kernel w) (w_bus w) (w_fresh w).
Definition with_kernel (w : world) (k : kernel) : world :=
  mkWorld (w_devices w) (w_drivers w) (w_requests w) (w_contexts w) k (w_bus w) (w_fresh w).
Definition with_bus (w : world) (d : D) : world :=
  mkWorld (w_devices w) (w_drivers w) (w_requests w) (w_contexts w) (w_kernel w) d (w_fresh w).

(** [get_underlying_device()->as<UniversalDevice>()->get_address()] of a device. *)
Definition uart_address (w : world) (device : Z) : outcome Z :=
  let! d := defined (w_devices w !! device) in
  match m_underlying_device d with UniversalDevice _ _ _ _ a => Ret a | _ => Undef end.

(** [m_driver->as<ConsoleDeviceDriver>()] of a console device that has a driver. *)
Definition console_driver (w : world) (driver : Z) : outcome (Z * input) :=
  let! x := defined (w_drivers w !! driver) in
  match x with NS16550ADriver device i => Ret (device, i) | BlockIODriver _ => Undef end.

Definition no_driver {T} : ErrorOr T Error := fail_with "ConsoleDevice: No driver.".

(** * [class ConsoleDevice] *)
Definition unblock_request (cs : Request.contexts) (k : kernel) (request : Z) : outcome kernel :=
  let! c := defined (cs !! request) in unblock k (Request.m_pid c) (Request.m_tid c).

(** The loop over [m_requests]. *)
Fixpoint unblock_requests (cs : Request.contexts) (k : kernel) (requests : list Z) : outcome kernel :=
  match requests with
  | [] => Ret k
  | r :: rs => let! k := unblock_request cs k r in unblock_requests cs k rs
  end.

Definition requests_of (w : world) (console : Z) : list Z := default [] (w_requests w !! console).

Definition console_interrupt (console interrupt_id : Z) (w : world) : outcome (ErrorOr unit Error * world) :=
  let! d := defined (w_devices w !! console) in
  if negb (has_driver d) then Ret (no_driver, w)
  else
    let! x := console_driver w (m_driver d) in
    let! a := uart_address w x.1 in
    let '(i, bus) := driver_interrupt a x.2 (w_bus w) in
    let w := with_bus (with_driver w (m_driver d) (NS16550ADriver x.1 i)) bus in
    let! k := if line_available i then unblock_requests (w_contexts w) (w_kernel w) (requests_of w console) else Ret (w_kernel w) in
    let w := with_kernel w k in
    Ret (Value tt, if line_available i then with_requests w console [] else w).

Definition write_char (console c : Z) (w : world) : outcome (ErrorOr unit Error * world) :=
  let! d := defined (w_devices w !! console) in
  if negb (has_driver d) then Ret (no_driver, w)
  else
    let! x := console_driver w (m_driver d) in
    let! a := uart_address w x.1 in Ret (Value tt, with_bus w (uart_write a c (w_bus w))).

Definition write_message (console : Z) (message : bytes) (w : world) : outcome (ErrorOr unit Error * world) :=
  let! d := defined (w_devices w !! console) in
  if negb (has_driver d) then Ret (no_driver, w)
  else
    let! x := console_driver w (m_driver d) in
    let! a := uart_address w x.1 in Ret (Value tt, with_bus w (uart_write_text a message (w_bus w))).

Definition console_read (console : Z) (w : world) : outcome (ErrorOr bytes Error * world) :=
  let! d := defined (w_devices w !! console) in
  if negb (has_driver d) then Ret (no_driver, w)
  else
    let! x := console_driver w (m_driver d) in
    let '(r, i) := read_line x.2 in Ret (r, with_driver w (m_driver d) (NS16550ADriver x.1 i)).

(** A request that must wait is listed with a new context. *)
Definition read_async (console : Z) (w : world) : outcome (Request.t bytes * world) :=
  let! r := console_read console w in
  let w := r.2 in
  match r.1 with
  | Failure _ =>
      let address := Zpos (w_fresh w) in
      let '(request, cs) := Request.create_blocked (w_contexts w) address in
      Ret (request, mkWorld (w_devices w) (w_drivers w)
                      (<[console := requests_of w console ++ [Request.m_context request]]> (w_requests w)) cs
                      (w_kernel w) (w_bus w) (Pos.succ (w_fresh w)))
  | Value line => Ret (Request.create_finalized line, w)
  end.

(** * The virtual functions *)

(** [BlockDevice::handle_interrupt] is in [VirtIO.v]. *)
Variable block_interrupt : Z → world → outcome (ErrorOr unit Error * world).

Definition world_new_driver (k : driver_kind) (device : Z) (w : world) : Z * world :=
  let p := Zpos (w_fresh w) in
  let x := match k with BlockIO => BlockIODriver device | NS16550A => NS16550ADriver 0 (mkInput [] []) end in
  (p, mkWorld (w_devices w) (<[p := x]> (w_drivers w)) (w_requests w) (w_contexts w) (w_kernel w) (w_bus w) (Pos.succ (w_fresh w))).

Definition world_driver_init (p device : Z) (w : world) : outcome world :=
  let! x := defined (w_drivers w !! p) in
  match x with
  | BlockIODriver _ => Ret w
  | NS16550ADriver _ i =>
      let! a := uart_address w device in
      Ret (with_bus (with_driver w p (NS16550ADriver device i)) (uart_init a (w_bus w)))
  end.

Definition world_handle_interrupt (device interrupt_id : Z) (w : world) : outcome (ErrorOr unit Error * world) :=
  let! d := defined (w_devices w !! device) in
  match m_device_type d with
  | Console => console_interrupt device interrupt_id w
  | Block => block_interrupt device w
  | _ => Ret (Value tt, w)
  end.

#[export] Instance world_virtuals : DeviceVirtuals world := {
  device_store := w_devices;
  set_device_store s w := with_devices w s;
  new_driver := world_new_driver;
  driver_init := world_driver_init;
  device_handle_interrupt := world_handle_interrupt
}.

#[export] Instance world_laws : DeviceLaws world.
Proof.
  constructor; try done.
  intros k p d w Hp Hc. simpl. unfold world_driver_init. simpl. rewrite lookup_insert_eq. simpl.
  destruct k; [by eexists|]. unfold uart_address. simpl. rewrite lookup_insert_eq. simpl.
  simpl in Hc. apply andb_true_iff in Hc as [Hc _]. apply andb_true_iff in Hc as [_ Hu]. apply bool_decide_eq_true in Hu.
  destruct (m_underlying_device d); try discriminate. simpl. by eexists.
Qed.
End Console.

(** * A UART: what it received and has not given out, what it transmitted

    A character that is written is on the line at once, so the transmit queue is
    always empty; [fcr] is the last value written to the FIFO control register. *)
Record uart : Type := mkUart {
  base : Z; rx : bytes; tx : bytes;
  divisor_low : Z; divisor_high : Z; lcr : Z; ier : Z; fcr : Z; mcr : Z
}.

Definition latch (u : uart) : bool := Z.testbit (lcr u) 7.

Definition uart_load (width : nat) (a : Z) (u : uart) : Z * uart :=
  if a =? base u + 5 then (if decide (rx u = []) then 0x60 else 0x61, u)
  else if a =? base u then
    match rx u with
    | [] => (0, u)
    | c :: cs => (c, mkUart (base u) cs (tx u) (divisor_low u) (divisor_high u) (lcr u) (ier u) (fcr u) (mcr u))
    end
  else (0, u).

(** A write to the FIFO control register clears the receive queue when bit 1 is set or
    the enable bit changes. *)
Definition clears_received (old new : Z) : bool := Z.testbit new 1 || xorb (Z.testbit old 0) (Z.testbit new 0).

Definition uart_store (width : nat) (a v : Z) (u : uart) : uart :=
  let v := u8 v in
  if a =? base u then
    if latch u then mkUart (base u) (rx u) (tx u) v (divisor_high u) (lcr u) (ier u) (fcr u) (mcr u)
    else mkUart (base u) (rx u) (tx u ++ [v]) (divisor_low u) (divisor_high u) (lcr u) (ier u) (fcr u) (mcr u)
  else if a =? base u + 1 then
    if latch u then mkUart (base u) (rx u) (tx u) (divisor_low u) v (lcr u) (ier u) (fcr u) (mcr u)
    else mkUart (base u) (rx u) (tx u) (divisor_low u) (divisor_high u) (lcr u) v (fcr u) (mcr u)
  else if a =? base u + 2 then
    mkUart (base u) (if clears_received (fcr u) v then [] else rx u) (tx u) (divisor_low u) (divisor_high u) (lcr u) (ier u) v (mcr u)
  else if a =? base u + 3 then mkUart (base u) (rx u) (tx u) (divisor_low u) (divisor_high u) v (ier u) (fcr u) (mcr u)
  else if a =? base u + 4 then mkUart (base u) (rx u) (tx u) (divisor_low u) (divisor_high u) (lcr u) (ier u) (fcr u) v
  else u.

#[export] Instance uart_bus : Bus uart := { load := uart_load; store := uart_store }.

Definition received (u : uart) (cs : bytes) : uart :=
  mkUart (base u) cs (tx u) (divisor_low u) (divisor_high u) (lcr u) (ier u) (fcr u) (mcr u).
Definition sent (u : uart) (cs : bytes) : uart :=
  mkUart (base u) (rx u) (tx u ++ cs) (divisor_low u) (divisor_high u) (lcr u) (ier u) (fcr u) (mcr u).

Ltac uart_offset := rewrite ?Z.add_0_r;
  repeat match goal with |- context [?a =? ?b] => first [rewrite (proj2 (Z.eqb_eq a b)) by lia | rewrite (proj2 (Z.eqb_neq a b)) by lia] end.

(** A store, by the register. *)
Section Stores.
Context (b : Z) (r t : bytes) (dl dh l i f m v : Z).
Let u : uart := mkUart b r t dl dh l i f m.

Ltac solve_store := subst u; unfold store, uart_bus, uart_store, latch; cbn [base lcr]; uart_offset; reflexivity.

Lemma store_data :
  store 1 (b + 0) v u = if Z.testbit l 7 then mkUart b r t (u8 v) dh l i f m else mkUart b r (t ++ [u8 v]) dl dh l i f m.
Proof. solve_store. Qed.

Lemma store_ier :
  store 1 (b + 1) v u = if Z.testbit l 7 then mkUart b r t dl (u8 v) l i f m else mkUart b r t dl dh l (u8 v) f m.
Proof. solve_store. Qed.

Lemma store_fcr : store 1 (b + 2) v u = mkUart b (if clears_received f (u8 v) then [] else r) t dl dh l i (u8 v) m.
Proof. solve_store. Qed.

Lemma store_lcr : store 1 (b + 3) v u = mkUart b r t dl dh (u8 v) i f m.
Proof. solve_store. Qed.

Lemma store_mcr : store 1 (b + 4) v u = mkUart b r t dl dh l i f (u8 v).
Proof. solve_store. Qed.
End Stores.

Lemma init_uart u :
  uart_init (base u) u = mkUart (base u) [] (tx u) 3 0 3 1 7 15.
Proof.
  destruct u as [b r t dl dh l i f m]. cbn [base tx].
  unfold uart_init, init_stores. cbn [foldl fst snd].
  rewrite store_ier. destruct (Z.testbit l 7); rewrite store_lcr, store_data;
    change (Z.testbit (u8 0x80) 7) with true; cbn iota; rewrite store_ier;
    change (Z.testbit (u8 0x80) 7) with true; cbn iota; rewrite store_lcr, store_fcr, store_ier;
    change (Z.testbit (u8 0x03) 7) with false; change (clears_received f (u8 0x07)) with true; cbn iota; rewrite store_mcr; reflexivity.
Qed.

(** * Typing *)
Section Typing.
Implicit Types (u : uart) (i : input) (cs : bytes).

Definition echo (c : Z) : Z := if c =? carriage_return then line_feed else c.

(** One typed character. *)
Definition typed i (c : Z) : input :=
  if c =? carriage_return then mkInput [] (m_lines i ++ [m_buffer i]) else mkInput (m_buffer i ++ [c]) (m_lines i).

Lemma uart_write_sent u c : latch u = false → is_byte c → uart_write (base u) c u = sent u [c].
Proof.
  intros Hl Hc. unfold uart_write. simpl. unfold uart_store. rewrite Z.eqb_refl, Hl. by rewrite wrap_small.
Qed.

Lemma uart_write_text_sent u cs : latch u = false → Forall is_byte cs → uart_write_text (base u) cs u = sent u cs.
Proof.
  intros Hl Hcs. revert u Hl. induction Hcs as [|c cs Hc _ IH]; intros u Hl.
  { unfold uart_write_text, sent; simpl. rewrite app_nil_r. by destruct u. }
  unfold uart_write_text. cbn [foldl]. rewrite uart_write_sent by done. change (base u) with (base (sent u [c])).
  unfold uart_write_text in IH. rewrite IH by done. unfold sent; simpl. by rewrite <- app_assoc.
Qed.

Lemma driver_takes u i c cs :
  latch u = false → is_byte c → rx u = c :: cs →
  driver_interrupt (base u) i u = (typed i c, sent (received u cs) [echo c]).
Proof.
  intros Hl Hc Hrx. unfold driver_interrupt.
  assert (read_char (base u) u = (Value c, received u cs)) as ->.
  { unfold read_char. cbn [load uart_bus]. unfold uart_load. rewrite Z.eqb_refl, Hrx.
    rewrite decide_False by done. change (Z.land 97 1 =? 0) with false. cbn iota beta.
    rewrite (proj2 (Z.eqb_neq (base u) (base u + 5))) by lia. rewrite Z.eqb_refl. reflexivity. }
  unfold typed, echo. change (base u) with (base (received u cs)).
  destruct (c =? carriage_return); by rewrite uart_write_sent.
Qed.

Lemma driver_idle u i : rx u = [] → driver_interrupt (base u) i u = (i, u).
Proof.
  intros Hrx. unfold driver_interrupt, read_char. simpl. unfold uart_load. rewrite Z.eqb_refl, Hrx.
  by rewrite decide_True.
Qed.

(** [n] interrupts of the driver. *)
Fixpoint interrupts (n : nat) (i : input) (u : uart) : input * uart :=
  match n with
  | O => (i, u)
  | S n' => let '(i, u) := driver_interrupt (base u) i u in interrupts n' i u
  end.

Lemma interrupts_typed cs rest : ∀ i u,
  latch u = false → Forall is_byte cs → rx u = cs ++ rest →
  interrupts (length cs) i u = (foldl typed i cs, sent (received u rest) (echo <$> cs)).
Proof.
  induction cs as [|c cs IH]; intros i u Hl Hcs Hrx.
  - simpl in *. unfold sent, received. simpl. rewrite app_nil_r. subst. by destruct u.
  - apply Forall_cons in Hcs as [Hc Hcs]. cbn [length interrupts]. rewrite (driver_takes u i c (cs ++ rest)) by done.
    rewrite IH by done. unfold sent, received. simpl. by rewrite <- app_assoc.
Qed.

(** The lines and the buffer are the typed text, cut behind every carriage return. *)
Lemma typed_text cs : ∀ i, ∃ new,
  m_lines (foldl typed i cs) = m_lines i ++ new ∧
  mjoin ((λ l, l ++ [carriage_return]) <$> new) ++ m_buffer (foldl typed i cs) = m_buffer i ++ cs ∧
  (carriage_return ∉ m_buffer i → Forall (λ l, carriage_return ∉ l) new ∧ carriage_return ∉ m_buffer (foldl typed i cs)).
Proof.
  induction cs as [|c cs IH]; intros i; cbn [foldl].
  { exists []. rewrite !app_nil_r. done. }
  destruct (IH (typed i c)) as (new & Hn & Ht & Hno). set (j := foldl typed (typed i c) cs) in *.
  revert Hn Ht Hno. unfold typed. destruct (Z.eqb_spec c carriage_return) as [->|Hc]; cbn [m_lines m_buffer]; intros Hn Ht Hno.
  - exists (m_buffer i :: new). split; [by rewrite Hn, <- app_assoc|]. split.
    + change (mjoin ((λ l, l ++ [carriage_return]) <$> m_buffer i :: new)) with
        ((m_buffer i ++ [carriage_return]) ++ mjoin ((λ l, l ++ [carriage_return]) <$> new)).
      by rewrite <- !app_assoc, Ht.
    + intros Hi. destruct Hno as [? ?]; [apply not_elem_of_nil|]. by split; [constructor|].
  - exists new. split; [done|]. split; [by rewrite Ht, <- app_assoc|].
    intros Hi. apply Hno. rewrite elem_of_app, list_elem_of_singleton. naive_solver.
Qed.
End Typing.

(** * Waking *)
Section Waking.
Implicit Types (k : kernel).

Lemma set_thread_state_table k pid tid st k' : set_thread_state k pid tid st = Ret k' → table_ok k → table_ok k'.
Proof.
  unfold set_thread_state. intros Hs Hk. inv_outcome. destruct x as [p|e]; inv_outcome; [|done].
  destruct Hk as [Hl Hw]. split; [|done]. eapply Forall_impl; [exact Hl|]. intros q (y & Hy & Hb & Hts).
  exists y. split; [done|]. split; [done|]. eapply Forall_impl; [exact Hts|]. intros z [t Ht]. simpl.
  destruct (decide (p = z)) as [->|]; [rewrite lookup_insert_eq; by eexists|rewrite lookup_insert_ne by done; by eexists].
Qed.

Lemma get_thread_total k pid tid : table_ok k → ∃ r, get_thread k pid tid = Ret r.
Proof.
  intros Hk. unfold get_thread, get_process.
  destruct (find_pointer_spec (processes k) (λ p, p_pid p =? pid) _ (table_exists k Hk)) as [(q & x & Hq & Hin & Hx & _)|[Hq _]];
    rewrite Hq; simpl; [|by eexists].
  unfold process_at. rewrite Hx. simpl. destruct Hk as [Hl _]. rewrite Forall_forall in Hl.
  destruct (Hl q Hin) as (y & Hy & _ & Hts). assert (y = x) as -> by congruence.
  destruct (find_pointer_spec (threads k) (λ t, m_tid t =? tid) _ Hts) as [(z & t & Hz & _)|[Hz _]]; rewrite Hz; by eexists.
Qed.

(** The thread at [p] is one that the requests name. *)
Definition woken (cs : Request.contexts) k (requests : list Z) (p : Z) : Prop :=
  ∃ r c, r ∈ requests ∧ cs !! r = Some c ∧ get_thread k (Request.m_pid c) (Request.m_tid c) = Ret (Value p).

Lemma unblock_spec k pid tid :
  table_ok k → ∃ k', unblock k pid tid = Ret k' ∧ table_ok k' ∧
    (∀ pid tid, get_thread k' pid tid = get_thread k pid tid) ∧
    ∀ p t, threads k !! p = Some t →
      (get_thread k pid tid = Ret (Value p) → threads k' !! p = Some (with_state t Running)) ∧
      (get_thread k pid tid ≠ Ret (Value p) → threads k' !! p = Some t).
Proof.
  intros Hk. destruct (get_thread_total k pid tid Hk) as [[q|e] Hg].
  - destruct (set_thread_state_found k pid tid q Running Hk Hg) as (t & Ht & _ & Hs).
    exists (with_threads k (<[q := with_state t Running]> (threads k))). split; [done|].
    split; [by eapply set_thread_state_table|]. split; [intros; by apply get_thread_state|].
    intros p t' Ht'. rewrite Hg. simpl. split.
    + intros [= ->]. rewrite lookup_insert_eq. congruence.
    + intros Hne. by rewrite lookup_insert_ne by congruence.
  - exists k. unfold unblock, set_thread_state. rewrite Hg. simpl. split; [done|]. split; [done|]. split; [done|].
    intros p t Ht. by rewrite ?Hg.
Qed.

Lemma unblock_requests_spec cs requests : ∀ k,
  table_ok k → Forall (λ r, is_Some (cs !! r)) requests →
  ∃ k', unblock_requests cs k requests = Ret k' ∧ table_ok k' ∧
    (∀ pid tid, get_thread k' pid tid = get_thread k pid tid) ∧
    ∀ p t, threads k !! p = Some t →
      (woken cs k requests p ∧ threads k' !! p = Some (with_state t Running)) ∨
      (¬ woken cs k requests p ∧ threads k' !! p = Some t).
Proof.
  induction requests as [|r rs IH]; intros k Hk Hrs.
  { exists k. split; [done|]. split; [done|]. split; [done|]. intros p t Ht. right. split; [|done].
    intros (r & c & Hr & _). by apply not_elem_of_nil in Hr. }
  apply Forall_cons in Hrs as [[c Hc] Hrs]. cbn [unblock_requests]. unfold unblock_request. rewrite Hc. cbn [defined obind].
  destruct (unblock_spec k (Request.m_pid c) (Request.m_tid c) Hk) as (k1 & -> & Hk1 & Hg1 & Ht1). cbn [obind].
  destruct (IH k1 Hk1 Hrs) as (k' & -> & Hk' & Hg' & Ht'). exists k'. split; [done|]. split; [done|].
  split; [intros; by rewrite Hg', Hg1|]. intros p t Ht.
  assert (woken cs k (r :: rs) p ↔ get_thread k (Request.m_pid c) (Request.m_tid c) = Ret (Value p) ∨ woken cs k1 rs p) as Hw.
  { unfold woken. setoid_rewrite Hg1. setoid_rewrite elem_of_cons. split.
    - intros (r' & c' & [->|Hr'] & Hc' & Hg); [left; congruence|right; eauto].
    - intros [Hg|(r' & c' & ? & ? & ?)]; eauto 8. }
  destruct (Ht1 p t Ht) as [Hyes Hno]. rewrite Hw.
  destruct (get_thread_total k (Request.m_pid c) (Request.m_tid c) Hk) as [g Hg]. rewrite Hg in *.
  assert (g = Value p ∨ g ≠ Value p) as [->|Hne].
  { destruct g as [q|e]; [|by right]. destruct (decide (q = p)) as [->|]; [by left|right; congruence]. }
  - left. split; [by left|]. by destruct (Ht' p _ (Hyes eq_refl)) as [[_ ?]|[_ ?]].
  - assert (Ret g ≠ Ret (Value p)) as Hne' by congruence. destruct (Ht' p _ (Hno Hne')) as [[? ?]|[? ?]]; [left|right]; tauto.
Qed.
End Waking.

(** * The console device *)
Section ConsoleDevice.
Context {D : Type} `{Bus D}.
Implicit Types (w : world (D := D)).

(** The console at [console] has the driver of the UART at [address], with input [i]. *)
Record console_at w (console driver : Z) (d : Device) (i : input) (address : Z) : Prop := {
  at_device : w_devices w !! console = Some d;
  at_driver : m_driver d = driver ∧ driver ≠ 0;
  at_input : w_drivers w !! driver = Some (NS16550ADriver console i);
  at_uart : ∃ id vendor path t, m_underlying_device d = UniversalDevice id vendor path t address
}.

(** Every request that waits has a context, and none waits while there is a line. *)
Definition no_lost_wakeup w (console : Z) (i : input) : Prop :=
  Forall (λ r, is_Some (w_contexts w !! r)) (requests_of w console) ∧
  (requests_of w console ≠ [] → m_lines i = []).

(** What the interrupt does when it is over. *)
Lemma console_interrupt_spec w console driver d i address id :
  console_at w console driver d i address → table_ok (w_kernel w) →
  Forall (λ r, is_Some (w_contexts w !! r)) (requests_of w console) →
  let '(i', u') := driver_interrupt address i (w_bus w) in
  ∃ w', console_interrupt console id w = Ret (Value tt, w') ∧
    w_bus w' = u' ∧ w_devices w' = w_devices w ∧ w_drivers w' = <[driver := NS16550ADriver console i']> (w_drivers w) ∧
    w_contexts w' = w_contexts w ∧ w_fresh w' = w_fresh w ∧
    requests_of w' console = (if line_available i' then [] else requests_of w console) ∧
    (if line_available i' then unblock_requests (w_contexts w) (w_kernel w) (requests_of w console) = Ret (w_kernel w')
     else w_kernel w' = w_kernel w).
Proof.
  intros [Hd [Hdr Hnz] Hi (ui & v & pa & ty & Hu)] Hk Hrs.
  destruct (driver_interrupt address i (w_bus w)) as [i' u'] eqn:E.
  unfold console_interrupt. rewrite Hd. cbn [defined obind]. unfold has_driver. rewrite Hdr, (proj2 (Z.eqb_neq _ _) Hnz).
  cbn [negb]. unfold console_driver. rewrite Hi. cbn [defined obind fst snd]. unfold uart_address. rewrite Hd. cbn [defined obind].
  rewrite Hu. cbn [obind]. rewrite E. cbn [w_contexts w_kernel with_bus with_driver requests_of w_requests].
  destruct (line_available i') eqn:El.
  - destruct (unblock_requests_spec (w_contexts w) (requests_of w console) (w_kernel w) Hk Hrs) as (k' & Hk' & _).
    change (requests_of (with_bus (with_driver w driver (NS16550ADriver console i')) u') console) with (requests_of w console).
    rewrite Hk'. cbn [obind]. eexists. split; [done|]. simpl. rewrite ?El. unfold requests_of at 1. simpl. by rewrite lookup_insert_eq.
  - cbn [obind]. eexists. split; [done|]. simpl. by rewrite ?El.
Qed.

(** A read takes the first line, or puts a request on the list. *)
Lemma read_async_line w console driver d i address l ls :
  console_at w console driver d i address → m_lines i = l :: ls →
  read_async console w =
    Ret (Request.create_finalized l, with_driver w driver (NS16550ADriver console (mkInput (m_buffer i) ls))).
Proof.
  intros [Hd [Hdr Hnz] Hi _] El. unfold read_async, console_read. rewrite Hd. cbn [defined obind]. unfold has_driver.
  rewrite Hdr, (proj2 (Z.eqb_neq _ _) Hnz). cbn [negb]. unfold console_driver. rewrite Hi. cbn [defined obind fst snd].
  unfold read_line. rewrite El. reflexivity.
Qed.

Lemma read_async_waits w console driver d i address :
  console_at w console driver d i address → m_lines i = [] →
  read_async console w =
    Ret (Request.mk Optional.empty (Zpos (w_fresh w)) Request.Blocked,
         mkWorld (w_devices w) (w_drivers w)
           (<[console := requests_of w console ++ [Zpos (w_fresh w)]]> (w_requests w))
           (<[Zpos (w_fresh w) := Request.mkContext 0 0]> (w_contexts w))
           (w_kernel w) (w_bus w) (Pos.succ (w_fresh w))).
Proof.
  intros [Hd [Hdr Hnz] Hi _] El. unfold read_async, console_read. rewrite Hd. cbn [defined obind]. unfold has_driver.
  rewrite Hdr, (proj2 (Z.eqb_neq _ _) Hnz). cbn [negb]. unfold console_driver. rewrite Hi. cbn [defined obind fst snd].
  unfold read_line. rewrite El. cbn [obind fst snd]. unfold with_driver, requests_of. cbn. by rewrite insert_id.
Qed.

(** A new request keeps the invariant. *)
Lemma waits_no_lost w console i address :
  no_lost_wakeup w console i → m_lines i = [] → w_contexts w !! address = None →
  Forall (λ r, is_Some (<[address := Request.mkContext 0 0]> (w_contexts w) !! r)) (requests_of w console ++ [address]).
Proof.
  intros [Hctx _] El Hfresh. apply Forall_app. split; [|apply Forall_singleton; rewrite lookup_insert_eq; by eexists].
  eapply Forall_impl; [exact Hctx|]. intros r [x Hx]. simpl. rewrite lookup_insert_ne by congruence. by eexists.
Qed.
End ConsoleDevice.

Section Device.
Implicit Types (w : world (D := uart)).

(** The console at [console] has the UART driver at [driver], with input [i]. *)
Record console_ok w (console driver : Z) (d : Device) (i : input) : Prop := {
  ok_device : w_devices w !! console = Some d;
  ok_driver : m_driver d = driver ∧ driver ≠ 0;
  ok_input : w_drivers w !! driver = Some (NS16550ADriver console i);
  ok_uart : ∃ id vendor path t, m_underlying_device d = UniversalDevice id vendor path t (base (w_bus w));
  ok_latch : latch (w_bus w) = false
}.

Lemma console_ok_at w console driver d i : console_ok w console driver d i → console_at w console driver d i (base (w_bus w)).
Proof. by intros []. Qed.

Lemma typed_available c i : line_available (typed i c) = line_available i || (c =? carriage_return).
Proof.
  unfold line_available, typed. destruct (c =? carriage_return); simpl; [|by rewrite orb_false_r].
  rewrite orb_true_r. rewrite bool_decide_false; [done|]. by destruct (m_lines i).
Qed.
End Device.

(** C26: typing at the console.  After as many interrupts as there are typed
    characters, the complete lines among them are queued behind the earlier ones,
    the rest is in the buffer, and every character was echoed, a carriage return
    as a line feed; [read_line] takes the lines in order.  An interrupt of the
    console that makes a line available makes exactly the threads run that the
    waiting requests name and empties the list of requests; otherwise it changes
    no thread.  The device keeps the invariant that no request waits while a
    line is available, so that no wake-up is lost, and a read that finds no line
    is put on the list with a context of its own.  Whatever the state of the UART
    was, its initialisation leaves it with 8 bits per character, no parity, divisor
    3, the receive interrupt enabled and the divisor latch closed, and empties its
    receive queue: what was typed before it is lost. *)
Theorem console_lines (w : world (D := uart)) (console driver : Z) (d : Device) (i : input) :
  console_ok w console driver d i → table_ok (w_kernel w) → no_lost_wakeup w console i →
  (∀ cs rest, Forall is_byte cs → rx (w_bus w) = cs ++ rest → ∃ new buffer,
     interrupts (length cs) i (w_bus w) =
       (mkInput buffer (m_lines i ++ new), sent (received (w_bus w) rest) (echo <$> cs)) ∧
     mjoin ((λ l, l ++ [carriage_return]) <$> new) ++ buffer = m_buffer i ++ cs ∧
     (carriage_return ∉ m_buffer i → Forall (λ l, carriage_return ∉ l) new ∧ carriage_return ∉ buffer)) ∧
  (∀ id c cs, is_byte c → rx (w_bus w) = c :: cs → ∃ w',
     console_interrupt console id w = Ret (Value tt, w') ∧
     console_ok w' console driver d (typed i c) ∧ no_lost_wakeup w' console (typed i c) ∧
     w_bus w' = sent (received (w_bus w) cs) [echo c] ∧
     (c ≠ carriage_return → m_lines i = [] →
        w_kernel w' = w_kernel w ∧ requests_of w' console = requests_of w console) ∧
     (c = carriage_return → requests_of w' console = [] ∧
        ∀ p t, threads (w_kernel w) !! p = Some t →
          (woken (w_contexts w) (w_kernel w) (requests_of w console) p ∧ threads (w_kernel w') !! p = Some (with_state t Running)) ∨
          (¬ woken (w_contexts w) (w_kernel w) (requests_of w console) p ∧ threads (w_kernel w') !! p = Some t))) ∧
  (w_contexts w !! Zpos (w_fresh w) = None →
   match m_lines i with
   | l :: ls => ∃ w', read_async console w = Ret (Request.create_finalized l, w') ∧
       console_ok w' console driver d (mkInput (m_buffer i) ls) ∧ no_lost_wakeup w' console (mkInput (m_buffer i) ls) ∧
       w_kernel w' = w_kernel w
   | [] => ∃ r w', read_async console w = Ret (r, w') ∧ Request.is_blocked r = true ∧
       requests_of w' console = requests_of w console ++ [Request.m_context r] ∧
       w_contexts w' !! Request.m_context r = Some (Request.mkContext 0 0) ∧
       console_ok w' console driver d i ∧ no_lost_wakeup w' console i ∧ w_kernel w' = w_kernel w
   end) ∧
  (∀ u, uart_init (base u) u = mkUart (base u) [] (tx u) 3 0 3 1 7 15).
Proof.
  intros Hok Hk [Hctx Hwait]. pose proof Hok as [Hd [Hdr Hnz] Hi Hu Hl]. split_and!; [| | |apply init_uart].
  - intros cs rest Hcs Hrx. rewrite (interrupts_typed cs rest) by done. destruct (typed_text cs i) as (new & Hn & Ht & Hno).
    exists new, (m_buffer (foldl typed i cs)). split; [|done]. rewrite <- Hn. by destruct (foldl typed i cs).
  - intros id c cs Hc Hrx. pose proof (console_interrupt_spec w console driver d i _ id (console_ok_at _ _ _ _ _ Hok) Hk Hctx) as Hint.
    rewrite (driver_takes (w_bus w) i c cs) in Hint by done. destruct Hint as (w' & Hw & Hb & Hdev & Hdrv & Hcx & _ & Hrq & Hkk).
    exists w'. split; [done|]. split; [|split; [|split; [done|split]]].
    + constructor; [by rewrite Hdev|done|by rewrite Hdrv, lookup_insert_eq|by rewrite Hb|by rewrite Hb].
    + split; [rewrite Hrq, Hcx; by destruct (line_available _)|]. rewrite Hrq. unfold line_available.
      case_bool_decide; [done|]. simpl. by intros ?.
    + intros Hne Hls. rewrite typed_available in *. unfold line_available in *.
      rewrite (bool_decide_true (m_lines i = [])), (proj2 (Z.eqb_neq _ _) Hne) in * by done. done.
    + intros ->. rewrite typed_available, orb_true_r in *. split; [done|].
      destruct (unblock_requests_spec (w_contexts w) (requests_of w console) (w_kernel w) Hk Hctx) as (k' & Hk' & _ & _ & Ht).
      rewrite Hk' in Hkk. injection Hkk as <-. done.
  - intros Hfresh. destruct (m_lines i) as [|l ls] eqn:El.
    + rewrite (read_async_waits w console driver d i _ (console_ok_at _ _ _ _ _ Hok) El). eexists _, _. split; [reflexivity|].
      unfold requests_of at 1. simpl. rewrite !lookup_insert_eq. split; [done|]. split; [done|]. split; [done|].
      split; [by constructor|]. split; [|done]. unfold no_lost_wakeup, requests_of at 1 2. simpl. rewrite lookup_insert_eq.
      split; [by eapply (waits_no_lost w console i)|done].
    + rewrite (read_async_line w console driver d i _ l ls (console_ok_at _ _ _ _ _ Hok) El). eexists. split; [reflexivity|].
      split; [|split; [|done]].
      * constructor; simpl; try done. by rewrite lookup_insert_eq.
      * split; [done|]. intros Hne. discriminate (Hwait Hne).
Qed.

Definition desk : Device := set_driver (new_console (UniversalDevice 0 0 [] ns16550a 0x10000000) [10]) 11.

(** A reader waits, and the return key was pressed. *)
Definition waiting_world (i : input) : world (D := uart) :=
  mkWorld {[10 := desk]} {[11 := NS16550ADriver 10 i]} {[10 := [77]]} {[77 := Request.mkContext 1 0]}
    (with_threads example_table {[1 := mkThread 101 0 1 Blocked]}) (mkUart 0x10000000 [13] [] 3 0 3 1 7 15) 100.

Lemma waiting_table i : table_ok (w_kernel (waiting_world i)).
Proof.
  split; [|split; [discriminate|reflexivity]]. repeat constructor. eexists. split; [reflexivity|].
  split; [simpl; lia|]. repeat constructor. eexists. reflexivity.
Qed.

Lemma console_lines_witness :
  ∃ w', console_interrupt 10 10 (waiting_world (mkInput [104; 105] [])) = Ret (Value tt, w') ∧
    requests_of w' 10 = [] ∧ tx (w_bus w') = [10] ∧ threads (w_kernel w') !! 1 = Some (mkThread 101 0 1 Running).
Proof.
  assert (console_ok (waiting_world (mkInput [104; 105] [])) 10 11 desk (mkInput [104; 105] [])) as Hok.
  { constructor; [reflexivity|split; [reflexivity|discriminate]|reflexivity| |reflexivity]. eexists _, _, _, _. reflexivity. }
  assert (no_lost_wakeup (waiting_world (mkInput [104; 105] [])) 10 (mkInput [104; 105] [])) as Hno.
  { split; [|reflexivity]. repeat constructor. by eexists. }
  destruct (console_lines _ 10 11 desk _ Hok (waiting_table _) Hno) as (_ & Hint & _).
  destruct (Hint 10 13 [] ltac:(done) eq_refl) as (w' & H1 & _ & _ & H2 & _ & H3). destruct (H3 eq_refl) as [H4 H5].
  exists w'. split; [exact H1|]. split; [exact H4|]. split; [by rewrite H2|].
  destruct (H5 1 (mkThread 101 0 1 Blocked) eq_refl) as [[_ Hr]|[Hn _]]; [exact Hr|].
  exfalso. apply Hn. exists 77, (Request.mkContext 1 0). split; [by apply list_elem_of_singleton|]. split; reflexivity.
Defined.

(** The default driver makes a console out of a device that needs one. *)
Definition no_block_interrupt (device : Z) (w : world (D := uart)) : outcome (ErrorOr unit Error * world) := Ret (Value tt, w).

Lemma device_manager_witness :
  let w := with_devices (waiting_world (mkInput [] [])) {[10 := new_console (UniversalDevice 0 0 [] ns16550a 0x10000000) [10]]} in
  ∃ w' d', load_drivers (H := world_virtuals no_block_interrupt) default_descriptors [10] w = Ret w' ∧
    w_devices w' !! 10 = Some d' ∧ has_driver d' = true.
Proof.
  intros w.
  destruct (@device_manager world (world_virtuals no_block_interrupt) (world_laws no_block_interrupt) w default_descriptors [10])
    as ((w' & Hw & Hs) & _ & _).
  { repeat constructor. by eexists. }
  destruct (Hs 10 _ eq_refl) as (d' & Hd' & Hserved). exists w', d'. split; [exact Hw|]. split; [exact Hd'|].
  destruct Hserved as [(_ & _ & driver & Hdr & ->)|[[Hno|Hno] _]].
  - unfold has_driver. simpl. by rewrite (proj2 (Z.eqb_neq _ _) Hdr).
  - vm_compute in Hno. discriminate.
  - exfalso. apply Hno. by apply list_elem_of_singleton.
Defined.
