(* ===== verification/VirtIO.v ===== *)
(** The block device: [Devices/Device.cpp] ([class VirtIODevice]),
    [Drivers/VirtIO/VirtQueue.h], [MMIODevice.h], [BlockIO.h],
    [Drivers/Storage/VirtIO/BlockIODriver.cpp] and [Devices/Storage/BlockDevice.cpp].

    The machine is little-endian, so a little-endian field is its word.  The
    queues and the requests are objects in stores by address.  The registers of
    the device are those of a [Bus]; what the device does to memory while the
    driver waits is a parameter.  What the driver publishes is related to the
    list of requests that a device reads off the rings. *)
From S2P Require Import Prelude Bits Machine PageAllocator Containers Mmio Devices Console.

(** * [VirtQueue.h] *)
Definition VIRTIO_RING_SIZE : Z := 128.

(** [VirtQueueDescriptorFlags]. *)
Definition NEXT : Z := 1.
Definition WRITE : Z := 2.

Record VirtQueueDescriptor : Type := mkDescriptor { address : Z; length_ : Z; flags : Z; next : Z }.

(** The fields [available] and [used], without their unused flags and events. *)
Record VirtQueueAvailable : Type := mkAvailable { a_index : Z; a_ring : list Z }.
Record VirtQueueUsed : Type := mkUsed { u_index : Z; u_ring : list (Z * Z) }.
Record VirtQueue : Type := mkQueue { descriptors : list VirtQueueDescriptor; available : VirtQueueAvailable; used : VirtQueueUsed }.

Definition sizeof_VirtQueue : Z := 5128.

(** A queue on cleared pages. *)
Definition cleared_queue : VirtQueue :=
  mkQueue (replicate 128 (mkDescriptor 0 0 0 0)) (mkAvailable 0 (replicate 128 0)) (mkUsed 0 (replicate 128 (0, 0))).

(** The constructor makes the descriptor from 64-bit numbers. *)
Definition descriptor (address length flags : Z) : VirtQueueDescriptor := mkDescriptor (u64 address) (u32 length) (u16 flags) 0.

(** * [BlockIO.h] *)
Inductive RequestType : Type := Read | Write | Flush | Discard | WriteZeroes.
Definition request_type (t : RequestType) : Z :=
  match t with Read => 0 | Write => 1 | Flush => 4 | Discard => 11 | WriteZeroes => 13 end.

Record Header : Type := mkHeader { h_type : Z; h_reserved : Z; h_sector : Z }.
Record Request : Type := mkRequest { header : Header; data : Z; status : Z; request_id : Z }.

(** [&request->header], [&request->status] and the sizes. *)
Definition sizeof_Header : Z := 16.
Definition sizeof_Request : Z := 40.
Definition header_address (request : Z) : Z := request.
Definition status_address (request : Z) : Z := request + 24.

(** [const u8 status_value = 0x111]. *)
Definition status_value : Z := u8 0x111.

(** * [MMIODeviceRegisterLayout.h] *)
Inductive MMIODeviceRegisterLayout : Type :=
| MagicValue | Version | DeviceId | VendorId | HostFeatures | HostFeaturesSel | GuestFeatures | GuestFeaturesSel
| GuestPageSize | QueueSel | QueueNumMax | QueueNum | QueueAlign | QueuePfn | QueueNotify | InterruptStatus
| InterruptAck | Status | Config.

Definition offset_of (r : MMIODeviceRegisterLayout) : Z :=
  match r with
  | MagicValue => 0x000 | Version => 0x004 | DeviceId => 0x008 | VendorId => 0x00c
  | HostFeatures => 0x010 | HostFeaturesSel => 0x014 | GuestFeatures => 0x020 | GuestFeaturesSel => 0x024
  | GuestPageSize => 0x028 | QueueSel => 0x030 | QueueNumMax => 0x034 | QueueNum => 0x038 | QueueAlign => 0x03c
  | QueuePfn => 0x040 | QueueNotify => 0x050 | InterruptStatus => 0x060 | InterruptAck => 0x064
  | Status => 0x070 | Config => 0x100
  end.

(** [enum class StatusField]. *)
Definition Acknowledge : Z := 1.
Definition Driver : Z := 2.
Definition DriverOK : Z := 4.
Definition FeaturesOK : Z := 8.

Section Registers.
Context {D : Type} `{Bus D}.

Definition get_register_value (device : Z) (r : MMIODeviceRegisterLayout) (b : D) : Z * D := load 4 (device + offset_of r) b.
Definition set_register_value (device : Z) (r : MMIODeviceRegisterLayout) (value : Z) (b : D) : D :=
  store 4 (device + offset_of r) (u32 value) b.
End Registers.

(** The accessors; they are those of [MMIODevice.h]. *)
Module MMIODevice.
Section Accessors.
Context {D : Type} `{Bus D}.

Definition get_magic_value (device : Z) : D → Z * D := get_register_value device MagicValue.
Definition get_version (device : Z) : D → Z * D := get_register_value device Version.
Definition get_device_id (device : Z) : D → Z * D := get_register_value device DeviceId.
Definition get_vendor_id (device : Z) : D → Z * D := get_register_value device VendorId.
Definition get_status (device : Z) : D → Z * D := get_register_value device Status.
Definition set_status (device value : Z) : D → D := set_register_value device Status value.
Definition get_host_features (device : Z) : D → Z * D := get_register_value device HostFeatures.
Definition set_host_features (device value : Z) : D → D := set_register_value device HostFeatures value.
Definition get_guest_features (device : Z) : D → Z * D := get_register_value device GuestFeatures.
Definition set_guest_features (device value : Z) : D → D := set_register_value device GuestFeatures value.
Definition get_queue_num_max (device : Z) : D → Z * D := get_register_value device QueueNumMax.
Definition set_queue_num (device value : Z) : D → D := set_register_value device QueueNum value.
Definition set_guest_page_size (device value : Z) : D → D := set_register_value device GuestPageSize value.
Definition set_queue_sel (device value : Z) : D → D := set_register_value device QueueSel value.
Definition get_queue_pfn (device : Z) : D → Z * D := get_register_value device QueuePfn.
Definition set_queue_pfn (device value : Z) : D → D := set_register_value device QueuePfn value.
Definition set_queue_notify (device value : Z) : D → D := set_register_value device QueueNotify value.
End Accessors.

(** Accesses as accesses to registers. *)
Ltac registers :=
  unfold get_magic_value, get_version, get_device_id, get_vendor_id, get_status, set_status, get_host_features, set_host_features, get_guest_features, set_guest_features, get_queue_num_max, set_queue_num, set_guest_page_size, set_queue_sel, get_queue_pfn, set_queue_pfn, set_queue_notify.
End MMIODevice.

(** * [class VirtIODevice] *)
Record VirtIODevice : Type := mkVirtIODevice {
  m_mmio_device : Z;
  m_virt_queues : list Z;
  m_queue_indexes : Array.t Z;
  m_queue_acks : Array.t Z;
  m_selected_queue : Z
}.

(** [VirtQueueArray::operator[]]. *)
Definition queue_at (v : VirtIODevice) (index : Z) : outcome Z :=
  runtime_assert (index <? Z.of_nat (length (m_virt_queues v))) (defined (m_virt_queues v !! Z.to_nat index)).

Definition with_indexes (v : VirtIODevice) (a : Array.t Z) : VirtIODevice :=
  mkVirtIODevice (m_mmio_device v) (m_virt_queues v) a (m_queue_acks v) (m_selected_queue v).
Definition with_acks (v : VirtIODevice) (a : Array.t Z) : VirtIODevice :=
  mkVirtIODevice (m_mmio_device v) (m_virt_queues v) (m_queue_indexes v) a (m_selected_queue v).

(** [array[i] = x]: the access is checked. *)
Definition array_store {A} (a : Array.t A) (i : Z) (x : A) : outcome (Array.t A) :=
  let! _ := Array.get a i in Array.set a i x.

Section VirtIO.
Context {D : Type} `{Bus D}.

(** What the driver works on: the device, the queues and requests by address,
    [m_ignored_requests], the next result of [operator new], the registers. *)
Record disk : Type := mkDisk {
  d_device : VirtIODevice;
  d_queues : gmap Z VirtQueue;
  d_requests : gmap Z Request;
  d_ignored : list Z;
  d_fresh : positive;
  d_bus : D
}.

Definition with_device (s : disk) (v : VirtIODevice) : disk :=
  mkDisk v (d_queues s) (d_requests s) (d_ignored s) (d_fresh s) (d_bus s).
Definition with_queue (s : disk) (p : Z) (q : VirtQueue) : disk :=
  mkDisk (d_device s) (<[p := q]> (d_queues s)) (d_requests s) (d_ignored s) (d_fresh s) (d_bus s).
Definition with_heap (s : disk) (h : gmap Z Request) : disk :=
  mkDisk (d_device s) (d_queues s) h (d_ignored s) (d_fresh s) (d_bus s).
Definition with_ignored (s : disk) (l : list Z) : disk :=
  mkDisk (d_device s) (d_queues s) (d_requests s) l (d_fresh s) (d_bus s).
Definition with_registers (s : disk) (b : D) : disk :=
  mkDisk (d_device s) (d_queues s) (d_requests s) (d_ignored s) (d_fresh s) b.

(** The selected queue: its address and what is there. *)
Definition selected (s : disk) : outcome (Z * VirtQueue) :=
  let! p := queue_at (d_device s) (m_selected_queue (d_device s)) in
  let! q := defined (d_queues s !! p) in Ret (p, q).

Definition get_next_queue_index (selected_queue : Z) (s : disk) : outcome (Z * disk) :=
  let! index := Array.get (m_queue_indexes (d_device s)) selected_queue in
  let! a := array_store (m_queue_indexes (d_device s)) selected_queue (u64 (index + 1) mod VIRTIO_RING_SIZE) in
  Ret (index, with_device s (with_indexes (d_device s) a)).

Definition set_descriptor (q : VirtQueue) (i : Z) (d : VirtQueueDescriptor) : outcome VirtQueue :=
  let! _ := defined (descriptors q !! Z.to_nat i) in
  Ret (mkQueue (<[Z.to_nat i := d]> (descriptors q)) (available q) (used q)).

Definition with_next (d : VirtQueueDescriptor) (n : Z) : VirtQueueDescriptor :=
  mkDescriptor (address d) (length_ d) (flags d) (u16 n).

Definition add_to_queue (d : VirtQueueDescriptor) (s : disk) : outcome (ErrorOr Z Error * disk) :=
  let! x := selected s in
  let! y := get_next_queue_index (m_selected_queue (d_device s)) s in
  let '(available_index, s) := y in
  let d := if negb (Z.land (flags d) NEXT =? 0) then with_next d ((available_index + 1) mod VIRTIO_RING_SIZE) else d in
  let! q := set_descriptor x.2 available_index d in
  Ret (Value (u32 available_index), with_queue s x.1 q).

Definition add_to_available (descriptor_index : Z) (s : disk) : outcome (ErrorOr unit Error * disk) :=
  let! x := selected s in
  let a := available x.2 in
  let i := Z.to_nat (a_index a mod VIRTIO_RING_SIZE) in
  let! _ := defined (a_ring a !! i) in
  let a := mkAvailable (u16 (a_index a + 1)) (<[i := u16 descriptor_index]> (a_ring a)) in
  Ret (Value tt, with_queue s x.1 (mkQueue (descriptors x.2) a (used x.2))).

Definition device_notify (s : disk) : disk :=
  with_registers s (MMIODevice.set_queue_notify (m_mmio_device (d_device s)) (m_selected_queue (d_device s)) (d_bus s)).

(** [get_next_used_descriptor] gives the index of the descriptor. *)
Definition get_next_used_descriptor (s : disk) : outcome (ErrorOr Z Error * disk) :=
  let v := d_device s in
  let! x := selected s in
  let! ack := Array.get (m_queue_acks v) (m_selected_queue v) in
  if ack =? u_index (used x.2) then Ret (fail_with "No used descriptor available.", s)
  else
    let! element := defined (u_ring (used x.2) !! Z.to_nat (ack mod VIRTIO_RING_SIZE)) in
    let! _ := defined (descriptors x.2 !! Z.to_nat element.1) in
    let! a := array_store (m_queue_acks v) (m_selected_queue v) (u64 (ack + 1) mod VIRTIO_RING_SIZE) in
    Ret (Value element.1, with_device s (with_acks v a)).

(** ** [VirtIODevice::init] *)

(** The loop that allocates the queues; [init_virt_queue] only writes to the console. *)
Fixpoint allocate_queues (mm : MemoryManager) (m : memory) (qs : gmap Z VirtQueue) (pages : Z) (n : nat)
    : outcome (list Z * MemoryManager * memory * gmap Z VirtQueue) :=
  match n with
  | O => Ret ([], mm, m, qs)
  | S n' =>
      let! r := zalloc mm m pages in
      let '(p, mm, m) := r in
      let! r := allocate_queues mm m (<[p := cleared_queue]> qs) pages n' in
      let '(ps, mm, m, qs) := r in Ret (p :: ps, mm, m, qs)
  end.

Definition virtio_reset (device : Z) (b : D) : D := MMIODevice.set_status device 0 b.

(** Everything [init] works on: the device object, memory, the queues and the registers. *)
Record setup : Type := mkSetup {
  s_device : VirtIODevice; s_manager : MemoryManager; s_memory : memory; s_queues : gmap Z VirtQueue; s_bus : D
}.

Definition on_bus (s : setup) (b : D) : setup := mkSetup (s_device s) (s_manager s) (s_memory s) (s_queues s) b.

(** Steps 1 to 6: reset, acknowledge, features. *)
Definition negotiate (device features : Z) (b : D) : ErrorOr Z Error * D :=
  let b := virtio_reset device b in
  let '(x, b) := MMIODevice.get_status device b in
  let status := Z.lor x Acknowledge in
  let b := MMIODevice.set_status device status b in
  let status := Z.lor status Driver in
  let b := MMIODevice.set_status device status b in
  let '(host_features, b) := MMIODevice.get_host_features device b in
  if negb (Z.land host_features features =? features) then (fail_with "Device does not support required features.", b)
  else
    let b := MMIODevice.set_guest_features device features b in
    let b := MMIODevice.set_status device (Z.lor status FeaturesOK) b in
    let '(status, b) := MMIODevice.get_status device b in
    if Z.land status FeaturesOK =? 0 then (fail_with "Device does not support required features.", b)
    else (Value status, b).

Definition virtio_init (features number_of_virt_queues : Z) (s : setup) : outcome (ErrorOr unit Error * setup) :=
  let device := m_mmio_device (s_device s) in
  let! indexes := Array.fill (Array.new 0 number_of_virt_queues) 0 in
  let! acks := Array.fill (Array.new 0 number_of_virt_queues) 0 in
  let v := mkVirtIODevice device (m_virt_queues (s_device s)) indexes acks (m_selected_queue (s_device s)) in
  let s := mkSetup v (s_manager s) (s_memory s) (s_queues s) (s_bus s) in
  let '(r, b) := negotiate device features (s_bus s) in
  match r with
  | Failure e => Ret (Failure e, on_bus s b)
  | Value status =>
      let '(queue_num_max, b) := MMIODevice.get_queue_num_max device b in
      let b := MMIODevice.set_queue_num device VIRTIO_RING_SIZE b in
      if queue_num_max <? VIRTIO_RING_SIZE
      then Ret (fail_with "Device does not support required number of queues.", on_bus s b)
      else
        let b := MMIODevice.set_queue_sel device 0 b in
        let number_of_pages := (sizeof_VirtQueue + PAGE_SIZE - 1) / PAGE_SIZE in
        let b := MMIODevice.set_guest_page_size device PAGE_SIZE b in
        let! r := allocate_queues (s_manager s) (s_memory s) (s_queues s) number_of_pages (Z.to_nat number_of_virt_queues) in
        let '(ps, mm, m, qs) := r in
        let v := mkVirtIODevice device ps indexes acks (m_selected_queue (s_device s)) in
        let! queue_address := queue_at v 0 in
        let b := MMIODevice.set_queue_pfn device (u32 queue_address / PAGE_SIZE) b in
        let b := MMIODevice.set_status device (Z.lor status DriverOK) b in
        Ret (Value tt, mkSetup v mm m qs b)
  end.

(** * [class BlockIODriver] *)
Definition new_request (s : disk) (r : Request) : Z * disk :=
  (Zpos (d_fresh s),
   mkDisk (d_device s) (d_queues s) (<[Zpos (d_fresh s) := r]> (d_requests s)) (d_ignored s)
     (d_fresh s + Z.to_pos sizeof_Request)%positive (d_bus s)).

(** [delete request]. *)
Definition delete_request (request : Z) (s : disk) : outcome disk :=
  let! _ := defined (d_requests s !! request) in Ret (with_heap s (delete request (d_requests s))).

Definition block_operation (id buffer size offset : Z) (is_write : bool) (s : disk) : outcome (ErrorOr Z Error * disk) :=
  if negb (size mod 512 =? 0) then Ret (fail_with "BlockIODriver: Size must be a multiple of 512 bytes.", s)
  else
    let type := if is_write then Write else Read in
    let '(request, s) := new_request s (mkRequest (mkHeader (request_type type) 0 (offset / 512)) buffer status_value id) in
    let! r := add_to_queue (descriptor (header_address request) sizeof_Header NEXT) s in
    let '(head_or_error, s) := r in
    let! r := add_to_queue (descriptor buffer size (Z.lor NEXT (if negb is_write then WRITE else 0))) s in
    let! r := add_to_queue (descriptor (status_address request) 1 WRITE) r.2 in
    let s := r.2 in
    match head_or_error with
    | Failure e => let! s := delete_request request s in Ret (Failure e, s)
    | Value head => let! r := add_to_available head s in Ret (Value request, device_notify r.2)
    end.

(** [write_async] and [read_async] of the driver. *)
Definition driver_async (is_write : bool) (id buffer size offset : Z) (s : disk) : outcome (ErrorOr unit Error * disk) :=
  let! r := block_operation id buffer size offset is_write s in
  match r.1 with Failure e => Ret (Failure e, r.2) | Value _ => Ret (Value tt, r.2) end.

(** What devices do to memory between two reads of the status. *)
Variable wait : disk → disk.

(** The loop of [write_poll] and [read_poll]. *)
Fixpoint poll_status (request : Z) (message : string) (fuel : nat) (s : disk) : outcome (ErrorOr unit Error * disk) :=
  match fuel with
  | O => NoFuel
  | S fuel' =>
      let! r := defined (d_requests s !! request) in
      if status r =? status_value then poll_status request message fuel' (wait s)
      else if status r =? 0 then Ret (Value tt, with_ignored s (d_ignored s ++ [request]))
      else let! s := delete_request request s in Ret (fail_with message, s)
  end.

Definition poll_message (is_write : bool) : string :=
  (if is_write then "BlockIODriver: Write failed." else "BlockIODriver: Read failed.")%string.

(** [write_poll] and [read_poll] of the driver. *)
Definition driver_poll (is_write : bool) (buffer size offset : Z) (fuel : nat) (s : disk) : outcome (ErrorOr unit Error * disk) :=
  let! r := block_operation 0 buffer size offset is_write s in
  match r.1 with
  | Failure e => Ret (Failure e, r.2)
  | Value request => poll_status request (poll_message is_write) fuel r.2
  end.

Inductive BlockDeviceAsyncRequestType : Type := Ok | Failed.
Record BlockDeviceAsyncResult : Type := mkResult { result_id : Z; result_type : BlockDeviceAsyncRequestType }.

(** [descriptor->address = 0]. *)
Definition clear_address (i : Z) (s : disk) : outcome disk :=
  let! x := selected s in
  let! d := defined (descriptors x.2 !! Z.to_nat i) in
  let! q := set_descriptor x.2 i (mkDescriptor 0 (length_ d) (flags d) (next d)) in
  Ret (with_queue s x.1 q).

(** [m_ignored_requests.index_of] and [remove]. *)
Definition remove_ignored (request : Z) (l : list Z) : option (list Z) :=
  match list_find (request =.) l with Some (i, _) => Some (delete i l) | None => None end.

(** The body of the loop of [BlockIODriver::notify] for one used descriptor. *)
Definition take_used (i : Z) (s : disk) : outcome (list BlockDeviceAsyncResult * disk) :=
  let! x := selected s in
  let! d := defined (descriptors x.2 !! Z.to_nat i) in
  let request := address d in
  match remove_ignored request (d_ignored s) with
  | Some l =>
      let! s := delete_request request (with_ignored s l) in
      let! s := clear_address i s in Ret ([], s)
  | None =>
      let! r := defined (d_requests s !! request) in
      let result := mkResult (request_id r) (if status r =? 0 then Ok else Failed) in
      let! s := delete_request request s in
      let! s := clear_address i s in Ret ([result], s)
  end.

Fixpoint driver_notify (results : list BlockDeviceAsyncResult) (fuel : nat) (s : disk)
    : outcome (list BlockDeviceAsyncResult * disk) :=
  match fuel with
  | O => NoFuel
  | S fuel' =>
      let! r := get_next_used_descriptor s in
      match r.1 with
      | Failure _ => Ret (results, r.2)
      | Value i => let! t := take_used i r.2 in driver_notify (results ++ t.1) fuel' t.2
      end
  end.

(** * [class BlockDevice] *)
Record BlockDeviceAsyncRequest : Type := mkAsync {
  async_id : Z; async_buffer : Z; async_size : Z; async_offset : Z; async_write : bool
}.

(** [m_driver], [m_requests], [m_next_request_id], and what the driver works on. *)
Record BlockDevice : Type := mkBlock {
  b_driver : bool; b_requests : list BlockDeviceAsyncRequest; b_next_id : Z; b_disk : disk
}.

Definition no_block_driver {T} : ErrorOr T Error := fail_with "BlockDevice: No driver loaded.".

(** [write_async] and [read_async]: both record a request that is not a write. *)
Definition block_async (is_write : bool) (buffer size offset : Z) (b : BlockDevice) : outcome (ErrorOr unit Error * BlockDevice) :=
  if negb (b_driver b) then Ret (no_block_driver, b)
  else
    let request := mkAsync (b_next_id b) buffer size offset false in
    let! r := driver_async is_write (b_next_id b) buffer size offset (b_disk b) in
    Ret (r.1, mkBlock (b_driver b) (b_requests b ++ [request]) (b_next_id b + 1) r.2).

Definition block_poll (is_write : bool) (buffer size offset : Z) (fuel : nat) (b : BlockDevice)
    : outcome (ErrorOr unit Error * BlockDevice) :=
  if negb (b_driver b) then Ret (no_block_driver, b)
  else
    let! r := driver_poll is_write buffer size offset fuel (b_disk b) in
    Ret (r.1, mkBlock (b_driver b) (b_requests b) (b_next_id b) r.2).

(** [on_success()(request)] or [on_failure()(request)] is a call by the
    interrupt handler; the calls in order are part of its result. *)
Definition callback : Type := BlockDeviceAsyncRequest * BlockDeviceAsyncRequestType.

Definition call_of (requests : list BlockDeviceAsyncRequest) (r : BlockDeviceAsyncResult) : option callback :=
  match list_find (λ q, async_id q = result_id r) requests with
  | Some (_, q) => Some (q, result_type r)
  | None => None
  end.

Definition block_handle_interrupt (fuel : nat) (b : BlockDevice) : outcome (ErrorOr unit Error * list callback * BlockDevice) :=
  if negb (b_driver b) then Ret (no_block_driver, [], b)
  else
    let! r := driver_notify [] fuel (b_disk b) in
    Ret (Value tt, omap (call_of (b_requests b)) r.1, mkBlock (b_driver b) (b_requests b) (b_next_id b) r.2).
End VirtIO.
Arguments disk : clear implicits.

(** * What a device reads *)

(** The buffers of a chain: address, length and whether the device writes there. *)
Abbreviation segment := (Z * Z * bool)%type.

Fixpoint chain (ds : list VirtQueueDescriptor) (fuel : nat) (i : Z) : list segment :=
  match fuel with
  | O => []
  | S fuel' =>
      match ds !! Z.to_nat i with
      | None => []
      | Some d =>
          (address d, length_ d, Z.testbit (flags d) 1) ::
          (if Z.testbit (flags d) 0 then chain ds fuel' (next d) else [])
      end
  end.

(** The last [n] entries of the available ring, oldest first. *)
Fixpoint last_available (q : VirtQueue) (n : nat) : list (list segment) :=
  match n with
  | O => []
  | S n' =>
      match a_ring (available q) !! Z.to_nat ((a_index (available q) - Z.of_nat n) mod VIRTIO_RING_SIZE) with
      | Some head => chain (descriptors q) 128 head
      | None => []
      end :: last_available q n'
  end.

(** A request as the driver publishes it. *)
Record operation : Type := mkOperation { op_request : Z; op_buffer : Z; op_size : Z; op_write : bool }.

Definition segments (o : operation) : list segment :=
  [(u64 (op_request o), 16, false); (u64 (op_buffer o), u32 (op_size o), negb (op_write o)); (u64 (op_request o + 24), 1, true)].

(** The three descriptors of an operation start at [h]. *)
Definition slot_of (i : Z) : nat := Z.to_nat (i mod VIRTIO_RING_SIZE).

Definition data_flags (is_write : bool) : Z := if is_write then NEXT else Z.lor NEXT WRITE.

Definition chained (ds : list VirtQueueDescriptor) (h : Z) (o : operation) : Prop :=
  ds !! slot_of h = Some (mkDescriptor (u64 (op_request o)) 16 NEXT ((h + 1) mod VIRTIO_RING_SIZE)) ∧
  ds !! slot_of (h + 1) =
    Some (mkDescriptor (u64 (op_buffer o)) (u32 (op_size o)) (data_flags (op_write o)) ((h + 2) mod VIRTIO_RING_SIZE)) ∧
  ds !! slot_of (h + 2) = Some (mkDescriptor (u64 (op_request o + 24)) 1 WRITE 0).

(** The newest operations first: the [i]-th starts [3 * (i + 1)] descriptors before the next free one. *)
Record ring_ok (q : VirtQueue) (index : Z) (newest : list operation) : Prop := {
  ring_descriptors : length (descriptors q) = 128%nat;
  ring_available : length (a_ring (available q)) = 128%nat;
  ring_entries : ∀ i o, newest !! i = Some o →
    let k := Z.of_nat i + 1 in
    a_ring (available q) !! slot_of (a_index (available q) - k) = Some ((index - 3 * k) mod VIRTIO_RING_SIZE) ∧
    chained (descriptors q) (index - 3 * k) o
}.

Lemma slot_of_lt i : (slot_of i < 128)%nat.
Proof. unfold slot_of, VIRTIO_RING_SIZE. pose proof (Z.mod_pos_bound i 128). lia. Qed.

Lemma slot_of_mod i : slot_of (i mod VIRTIO_RING_SIZE) = slot_of i.
Proof. unfold slot_of. by rewrite Zmod_mod. Qed.

Lemma slot_of_ne i j : 0 < i - j < VIRTIO_RING_SIZE → slot_of i ≠ slot_of j.
Proof.
  unfold slot_of, VIRTIO_RING_SIZE. intros Hij Heq.
  pose proof (Z.mod_pos_bound i 128). pose proof (Z.mod_pos_bound j 128).
  assert (i mod 128 = j mod 128) as Hm by lia.
  pose proof (Z.div_mod i 128). pose proof (Z.div_mod j 128). nia.
Qed.

Lemma slot_of_u16 i : slot_of (u16 i) = slot_of i.
Proof.
  unfold slot_of, wrap, VIRTIO_RING_SIZE. change (2 ^ 16) with (128 * 512).
  rewrite Z.rem_mul_r by lia. by rewrite (Z.mul_comm 128), Z_mod_plus_full, Zmod_mod.
Qed.

Lemma chained_chain ds h o : chained ds h o → chain ds 128 (h mod VIRTIO_RING_SIZE) = segments o.
Proof.
  intros (H1 & H2 & H3). unfold slot_of in *. cbn [chain]. rewrite H1. cbn [address length_ flags next]. cbn [chain].
  rewrite H2. cbn [address length_ flags next]. unfold segments. destruct (op_write o); cbn; by rewrite H3.
Qed.

Lemma ring_last q index newest :
  ring_ok q index newest → last_available q (length newest) = segments <$> reverse newest.
Proof.
  intros [_ _ He]. revert He. induction newest as [|o newest IH] using rev_ind; intros He; [done|].
  rewrite length_app, Nat.add_comm. cbn [length Nat.add last_available].
  destruct (He (length newest) o) as [Hr Hc]; [by rewrite lookup_app_r, Nat.sub_diag by lia|].
  rewrite reverse_snoc, fmap_cons. f_equal.
  - unfold slot_of in Hr. rewrite Nat2Z.inj_succ. unfold Z.succ. rewrite Hr. by apply chained_chain.
  - apply IH. intros i o' Hi. apply He. by apply lookup_app_l_Some.
Qed.

(** Descriptors before the next free one survive a store to the next one, one lap is 128. *)
Lemma chained_insert ds h o j d :
  2 < j - h < 128 → chained ds h o → chained (<[slot_of j := d]> ds) h o.
Proof.
  intros Hj (H1 & H2 & H3). unfold chained.
  rewrite !list_lookup_insert_ne; [done| | |]; apply slot_of_ne; unfold VIRTIO_RING_SIZE; lia.
Qed.

(** * Publishing *)
Lemma array_get_store {A} (a : Array.t A) i x :
  Array.get a i = Ret x → ∀ y, ∃ a', array_store a i y = Ret a' ∧ Array.get a' i = Ret y.
Proof.
  intros Hg y. unfold array_store. rewrite Hg. cbn [obind]. unfold Array.get, Array.set, runtime_assert, read_slot, put_slot, slot in *.
  destruct (i <? Array.m_size a) eqn:Hi; [|done]. destruct (0 <=? i); [|done].
  destruct (Array.m_array a !! Z.to_nat i) as [[z|]|] eqn:Hz; try done. cbn [obind defined].
  eexists. split; [done|]. cbn [Array.m_size Array.m_array]. rewrite Hi.
  by rewrite list_lookup_insert_eq by (by eapply lookup_lt_Some).
Qed.

Section Publishing.
Context {D : Type} `{Bus D}.
Implicit Types (s : disk D).

(** The queue [q] at [p] is selected and its next free descriptor is the [i]-th ever used. *)
Record ready s (p : Z) (q : VirtQueue) (i : Z) : Prop := {
  ready_queue : queue_at (d_device s) (m_selected_queue (d_device s)) = Ret p;
  ready_at : d_queues s !! p = Some q;
  ready_index : Array.get (m_queue_indexes (d_device s)) (m_selected_queue (d_device s)) = Ret (i mod VIRTIO_RING_SIZE)
}.

(** All but the indexes and the selected queue is the same. *)
Record same_but_queue s s' : Prop := {
  same_device : m_mmio_device (d_device s') = m_mmio_device (d_device s) ∧
    m_queue_acks (d_device s') = m_queue_acks (d_device s) ∧ m_selected_queue (d_device s') = m_selected_queue (d_device s);
  same_heap : d_requests s' = d_requests s;
  same_ignored : d_ignored s' = d_ignored s;
  same_fresh : d_fresh s' = d_fresh s;
  same_bus : d_bus s' = d_bus s
}.

Lemma same_but_queue_trans s1 s2 s3 : same_but_queue s1 s2 → same_but_queue s2 s3 → same_but_queue s1 s3.
Proof. intros [[? [? ?]] ? ? ? ?] [[? [? ?]] ? ? ? ?]. split; [split_and!|..]; congruence. Qed.

Lemma selected_ready s p q i : ready s p q i → selected s = Ret (p, q).
Proof. intros [Hq Hp _]. unfold selected. rewrite Hq. cbn [obind]. by rewrite Hp. Qed.

(** The descriptor that is stored as the [i]-th. *)
Definition linked (d : VirtQueueDescriptor) (i : Z) : VirtQueueDescriptor :=
  if negb (Z.land (flags d) NEXT =? 0) then with_next d ((i + 1) mod VIRTIO_RING_SIZE) else d.

Definition store_descriptor (q : VirtQueue) (i : Z) (d : VirtQueueDescriptor) : VirtQueue :=
  mkQueue (<[slot_of i := linked d i]> (descriptors q)) (available q) (used q).

Lemma next_mod i : (i mod VIRTIO_RING_SIZE + 1) mod VIRTIO_RING_SIZE = (i + 1) mod VIRTIO_RING_SIZE.
Proof. apply Zplus_mod_idemp_l. Qed.

Lemma u64_small_index i : u64 (i mod VIRTIO_RING_SIZE + 1) = i mod VIRTIO_RING_SIZE + 1.
Proof. apply wrap_small. pose proof (Z.mod_pos_bound i 128 ltac:(lia)). unfold in_word, VIRTIO_RING_SIZE. lia. Qed.

Lemma add_to_queue_ready d s p q i :
  ready s p q i → length (descriptors q) = 128%nat →
  ∃ s', add_to_queue d s = Ret (Value (i mod VIRTIO_RING_SIZE), s') ∧
    ready s' p (store_descriptor q i d) (i + 1) ∧ same_but_queue s s'.
Proof.
  intros Hr Hl. unfold add_to_queue. rewrite (selected_ready _ _ _ _ Hr). destruct Hr as [Hq Hp Hi]. cbn [obind].
  unfold get_next_queue_index. rewrite Hi. cbn [obind].
  destruct (array_get_store _ _ _ Hi (u64 (i mod VIRTIO_RING_SIZE + 1) mod VIRTIO_RING_SIZE)) as (a & -> & Ha). cbn [obind fst snd].
  unfold set_descriptor. fold (slot_of i). rewrite next_mod. fold (linked d i).
  destruct (lookup_lt_is_Some_2 (descriptors q) (slot_of i)) as [x ->]; [rewrite Hl; apply slot_of_lt|]. cbn [obind defined].
  assert (u32 (i mod VIRTIO_RING_SIZE) = i mod VIRTIO_RING_SIZE) as ->.
  { apply wrap_small. pose proof (Z.mod_pos_bound i 128 ltac:(lia)). unfold in_word, VIRTIO_RING_SIZE. lia. }
  eexists. split; [done|]. split; [|done]. constructor.
  - done.
  - cbn. by rewrite lookup_insert_eq.
  - cbn. rewrite Ha. by rewrite u64_small_index, next_mod.
Qed.

(** Three descriptors and an entry of the available ring. *)
Definition publish (q : VirtQueue) (i : Z) (o : operation) : VirtQueue :=
  let q := store_descriptor q i (descriptor (op_request o) sizeof_Header NEXT) in
  let q := store_descriptor q (i + 1) (descriptor (op_buffer o) (op_size o) (data_flags (op_write o))) in
  let q := store_descriptor q (i + 2) (descriptor (op_request o + 24) 1 WRITE) in
  mkQueue (descriptors q)
    (mkAvailable (u16 (a_index (available q) + 1)) (<[slot_of (a_index (available q)) := i mod VIRTIO_RING_SIZE]> (a_ring (available q))))
    (used q).

Lemma add_to_available_ready h s p q i :
  ready s p q i → length (a_ring (available q)) = 128%nat → 0 ≤ h < 128 →
  ∃ s', add_to_available h s = Ret (Value tt, s') ∧
    ready s' p (mkQueue (descriptors q) (mkAvailable (u16 (a_index (available q) + 1)) (<[slot_of (a_index (available q)) := h]> (a_ring (available q)))) (used q)) i ∧
    same_but_queue s s'.
Proof.
  intros Hr Hl Hh. unfold add_to_available. rewrite (selected_ready _ _ _ _ Hr). destruct Hr as [Hq Hp Hi]. cbn [obind fst snd].
  fold (slot_of (a_index (available q))). assert (u16 h = h) as -> by (apply wrap_small; unfold in_word; lia).
  destruct (lookup_lt_is_Some_2 (a_ring (available q)) (slot_of (a_index (available q)))) as [x ->]; [rewrite Hl; apply slot_of_lt|].
  cbn [obind defined]. eexists. split; [done|]. split; [|done]. constructor; [done| |done]. cbn. by rewrite lookup_insert_eq.
Qed.

Lemma slot_of_u16_add i j : slot_of (u16 i + j) = slot_of (i + j).
Proof. rewrite <- (slot_of_u16 (i + j)), <- (slot_of_u16 (u16 i + j)). by rewrite wrap_add_l. Qed.

Lemma linked_next a l f i :
  f = NEXT ∨ f = Z.lor NEXT WRITE → linked (descriptor a l f) i = mkDescriptor (u64 a) (u32 l) f ((i + 1) mod VIRTIO_RING_SIZE).
Proof.
  pose proof (Z.mod_pos_bound (i + 1) 128 ltac:(lia)).
  assert (u16 ((i + 1) mod VIRTIO_RING_SIZE) = (i + 1) mod VIRTIO_RING_SIZE) as Hu
    by (apply wrap_small; unfold in_word, VIRTIO_RING_SIZE; lia).
  intros [-> | ->]; unfold linked, with_next; cbn; by rewrite Hu.
Qed.

(** Up to 42 operations fit in a queue. *)
Lemma publish_ok q i newest o :
  ring_ok q i newest → 3 * (Z.of_nat (length newest) + 1) ≤ VIRTIO_RING_SIZE →
  ring_ok (publish q i o) (i + 3) (o :: newest).
Proof.
  intros [Hd Ha He] Hfit. unfold VIRTIO_RING_SIZE in Hfit. constructor.
  - cbn. by rewrite !length_insert.
  - cbn. by rewrite length_insert.
  - intros [|j] x Hx; cbn zeta.
    + injection Hx as <-. cbn [publish store_descriptor available a_index a_ring descriptors].
      unfold Z.sub. rewrite slot_of_u16_add. replace (a_index (available q) + 1 + - (Z.of_nat 0 + 1)) with (a_index (available q)) by lia.
      replace (i + 3 + - (3 * (Z.of_nat 0 + 1))) with i by lia.
      rewrite list_lookup_insert_eq by (rewrite Ha; apply slot_of_lt). split; [done|]. unfold chained.
      pose proof (slot_of_lt i). pose proof (slot_of_lt (i + 1)). pose proof (slot_of_lt (i + 2)).
      assert (∀ a b, 0 < a - b < 128 → slot_of a ≠ slot_of b) as Hne by (intros; by apply slot_of_ne).
      split_and!.
      * rewrite 2 list_lookup_insert_ne by (apply Hne; lia). rewrite list_lookup_insert_eq by lia. by rewrite linked_next by auto.
      * rewrite list_lookup_insert_ne by (apply Hne; lia). rewrite list_lookup_insert_eq by (rewrite !length_insert; lia).
        rewrite linked_next by (unfold data_flags; destruct (op_write o); auto). by replace (i + 1 + 1) with (i + 2) by lia.
      * rewrite list_lookup_insert_eq by (rewrite !length_insert; lia). done.
    + simpl in Hx. destruct (He j x Hx) as [Hr Hc]. cbn zeta in *. pose proof (lookup_lt_Some _ _ _ Hx) as Hj.
      replace (i + 3 - 3 * (Z.of_nat (S j) + 1)) with (i - 3 * (Z.of_nat j + 1)) by lia.
      cbn [publish store_descriptor available a_index a_ring descriptors]. split.
      * unfold Z.sub. rewrite slot_of_u16_add. rewrite list_lookup_insert_ne.
        -- etrans; [|exact Hr]. do 2 f_equal. lia.
        -- apply slot_of_ne. unfold VIRTIO_RING_SIZE. lia.
      * repeat (apply chained_insert; [lia|]). done.
Qed.

(** ** Issuing requests *)
Record command : Type := mkCommand { c_id : Z; c_buffer : Z; c_size : Z; c_offset : Z; c_write : bool }.

Definition issue (c : command) s : outcome (ErrorOr Z Error * disk D) :=
  block_operation (c_id c) (c_buffer c) (c_size c) (c_offset c) (c_write c) s.

Fixpoint issue_all (cs : list command) s : outcome (list (ErrorOr Z Error) * disk D) :=
  match cs with
  | [] => Ret ([], s)
  | c :: cs' => let! r := issue c s in let! t := issue_all cs' r.2 in Ret (r.1 :: t.1, t.2)
  end.

Definition operation_of (request : Z) (c : command) : operation := mkOperation request (c_buffer c) (c_size c) (c_write c).

Definition request_of (c : command) : Request :=
  mkRequest (mkHeader (if c_write c then 1 else 0) 0 (c_offset c / 512)) (c_buffer c) 0x11 (c_id c).

(** The queue is notified after each request. *)
Definition rung s : D := set_register_value (m_mmio_device (d_device s)) QueueNotify (m_selected_queue (d_device s)) (d_bus s).

Lemma issue_spec c s p q i :
  c_size c mod 512 = 0 → ready s p q i → length (descriptors q) = 128%nat → length (a_ring (available q)) = 128%nat →
  ∃ s', issue c s = Ret (Value (Zpos (d_fresh s)), s') ∧
    ready s' p (publish q i (operation_of (Zpos (d_fresh s)) c)) (i + 3) ∧
    d_requests s' = <[Zpos (d_fresh s) := request_of c]> (d_requests s) ∧
    d_ignored s' = d_ignored s ∧ d_fresh s' = (d_fresh s + 40)%positive ∧
    m_queue_acks (d_device s') = m_queue_acks (d_device s) ∧ m_mmio_device (d_device s') = m_mmio_device (d_device s) ∧
    m_selected_queue (d_device s') = m_selected_queue (d_device s) ∧ d_bus s' = rung s.
Proof.
  intros Hs Hr Hd Ha. unfold issue, block_operation. rewrite Hs. cbn [Z.eqb negb]. unfold new_request.
  set (request := Z.pos (d_fresh s)). set (s0 := mkDisk _ _ _ _ _ _).
  assert (ready s0 p q i) as Hr0 by (by destruct Hr).
  destruct (add_to_queue_ready (descriptor (header_address request) sizeof_Header NEXT) s0 p q i Hr0 Hd) as (s1 & -> & Hr1 & Hs1).
  cbn [obind fst snd].
  edestruct (add_to_queue_ready (descriptor (c_buffer c) (c_size c) (Z.lor NEXT (if negb (c_write c) then WRITE else 0))) s1 p)
    as (s2 & -> & Hr2 & Hs2); [exact Hr1|cbn; by rewrite length_insert|]. cbn [obind fst snd].
  edestruct (add_to_queue_ready (descriptor (status_address request) 1 WRITE) s2 p)
    as (s3 & -> & Hr3 & Hs3); [exact Hr2|cbn; by rewrite !length_insert|]. cbn [obind fst snd].
  edestruct (add_to_available_ready (i mod VIRTIO_RING_SIZE) s3 p) as (s4 & -> & Hr4 & Hs4);
    [exact Hr3|cbn; done|apply Z.mod_pos_bound; done|]. cbn [obind fst snd].
  pose proof (same_but_queue_trans _ _ _ Hs1 (same_but_queue_trans _ _ _ Hs2 (same_but_queue_trans _ _ _ Hs3 Hs4))) as [(Hm & Hk & Hsel) Hh Hig Hf Hb].
  eexists. split; [reflexivity|]. split.
  - replace (i + 3) with (i + 1 + 1 + 1) by lia. destruct Hr4 as [? Hat ?]. constructor; [done| |done].
    cbn. rewrite Hat. unfold publish, operation_of, data_flags. cbn [op_write op_buffer op_size op_request].
    replace (i + 1 + 1) with (i + 2) by lia. by destruct (c_write c).
  - unfold device_notify. MMIODevice.registers. cbn [with_registers d_requests d_ignored d_fresh d_device d_bus].
    rewrite Hh, Hig, Hf, Hm, Hk, Hsel, Hb. split_and!; try done. cbn. unfold request_of. by destruct (c_write c).
Qed.

Lemma issue_error c s :
  c_size c mod 512 ≠ 0 → issue c s = Ret (fail_with "BlockIODriver: Size must be a multiple of 512 bytes.", s).
Proof. intros Hc. unfold issue, block_operation. by rewrite (proj2 (Z.eqb_neq _ _) Hc). Qed.

Definition fresh_requests s : Prop := ∀ r, is_Some (d_requests s !! r) → r < Zpos (d_fresh s).

(** What [issue_all] leaves. *)
Record issued s (p : Z) (q : VirtQueue) (i : Z) (newest : list operation) (cs : list command)
    (rs : list Z) s' (q' : VirtQueue) : Prop := {
  issued_ready : ready s' p q' (i + 3 * Z.of_nat (length cs));
  issued_ring : ring_ok q' (i + 3 * Z.of_nat (length cs)) (reverse (zip_with operation_of rs cs) ++ newest);
  issued_requests : Forall2 (λ r c, d_requests s' !! r = Some (request_of c)) rs cs;
  issued_others : ∀ r, r ∉ rs → d_requests s' !! r = d_requests s !! r;
  issued_distinct : NoDup rs ∧ Forall (λ r, Zpos (d_fresh s) ≤ r) rs;
  issued_index : cs ≠ [] → a_index (available q') = u16 (a_index (available q) + Z.of_nat (length cs));
  issued_used : used q' = used q;
  issued_bell : cs ≠ [] → ∃ d, d_bus s' = set_register_value (m_mmio_device (d_device s)) QueueNotify (m_selected_queue (d_device s)) d
}.

Lemma issue_all_spec cs p : ∀ s q i newest,
  ready s p q i → ring_ok q i newest → Forall (λ c, c_size c mod 512 = 0) cs →
  3 * (Z.of_nat (length newest) + Z.of_nat (length cs)) ≤ VIRTIO_RING_SIZE →
  ∃ rs s' q', issue_all cs s = Ret (Value <$> rs, s') ∧ issued s p q i newest cs rs s' q'.
Proof.
  induction cs as [|c cs IH]; intros s q i newest Hr Hok Hs Hfit.
  { exists [], s, q. split; [done|]. constructor; try done.
    - by rewrite Z.add_0_r.
    - by rewrite Z.add_0_r.
    - split; constructor. }
  apply Forall_cons in Hs as [Hc Hs]. cbn [length] in Hfit. rewrite Nat2Z.inj_succ in Hfit.
  destruct (issue_spec c s p q i Hc Hr) as (s1 & Hi1 & Hr1 & Hh1 & _ & Hf1 & _ & Hm1 & Hs1 & Hb1);
    [apply Hok|apply Hok|]. set (r := Zpos (d_fresh s)) in *. cbn [issue_all]. rewrite Hi1. cbn [obind fst snd].
  destruct (IH s1 _ (i + 3) (operation_of r c :: newest) Hr1) as (rs & s' & q' & Hi & [Hr' Hq' Hq2 Ho' [Hnd Hfr] Hx' Hu' Hb']);
    [apply publish_ok; [done|unfold VIRTIO_RING_SIZE in *; lia]|done|cbn [length]; lia|].
  rewrite Hi. cbn [obind fst snd]. exists (r :: rs), s', q'. split; [done|].
  assert (r ∉ rs) as Hnot. { intros Hin. rewrite Forall_forall in Hfr. specialize (Hfr r Hin). unfold r in Hfr. lia. }
  assert (i + 3 * Z.of_nat (length (c :: cs)) = i + 3 + 3 * Z.of_nat (length cs)) as Hidx by (cbn [length]; lia).
  constructor; rewrite ?Hidx; try done.
  - change (zip_with operation_of (r :: rs) (c :: cs)) with (operation_of r c :: zip_with operation_of rs cs).
    by rewrite reverse_cons, <- app_assoc.
  - constructor; [|done]. rewrite Ho' by done. by rewrite Hh1, lookup_insert_eq.
  - intros r' Hr0. apply not_elem_of_cons in Hr0 as [? ?]. rewrite Ho' by done. by rewrite Hh1, lookup_insert_ne.
  - split; [by constructor|]. constructor; [done|]. eapply Forall_impl; [exact Hfr|]. intros z Hz. simpl in *. unfold r. lia.
  - intros _. destruct cs as [|c' cs].
    + cbn [issue_all] in Hi. injection Hi as Hrs <-. destruct Hr' as [? Hat' ?]. destruct Hr1 as [? Hat ?].
      assert (q' = publish q i (operation_of r c)) as -> by congruence. reflexivity.
    + rewrite Hx' by done. cbn [publish store_descriptor available a_index]. rewrite wrap_add_l. f_equal. cbn [length]. lia.
  - intros _. destruct cs as [|c' cs].
    + cbn [issue_all] in Hi. injection Hi as Hrs <-. exists (d_bus s). exact Hb1.
    + rewrite Hm1, Hs1 in Hb'. by apply Hb'.
Qed.

(** One request too many takes the first descriptor of the oldest chain for its status. *)
Lemma publish_overrun q i newest o :
  ring_ok q i newest → length newest = 42%nat →
  head (last_available (publish q i o) 43) = Some [(u64 (op_request o + 24), 1, true)].
Proof.
  intros [Hd Ha He] Hl. destruct (lookup_lt_is_Some_2 newest 41) as [x Hx]; [lia|].
  destruct (He 41%nat x Hx) as [Hr _]. cbn zeta in Hr. change (Z.of_nat 41 + 1) with 42 in Hr.
  cbn [last_available head]. f_equal. fold (slot_of (a_index (available (publish q i o)) - Z.of_nat 43)).
  cbn [publish store_descriptor available a_index a_ring descriptors]. unfold Z.sub. rewrite slot_of_u16_add.
  rewrite list_lookup_insert_ne by (apply slot_of_ne; unfold VIRTIO_RING_SIZE; lia).
  replace (a_index (available q) + 1 + - Z.of_nat 43) with (a_index (available q) - 42) by lia. rewrite Hr.
  cbn [chain]. fold (slot_of (i - 3 * 42)).
  assert (slot_of (i - 3 * 42) = slot_of (i + 2)) as ->.
  { unfold slot_of, VIRTIO_RING_SIZE. replace (i + 2) with (i - 3 * 42 + 1 * 128) by lia. by rewrite Z_mod_plus_full. }
  rewrite list_lookup_insert_eq by (rewrite !length_insert, Hd; apply slot_of_lt). done.
Qed.
End Publishing.

(** A filter that keeps everything. *)
Lemma filter_all {A} (P : A → Prop) `{∀ x, Decision (P x)} (l : list A) : Forall P l → filter P l = l.
Proof. induction 1 as [|x l Hx _ IH]; [done|]. by rewrite filter_cons_True, IH. Qed.

(** * Completions *)
Section Completions.
Context {D : Type} `{Bus D}.
Implicit Types (s : disk D).

(** A used element: the index of its descriptor, the request there, what it holds. *)
Record completion : Type := mkCompletion { u_head : Z; u_request : Z; u_content : Request }.

(** The next used elements, from acknowledgement [ack] on, while the device has used
    fewer elements than the ring has since the queue was made. *)
Record completed s (p : Z) (q : VirtQueue) (ack : Z) (cs : list completion) : Prop := {
  completed_queue : selected s = Ret (p, q);
  completed_ack : Array.get (m_queue_acks (d_device s)) (m_selected_queue (d_device s)) = Ret ack ∧ 0 ≤ ack;
  completed_used : ∀ k c, cs !! k = Some c → ∃ len, u_ring (used q) !! (Z.to_nat ack + k)%nat = Some (u_head c, len);
  completed_index : u_index (used q) = ack + Z.of_nat (length cs) ∧ u_index (used q) < VIRTIO_RING_SIZE;
  completed_heads : Forall (λ c, ∃ d, descriptors q !! Z.to_nat (u_head c) = Some d ∧ address d = u_request c) cs;
  completed_requests : Forall (λ c, d_requests s !! u_request c = Some (u_content c)) cs;
  completed_distinct : NoDup (u_request <$> cs)
}.

Definition ignored_by (l : list Z) (c : completion) : Prop := u_request c ∈ l.

Definition result_of (c : completion) : BlockDeviceAsyncResult :=
  mkResult (request_id (u_content c)) (if status (u_content c) =? 0 then Ok else Failed).

(** What is reported: the completions that nobody polled for. *)
Definition results_of (ignored : list Z) (cs : list completion) : list BlockDeviceAsyncResult :=
  result_of <$> filter (λ c, u_request c ∉ ignored) cs.

Lemma remove_ignored_spec r l :
  NoDup l →
  match remove_ignored r l with
  | Some l' => r ∈ l ∧ NoDup l' ∧ l' = filter (λ x, x ≠ r) l
  | None => r ∉ l
  end.
Proof.
  unfold remove_ignored. intros Hl. destruct (list_find (r =.) l) as [[i x]|] eqn:E.
  - apply list_find_Some in E as (Hi & <- & _). split; [by eapply list_elem_of_lookup_2|].
    revert i Hi. induction Hl as [|y l Hy Hl IH]; intros [|i] Hi; simplify_eq/=.
    + rewrite filter_cons_False by tauto. rewrite filter_all; [done|].
      apply Forall_forall. intros z Hz ->. done.
    + destruct (IH i Hi) as [Hn Heq]. rewrite filter_cons_True, <- Heq; [|intros ->; apply Hy; by eapply list_elem_of_lookup_2].
      split; [|done]. constructor; [|done]. rewrite Heq. intros [_ ?]%list_elem_of_filter. done.
  - apply list_find_None in E. rewrite Forall_forall in E. intros Hin. by apply (E r).
Qed.

(** One used descriptor. *)
Definition after_completion s (p : Z) (q : VirtQueue) (c : completion) s' (q' : VirtQueue) : Prop :=
  selected s' = Ret (p, q') ∧ m_mmio_device (d_device s') = m_mmio_device (d_device s) ∧ d_device s' = d_device s ∧
  used q' = used q ∧
  (∀ j d, j ≠ Z.to_nat (u_head c) → descriptors q !! j = Some d → descriptors q' !! j = Some d) ∧
  (∃ d, descriptors q' !! Z.to_nat (u_head c) = Some d ∧ address d = 0) ∧
  d_requests s' = delete (u_request c) (d_requests s) ∧
  d_ignored s' = filter (λ x, x ≠ u_request c) (d_ignored s) ∧ NoDup (d_ignored s') ∧ d_bus s' = d_bus s.

Lemma clear_address_spec s p q h d :
  selected s = Ret (p, q) → descriptors q !! Z.to_nat h = Some d →
  clear_address h s =
    Ret (with_queue s p (mkQueue (<[Z.to_nat h := mkDescriptor 0 (length_ d) (flags d) (next d)]> (descriptors q)) (available q) (used q))).
Proof.
  intros Hs Hd. unfold clear_address. rewrite Hs. cbn [obind fst snd]. rewrite Hd. cbn [defined obind].
  unfold set_descriptor. rewrite Hd. reflexivity.
Qed.

Lemma selected_with_queue s p q q' : selected s = Ret (p, q) → selected (with_queue s p q') = Ret (p, q').
Proof.
  unfold selected. cbn. destruct (queue_at _ _) as [x| | |]; try done. cbn [obind].
  destruct (d_queues s !! x); cbn; [|done]. intros [= -> ->]. by rewrite lookup_insert_eq.
Qed.

Lemma take_used_spec s p q c d :
  selected s = Ret (p, q) → NoDup (d_ignored s) →
  descriptors q !! Z.to_nat (u_head c) = Some d → address d = u_request c →
  d_requests s !! u_request c = Some (u_content c) →
  ∃ s' q', take_used (u_head c) s = Ret (results_of (d_ignored s) [c], s') ∧ after_completion s p q c s' q'.
Proof.
  intros Hs Hnd Hd Ha Hr. unfold take_used. rewrite Hs. cbn [obind fst snd]. rewrite Hd. cbn [obind defined]. rewrite Ha.
  pose proof (remove_ignored_spec (u_request c) (d_ignored s) Hnd) as Hrem.
  unfold results_of, delete_request. destruct (remove_ignored _ _) as [l|].
  - destruct Hrem as (Hin & Hnl & ->). cbn [d_requests with_ignored]. rewrite Hr. cbn [defined obind].
    erewrite clear_address_spec; [|exact Hs|exact Hd]. cbn [obind].
    rewrite filter_cons_False by (intros Hn; by apply Hn). eexists _, _. split; [done|].
    split; [by apply (selected_with_queue _ p q)|]. cbn. split_and!; try done.
    + intros j x Hj Hx. by rewrite list_lookup_insert_ne.
    + rewrite list_lookup_insert_eq by (by eapply lookup_lt_Some). by eexists.
  - rewrite Hr. cbn [defined obind]. erewrite clear_address_spec; [|exact Hs|exact Hd]. cbn [obind].
    rewrite filter_cons_True by done. eexists _, _. split; [done|].
    split; [by apply (selected_with_queue _ p q)|]. cbn. split_and!; try done.
    + intros j x Hj Hx. by rewrite list_lookup_insert_ne.
    + rewrite list_lookup_insert_eq by (by eapply lookup_lt_Some). by eexists.
    + rewrite filter_all; [done|]. apply Forall_forall. intros z Hz ->. done.
Qed.

(** A further acknowledgement. *)
Lemma acknowledge_spec s p q ack c cs :
  completed s p q ack (c :: cs) →
  ∃ a, get_next_used_descriptor s = Ret (Value (u_head c), with_device s (with_acks (d_device s) a)) ∧
    Array.get a (m_selected_queue (d_device s)) = Ret (ack + 1).
Proof.
  intros [Hs [Ha Hpos] Hu [Hx Hlt] Hh _ _]. cbn [length] in Hx. unfold VIRTIO_RING_SIZE in Hlt.
  unfold get_next_used_descriptor. rewrite Hs, Ha. cbn [obind fst snd]. rewrite (proj2 (Z.eqb_neq ack _)) by lia.
  destruct (Hu 0%nat c eq_refl) as [len Hl]. rewrite Nat.add_0_r in Hl. unfold VIRTIO_RING_SIZE.
  rewrite Z.mod_small by lia. rewrite Hl. cbn [defined obind fst].
  apply Forall_cons in Hh as [(d & Hd & _) _]. rewrite Hd. cbn [defined obind].
  rewrite wrap_small by (unfold in_word; lia). rewrite Z.mod_small by lia.
  destruct (array_get_store _ _ _ Ha (ack + 1)) as (a & -> & Hg). cbn [obind]. by exists a.
Qed.

Lemma results_of_filter r l cs :
  r ∉ u_request <$> cs → results_of (filter (λ x, x ≠ r) l) cs = results_of l cs.
Proof.
  unfold results_of. induction cs as [|c cs IH]; [done|]. intros Hr. rewrite fmap_cons, not_elem_of_cons in Hr. destruct Hr as [Hc Hr].
  specialize (IH Hr).
  assert (u_request c ∈ filter (λ x, x ≠ r) l ↔ u_request c ∈ l) as Hiff.
  { rewrite list_elem_of_filter. split; [tauto|]. intros ?. split; [congruence|done]. }
  destruct (decide (u_request c ∈ l)).
  - rewrite !filter_cons_False by tauto. done.
  - rewrite !filter_cons_True by tauto. rewrite !fmap_cons. by f_equal.
Qed.

Lemma results_of_cons l c cs : results_of l (c :: cs) = results_of l [c] ++ results_of l cs.
Proof. unfold results_of. rewrite <- fmap_app, <- filter_app. done. Qed.

(** The state behind the loop of [notify]. *)
Record drained s (p : Z) (ack : Z) (cs : list completion) s' (q' : VirtQueue) : Prop := {
  drained_queue : selected s' = Ret (p, q');
  drained_ack : Array.get (m_queue_acks (d_device s')) (m_selected_queue (d_device s')) = Ret (ack + Z.of_nat (length cs));
  drained_requests : ∀ r, d_requests s' !! r = if decide (r ∈ u_request <$> cs) then None else d_requests s !! r;
  drained_ignored : d_ignored s' = filter (λ r, r ∉ u_request <$> cs) (d_ignored s);
  drained_heads : Forall (λ c, ∃ d, descriptors q' !! Z.to_nat (u_head c) = Some d ∧ address d = 0) cs;
  drained_bus : d_bus s' = d_bus s;
  drained_index : u_index (used q') = ack + Z.of_nat (length cs)
}.

Lemma notify_drains cs : ∀ s p q ack results fuel,
  completed s p q ack cs → NoDup (d_ignored s) → (length cs < fuel)%nat →
  ∃ s' q', driver_notify results fuel s = Ret (results ++ results_of (d_ignored s) cs, s') ∧ drained s p ack cs s' q' ∧
    (∀ j d, descriptors q !! j = Some d → descriptors q' !! j = Some d ∨ j ∈ (λ c, Z.to_nat (u_head c)) <$> cs).
Proof.
  induction cs as [|c cs IH]; intros s p q ack results [|fuel] Hc Hnd Hf; try (cbn [length] in Hf; lia).
  - destruct Hc as [Hs [Ha _] _ [Hx _] _ _ _]. cbn [driver_notify]. unfold get_next_used_descriptor. rewrite Hs, Ha. cbn [obind fst snd].
    rewrite Hx, (proj2 (Z.eqb_eq ack _)) by (simpl; lia). cbn [obind fst snd]. exists s, q. unfold results_of. cbn. rewrite app_nil_r.
    split; [done|]. split; [|by left]. constructor; try done.
    + rewrite Ha. f_equal. cbn. lia.
    + rewrite filter_all; [done|]. apply Forall_forall. intros x _. apply not_elem_of_nil.
  - destruct (acknowledge_spec _ _ _ _ _ _ Hc) as (a & Hg & Hack). cbn [driver_notify]. rewrite Hg. cbn [obind fst snd].
    destruct Hc as [Hs [Ha Hpos] Hu [Hx Hlt] Hh Hr Hd]. set (s1 := with_device s (with_acks (d_device s) a)).
    apply Forall_cons in Hh as [(d & Hdc & Had) Hh]. apply Forall_cons in Hr as [Hrc Hr].
    rewrite fmap_cons in Hd. apply NoDup_cons in Hd as [Hnot Hd].
    destruct (take_used_spec s1 p q c d) as (s2 & q2 & Ht & Hs2 & _ & Hdev & Hused & Hkeep & Hzero & Hrq & Hig & Hig2 & Hbus); try done.
    rewrite Ht. cbn [obind fst snd]. cbn [d_ignored s1 with_device] in *.
    assert (Forall (λ c', Z.to_nat (u_head c') ≠ Z.to_nat (u_head c)) cs) as Hne.
    { apply Forall_forall. intros c' Hc' Heq. apply Hnot. rewrite Forall_forall in Hh.
      destruct (Hh c' Hc') as (d' & Hd' & Ha'). apply list_elem_of_fmap. exists c'. split; [congruence|done]. }
    destruct (IH s2 p q2 (ack + 1) (results ++ results_of (d_ignored s) [c]) fuel) as (s' & q' & Hn & [H1 H2 H3 H4 H5 H6 H7] & Hk2);
      [|done|cbn [length] in Hf; lia|].
    { constructor; try done.
      - rewrite Hdev. split; [done|lia].
      - intros k x Hk. rewrite Hused. destruct (Hu (S k) x Hk) as [len Hl]. exists len. rewrite <- Hl. f_equal. lia.
      - rewrite Hused. cbn [length] in Hx. lia.
      - rewrite Forall_forall in Hh, Hne |- *. intros x Hin. destruct (Hh x Hin) as (d' & Hd' & ?). exists d'. split; [|done].
        apply Hkeep; [by apply Hne|done].
      - rewrite Hrq. apply Forall_forall. intros x Hin. rewrite lookup_delete_ne.
        + rewrite Forall_forall in Hr. by apply Hr.
        + intros Heq. apply Hnot. rewrite Heq. by apply list_elem_of_fmap_2. }
    exists s', q'. split; [|split].
    + rewrite Hn, Hig, results_of_filter by done. by rewrite (results_of_cons _ c cs), app_assoc.
    + constructor; try done.
      * rewrite H2. f_equal. cbn [length]. lia.
      * intros r. rewrite H3, Hrq. rewrite fmap_cons. destruct (decide (r = u_request c)) as [->|Hrne].
        -- rewrite lookup_delete_eq. rewrite (decide_True (P := u_request c ∈ u_request c :: _)) by (by left). by case_decide.
        -- rewrite lookup_delete_ne by done. do 2 case_decide; try done.
           ++ exfalso. match goal with H : ¬ _ |- _ => apply H end. by right.
           ++ match goal with H : _ ∈ _ :: _ |- _ => apply elem_of_cons in H as [?|?]; done end.
      * rewrite H4, Hig, list_filter_filter. apply list_filter_iff. intros x. rewrite fmap_cons, not_elem_of_cons. tauto.
      * constructor; [|done]. destruct Hzero as (z & Hz & Hz0). exists z. split; [|done].
        destruct (Hk2 _ _ Hz) as [?|Hin]; [done|]. apply list_elem_of_fmap in Hin as (x & Heq & Hin).
        rewrite Forall_forall in Hne. by destruct (Hne x Hin).
      * by rewrite H6, Hbus.
      * rewrite H7. cbn [length]. lia.
    + intros j x Hj. rewrite fmap_cons. destruct (decide (j = Z.to_nat (u_head c))) as [->|Hjne]; [right; by left|].
      destruct (Hk2 j x (Hkeep j x Hjne Hj)) as [?|?]; [by left|right; by right].
Qed.

(** ** An index past the ring *)
Lemma clear_address_keeps h s p q s' :
  selected s = Ret (p, q) → clear_address h s = Ret s' →
  d_device s' = d_device s ∧ ∃ q', selected s' = Ret (p, q') ∧ used q' = used q.
Proof.
  intros Hs Hc. unfold clear_address in Hc. rewrite Hs in Hc. cbn [obind fst snd] in Hc. unfold set_descriptor in Hc. inv_outcome.
  split; [done|]. eexists. split; [by apply (selected_with_queue _ p q)|done].
Qed.

Lemma take_used_keeps h s p q r :
  selected s = Ret (p, q) → take_used h s = Ret r →
  d_device r.2 = d_device s ∧ ∃ q', selected r.2 = Ret (p, q') ∧ used q' = used q.
Proof.
  intros Hs Ht. unfold take_used, delete_request in Ht. rewrite Hs in Ht. cbn [obind fst snd] in Ht.
  inv_outcome. destruct (remove_ignored _ _); inv_outcome; cbn [snd].
  - match goal with Hc : clear_address _ ?u = _ |- _ => destruct (clear_address_keeps h u p q _ Hs Hc) as [-> ?] end. done.
  - match goal with Hc : clear_address _ ?u = _ |- _ => destruct (clear_address_keeps h u p q _ Hs Hc) as [-> ?] end. done.
Qed.

Lemma notify_stuck fuel : ∀ results s p q ack r,
  selected s = Ret (p, q) → Array.get (m_queue_acks (d_device s)) (m_selected_queue (d_device s)) = Ret ack → 0 ≤ ack →
  ack < VIRTIO_RING_SIZE → VIRTIO_RING_SIZE ≤ u_index (used q) → driver_notify results fuel s ≠ Ret r.
Proof.
  induction fuel as [|fuel IH]; intros results s p q ack r Hs Ha H0 Hlt Hu Hn; [done|].
  cbn [driver_notify] in Hn. unfold get_next_used_descriptor in Hn. rewrite Hs, Ha in Hn. cbn [obind fst snd] in Hn.
  rewrite (proj2 (Z.eqb_neq ack _)) in Hn by lia.
  destruct (array_get_store _ _ _ Ha (u64 (ack + 1) mod VIRTIO_RING_SIZE)) as (a & Hst & Hg). rewrite Hst in Hn.
  destruct (u_ring (used q) !! _) as [e|]; [|done]. cbn [defined obind] in Hn.
  destruct (descriptors q !! _) as [d|]; [|done]. cbn [defined obind fst snd] in Hn. inv_outcome.
  match goal with Ht : take_used _ _ = Ret ?t |- _ => apply (take_used_keeps _ _ p q) in Ht as (Hdev & q' & Hs' & Hused); [|exact Hs] end.
  eapply IH; [exact Hs'|rewrite Hdev; exact Hg| | |by rewrite Hused|eassumption];
    unfold VIRTIO_RING_SIZE; pose proof (Z.mod_pos_bound (u64 (ack + 1)) 128); lia.
Qed.

(** ** Polling *)

(** The [n]-th state the driver sees while it waits. *)
Lemma poll_status_spec wait request message n : ∀ fuel s,
  (n < fuel)%nat →
  (∀ k, (k < n)%nat → ∃ x, d_requests (Nat.iter k wait s) !! request = Some x ∧ status x = status_value) →
  ∀ x, d_requests (Nat.iter n wait s) !! request = Some x → status x ≠ status_value →
  poll_status wait request message fuel s =
    let s' := Nat.iter n wait s in
    if status x =? 0 then Ret (Value tt, with_ignored s' (d_ignored s' ++ [request]))
    else Ret (fail_with message, with_heap s' (delete request (d_requests s'))).
Proof.
  induction n as [|n IH]; intros [|fuel] s Hf Hw x Hx Hne; try lia; cbn [poll_status].
  - cbn in Hx. rewrite Hx. cbn [defined obind]. rewrite (proj2 (Z.eqb_neq _ _) Hne). unfold delete_request. cbn. rewrite Hx. done.
  - destruct (Hw 0%nat) as (y & Hy & Hs); [lia|]. cbn in Hy. rewrite Hy. cbn [defined obind]. rewrite (proj2 (Z.eqb_eq _ _) Hs).
    rewrite Nat.iter_succ_r in Hx |- *. apply IH; [lia| |done|done].
    intros k Hk. rewrite <- Nat.iter_succ_r. apply Hw. lia.
Qed.

Lemma poll_status_pending wait request message fuel : ∀ s,
  (∀ k, ∃ x, d_requests (Nat.iter k wait s) !! request = Some x ∧ status x = status_value) →
  poll_status wait request message fuel s = NoFuel.
Proof.
  induction fuel as [|fuel IH]; intros s Hw; [done|]. cbn [poll_status]. destruct (Hw 0%nat) as (y & Hy & Hs). cbn in Hy.
  rewrite Hy. cbn [defined obind]. rewrite (proj2 (Z.eqb_eq _ _) Hs). apply IH. intros k. rewrite <- Nat.iter_succ_r. apply Hw.
Qed.
End Completions.

(** C29: the rings that the driver publishes refine a queue of requests.  A
    request whose size is not a multiple of a sector is an error that changes
    nothing.  Otherwise, as long as at most 42 requests are pending, a list of
    requests is published in order behind the pending ones: the device reads off
    the rings exactly the chain of header, data and status of each request, with
    the data writable by the device for reads only; the headers in memory hold
    type and sector, the available index counts the requests modulo its width and
    the device was notified.  With 43 pending requests the oldest chain has lost
    its header to the status of the newest request: the driver does not check
    that a descriptor is free. *)
Theorem block_requests {D} `{Bus D} (s : disk D) (p i : Z) (q : VirtQueue) (newest : list operation) :
  ready s p q i → ring_ok q i newest →
  (∀ c, c_size c mod 512 ≠ 0 → issue c s = Ret (fail_with "BlockIODriver: Size must be a multiple of 512 bytes.", s)) ∧
  (∀ cs, Forall (λ c, c_size c mod 512 = 0) cs → (length newest + length cs ≤ 42)%nat →
     ∃ rs s' q', issue_all cs s = Ret (Value <$> rs, s') ∧ issued s p q i newest cs rs s' q' ∧
       last_available q' (length newest + length cs) =
         last_available q (length newest) ++ (segments <$> zip_with operation_of rs cs)) ∧
  (∀ c, c_size c mod 512 = 0 → length newest = 42%nat →
     ∃ s' q', issue c s = Ret (Value (Zpos (d_fresh s)), s') ∧ d_queues s' !! p = Some q' ∧
       head (last_available q' 43) = Some [(u64 (Zpos (d_fresh s) + 24), 1, true)]).
Proof.
  intros Hr Hok. split; [intros c Hc; by apply issue_error|]. split.
  - intros cs Hcs Hfit. destruct (issue_all_spec cs p s q i newest Hr Hok Hcs) as (rs & s' & q' & Hi & Hiss);
      [unfold VIRTIO_RING_SIZE; lia|].
    exists rs, s', q'. split; [done|]. split; [done|]. destruct Hiss as [_ Hring Hrq _ _ _ _ _].
    apply Forall2_length in Hrq. pose proof (ring_last _ _ _ Hring) as Hl. pose proof (ring_last _ _ _ Hok) as Hl0.
    rewrite length_app, length_reverse, length_zip_with in Hl. rewrite Hl0, <- fmap_app.
    replace (length newest + length cs)%nat with (Nat.min (length rs) (length cs) + length newest)%nat by lia.
    by rewrite Hl, reverse_app, reverse_involutive.
  - intros c Hc Hl. destruct (issue_spec c s p q i Hc Hr) as (s' & Hi & [_ Hat _] & _); [apply Hok|apply Hok|].
    eexists s', _. split; [done|]. split; [done|]. by apply (publish_overrun q i newest).
Qed.

Definition sample_device : VirtIODevice :=
  mkVirtIODevice 0x10001000 [0x80010000] (Array.new 0 1) (Array.new 0 1) 0.

Definition sample_disk : disk watched :=
  mkDisk sample_device {[0x80010000 := cleared_queue]} ∅ [] 0x80020000 (mkWatched ∅ []).

Lemma sample_ready : ready sample_disk 0x80010000 cleared_queue 0.
Proof. constructor; reflexivity. Qed.

Lemma cleared_ring i : ring_ok cleared_queue i [].
Proof. constructor; [reflexivity|reflexivity|]. intros j o Hj. discriminate. Qed.

(** A read of two sectors and a write of one. *)
Lemma block_requests_witness : ∃ s' q',
  issue_all [mkCommand 0 0x80030000 1024 512 false; mkCommand 1 0x80040000 512 0 true] sample_disk =
    Ret ([Value 0x80020000; Value 0x80020028], s') ∧ d_queues s' !! 0x80010000 = Some q' ∧
  last_available q' 2 =
    [[(0x80020000, 16, false); (0x80030000, 1024, true); (0x80020018, 1, true)];
     [(0x80020028, 16, false); (0x80040000, 512, false); (0x80020040, 1, true)]].
Proof.
  destruct (block_requests sample_disk 0x80010000 0 cleared_queue [] sample_ready (cleared_ring 0)) as (_ & Hq & _).
  destruct (Hq [mkCommand 0 0x80030000 1024 512 false; mkCommand 1 0x80040000 512 0 true]) as (rs & s' & q' & Hi & Hiss & Hl);
    [repeat constructor|simpl; lia|].
  assert (rs = [0x80020000; 0x80020028]) as ->.
  { assert (∃ x, issue_all [mkCommand 0 0x80030000 1024 512 false; mkCommand 1 0x80040000 512 0 true] sample_disk =
      Ret ([Value 0x80020000; Value 0x80020028], x)) as [x Hx] by (eexists; vm_compute; reflexivity).
    rewrite Hx in Hi. injection Hi as Hrs _. destruct rs as [|? [|? [|? ?]]]; simpl in Hrs; congruence. }
  exists s', q'. split; [exact Hi|]. split; [exact (ready_at _ _ _ _ (issued_ready _ _ _ _ _ _ _ _ _ Hiss))|].
  etrans; [exact Hl|reflexivity].
Defined.

(** ** The block device *)
Section BlockDevices.
Context {D : Type} `{Bus D}.
Implicit Types (b : BlockDevice (D := D)).

(** The ids of the requests are distinct and were given out. *)
Definition ids_ok b : Prop := NoDup (async_id <$> b_requests b) ∧ Forall (λ r, async_id r < b_next_id b) (b_requests b).

Lemma block_async_ids is_write buffer size offset b r b' :
  block_async is_write buffer size offset b = Ret (r, b') → ids_ok b → ids_ok b'.
Proof.
  unfold block_async. destruct (negb (b_driver b)); intros Ha [Hn Hl]; inv_outcome; [by split|]. split; cbn.
  - rewrite fmap_app. apply NoDup_app. split; [done|]. split; [|apply NoDup_singleton]. intros z Hx Hz.
    apply list_elem_of_singleton in Hz as ->. apply list_elem_of_fmap in Hx as (y & Heq & Hy). rewrite Forall_forall in Hl.
    specialize (Hl y Hy). cbn in *. lia.
  - apply Forall_app. split; [|apply Forall_singleton; cbn; lia]. eapply Forall_impl; [exact Hl|]. intros y Hy. cbv beta in *. lia.
Qed.

(** The request with an id is found. *)
Lemma call_of_known b r q :
  ids_ok b → q ∈ b_requests b → async_id q = result_id r → call_of (b_requests b) r = Some (q, result_type r).
Proof.
  intros [Hn _] Hq Hid. unfold call_of. destruct (list_find _ _) as [[i x]|] eqn:E.
  - apply list_find_Some in E as (Hi & Hx & _). pose proof Hq as Hq'. apply list_elem_of_lookup in Hq' as [j Hj].
    assert (i = j) as ->. { apply (NoDup_lookup _ i j (async_id q) Hn); rewrite list_lookup_fmap, ?Hi, ?Hj; cbn; congruence. }
    congruence.
  - apply list_find_None in E. rewrite Forall_forall in E. by destruct (E q Hq).
Qed.

(** The callback of a completion. *)
Definition called b (c : completion) (call : callback) : Prop :=
  call.1 ∈ b_requests b ∧ async_id call.1 = request_id (u_content c) ∧
  call.2 = (if status (u_content c) =? 0 then Ok else Failed).

Definition known b (c : completion) : Prop := ∃ q, q ∈ b_requests b ∧ async_id q = request_id (u_content c).

Lemma calls_known b cs :
  ids_ok b → Forall (known b) cs →
  Forall2 (called b) cs (omap (call_of (b_requests b)) (result_of <$> cs)).
Proof.
  intros Hb. induction 1 as [|c cs (q & Hq & Hid) _ IH]; [constructor|]. rewrite fmap_cons. cbn [omap list_omap].
  rewrite (call_of_known b (result_of c) q) by done. by constructor.
Qed.
End BlockDevices.

(** C30: completions, for as long as the device has put at most 127 requests on the
    used ring since the queue was made ([completed_index]; with the 128th the handler
    no longer returns, [block_waiting]).  An interrupt of the block device reports
    every request that the device put on the used ring since the last interrupt exactly
    once and in order, to the success or failure callback by its status; the requests that are
    polled for are not reported.  Every one of them is freed and the address in its
    first descriptor is cleared, and nothing remains to be acknowledged; other
    requests are untouched.  The ids of asynchronous requests stay distinct, so
    that the callback is the one of the request. *)
Theorem block_completions {D} `{Bus D} (b : BlockDevice (D := D)) (p ack : Z) (q : VirtQueue) (cs : list completion) (fuel : nat) :
  b_driver b = true → ids_ok b → completed (b_disk b) p q ack cs → NoDup (d_ignored (b_disk b)) → (length cs < fuel)%nat →
  let reported := filter (λ c, u_request c ∉ d_ignored (b_disk b)) cs in
  Forall (known b) reported →
  (∃ calls b' q', block_handle_interrupt fuel b = Ret (Value tt, calls, b') ∧
     Forall2 (called b) reported calls ∧ drained (b_disk b) p ack cs (b_disk b') q' ∧
     b_requests b' = b_requests b ∧ ids_ok b' ∧
     get_next_used_descriptor (b_disk b') = Ret (fail_with "No used descriptor available.", b_disk b')) ∧
  (∀ is_write buffer size offset r b', block_async is_write buffer size offset b = Ret (r, b') → ids_ok b' ∧
     (r = Value tt → ∃ request, b_requests b' = b_requests b ++ [request] ∧ async_id request = b_next_id b)).
Proof.
  intros Hdrv Hids Hc Hnd Hf reported Hknown. split.
  - destruct (notify_drains cs (b_disk b) p q ack [] fuel Hc Hnd Hf) as (s' & q' & Hn & Hdr & Hk).
    unfold block_handle_interrupt. rewrite Hdrv. cbn [negb]. rewrite Hn. cbn [obind fst snd app].
    eexists _, _, q'. split; [done|]. split; [by apply calls_known|]. split; [done|]. split; [done|]. split; [done|]. cbn [b_disk].
    destruct Hdr as [Hs Ha _ _ _ _ Hx]. unfold get_next_used_descriptor. rewrite Hs, Ha. cbn [obind fst snd].
    by rewrite Hx, Z.eqb_refl.
  - intros is_write buffer size offset r b' Ha. split; [by eapply block_async_ids|]. intros ->.
    unfold block_async in Ha. rewrite Hdrv in Ha. cbn [negb] in Ha. inv_outcome. by eexists.
Qed.

(** The device finished the read of request 0. *)
Definition finished_disk (index : Z) : disk watched :=
  let q := mkQueue (<[0%nat := mkDescriptor 0x80020000 16 1 1]> (descriptors cleared_queue)) (available cleared_queue)
             (mkUsed index (<[0%nat := (0, 513)]> (u_ring (used cleared_queue)))) in
  mkDisk sample_device {[0x80010000 := q]} {[0x80020000 := mkRequest (mkHeader 0 0 1) 0x80030000 0 0]} [] 0x80020028 (mkWatched ∅ []).

Definition finished_block : BlockDevice (D := watched) := mkBlock true [mkAsync 0 0x80030000 512 512 false] 1 (finished_disk 1).

Lemma block_completions_witness : ∃ b',
  block_handle_interrupt 2 finished_block = Ret (Value tt, [(mkAsync 0 0x80030000 512 512 false, Ok)], b') ∧
  d_requests (b_disk b') !! 0x80020000 = None.
Proof.
  pose (c := mkCompletion 0 0x80020000 (mkRequest (mkHeader 0 0 1) 0x80030000 0 0)).
  edestruct (block_completions finished_block 0x80010000 0) with (cs := [c]) (fuel := 2%nat) as ((calls & b' & q' & Hi & Hcalls & Hd & _) & _);
    [reflexivity| | | |simpl; lia| |].
  - split; [apply NoDup_singleton|]. repeat constructor.
  - constructor; [reflexivity|split; [reflexivity|lia]| |split; reflexivity| | |apply NoDup_singleton].
    + intros [|k] x Hx; [|discriminate]. injection Hx as <-. by eexists.
    + repeat constructor. eexists. split; reflexivity.
    + repeat constructor.
  - constructor.
  - repeat constructor. exists (mkAsync 0 0x80030000 512 512 false). split; [by apply list_elem_of_singleton|reflexivity].
  - exists b'. apply Forall2_cons_inv_l in Hcalls as ([a t] & calls' & (Ha & _ & Ht) & Hnil & ->).
    apply Forall2_nil_inv_l in Hnil as ->. apply list_elem_of_singleton in Ha. cbn in Ha, Ht. subst.
    split; [exact Hi|]. rewrite (drained_requests _ _ _ _ _ _ Hd). reflexivity.
Defined.

(** C31: the loops that wait for the device.  Polling returns as soon as the
    device changed the status of the request, whatever the number of reads that
    takes: with success and the request set aside when it is 0, and otherwise with
    an error and the request freed; while the status does not change it never
    returns.  The loop of the interrupt handler compares an acknowledgement
    modulo 128 with an index that the device does not reduce: from the 128th
    completion on no number of iterations ends it with a result.  A used element
    that names a request that was freed, as the polling functions do after a
    failure, makes it access freed memory. *)
Theorem block_waiting {D} `{Bus D} (s : disk D) (p : Z) (q : VirtQueue) :
  selected s = Ret (p, q) →
  (∀ wait is_write buffer size offset request s1,
     issue (mkCommand 0 buffer size offset is_write) s = Ret (Value request, s1) →
     (∀ n x fuel, (n < fuel)%nat →
        (∀ k, (k < n)%nat → ∃ y, d_requests (Nat.iter k wait s1) !! request = Some y ∧ status y = status_value) →
        d_requests (Nat.iter n wait s1) !! request = Some x → status x ≠ status_value →
        driver_poll wait is_write buffer size offset fuel s =
          let s' := Nat.iter n wait s1 in
          if status x =? 0 then Ret (Value tt, with_ignored s' (d_ignored s' ++ [request]))
          else Ret (fail_with (poll_message is_write), with_heap s' (delete request (d_requests s')))) ∧
     ((∀ k, ∃ y, d_requests (Nat.iter k wait s1) !! request = Some y ∧ status y = status_value) →
        ∀ fuel, driver_poll wait is_write buffer size offset fuel s = NoFuel)) ∧
  (∀ ack results fuel r,
     Array.get (m_queue_acks (d_device s)) (m_selected_queue (d_device s)) = Ret ack → 0 ≤ ack < VIRTIO_RING_SIZE →
     VIRTIO_RING_SIZE ≤ u_index (used q) → driver_notify results fuel s ≠ Ret r) ∧
  (∀ ack h len d results fuel,
     Array.get (m_queue_acks (d_device s)) (m_selected_queue (d_device s)) = Ret ack → 0 ≤ ack < u_index (used q) →
     u_index (used q) < VIRTIO_RING_SIZE →
     u_ring (used q) !! Z.to_nat ack = Some (h, len) → descriptors q !! Z.to_nat h = Some d →
     d_requests s !! address d = None → NoDup (d_ignored s) → driver_notify results (S fuel) s = Undef).
Proof.
  intros Hs. split_and!.
  - intros wait is_write buffer size offset request s1 Hi. unfold issue in Hi. cbn [c_id c_buffer c_size c_offset c_write] in Hi.
    unfold driver_poll. rewrite Hi. cbn [obind fst snd]. split.
    + intros n x fuel Hf Hp Hx Hne. by apply (poll_status_spec wait request _ n).
    + intros Hp fuel. by apply poll_status_pending.
  - intros ack results fuel r Ha [? ?] Hu. by eapply notify_stuck.
  - intros ack h len d results fuel Ha Hack Hu Hr Hd Hfree Hnd. cbn [driver_notify]. unfold get_next_used_descriptor.
    rewrite Hs, Ha. cbn [obind fst snd]. rewrite (proj2 (Z.eqb_neq ack _)) by lia. unfold VIRTIO_RING_SIZE in *.
    rewrite (Z.mod_small ack) by lia. rewrite Hr. cbn [defined obind fst snd]. rewrite Hd. cbn [defined obind].
    destruct (array_get_store _ _ _ Ha (u64 (ack + 1) mod 128)) as (a & -> & _). cbn [obind fst snd].
    unfold take_used. change (selected (with_device s (with_acks (d_device s) a))) with (selected s). rewrite Hs.
    cbn [obind fst snd]. rewrite Hd. cbn [defined obind d_ignored with_device].
    destruct (remove_ignored _ _); unfold delete_request; cbn; by rewrite Hfree.
Qed.

(** A used element whose request was freed; a poll that takes two reads. *)
Definition completing (s : disk watched) : disk watched :=
  with_heap s (<[0x80020000 := mkRequest (mkHeader 0 0 1) 0x80030000 0 0]> (d_requests s)).

Lemma block_waiting_witness :
  driver_notify [] 1 (with_heap (finished_disk 1) ∅) = Undef ∧
  ∃ s', driver_poll completing false 0x80030000 512 512 2 sample_disk = Ret (Value tt, s') ∧ d_ignored s' = [0x80020000].
Proof.
  split.
  - destruct (block_waiting (with_heap (finished_disk 1) ∅) 0x80010000 _ eq_refl) as (_ & _ & Hfree).
    by apply (Hfree 0 0 513 (mkDescriptor 0x80020000 16 1 1) [] 0%nat eq_refl); [cbn; lia|cbn; unfold VIRTIO_RING_SIZE; lia|reflexivity|reflexivity|reflexivity|constructor].
  - destruct (block_waiting sample_disk 0x80010000 cleared_queue eq_refl) as (Hpoll & _ & _).
    assert (∃ s1, issue (mkCommand 0 0x80030000 512 512 false) sample_disk = Ret (Value 0x80020000, s1) ∧ d_ignored s1 = [] ∧
      d_requests s1 = {[0x80020000 := request_of (mkCommand 0 0x80030000 512 512 false)]}) as (s1 & Hi & Hig & Hr)
      by (eexists; split; [reflexivity|split; reflexivity]).
    eexists. split; [|shelve].
    rewrite (proj1 (Hpoll completing false 0x80030000 512 512 0x80020000 s1 Hi) 1%nat (mkRequest (mkHeader 0 0 1) 0x80030000 0 0) 2%nat);
      [reflexivity|lia| |cbn; by rewrite lookup_insert_eq|discriminate].
    intros k Hk. replace k with 0%nat by lia. cbn. rewrite Hr. eexists. split; reflexivity.
    Unshelve. cbn. by rewrite Hig.
Defined.

(** * Initialisation *)
Section Initialisation.
Implicit Types (d : watched) (r : MMIODeviceRegisterLayout).

Definition reads (device : Z) r d : Z := register (values d) (device + offset_of r).

Lemma offset_of_inj r r' : offset_of r = offset_of r' → r = r'.
Proof. destruct r, r'; cbn; congruence. Qed.

Lemma get_reads device r d : get_register_value device r d = (reads device r d, d).
Proof. done. Qed.

Lemma set_reads_eq device r v d : reads device r (set_register_value device r v d) = u32 v.
Proof. unfold reads, set_register_value. cbn [store watched_file values]. rewrite register_store_eq. apply wrap_wrap. Qed.

Lemma set_reads_ne device r r' v d : r ≠ r' → reads device r' (set_register_value device r v d) = reads device r' d.
Proof.
  intros Hne. unfold reads, set_register_value. cbn [store watched_file values]. apply register_store_ne.
  intros Heq. apply Hne, offset_of_inj. lia.
Qed.

Lemma set_stores device r v d : stores (set_register_value device r v d) = stores d ++ [(device + offset_of r, u32 v)].
Proof. unfold set_register_value. cbn [store watched_file stores]. by rewrite wrap_wrap. Qed.

(** The registers written, in order. *)
Definition writes (device : Z) (l : list (MMIODeviceRegisterLayout * Z)) : list (Z * Z) :=
  (λ x, (device + offset_of x.1, x.2)) <$> l.

Lemma negotiate_spec device features d :
  in_word 32 features →
  let ok := Z.land (reads device HostFeatures d) features =? features in
  ∃ d', negotiate device features d =
      (if ok then Value 11 else fail_with "Device does not support required features.", d') ∧
    (∀ r, r ≠ Status → r ≠ GuestFeatures → reads device r d' = reads device r d) ∧
    stores d' = stores d ++ writes device ([(Status, 0); (Status, 1); (Status, 3)] ++
                              (if ok then [(GuestFeatures, features); (Status, 11)] else [])).
Proof.
  intros Hf ok. unfold negotiate, virtio_reset. MMIODevice.registers. rewrite get_reads, set_reads_eq. change (Z.lor (u32 0) Acknowledge) with 1.
  change (Z.lor 1 Driver) with 3. rewrite get_reads, !set_reads_ne by discriminate. fold ok. destruct ok; cbn [negb].
  - rewrite get_reads, set_reads_eq. change (u32 (Z.lor 3 FeaturesOK)) with 11. cbn [Z.land FeaturesOK Pos.land Z.eqb].
    eexists. split; [reflexivity|]. split.
    + intros r H1 H2. by rewrite !set_reads_ne by congruence.
    + rewrite !set_stores, <- !app_assoc. by rewrite (wrap_small _ features).
  - eexists. split; [reflexivity|]. split.
    + intros r H1 H2. by rewrite !set_reads_ne by congruence.
    + by rewrite !set_stores, <- !app_assoc.
Qed.

(** The driver of a device that was set up. *)
Definition disk_of (s : setup (D := watched)) : disk watched := mkDisk (s_device s) (s_queues s) ∅ [] 1 (s_bus s).
End Initialisation.

(** The initialisation sequence.  [init] resets the device, acknowledges it and
    announces the driver; a device that lacks a required feature or whose queues
    are shorter than 128 is refused with an error before any queue exists and
    without DRIVER_OK.  Otherwise the features are accepted, two cleared pages of
    the page allocator become the queue, the device is told their frame number
    (computed from the low 32 bits of the address) and DRIVER_OK is the last
    store; the queue is then ready for requests, empty, with nothing to acknowledge. *)
Theorem virtio_init_sequence (s : setup (D := watched)) (features : Z) (i : nat) :
  let device := m_mmio_device (s_device s) in
  let mm := s_manager s in
  let start := [(Status, 0); (Status, 1); (Status, 3)] in
  let accepted := start ++ [(GuestFeatures, features); (Status, 11); (QueueNum, 128)] in
  let done_ := λ s' l, stores (s_bus s') = stores (s_bus s) ++ writes device l in
  in_word 32 features → m_selected_queue (s_device s) = 0 →
  wf_manager mm → first_fit (m_pages mm) 2 i → mapped (s_memory s) (page_address mm i) 1024 →
  ∃ r s', virtio_init features 1 s = Ret (r, s') ∧
    if negb (Z.land (reads device HostFeatures (s_bus s)) features =? features) then
      r = fail_with "Device does not support required features." ∧ done_ s' start ∧ s_queues s' = s_queues s
    else if reads device QueueNumMax (s_bus s) <? VIRTIO_RING_SIZE then
      r = fail_with "Device does not support required number of queues." ∧ done_ s' accepted ∧ s_queues s' = s_queues s
    else
      let a := page_address mm i in
      r = Value tt ∧
      done_ s' (accepted ++ [(QueueSel, 0); (GuestPageSize, 4096); (QueuePfn, u32 (u32 a / 4096)); (Status, 15)]) ∧
      s_manager s' = with_pages mm (list_inserts i (block 2) (m_pages mm)) ∧
      (∀ k : nat, (k < 1024)%nat → s_memory s' !! (a + 8 * Z.of_nat k) = Some 0) ∧
      ready (disk_of s') a cleared_queue 0 ∧ ring_ok cleared_queue 0 [] ∧ completed (disk_of s') a cleared_queue 0 [].
Proof.
  intros device mm start accepted done_ Hf Hsel Hwf Hfit Hmap. unfold virtio_init. fold device. MMIODevice.registers.
  change (Array.fill (Array.new 0 1) 0) with (Ret (Array.mk [Some 0] 1)). cbn [obind].
  destruct (negotiate_spec device features (s_bus s) Hf) as (d & Hn & Hr & Hst). cbn [s_bus s_device s_manager s_memory s_queues]. rewrite Hn.
  destruct (Z.land (reads device HostFeatures (s_bus s)) features =? features); cbn [negb].
  2:{ eexists _, _. split; [reflexivity|]. split; [done|]. split; [|done]. unfold done_. exact Hst. }
  rewrite get_reads, Hr by discriminate. destruct (reads device QueueNumMax (s_bus s) <? VIRTIO_RING_SIZE).
  { eexists _, _. split; [reflexivity|]. split; [done|]. split; [|done]. unfold done_. cbn [s_bus on_bus].
    rewrite set_stores, Hst, <- app_assoc. f_equal. }
  change ((sizeof_VirtQueue + PAGE_SIZE - 1) / PAGE_SIZE) with (Z.of_nat 2). change (Z.to_nat 1) with 1%nat. cbn [allocate_queues].
  destruct (zalloc_ok mm (s_memory s) 2 i Hwf) as (m' & Hz & Hzero & _); [lia|lia|done|done|]. fold mm. rewrite Hz. cbn [obind].
  unfold queue_at. cbn [m_virt_queues length runtime_assert Z.ltb Z.compare Z.of_nat Z.to_nat lookup list_lookup defined obind Pos.of_succ_nat].
  eexists _, _. split; [reflexivity|]. split; [done|]. split.
  - unfold done_. cbn [s_bus]. rewrite !set_stores, Hst, <- !app_assoc. reflexivity.
  - split; [done|]. split; [done|].
    match goal with |- ready ?x _ _ _ ∧ _ => assert (ready x (page_address mm i) cleared_queue 0) as Hrd end.
    { constructor; cbn; rewrite ?Hsel; [done|by rewrite lookup_insert_eq|done]. }
    split; [exact Hrd|]. split; [apply cleared_ring|].
    constructor; [exact (selected_ready _ _ _ _ Hrd)| | |by split|constructor|constructor|constructor].
    + cbn. by rewrite Hsel.
    + intros k c Hk. by rewrite lookup_nil in Hk.
Qed.

Lemma virtio_init_sequence_witness : ∃ s',
  virtio_init 0 1 (mkSetup (mkVirtIODevice 0x10001000 [] (Array.new 0 0) (Array.new 0 0) 0) (sample_manager sample_table)
    (zero_page_memory 2147504128 7 1024) ∅ (mkWatched {[0x10001034 := 1024]} [])) = Ret (Value tt, s') ∧
  stores (s_bus s') =
    [(0x10001070, 0); (0x10001070, 1); (0x10001070, 3); (0x10001020, 0); (0x10001070, 11); (0x10001038, 128);
     (0x10001030, 0); (0x10001028, 4096); (0x10001040, 524293); (0x10001070, 15)].
Proof.
  destruct (virtio_init_sequence (mkSetup (mkVirtIODevice 0x10001000 [] (Array.new 0 0) (Array.new 0 0) 0)
    (sample_manager sample_table) (zero_page_memory 2147504128 7 1024) ∅ (mkWatched {[0x10001034 := 1024]} [])) 0 4
    ltac:(done) eq_refl sample_wf sample_fit (zero_page_memory_mapped 2147504128 7 1024 eq_refl)) as (r & s' & Hi & Hs).
  change (negb _) with false in Hs. cbn iota in Hs.
  assert (reads 0x10001000 QueueNumMax (mkWatched {[0x10001034 := 1024]} []) = 1024) as Hq by reflexivity.
  cbn [s_bus s_device m_mmio_device] in Hs. rewrite Hq in Hs. cbn in Hs. destruct Hs as (-> & Hst & _).
  exists s'. split; [exact Hi|]. rewrite Hst. reflexivity.
Defined.
