(* ===== verification/QueueArrays.v ===== *)
(** [class VirtQueueArray] of [Drivers/VirtIO/VirtQueue.h] as an object: its array
    on the heap, the move in [VirtIODevice::init], and the destructor that gives the
    queues back to the page allocator.  ([VirtIO.v] has the array of a device as the
    list of its queues.) *)
From S2P Require Import Prelude Bits PageAllocator.

(** The members have no initialisers: [None] is what a default-constructed array
    holds. *)
Record VirtQueueArray : Type := mkQueueArray { m_queues : option Z; m_number_of_queues : option Z }.

(** The arrays of pointers on the heap, by address; [None] is an element that was
    not stored yet. *)
Abbreviation arrays := (gmap Z (list (option Z))).

Definition default_array : VirtQueueArray := mkQueueArray None None.

(** [operator new[]] gives [address]. *)
Definition new_array (address num_queues : Z) (h : arrays) : VirtQueueArray * arrays :=
  (mkQueueArray (Some address) (Some num_queues), <[address := replicate (Z.to_nat num_queues) None]> h).

(** The assignment from another object; the members of [other], unless they were
    never set, are read. *)
Definition move_assign (this other : VirtQueueArray) : outcome (VirtQueueArray * VirtQueueArray) :=
  let! q := defined (m_queues other) in
  let! n := defined (m_number_of_queues other) in
  Ret (mkQueueArray (Some q) (Some n), mkQueueArray (Some 0) (Some 0)).

Definition get_queues (this : VirtQueueArray) : outcome Z := defined (m_queues this).
Definition get_number_of_queues (this : VirtQueueArray) : outcome Z := defined (m_number_of_queues this).

(** [operator[]]: the elements of the array, and a store to one. *)
Definition elements (this : VirtQueueArray) (h : arrays) : outcome (Z * list (option Z)) :=
  let! q := defined (m_queues this) in let! l := defined (h !! q) in Ret (q, l).
Definition queue_get (this : VirtQueueArray) (h : arrays) (index : Z) : outcome Z :=
  let! n := defined (m_number_of_queues this) in
  runtime_assert (index <? n)
    (let! a := elements this h in let! x := defined (a.2 !! Z.to_nat index) in defined x).
Definition queue_set (this : VirtQueueArray) (h : arrays) (index queue : Z) : outcome arrays :=
  let! n := defined (m_number_of_queues this) in
  runtime_assert (index <? n)
    (let! a := elements this h in
     if bool_decide (Z.to_nat index < length a.2)%nat then Ret (<[a.1 := <[Z.to_nat index := Some queue]> a.2]> h) else Undef).

(** The loop of the destructor, over the first [n] elements. *)
Fixpoint dealloc_queues (l : list (option Z)) (n : nat) (mm : MemoryManager) : outcome MemoryManager :=
  match n with
  | O => Ret mm
  | S n' =>
      match l with
      | [] => Undef
      | x :: l' => let! p := defined x in let! mm := dealloc mm p in dealloc_queues l' n' mm
      end
  end.

(** [delete] of the null pointer does nothing; the array is not read when there are
    no queues. *)
Definition destroy (this : VirtQueueArray) (h : arrays) (mm : MemoryManager) : outcome (arrays * MemoryManager) :=
  let! n := defined (m_number_of_queues this) in
  let! mm := if n =? 0 then Ret mm else let! a := elements this h in dealloc_queues a.2 (Z.to_nat n) mm in
  let! q := defined (m_queues this) in
  if q =? 0 then Ret (h, mm) else let! _ := defined (h !! q) in Ret (delete q h, mm).

(** [m_virt_queues = VirtQueueArray(number)]: the temporary is destroyed. *)
Definition replace_array (this : VirtQueueArray) (address number : Z) (h : arrays) (mm : MemoryManager)
    : outcome (VirtQueueArray * arrays * MemoryManager) :=
  let '(temporary, h) := new_array address number h in
  let! r := move_assign this temporary in
  let! d := destroy r.2 h mm in
  Ret (r.1, d.1, d.2).

(** * Who owns the queues *)
Lemma dealloc_queues_frees ps : ∀ mm live,
  client_inv mm live → NoDup ps → Forall (λ p, is_Some (live !! p)) ps →
  ∃ mm', dealloc_queues (map Some ps) (length ps) mm = Ret mm' ∧ client_inv mm' (foldr delete live (rev ps)).
Proof.
  induction ps as [|p ps IH]; intros mm live Hi Hnd Hl; [by exists mm|].
  apply NoDup_cons in Hnd as [Hni Hnd]. apply Forall_cons in Hl as [[n Hn] Hl].
  destruct (inv_blocks _ _ Hi _ _ Hn) as (i & Hi1 & -> & Hb). cbn [map dealloc_queues length defined obind].
  rewrite (dealloc_frees _ _ _ (inv_wf _ _ Hi) Hb). cbn [obind].
  destruct (IH _ _ (client_inv_dealloc _ _ _ _ Hi Hn Hb Hi1) Hnd) as (mm' & -> & Hi').
  - apply Forall_forall. intros q Hq. rewrite lookup_delete_ne by (by intros <-). by eapply Forall_forall in Hl.
  - exists mm'. split; [done|]. cbn [rev]. by rewrite foldr_app.
Qed.

(** An array that holds blocks of the page allocator gives back exactly these: the
    allocator stays consistent for the blocks that are left, and the array is freed. *)
Theorem queues_released this h mm live q ps :
  client_inv mm live → NoDup ps → Forall (λ p, is_Some (live !! p)) ps → q ≠ 0 →
  this = mkQueueArray (Some q) (Some (Z.of_nat (length ps))) → h !! q = Some (map Some ps) →
  ∃ mm', destroy this h mm = Ret (delete q h, mm') ∧ client_inv mm' (foldr delete live (rev ps)).
Proof.
  intros Hi Hnd Hl Hq -> Hh. destruct (dealloc_queues_frees ps mm live Hi Hnd Hl) as (mm' & Hd & Hi').
  exists mm'. split; [|done]. unfold destroy, elements. cbn [m_queues m_number_of_queues defined obind].
  rewrite Hh, Nat2Z.id. cbn [defined obind fst snd]. rewrite Hd, (proj2 (Z.eqb_neq q 0) Hq).
  destruct (Z.eqb_spec (Z.of_nat (length ps)) 0) as [E|E]; [|done].
  destruct ps; [|done]. cbn in Hd. by injection Hd as <-.
Qed.

(** The move: no queue is released, neither those of the temporary nor those that
    the array had before; the old array stays on the heap without an owner. *)
Lemma replace_array_keeps this address number h mm :
  replace_array this address number h mm =
    Ret (mkQueueArray (Some address) (Some number), <[address := replicate (Z.to_nat number) None]> h, mm).
Proof. reflexivity. Qed.

(** Destroying an array before [init], or before its elements are stored, is
    undefined. *)
Lemma unset_array_destroyed h mm address number :
  destroy default_array h mm = Undef ∧
  (address ≠ 0 → 0 < number →
     destroy (new_array address number h).1 (new_array address number h).2 mm = Undef).
Proof.
  split; [done|]. intros Ha Hn. unfold destroy, elements. cbn [new_array fst snd m_queues m_number_of_queues defined obind].
  rewrite (proj2 (Z.eqb_neq _ _)), lookup_insert_eq by lia. cbn [defined obind snd].
  destruct (Z.to_nat number) eqn:E; [lia|]. done.
Qed.

(** Two queues of two pages each. *)
Example two_queues :
  let mm := sample_manager [Last; Taken; Last; Taken; Last; Last; Free] in
  let h := {[ 64 := [Some (page_address mm 1); Some (page_address mm 3)] ]} in
  destroy (mkQueueArray (Some 64) (Some 2)) h mm =
    Ret (∅, sample_manager [Last; Free; Free; Free; Free; Last; Free]).
Proof. vm_compute. reflexivity. Qed.
