(* ===== verification/DeviceTree.v ===== *)
(** The device tree: [Firmware/FDT/FDT.h], [FDTParser.h], [FDTParser.cpp] and
    [Firmware/DeviceTree.cpp].

    The flattened tree is a sequence of bytes, shorter than 2^31, that lies at
    the address of its header; a read outside of it is [Undef].  A [String] is its
    text; [Strings.v] relates texts to the buffers.  The nodes are values, since
    the parser hands every node to exactly one parent. *)
From S2P Require Import Prelude Bits Bytes Endian Strings.

(** * [FDT.h] *)
Inductive header_word : Type :=
| magic | totalsize | off_dt_struct | off_dt_strings | off_mem_rsvmap | version
| last_comp_version | boot_cpuid_phys | size_dt_strings | size_dt_struct.

Definition header_offset (f : header_word) : Z :=
  match f with
  | magic => 0 | totalsize => 4 | off_dt_struct => 8 | off_dt_strings => 12 | off_mem_rsvmap => 16 | version => 20
  | last_comp_version => 24 | boot_cpuid_phys => 28 | size_dt_strings => 32 | size_dt_struct => 36
  end.

Record FDTReserveEntry : Type := mkEntry { e_address : Z; e_size : Z }.
Definition sizeof_FDTReserveEntry : Z := 16.
Definition sizeof_FDTProp : Z := 8.

Definition FDT_BEGIN_NODE : Z := 1.
Definition FDT_END_NODE : Z := 2.
Definition FDT_PROP : Z := 3.
Definition FDT_NOP : Z := 4.
Definition FDT_END : Z := 9.

(** * [FDTParser.h] *)
Record FDTProperty : Type := mkProperty { p_name : bytes; p_value : bytes }.

Inductive FDTNode : Type := Node (name : bytes) (properties : list FDTProperty) (children : list FDTNode).

Definition m_name (n : FDTNode) : bytes := match n with Node x _ _ => x end.
Definition m_properties (n : FDTNode) : list FDTProperty := match n with Node _ x _ => x end.
Definition m_children (n : FDTNode) : list FDTNode := match n with Node _ _ x => x end.

(** [new FDTNode()] and what the parser changes of it. *)
Definition new_node : FDTNode := Node [] [] [].
Definition set_name (n : FDTNode) (name : bytes) : FDTNode := Node name (m_properties n) (m_children n).
Definition add_property (n : FDTNode) (p : FDTProperty) : FDTNode := Node (m_name n) (m_properties n ++ [p]) (m_children n).
Definition add_child (n child : FDTNode) : FDTNode := Node (m_name n) (m_properties n) (m_children n ++ [child]).

(** '@' *)
Definition at_sign : Z := 64.
Definition slash : Z := 47.

(** [splitted[0]]: the first element of an empty list is not an object. *)
Definition get_name (n : FDTNode) : outcome bytes := defined (head (split_spec at_sign (m_name n))).

Definition get_address (n : FDTNode) : outcome bytes :=
  let splitted := split_spec at_sign (m_name n) in
  if Nat.eqb (length splitted) 1 then Ret [] else defined (splitted !! 1%nat).

Definition find_property (n : FDTNode) (name : bytes) : ErrorOr FDTProperty Error :=
  match list_find (λ p, p_name p = name) (m_properties n) with
  | Some (_, p) => Value p
  | None => fail_with "Property not found"
  end.

Definition number_of_u32_values (p : FDTProperty) : Z := u32 (Z.of_nat (length (p_value p)) / 4).
Definition is_empty (p : FDTProperty) : bool := Nat.eqb (length (p_value p)) 0.

(** [get_value_as_u32]: the buffer of the string has a NUL behind the text. *)
Definition get_value_as_u32 (p : FDTProperty) (index : Z) : outcome Z :=
  let stored := take 4 (drop (Z.to_nat (4 * index)) (p_value p ++ [0])) in
  if Nat.eqb (length stored) 4 then Ret (in_system_endian Big 4 (of_le_bytes stored)) else Undef.

(** * [FDTParser.cpp] *)
Section FDTParser.

(** The header and everything behind it. *)
Variable m_header : Z.
Variable blob : bytes.

Definition bytes_at (address : Z) (n : Z) : outcome bytes :=
  if (m_header <=? address) && (address - m_header + n <=? Z.of_nat (length blob))
  then Ret (take (Z.to_nat n) (drop (Z.to_nat (address - m_header)) blob)) else Undef.

(** [*pointer] of 4 or 8 bytes, as the machine reads it. *)
Definition load_word (address size : Z) : outcome Z := let! l := bytes_at address size in Ret (of_le_bytes l).

(** [String(reinterpret_cast<char*>(pointer))]. *)
Definition cstring_at (address : Z) : outcome bytes :=
  if m_header <=? address then cstring_text (drop (Z.to_nat (address - m_header)) blob) else Undef.

(** [*m_header->field]. *)
Definition header_field (f : header_word) : outcome Z :=
  let! w := load_word (m_header + header_offset f) 4 in Ret (in_system_endian Big 4 w).

(** The mask is a 32-bit number, which clears the upper half of the address. *)
Definition align_to (alignment address : Z) : Z := Z.land (u64 (address + alignment - 1)) (u32 (Z.lnot (alignment - 1))).

Definition load_entry (address : Z) : outcome FDTReserveEntry :=
  let! a := load_word address 8 in
  let! s := load_word (address + 8) 8 in Ret (mkEntry (in_system_endian Big 8 a) (in_system_endian Big 8 s)).

(** The loop of [parse_reserve_entries]. *)
Fixpoint reserve_loop (fuel : nat) (address : Z) (entries : list FDTReserveEntry) : outcome (list FDTReserveEntry) :=
  match fuel with
  | O => NoFuel
  | S fuel' =>
      let! e := load_entry address in
      if negb (e_address e =? 0) && negb (e_size e =? 0)
      then reserve_loop fuel' (address + sizeof_FDTReserveEntry) (entries ++ [e]) else Ret entries
  end.

Definition parse_reserve_entries (fuel : nat) : outcome (list FDTReserveEntry) :=
  let! off := header_field off_mem_rsvmap in reserve_loop fuel (m_header + off) [].

Inductive ParserState : Type := NoState | BeginNode | NodeName | EndNode | Prop_ | End_.

(** [prop] at an address: its name, its value and the length of the value. *)
Definition load_property (address : Z) : outcome (FDTProperty * Z) :=
  let! off := header_field off_dt_strings in
  let! o := load_word (address + 4) 4 in
  let! name := cstring_at (m_header + off + in_system_endian Big 4 o) in
  let! l := load_word address 4 in
  let len := in_system_endian Big 4 l in
  let! value := bytes_at (address + sizeof_FDTProp) len in
  Ret (mkProperty name value, len).

(** The loop of [parse_node]: its result and [*offset] afterwards.  [offset] is
    the value of [*offset] before, which stays when there is no node.  A child and
    what follows it get the same fuel: the fuel bounds the chain of iterations that
    leads from the first one to any other, the nested nodes that enclose it included,
    and not the number of all iterations ([node_iterations]). *)
Fixpoint node_loop (fuel : nat) (offset : Z) (state : ParserState) (current_node : FDTNode) (current_offset : Z)
    : outcome (option FDTNode * Z) :=
  match fuel with
  | O => NoFuel
  | S fuel' =>
      let! size := header_field size_dt_struct in
      if negb (u64 (current_offset - m_header) <? size) then Ret (Some current_node, current_offset)
      else
        let! w := load_word current_offset 4 in
        let type := bswap 4 w in
        match state with
        | NoState =>
            if type =? FDT_BEGIN_NODE then node_loop fuel' offset BeginNode current_node (current_offset + 4)
            else Ret (None, offset)
        | BeginNode =>
            let! name := cstring_at current_offset in
            node_loop fuel' offset NodeName (set_name current_node name) (align_to 4 (current_offset + Z.of_nat (length name)))
        | NodeName =>
            if (type =? 0) || (type =? FDT_NOP) then node_loop fuel' offset NodeName current_node (current_offset + 4)
            else if type =? FDT_PROP then node_loop fuel' offset Prop_ current_node (current_offset + 4)
            else if type =? FDT_BEGIN_NODE then
              let! r := node_loop fuel' current_offset NoState new_node current_offset in
              let '(child_node, current_offset) := r in
              let current_node := match child_node with Some c => add_child current_node c | None => current_node end in
              node_loop fuel' offset NodeName current_node (current_offset + 4)
            else if type =? FDT_END_NODE then node_loop fuel' offset EndNode current_node current_offset
            else if type =? FDT_END then node_loop fuel' offset End_ current_node (current_offset + 4)
            else Ret (None, offset)
        | Prop_ =>
            let! r := load_property current_offset in
            node_loop fuel' offset NodeName (add_property current_node r.1)
              (align_to 4 (current_offset + sizeof_FDTProp + r.2))
        | EndNode => Ret (Some current_node, current_offset)
        | End_ => node_loop fuel' offset End_ current_node (current_offset + 4)
        end
  end.

Definition parse_node (fuel : nat) (offset : Z) : outcome (option FDTNode * Z) := node_loop fuel offset NoState new_node offset.

(** [m_root_node] afterwards. *)
Definition parse_nodes (fuel : nat) : outcome (option FDTNode) :=
  let! off := header_field off_dt_struct in
  let! r := parse_node fuel (m_header + off) in Ret r.1.

Definition parse (fuel : nat) : outcome (list FDTReserveEntry * option FDTNode) :=
  let! entries := parse_reserve_entries fuel in
  let! root := parse_nodes fuel in Ret (entries, root).

(** [DeviceTree::init]: the tree, when there is none yet. *)
Definition device_tree_init (fuel : nat) (device_tree : option (list FDTReserveEntry * option FDTNode))
    : outcome (option (list FDTReserveEntry * option FDTNode)) :=
  match device_tree with
  | Some t => Ret (Some t)
  | None =>
      let! m := header_field magic in
      runtime_assert (m =? 0xd00dfeed) (let! t := parse fuel in Ret (Some t))
  end.
End FDTParser.

(** * Searching *)

(** The loop of [find_node]: where it stops, and how many components of the path it found. *)
Fixpoint find_loop (fuel : nat) (path : list bytes) (current_node : FDTNode) (i path_array_index : nat)
    : outcome (FDTNode * nat) :=
  match fuel with
  | O => NoFuel
  | S fuel' =>
      match m_children current_node !! i, path !! path_array_index with
      | Some child, Some component =>
          let! name := get_name child in
          if bool_decide (name = component) then find_loop fuel' path child 0 (S path_array_index)
          else find_loop fuel' path current_node (S i) path_array_index
      | _, _ => Ret (current_node, path_array_index)
      end
  end.

Definition find_node (fuel : nat) (root : FDTNode) (path : bytes) : outcome (ErrorOr FDTNode Error) :=
  let path_array := split_spec slash path in
  let! r := find_loop fuel path_array root 0 0 in
  if Nat.eqb r.2 (length path_array) then Ret (Value r.1) else Ret (fail_with "Node not found").

(** The loop of [find_nodes]. *)
Fixpoint find_nodes_loop (fuel : nat) (path : list bytes) (current_node : FDTNode) (i path_array_index : nat)
    (nodes : list FDTNode) : outcome (list FDTNode) :=
  match fuel with
  | O => NoFuel
  | S fuel' =>
      match m_children current_node !! i, path !! path_array_index with
      | Some child, Some component =>
          let! name := get_name child in
          if bool_decide (name = component) then
            if Nat.eqb path_array_index (length path - 1)
            then find_nodes_loop fuel' path current_node (S i) path_array_index (nodes ++ [child])
            else find_nodes_loop fuel' path child 0 (S path_array_index) nodes
          else find_nodes_loop fuel' path current_node (S i) path_array_index nodes
      | _, _ => Ret nodes
      end
  end.

Definition find_nodes (fuel : nat) (root : FDTNode) (path : bytes) : outcome (list FDTNode) :=
  find_nodes_loop fuel (split_spec slash path) root 0 0 [].

(** * Reading *)
Lemma align_4 a : 0 ≤ a → a + 3 < 2 ^ 32 → align_to 4 a = 4 * ((a + 3) / 4).
Proof.
  intros H0 H1. unfold align_to. change (u32 (Z.lnot (4 - 1))) with (Z.shiftl (Z.ones 30) 2).
  rewrite wrap_small by (unfold in_word; lia). replace (a + 4 - 1) with (a + 3) by lia.
  rewrite Z.mul_comm. change 4 with (2 ^ 2) at 2. rewrite <- Z.shiftl_mul_pow2 by lia. change 4 with (2 ^ 2).
  rewrite <- Z.shiftr_div_pow2 by lia. apply Z.bits_inj'. intros n Hn. rewrite Z.land_spec, !Z.shiftl_spec by lia.
  destruct (decide (n < 2)).
  - rewrite !(Z.testbit_neg_r _ (n - 2)) by lia. apply andb_false_r.
  - rewrite Z.shiftr_spec by lia. replace (n - 2 + 2) with n by lia. rewrite Z.testbit_ones_nonneg by lia.
    destruct (Z.ltb_spec (n - 2) 30); [apply andb_true_r|]. rewrite andb_false_r. symmetry.
    apply Z.bits_above_log2; [lia|]. destruct (decide (a + 3 = 0)) as [->|]; [simpl; lia|].
    apply (Z.lt_le_trans _ 32); [|lia]. apply Z.log2_lt_pow2; lia.
Qed.

Lemma be4_word l : in_word 32 (in_system_endian Big 4 l).
Proof. apply (bswap_word 4). Qed.

Section Reading.
Context (H : Z) (blob : bytes).
Let N : Z := Z.of_nat (length blob).

Lemma bytes_at_Ret a n l : bytes_at H blob a n = Ret l → H ≤ a ∧ a + n ≤ H + N.
Proof.
  unfold bytes_at. destruct (Z.leb_spec H a); [|done]. cbn [andb].
  destruct (Z.leb_spec (a - H + n) (Z.of_nat (length blob))); [|done]. unfold N. intros _. lia.
Qed.

Lemma load_word_Ret a n w : load_word H blob a n = Ret w → H ≤ a ∧ a + n ≤ H + N.
Proof. unfold load_word. intros Hl. inv_outcome. by eapply bytes_at_Ret. Qed.

Lemma cstring_at_Ret a t : cstring_at H blob a = Ret t → H ≤ a ∧ (a ≤ H + N → a + Z.of_nat (length t) ≤ H + N).
Proof.
  unfold cstring_at. destruct (Z.leb_spec H a); [|done]. unfold cstring_text. intros Ht. inv_outcome. split; [done|].
  intros Ha. rewrite length_take, length_drop. unfold N in *. lia.
Qed.

Lemma load_property_Ret a r : load_property H blob a = Ret r → H ≤ a ∧ 0 ≤ r.2 ∧ a + 8 + r.2 ≤ H + N.
Proof.
  unfold load_property. intros Hl. inv_outcome. cbn [snd].
  match goal with Hv : bytes_at _ _ (a + _) (in_system_endian Big 4 ?w) = _ |- _ =>
    apply bytes_at_Ret in Hv; pose proof (be4_word w) as [Hw _] end.
  match goal with Hw : load_word _ _ a 4 = _ |- _ => apply load_word_Ret in Hw end.
  unfold sizeof_FDTProp, in_system_endian in *. lia.
Qed.

(** Nothing but the loops takes fuel. *)
Lemma bytes_at_fuel a n : bytes_at H blob a n ≠ NoFuel.
Proof. unfold bytes_at. by destruct (_ && _). Qed.

Lemma load_word_fuel a n : load_word H blob a n ≠ NoFuel.
Proof. unfold load_word. pose proof (bytes_at_fuel a n). by destruct (bytes_at H blob a n). Qed.

Lemma header_field_fuel f : header_field H blob f ≠ NoFuel.
Proof. unfold header_field. pose proof (load_word_fuel (H + header_offset f) 4). by destruct (load_word _ _ _ _). Qed.

Lemma calculate_size_fuel l : calculate_size l ≠ NoFuel.
Proof. induction l as [|c l IH]; cbn; [done|]. destruct (c =? 0); [done|]. by destruct (calculate_size l). Qed.

Lemma cstring_at_fuel a : cstring_at H blob a ≠ NoFuel.
Proof.
  unfold cstring_at, cstring_text. destruct (H <=? a); [|done].
  pose proof (calculate_size_fuel (drop (Z.to_nat (a - H)) blob)). by destruct (calculate_size _).
Qed.

Lemma obind_fuel {A B} (e : outcome A) (f : A → outcome B) :
  e ≠ NoFuel → (∀ x, e = Ret x → f x ≠ NoFuel) → obind e f ≠ NoFuel.
Proof. destruct e; cbn; try done. intros _ Hf. by apply Hf. Qed.

Lemma load_property_fuel a : load_property H blob a ≠ NoFuel.
Proof.
  unfold load_property. repeat (apply obind_fuel; [first [apply header_field_fuel|apply load_word_fuel|apply cstring_at_fuel|apply bytes_at_fuel]|intros]).
  done.
Qed.

(** ** Termination *)
Definition rank (s : ParserState) : Z := match s with BeginNode => 2 | NodeName => 1 | _ => 0 end.

(** How far an address is from the end, in quarters of a byte. *)
Definition remaining (a : Z) : Z := Z.max 0 (4 * (H + N - a)).

Hypothesis HH : 0 ≤ H.
Hypothesis Hsmall : H + N + 4 < 2 ^ 32.

Lemma align_4_ge a : 0 ≤ a → a ≤ H + N → a ≤ align_to 4 a.
Proof. intros. rewrite align_4 by lia. pose proof (Z.div_mod (a + 3) 4). pose proof (Z.mod_pos_bound (a + 3) 4). lia. Qed.

Lemma node_loop_ends fuel : ∀ offset state node cur,
  H ≤ cur → remaining cur + rank state < Z.of_nat fuel →
  node_loop H blob fuel offset state node cur ≠ NoFuel ∧
  (∀ r o, node_loop H blob fuel offset state node cur = Ret (r, o) → Z.min offset cur ≤ o).
Proof.
  induction fuel as [|fuel IH]; intros offset state node cur Hc Hf; [unfold remaining, rank in Hf; destruct state; lia|].
  cbn [node_loop]. pose proof (header_field_fuel size_dt_struct) as Hh.
  destruct (header_field H blob size_dt_struct) as [size| | |]; try done. cbn [obind].
  destruct (negb (u64 (cur - H) <? size)). { split; [done|]. intros r o [= _ ->]. lia. }
  pose proof (load_word_fuel cur 4) as Hl. destruct (load_word H blob cur 4) as [w| | |] eqn:Ew; try done.
  apply load_word_Ret in Ew. fold N in Ew. cbn [obind].
  assert (∀ state' node' cur', H ≤ cur' → cur ≤ cur' → remaining cur' + rank state' < remaining cur + rank state →
    node_loop H blob fuel offset state' node' cur' ≠ NoFuel ∧
    (∀ r o, node_loop H blob fuel offset state' node' cur' = Ret (r, o) → Z.min offset cur ≤ o)) as Hgo.
  { intros state' node' cur' H1 H2 H3. destruct (IH offset state' node' cur' H1) as [H4 H5]; [lia|].
    split; [done|]. intros r o Hr. specialize (H5 r o Hr). lia. }
  assert (Ret (@None FDTNode, offset) ≠ NoFuel ∧ (∀ r o, Ret (@None FDTNode, offset) = Ret (r, o) → Z.min offset cur ≤ o)) as Hno
    by (split; [done|]; intros r o [= _ <-]; lia).
  destruct state.
  - destruct (bswap 4 w =? FDT_BEGIN_NODE); [|done]. apply Hgo; unfold remaining, rank; lia.
  - pose proof (cstring_at_fuel cur) as Hn. destruct (cstring_at H blob cur) as [name| | |] eqn:En; try done. cbn [obind].
    apply cstring_at_Ret in En. fold N in En. pose proof (align_4_ge (cur + Z.of_nat (length name))).
    apply Hgo; unfold remaining, rank; lia.
  - destruct (_ || _); [apply Hgo; unfold remaining, rank; lia|].
    destruct (bswap 4 w =? FDT_PROP); [apply Hgo; unfold remaining, rank; lia|].
    destruct (bswap 4 w =? FDT_BEGIN_NODE).
    + destruct (IH cur NoState new_node cur) as [H1 H2]; [done|unfold rank in *; lia|].
      destruct (node_loop H blob fuel cur NoState new_node cur) as [[c o]| | |]; try done. cbn [obind].
      specialize (H2 c o eq_refl). apply Hgo; unfold remaining, rank; lia.
    + destruct (bswap 4 w =? FDT_END_NODE); [apply Hgo; unfold remaining, rank; lia|].
      destruct (bswap 4 w =? FDT_END); [apply Hgo; unfold remaining, rank; lia|]. done.
  - split; [done|]. intros r o [= _ ->]. lia.
  - pose proof (load_property_fuel cur) as Hp. destruct (load_property H blob cur) as [[p len]| | |] eqn:Ep; try done. cbn [obind fst snd].
    apply load_property_Ret in Ep. fold N in Ep. cbn [snd] in Ep. unfold sizeof_FDTProp.
    pose proof (align_4_ge (cur + 8 + len)). apply Hgo; unfold remaining, rank; lia.
  - apply Hgo; unfold remaining, rank; lia.
Qed.

Lemma reserve_loop_ends fuel : ∀ a entries,
  H ≤ a → remaining a < Z.of_nat fuel → reserve_loop H blob fuel a entries ≠ NoFuel.
Proof.
  induction fuel as [|fuel IH]; intros a entries Ha Hf; [unfold remaining in Hf; lia|]. cbn [reserve_loop].
  unfold load_entry. pose proof (load_word_fuel a 8). destruct (load_word H blob a 8) as [x| | |] eqn:Ex; try done.
  apply load_word_Ret in Ex. fold N in Ex. cbn [obind]. pose proof (load_word_fuel (a + 8) 8).
  destruct (load_word H blob (a + 8) 8) as [y| | |]; try done. cbn [obind]. destruct (_ && _); [|done].
  apply IH; unfold remaining, sizeof_FDTReserveEntry in *; lia.
Qed.
End Reading.

(** * Flattened trees *)

(** A 32-bit word in memory, and padding to a multiple of 4 bytes. *)
Definition be32 (v : Z) : bytes := reverse (le_bytes 4 v).
Definition padded (l : bytes) : bytes := l ++ replicate (Z.to_nat ((- Z.of_nat (length l)) mod 4)) 0.

Section Flatten.

(** Where a property name is among the strings. *)
Variable name_offset : bytes → Z.

Definition flatten_property (p : FDTProperty) : bytes :=
  be32 FDT_PROP ++ be32 (Z.of_nat (length (p_value p))) ++ be32 (name_offset (p_name p)) ++ padded (p_value p).

Fixpoint flatten (n : FDTNode) : bytes :=
  match n with
  | Node name properties children =>
      be32 FDT_BEGIN_NODE ++ padded (name ++ [0]) ++ mjoin (flatten_property <$> properties) ++
      (fix go (l : list FDTNode) : bytes := match l with [] => [] | c :: l' => flatten c ++ go l' end) children ++
      be32 FDT_END_NODE
  end.

Definition flatten_all (l : list FDTNode) : bytes := mjoin (flatten <$> l).

Lemma flatten_node name properties children :
  flatten (Node name properties children) =
    be32 FDT_BEGIN_NODE ++ padded (name ++ [0]) ++ mjoin (flatten_property <$> properties) ++ flatten_all children ++ be32 FDT_END_NODE.
Proof.
  cbn [flatten]. do 4 f_equal. unfold flatten_all. induction children as [|c l IH]; [done|]. cbn. by rewrite IH.
Qed.
End Flatten.

(** Induction over a tree: the children are smaller. *)
Lemma FDTNode_tree_ind (P : FDTNode → Prop) :
  (∀ name properties children, Forall P children → P (Node name properties children)) → ∀ n, P n.
Proof.
  intros Hnode. fix IH 1. intros [name properties children]. apply Hnode.
  induction children as [|c l IHl]; constructor; [apply IH|exact IHl].
Qed.

(** Texts without NUL, and lengths that fit a word. *)
Definition good_property (p : FDTProperty) : Prop := Z.of_nat (length (p_value p)) < 2 ^ 32.

Fixpoint good (n : FDTNode) : Prop :=
  match n with
  | Node name properties children =>
      Forall (λ c, c ≠ 0) name ∧ Forall good_property properties ∧
      (fix go (l : list FDTNode) : Prop := match l with [] => True | c :: l' => good c ∧ go l' end) children
  end.

Lemma good_node name properties children :
  good (Node name properties children) ↔ Forall (λ c, c ≠ 0) name ∧ Forall good_property properties ∧ Forall good children.
Proof.
  cbn [good]. assert ((fix go (l : list FDTNode) : Prop := match l with [] => True | c :: l' => good c ∧ go l' end) children
    ↔ Forall good children) as ->; [|done].
  induction children as [|c l IH]; [split; [constructor|done]|]. rewrite Forall_cons, <- IH. done.
Qed.

(** The names of all properties. *)
Fixpoint property_names (n : FDTNode) : list bytes :=
  match n with
  | Node _ properties children =>
      (p_name <$> properties) ++
      (fix go (l : list FDTNode) : list bytes := match l with [] => [] | c :: l' => property_names c ++ go l' end) children
  end.

Lemma property_names_node name properties children :
  property_names (Node name properties children) = (p_name <$> properties) ++ mjoin (property_names <$> children).
Proof. cbn [property_names]. f_equal. induction children as [|c l IH]; [done|]. cbn. by rewrite IH. Qed.

Lemma be32_length v : length (be32 v) = 4%nat.
Proof. unfold be32. by rewrite length_reverse, le_bytes_length. Qed.

Lemma padded_length l : Z.of_nat (length (padded l)) = 4 * ((Z.of_nat (length l) + 3) / 4).
Proof.
  unfold padded. rewrite length_app, length_replicate, Nat2Z.inj_add, Z2Nat.id by (apply Z.mod_pos_bound; lia).
  set (n := Z.of_nat (length l)). pose proof (Z.div_mod (n + 3) 4). pose proof (Z.mod_pos_bound (n + 3) 4).
  pose proof (Z.mod_pos_bound (- n) 4). pose proof (Z.div_mod (- n) 4). lia.
Qed.

(** * Parsing a flattened tree *)
Section Parsing.
Context (H : Z) (blob : bytes).
Let N : Z := Z.of_nat (length blob).

Definition lies_at (a : Z) (l : bytes) : Prop := ∃ pre post, blob = pre ++ l ++ post ∧ a = H + Z.of_nat (length pre).

Lemma lies_at_app a l k : lies_at a (l ++ k) → lies_at a l ∧ lies_at (a + Z.of_nat (length l)) k.
Proof.
  intros (pre & post & Hb & ->). rewrite <- !app_assoc in Hb.
  split; [exists pre, (k ++ post)|exists (pre ++ l), post]; rewrite ?length_app, <- ?app_assoc; split; try done; lia.
Qed.

Lemma lies_at_bound a l : lies_at a l → H ≤ a ∧ a + Z.of_nat (length l) ≤ H + N.
Proof. intros (pre & post & Hb & ->). unfold N. rewrite Hb, !length_app. lia. Qed.

Lemma lies_at_drop a l : lies_at a l → ∃ post, drop (Z.to_nat (a - H)) blob = l ++ post.
Proof.
  intros (pre & post & Hb & ->). exists post. rewrite Hb. replace (Z.to_nat (H + Z.of_nat (length pre) - H)) with (length pre) by lia.
  by rewrite drop_app_length.
Qed.

Lemma lies_at_bytes a l n : lies_at a l → n = Z.of_nat (length l) → bytes_at H blob a n = Ret l.
Proof.
  intros Hl ->. pose proof (lies_at_bound a l Hl) as [H1 H2]. unfold bytes_at, N in *.
  destruct (Z.leb_spec H a); [|lia]. destruct (Z.leb_spec (a - H + Z.of_nat (length l)) (Z.of_nat (length blob))); [|lia].
  cbn [andb]. destruct (lies_at_drop a l Hl) as [post ->]. by rewrite Nat2Z.id, take_app_length.
Qed.

Lemma lies_at_word a v : lies_at a (be32 v) → in_word 32 v → load_word H blob a 4 = Ret (bswap 4 v).
Proof.
  intros Hl Hv. unfold load_word. by rewrite (lies_at_bytes a (be32 v)) by (done || by rewrite be32_length).
Qed.

Lemma lies_at_cstring a t : lies_at a (t ++ [0]) → Forall (λ c, c ≠ 0) t → cstring_at H blob a = Ret t.
Proof.
  intros Hl Ht. pose proof (lies_at_bound _ _ Hl) as [H1 _]. unfold cstring_at. rewrite (proj2 (Z.leb_le H a) H1).
  destruct (lies_at_drop _ _ Hl) as [post ->]. rewrite <- app_assoc. by apply cstring_text_spec.
Qed.

(** ** Big steps of the loop *)
Definition evaluates (offset : Z) (state : ParserState) (n : FDTNode) (cur : Z) (r : option FDTNode * Z) : Prop :=
  ∃ fuel, node_loop H blob fuel offset state n cur = Ret r.

Lemma node_loop_stable fuel : ∀ fuel' offset state n cur,
  (fuel ≤ fuel')%nat → node_loop H blob fuel offset state n cur ≠ NoFuel →
  node_loop H blob fuel' offset state n cur = node_loop H blob fuel offset state n cur.
Proof.
  induction fuel as [|fuel IH]; intros [|fuel'] offset state n cur Hle; cbn [node_loop]; try done; [lia|].
  assert (∀ offset state n cur, node_loop H blob fuel offset state n cur ≠ NoFuel →
    node_loop H blob fuel' offset state n cur = node_loop H blob fuel offset state n cur) as Hgo by (intros; apply IH; [lia|done]).
  clear IH. destruct (header_field H blob size_dt_struct) as [size| | |]; try done. cbn [obind].
  destruct (negb _); [done|]. destruct (load_word H blob cur 4) as [w| | |]; try done. cbn [obind].
  destruct state; try done.
  - destruct (_ =? _); [apply Hgo|done].
  - destruct (cstring_at H blob cur); try done. apply Hgo.
  - destruct (_ || _); [apply Hgo|]. destruct (_ =? _); [apply Hgo|]. destruct (_ =? _).
    + intros Hr. assert (node_loop H blob fuel cur NoState new_node cur ≠ NoFuel) as Hc by (intros E; by rewrite E in Hr).
      rewrite (Hgo _ _ _ _ Hc). destruct (node_loop H blob fuel cur NoState new_node cur) as [[c o]| | |]; try done. by apply Hgo.
    + destruct (_ =? _); [apply Hgo|]. destruct (_ =? _); [apply Hgo|done].
  - destruct (load_property H blob cur); try done. apply Hgo.
  - apply Hgo.
Qed.

Lemma node_loop_more fuel fuel' offset state n cur r :
  (fuel ≤ fuel')%nat → node_loop H blob fuel offset state n cur = Ret r → node_loop H blob fuel' offset state n cur = Ret r.
Proof. intros Hle Hr. rewrite (node_loop_stable fuel) by (done || by rewrite Hr). done. Qed.

Variable size : Z.
Hypothesis Hsize : header_field H blob size_dt_struct = Ret size.
Hypothesis HH : 0 ≤ H.
Hypothesis Hsmall : H + N + 4 < 2 ^ 32.

Lemma bswap_back v : in_word 32 v → bswap 4 (bswap 4 v) = v.
Proof. intros. by apply (bswap_bswap 4). Qed.

Ltac step v Hl Hb :=
  let B := fresh in
  assert (in_word 32 v) as B by (done || (unfold in_word; lia));
  cbn [node_loop]; rewrite Hsize; cbn [obind];
  pose proof (lies_at_bound _ _ Hl);
  match goal with |- context [u64 (?c - H)] => rewrite (wrap_small 64 (c - H)) by (unfold in_word; lia) end;
  rewrite (proj2 (Z.ltb_lt _ _) Hb); cbn [negb]; rewrite (lies_at_word _ v Hl B); cbn [obind]; rewrite ?(bswap_back v B).

Lemma step_begin o n cur r :
  lies_at cur (be32 FDT_BEGIN_NODE) → cur - H < size → evaluates o BeginNode n (cur + 4) r → evaluates o NoState n cur r.
Proof. intros Hl Hb [f Hf]. exists (S f). step FDT_BEGIN_NODE Hl Hb. exact Hf. Qed.

Lemma step_skip o n cur r v :
  v = 0 ∨ v = FDT_NOP → lies_at cur (be32 v) → cur - H < size → evaluates o NodeName n (cur + 4) r → evaluates o NodeName n cur r.
Proof. intros [-> | ->] Hl Hb [f Hf]; exists (S f); [step 0 Hl Hb|step FDT_NOP Hl Hb]; exact Hf. Qed.

Lemma step_end o n cur : lies_at cur (be32 FDT_END_NODE) → cur - H < size → evaluates o NodeName n cur (Some n, cur).
Proof. intros Hl Hb. exists 2%nat. step FDT_END_NODE Hl Hb. done. Qed.

Lemma step_child o n cur child cur' r :
  lies_at cur (be32 FDT_BEGIN_NODE) → cur - H < size → evaluates cur NoState new_node cur (Some child, cur') →
  evaluates o NodeName (add_child n child) (cur' + 4) r → evaluates o NodeName n cur r.
Proof.
  intros Hl Hb [f Hf] [g Hg]. exists (S (Nat.max f g)). step FDT_BEGIN_NODE Hl Hb.
  change ((FDT_BEGIN_NODE =? 0) || (FDT_BEGIN_NODE =? FDT_NOP)) with false. change (FDT_BEGIN_NODE =? FDT_PROP) with false.
  change (FDT_BEGIN_NODE =? FDT_BEGIN_NODE) with true. cbn iota. rewrite (node_loop_more f _ _ _ _ _ _ (Nat.le_max_l _ _) Hf). cbn [obind].
  by apply (node_loop_more g); [lia|].
Qed.

Definition size_of (l : bytes) : Z := Z.of_nat (length l).

Lemma align_from cur k : (4 | cur) → 0 ≤ cur → 0 ≤ k → cur + k ≤ H + N → align_to 4 (cur + k) = cur + 4 * ((k + 3) / 4).
Proof.
  intros [c ->] ? ? ?. rewrite align_4 by lia. replace (c * 4 + k + 3) with (k + 3 + c * 4) by lia. rewrite Z.div_add by lia. lia.
Qed.

Lemma padded_whole t : (4 | Z.of_nat (length t)) → padded (t ++ [0]) = t ++ be32 0.
Proof.
  intros [q Hq]. unfold padded. rewrite length_app, Nat2Z.inj_add, Hq. change (Z.of_nat (length [0])) with 1.
  replace (- (q * 4 + 1)) with (3 + (- q - 1) * 4) by lia. rewrite Z_mod_plus_full. by rewrite <- app_assoc.
Qed.

Lemma load_any a l : lies_at a l → (4 ≤ length l)%nat → ∃ w, load_word H blob a 4 = Ret w.
Proof.
  intros Hl Hlen. rewrite <- (take_drop 4 l) in Hl. apply lies_at_app in Hl as [Hl _]. unfold load_word.
  rewrite (lies_at_bytes a (take 4 l) 4 Hl) by (rewrite length_take; lia). by eexists.
Qed.

(** The name, and the word of zeros behind a name whose length is a multiple of 4. *)
Lemma step_name o n cur t r :
  (4 | cur) → lies_at cur (padded (t ++ [0])) → Forall (λ c, c ≠ 0) t → cur + size_of (padded (t ++ [0])) - H < size →
  evaluates o NodeName (set_name n t) (cur + size_of (padded (t ++ [0]))) r → evaluates o BeginNode n cur r.
Proof.
  intros Hal Hl Ht Hb Hr. pose proof (lies_at_bound _ _ Hl) as Hbd. unfold size_of in *.
  pose proof (padded_length (t ++ [0])) as Hp. rewrite length_app in Hp. cbn [length] in Hp. rewrite Nat2Z.inj_add in Hp.
  set (k := Z.of_nat (length t)) in *. change (Z.of_nat 1) with 1 in Hp.
  pose proof (Z.div_mod (k + 1 + 3) 4) as Hd1. pose proof (Z.mod_pos_bound (k + 1 + 3) 4) as Hd2.
  assert (evaluates o NodeName (set_name n t) (align_to 4 (cur + k)) r) as [f Hf].
  { rewrite align_from by (done || lia). destruct (decide (k mod 4 = 0)) as [Hq|Hnq].
    { apply Z.mod_divide in Hq as [q Hq]; [|lia].
      assert (4 * ((k + 3) / 4) = k) as -> by (rewrite Hq, Z.div_add_l by lia; change (3 / 4) with 0; lia).
      rewrite (padded_whole t) in * by (by exists q). apply lies_at_app in Hl as [_ Hl]. rewrite length_app, be32_length in *.
      apply (step_skip _ _ _ _ 0); [by left|exact Hl|lia|]. by replace (cur + k + 4) with (cur + Z.of_nat (length t + 4)) by lia. }
    replace (4 * ((k + 3) / 4)) with (Z.of_nat (length (padded (t ++ [0])))); [done|]. rewrite Hp.
      pose proof (Z.div_mod (k + 3) 4). pose proof (Z.mod_pos_bound (k + 3) 4). pose proof (Z.div_mod (k + 1 + 3) 4).
      pose proof (Z.mod_pos_bound (k + 1 + 3) 4). pose proof (Z.div_mod k 4). pose proof (Z.mod_pos_bound k 4). lia. }
  exists (S f). cbn [node_loop]. rewrite Hsize. cbn [obind].
  assert (4 ≤ length (padded (t ++ [0%Z])))%nat as Hlen by lia.
  destruct (load_any _ _ Hl Hlen) as [w Hw]. rewrite Hw. rewrite wrap_small by (unfold in_word; lia).
  rewrite (proj2 (Z.ltb_lt _ _)) by lia. cbn [negb obind].
  unfold padded in Hl. apply lies_at_app in Hl as [Hl _]. rewrite (lies_at_cstring _ _ Hl Ht). exact Hf.
Qed.

(** ** Properties *)
Variables (strings : Z) (name_offset : bytes → Z).
Hypothesis Hstrings : header_field H blob off_dt_strings = Ret strings.

(** The name of a property is found at its offset. *)
Definition name_found (name : bytes) : Prop :=
  in_word 32 (name_offset name) ∧ cstring_at H blob (H + strings + name_offset name) = Ret name.

Lemma step_property o n cur p r :
  (4 | cur) → lies_at cur (flatten_property name_offset p) → good_property p → name_found (p_name p) →
  cur + size_of (flatten_property name_offset p) - H < size →
  evaluates o NodeName (add_property n p) (cur + size_of (flatten_property name_offset p)) r → evaluates o NodeName n cur r.
Proof.
  intros Hal Hl Hg [Hw Hn] Hb [f Hf]. unfold flatten_property, size_of in *. set (len := Z.of_nat (length (p_value p))) in *.
  rewrite !length_app, !be32_length in Hb, Hf. pose proof (padded_length (p_value p)) as Hp. fold len in Hp.
  assert (in_word 32 len) as Hlen by (unfold in_word, good_property in *; lia).
  apply lies_at_app in Hl as [H0 Hl]. apply lies_at_app in Hl as [H1 Hl]. apply lies_at_app in Hl as [H2 Hl].
  pose proof (lies_at_bound _ _ Hl) as Hbd. rewrite !be32_length in *. change (Z.of_nat 4) with 4 in *.
  unfold padded in Hl. apply lies_at_app in Hl as [Hl _].
  assert (load_property H blob (cur + 4) = Ret (p, len)) as Hload.
  { unfold load_property. rewrite Hstrings. cbn [obind]. rewrite (lies_at_word _ _ H2 Hw). cbn [obind].
    change (in_system_endian Big 4 (bswap 4 ?x)) with (bswap 4 (bswap 4 x)). rewrite (bswap_back _ Hw), Hn. cbn [obind].
    rewrite (lies_at_word _ _ H1 Hlen). cbn [obind].
    change (in_system_endian Big 4 (bswap 4 ?x)) with (bswap 4 (bswap 4 x)). rewrite (bswap_back _ Hlen).
    unfold sizeof_FDTProp. replace (cur + 4 + 8) with (cur + 4 + 4 + 4) by lia. rewrite (lies_at_bytes _ _ _ Hl) by done. by destruct p. }
  pose proof (Z.div_mod (len + 3) 4) as Hd1. pose proof (Z.mod_pos_bound (len + 3) 4) as Hd2.
  assert (cur - H < size) as B0 by lia. assert (cur + 4 - H < size) as B1 by lia.
  assert (evaluates o Prop_ n (cur + 4) r) as [g Hg'].
  { exists (S f). step len H1 B1. rewrite Hload. cbn [obind fst snd]. etrans; [|exact Hf]. f_equal. unfold sizeof_FDTProp.
    replace (cur + 4 + 8 + len) with (cur + 12 + len) by lia.
    rewrite align_from; [|destruct Hal as [c ->]; exists (c + 3); lia|lia|lia|lia]. rewrite !Nat2Z.inj_add. lia. }
  exists (S g). step FDT_PROP H0 B0. exact Hg'.
Qed.

(** Everything flattened has a length that is a multiple of 4. *)
Lemma size_of_app l k : size_of (l ++ k) = size_of l + size_of k.
Proof. unfold size_of. rewrite length_app. lia. Qed.

Lemma be32_size v : size_of (be32 v) = 4.
Proof. unfold size_of. by rewrite be32_length. Qed.

Lemma padded_aligned l : (4 | size_of (padded l)).
Proof. unfold size_of. rewrite padded_length. apply Z.divide_factor_l. Qed.

Lemma property_aligned p : (4 | size_of (flatten_property name_offset p)).
Proof.
  unfold flatten_property. rewrite !size_of_app, !be32_size. destruct (padded_aligned (p_value p)) as [k ->].
  exists (1 + (1 + (1 + k))). lia.
Qed.

Lemma mjoin_aligned (ls : list bytes) : Forall (λ l, (4 | size_of l)) ls → (4 | size_of (mjoin ls)).
Proof.
  induction 1 as [|l ls Hl _ IH]; [by exists 0|]. change (mjoin (l :: ls)) with (l ++ mjoin ls). rewrite size_of_app. by apply Z.divide_add_r.
Qed.

Lemma properties_aligned ps : (4 | size_of (mjoin (flatten_property name_offset <$> ps))).
Proof. apply mjoin_aligned, Forall_fmap, Forall_forall. intros p _. apply property_aligned. Qed.

Lemma flatten_aligned n : (4 | size_of (flatten name_offset n)).
Proof.
  induction n as [name properties children IH] using FDTNode_tree_ind. rewrite flatten_node, !size_of_app, !be32_size.
  repeat apply Z.divide_add_r; try (by exists 1); [apply padded_aligned|apply properties_aligned|].
  apply mjoin_aligned, Forall_fmap. exact IH.
Qed.

Lemma step_properties o name children r : ∀ ps done_ cur,
  (4 | cur) → lies_at cur (mjoin (flatten_property name_offset <$> ps)) → Forall good_property ps →
  Forall (λ p, name_found (p_name p)) ps → cur + size_of (mjoin (flatten_property name_offset <$> ps)) - H < size →
  evaluates o NodeName (Node name (done_ ++ ps) children) (cur + size_of (mjoin (flatten_property name_offset <$> ps))) r →
  evaluates o NodeName (Node name done_ children) cur r.
Proof.
  induction ps as [|p ps IH]; intros done_ cur Hal Hl Hg Hn Hb Hr.
  { cbn in Hr. rewrite app_nil_r, Z.add_0_r in Hr. exact Hr. }
  change (mjoin (flatten_property name_offset <$> p :: ps)) with
    (flatten_property name_offset p ++ mjoin (flatten_property name_offset <$> ps)) in *.
  apply lies_at_app in Hl as [H1 H2]. rewrite size_of_app in *. apply Forall_cons in Hg as [Hg Hgs]. apply Forall_cons in Hn as [Hn Hns].
  assert (0 ≤ size_of (mjoin (flatten_property name_offset <$> ps))) by (unfold size_of; lia).
  apply (step_property _ _ _ p); [done|done|done|done|lia|].
  apply IH; [apply Z.divide_add_r; [done|apply property_aligned]|exact H2|done|done|lia|].
  cbn [add_property m_name m_properties m_children]. rewrite <- app_assoc. by rewrite Z.add_assoc in Hr.
Qed.

Lemma Forall_parts {A} (P : A → Prop) (ls : list (list A)) : Forall P (mjoin ls) → Forall (Forall P) ls.
Proof. induction ls as [|l ls IH]; [constructor|]. cbn. intros [? ?]%Forall_app. constructor; [done|]. by apply IH. Qed.

(** A whole node: the loop stops at its END_NODE. *)
Definition parses (n : FDTNode) : Prop := ∀ cur,
  good n → Forall name_found (property_names n) → (4 | cur) → lies_at cur (flatten name_offset n) →
  cur + size_of (flatten name_offset n) - 4 - H < size →
  evaluates cur NoState new_node cur (Some n, cur + size_of (flatten name_offset n) - 4).

Lemma step_children o name properties r : ∀ cs done_ cur,
  Forall parses cs → (4 | cur) → lies_at cur (flatten_all name_offset cs) → Forall good cs →
  Forall (λ c, Forall name_found (property_names c)) cs → cur + size_of (flatten_all name_offset cs) - H < size →
  evaluates o NodeName (Node name properties (done_ ++ cs)) (cur + size_of (flatten_all name_offset cs)) r →
  evaluates o NodeName (Node name properties done_) cur r.
Proof.
  induction cs as [|c cs IH]; intros done_ cur Hp Hal Hl Hg Hn Hb Hr.
  { cbn in Hr. rewrite app_nil_r, Z.add_0_r in Hr. exact Hr. }
  change (flatten_all name_offset (c :: cs)) with (flatten name_offset c ++ flatten_all name_offset cs) in *.
  apply lies_at_app in Hl as [H1 H2]. rewrite size_of_app in *. apply Forall_cons in Hg as [Hg Hgs]. apply Forall_cons in Hn as [Hn Hns].
  apply Forall_cons in Hp as [Hp Hps].
  assert (0 ≤ size_of (flatten_all name_offset cs)) by (unfold size_of; lia).
  assert (lies_at cur (be32 FDT_BEGIN_NODE) ∧ 4 ≤ size_of (flatten name_offset c)) as [Hbegin H4].
  { destruct c as [x y z]. rewrite flatten_node in *. apply lies_at_app in H1 as [H1 _]. split; [done|].
    rewrite !size_of_app, !be32_size. unfold size_of. lia. }
  apply (step_child _ _ _ c (cur + size_of (flatten name_offset c) - 4)); [done|lia|by apply Hp; [..|lia]|].
  replace (cur + size_of (flatten name_offset c) - 4 + 4) with (cur + size_of (flatten name_offset c)) by lia.
  apply IH; [done|apply Z.divide_add_r; [done|apply flatten_aligned]|exact H2|done|done|lia|].
  cbn [add_child m_name m_properties m_children]. rewrite <- app_assoc. by rewrite Z.add_assoc in Hr.
Qed.

Lemma node_parses n : parses n.
Proof.
  induction n as [name properties children IH] using FDTNode_tree_ind. intros cur Hg Hn Hal Hl Hb.
  apply good_node in Hg as (Hname & Hprops & Hchildren). rewrite property_names_node in Hn. apply Forall_app in Hn as [Hn1 Hn2].
  rewrite Forall_fmap in Hn1. apply Forall_parts in Hn2. rewrite Forall_fmap in Hn2.
  rewrite flatten_node in *. apply lies_at_app in Hl as [H1 Hl]. apply lies_at_app in Hl as [H2 Hl]. apply lies_at_app in Hl as [H3 Hl].
  apply lies_at_app in Hl as [H4 H5]. rewrite !size_of_app, !be32_size in *. change (Z.of_nat (length ?l)) with (size_of l) in *.
  rewrite be32_size in *.
  assert (0 ≤ size_of (padded (name ++ [0])) ∧ 0 ≤ size_of (mjoin (flatten_property name_offset <$> properties)) ∧
    0 ≤ size_of (flatten_all name_offset children)) as (? & ? & ?) by (unfold size_of; lia).
  apply step_begin; [done|lia|]. apply (step_name _ _ _ name); [by apply Z.divide_add_r; [|exists 1]|done|done|lia|].
  apply (step_properties _ _ _ _ properties []); [| done|done|done|lia|].
  { repeat apply Z.divide_add_r; try done; try (by exists 1); apply padded_aligned. }
  apply (step_children _ _ _ _ children []); [done| |done|done|done|lia|].
  { repeat apply Z.divide_add_r; try done; try (by exists 1); [apply padded_aligned|apply properties_aligned]. }
  replace (cur + (4 + (size_of (padded (name ++ [0])) + (size_of (mjoin (flatten_property name_offset <$> properties)) +
    (size_of (flatten_all name_offset children) + 4)))) - 4) with
    (cur + 4 + size_of (padded (name ++ [0])) + size_of (mjoin (flatten_property name_offset <$> properties)) +
     size_of (flatten_all name_offset children)) by lia.
  apply step_end; [done|lia].
Qed.
End Parsing.

(** * Searching *)
Definition name_of (n : FDTNode) : bytes := default [] (head (split_spec at_sign (m_name n))).

(** Every node below has a name in front of its '@'. *)
Inductive all_named : FDTNode → Prop :=
| all_named_node name properties children :
    Forall (λ c, split_spec at_sign (m_name c) ≠ []) children → Forall all_named children →
    all_named (Node name properties children).

Fixpoint count (n : FDTNode) : nat :=
  match n with
  | Node _ _ children => S ((fix go (l : list FDTNode) : nat := match l with [] => 0%nat | c :: l' => (count c + go l')%nat end) children)
  end.

Definition count_all (l : list FDTNode) : nat := foldr (λ c k, (count c + k)%nat) 0%nat l.

Lemma count_node n : count n = S (count_all (m_children n)).
Proof. by destruct n. Qed.

(** The first child with a name. *)
Fixpoint first_named (x : bytes) (l : list FDTNode) : option FDTNode :=
  match l with
  | [] => None
  | c :: l' => if decide (name_of c = x) then Some c else first_named x l'
  end.

(** The node at a path, first match by first match. *)
Fixpoint descend (l : list FDTNode) (n : FDTNode) (path : list bytes) : option FDTNode :=
  match path with
  | [] => Some n
  | x :: path' => match first_named x l with Some c => descend (m_children c) c path' | None => None end
  end.

(** All nodes with the last name of a path below the node at the rest of it. *)
Fixpoint matches (l : list FDTNode) (path : list bytes) : list FDTNode :=
  match path with
  | [] => []
  | [x] => filter (λ c, name_of c = x) l
  | x :: path' => match first_named x l with Some c => matches (m_children c) path' | None => [] end
  end.

Definition node_at (n : FDTNode) (path : list bytes) : option FDTNode := descend (m_children n) n path.

Section Searching.
Variable path : list bytes.

Lemma get_name_of c : split_spec at_sign (m_name c) ≠ [] → get_name c = Ret (name_of c).
Proof. unfold get_name, name_of. by destruct (split_spec _ _). Qed.

Lemma child_facts n i c :
  all_named n → m_children n !! i = Some c →
  get_name c = Ret (name_of c) ∧ all_named c ∧ drop i (m_children n) = c :: drop (S i) (m_children n) ∧
  count_all (drop i (m_children n)) = (S (count_all (m_children c)) + count_all (drop (S i) (m_children n)))%nat.
Proof.
  intros [x y l Hn Ha] Hi. cbn [m_children] in *. rewrite (drop_S l c i Hi). rewrite Forall_forall in Hn, Ha.
  apply list_elem_of_lookup_2 in Hi. split; [by apply get_name_of, Hn|]. split; [by apply Ha|]. split; [done|].
  cbn. by rewrite count_node.
Qed.

Lemma find_node_loop_spec fuel : ∀ n i k,
  all_named n → (k ≤ length path)%nat → (count_all (drop i (m_children n)) < fuel)%nat →
  ∃ m k', find_loop fuel path n i k = Ret (m, k') ∧
    match descend (drop i (m_children n)) n (drop k path) with
    | Some r => m = r ∧ k' = length path
    | None => (k' < length path)%nat
    end.
Proof.
  induction fuel as [|fuel IH]; intros n i k Hn Hk Hf; [lia|]. cbn [find_loop].
  destruct (path !! k) as [x|] eqn:Ek.
  2:{ apply lookup_ge_None in Ek. rewrite (drop_ge path) by done.
      exists n, k. split; [by destruct (m_children n !! i)|]. cbn. split; [done|lia]. }
  pose proof (lookup_lt_Some _ _ _ Ek) as Hlt. rewrite (drop_S path x k Ek).
  destruct (m_children n !! i) as [c|] eqn:Ei.
  2:{ apply lookup_ge_None in Ei. rewrite (drop_ge (m_children n)) by done. exists n, k. by split. }
  destruct (child_facts n i c Hn Ei) as (Hg & Hc & Hd & Hcount). rewrite Hg. cbn [obind]. rewrite Hd. cbn [descend first_named].
  case_bool_decide as Hx.
  - rewrite decide_True by done. destruct (IH c 0%nat (S k) Hc) as (m & k' & Hr & Hm); [lia|rewrite drop_0; lia|].
    rewrite drop_0 in Hm. by exists m, k'.
  - rewrite decide_False by done. destruct (IH n (S i) k Hn Hk) as (m & k' & Hr & Hm); [lia|]. exists m, k'. split; [done|].
    by rewrite (drop_S path x k Ek) in Hm.
Qed.

Lemma find_nodes_loop_spec fuel : ∀ n i k nodes,
  all_named n → (k < length path)%nat → (count_all (drop i (m_children n)) < fuel)%nat →
  find_nodes_loop fuel path n i k nodes = Ret (nodes ++ matches (drop i (m_children n)) (drop k path)).
Proof.
  induction fuel as [|fuel IH]; intros n i k nodes Hn Hk Hf; [lia|]. cbn [find_nodes_loop].
  destruct (lookup_lt_is_Some_2 path k Hk) as [x Ek]. rewrite Ek. rewrite (drop_S path x k Ek).
  destruct (m_children n !! i) as [c|] eqn:Ei.
  2:{ apply lookup_ge_None in Ei. rewrite (drop_ge (m_children n)) by done.
      destruct (drop (S k) path); cbn; by rewrite app_nil_r. }
  destruct (child_facts n i c Hn Ei) as (Hg & Hc & Hd & Hcount). rewrite Hg. cbn [obind]. rewrite Hd.
  destruct (Nat.eqb_spec k (length path - 1)) as [Hlast|Hlast].
  - rewrite (drop_ge path (S k)) by lia. cbn [matches]. case_bool_decide as Hx.
    + rewrite IH by (done || lia). rewrite (drop_S path x k Ek), (drop_ge path (S k)) by lia. cbn [matches].
      by rewrite filter_cons_True, <- app_assoc.
    + rewrite IH by (done || lia). rewrite (drop_S path x k Ek), (drop_ge path (S k)) by lia. cbn [matches].
      by rewrite filter_cons_False.
  - destruct (lookup_lt_is_Some_2 path (S k)) as [y Ey]; [lia|]. case_bool_decide as Hx.
    + rewrite IH by (done || (rewrite drop_0; lia) || lia). rewrite drop_0, (drop_S path y (S k) Ey). cbn [matches first_named].
      by rewrite decide_True.
    + rewrite IH by (done || lia). rewrite (drop_S path x k Ek), (drop_S path y (S k) Ey). cbn [matches first_named].
      by rewrite (decide_False (P := name_of c = x)).
Qed.
End Searching.

(** * Properties *)

(** ** The number of iterations

    The iterations of [node_loop], those of the nested nodes included. *)
Fixpoint node_iterations (H : Z) (blob : bytes) (fuel : nat) (state : ParserState) (cur : Z) : N :=
  match fuel, header_field H blob size_dt_struct, load_word H blob cur 4 with
  | S fuel', Ret size, Ret w =>
      if negb (u64 (cur - H) <? size)%Z then 0
      else
        let go := node_iterations H blob fuel' in
        let type := bswap 4 w in
        1 + match state with
            | NoState => if (type =? FDT_BEGIN_NODE)%Z then go BeginNode (cur + 4)%Z else 0
            | BeginNode =>
                match cstring_at H blob cur with Ret name => go NodeName (align_to 4 (cur + Z.of_nat (length name))%Z) | _ => 0 end
            | NodeName =>
                if ((type =? 0) || (type =? FDT_NOP))%Z then go NodeName (cur + 4)%Z
                else if (type =? FDT_PROP)%Z then go Prop_ (cur + 4)%Z
                else if (type =? FDT_BEGIN_NODE)%Z then
                  go NoState cur +
                  match node_loop H blob fuel' cur NoState new_node cur with Ret (_, o) => go NodeName (o + 4)%Z | _ => 0 end
                else if (type =? FDT_END_NODE)%Z then go EndNode cur
                else if (type =? FDT_END)%Z then go End_ (cur + 4)%Z else 0
            | Prop_ => match load_property H blob cur with Ret (_, len) => go NodeName (align_to 4 (cur + sizeof_FDTProp + len)%Z) | _ => 0 end
            | EndNode => 0
            | End_ => go End_ (cur + 4)%Z
            end
  | _, _, _ => 0
  end%N.

(** C32: the parser ends on every input.  Whatever bytes lie behind the address of
    a header, as long as they end below 4 GiB, the parser comes to an end, nested
    nodes, unknown tokens, lengths and offsets included: it answers, or it reads
    outside of the tree.  The bound, four per byte, is one on the chains of
    iterations: a node is entered, left and gone on behind it within it, but a node
    that turns out not to be one is read again by the node around it, so that all
    iterations together can be exponential in the nesting
    ([unknown_token_iterations]). *)
Theorem fdt_parse_ends (m_header : Z) (blob : bytes) (fuel : nat) :
  0 ≤ m_header → m_header + Z.of_nat (length blob) + 4 < 2 ^ 32 → (4 * length blob < fuel)%nat →
  parse_reserve_entries m_header blob fuel ≠ NoFuel ∧ parse_nodes m_header blob fuel ≠ NoFuel ∧
  parse m_header blob fuel ≠ NoFuel ∧ ∀ tree, device_tree_init m_header blob fuel tree ≠ NoFuel.
Proof.
  intros HH Hsmall Hf.
  assert (∀ f off, header_field m_header blob f = Ret off → 0 ≤ off) as Hoff.
  { intros f off Hr. unfold header_field in Hr. inv_outcome. apply be4_word. }
  assert (parse_reserve_entries m_header blob fuel ≠ NoFuel) as Hr.
  { unfold parse_reserve_entries. apply obind_fuel; [apply header_field_fuel|]. intros off Hx. apply Hoff in Hx.
    apply reserve_loop_ends; unfold remaining; lia. }
  assert (parse_nodes m_header blob fuel ≠ NoFuel) as Hn.
  { unfold parse_nodes, parse_node. apply obind_fuel; [apply header_field_fuel|]. intros off Hx. apply Hoff in Hx.
    apply obind_fuel; [|done]. apply node_loop_ends; unfold remaining, rank; lia. }
  assert (parse m_header blob fuel ≠ NoFuel) as Hp.
  { unfold parse. apply obind_fuel; [done|]. intros e _. by apply obind_fuel. }
  split; [done|]. split; [done|]. split; [done|]. intros [t|]; [done|]. unfold device_tree_init.
  apply obind_fuel; [apply header_field_fuel|]. intros m _. unfold runtime_assert. destruct (_ =? _); [|done].
  by apply obind_fuel.
Qed.

(** C33: parsing is the inverse of flattening: a tree whose flattened form lies at
    the offset of the header, with its property names among the strings, is what
    the parser returns, provided that the form ends in front of the size of the
    structure block *counted from the header*.  The loop compares the distance
    from the header with that size, so that a block that is no longer than its
    own offset is not read at all and gives an empty node. *)
Theorem fdt_roundtrip (m_header : Z) (blob : bytes) (struct strings size : Z) (name_offset : bytes → Z) (n : FDTNode) (fuel : nat) :
  0 ≤ m_header → m_header + Z.of_nat (length blob) + 4 < 2 ^ 32 → (4 * length blob < fuel)%nat →
  header_field m_header blob off_dt_struct = Ret struct →
  header_field m_header blob off_dt_strings = Ret strings →
  header_field m_header blob size_dt_struct = Ret size →
  ((4 | m_header + struct) → good n → Forall (name_found m_header blob strings name_offset) (property_names n) →
   lies_at m_header blob (m_header + struct) (flatten name_offset n) →
   struct + size_of (flatten name_offset n) - 4 < size →
   parse_nodes m_header blob fuel = Ret (Some n)) ∧
  (size ≤ struct → parse_nodes m_header blob fuel = Ret (Some new_node)).
Proof.
  intros HH Hsmall Hf Hstruct Hstrings Hsize. unfold parse_nodes. rewrite Hstruct. cbn [obind].
  assert (0 ≤ struct < 2 ^ 32) as Hs. { unfold header_field in Hstruct. inv_outcome. apply be4_word. }
  split.
  - intros Hal Hg Hn Hl Hb.
    destruct (node_parses m_header blob size Hsize HH Hsmall strings name_offset Hstrings n (m_header + struct) Hg Hn Hal Hl) as [f Hp];
      [lia|].
    assert (parse_node m_header blob fuel (m_header + struct) =
      Ret (Some n, m_header + struct + size_of (flatten name_offset n) - 4)) as ->; [|done].
    destruct (node_loop_ends m_header blob HH Hsmall fuel (m_header + struct) NoState new_node (m_header + struct)) as [Hend _];
      [lia|unfold remaining, rank; lia|].
    unfold parse_node. destruct (Nat.le_ge_cases f fuel) as [Hle|Hge]; [by apply (node_loop_more _ _ f)|].
    by rewrite <- (node_loop_stable _ _ fuel f).
  - intros Hle. destruct fuel as [|fuel]; [lia|]. unfold parse_node. cbn [node_loop]. rewrite Hsize. cbn [obind].
    rewrite wrap_small by (unfold in_word; lia). by rewrite (proj2 (Z.ltb_ge _ _)) by lia.
Qed.

(** C34: searching.  [find_node] gives the node that is reached by taking, for each
    component of the path, the first child whose name in front of the '@' is the
    component, and an error when a component has no such child; it does not try a
    later child of the same name.  [find_nodes] gives all children with the last
    component below the node reached so, in order, and none for an empty path.
    Both end on every tree. *)
Theorem device_tree_search (root : FDTNode) (path : bytes) (fuel : nat) :
  all_named root → (count root ≤ fuel)%nat →
  find_node fuel root path =
    Ret (match node_at root (split_spec slash path) with Some n => Value n | None => fail_with "Node not found" end) ∧
  find_nodes fuel root path = Ret (matches (m_children root) (split_spec slash path)).
Proof.
  intros Hn Hf. rewrite count_node in Hf. split.
  - unfold find_node, node_at. destruct (find_node_loop_spec (split_spec slash path) fuel root 0 0 Hn) as (m & k & Hr & Hm);
      [lia|rewrite drop_0; lia|]. rewrite Hr. cbn [obind fst snd]. rewrite !drop_0 in Hm.
    destruct (descend _ _ _) as [r|].
    + destruct Hm as [-> ->]. by rewrite Nat.eqb_refl.
    + by rewrite (proj2 (Nat.eqb_neq _ _)) by lia.
  - unfold find_nodes. destruct (split_spec slash path) as [|x l] eqn:E.
    + destruct fuel; [lia|]. cbn. by destruct (m_children root !! 0%nat).
    + rewrite find_nodes_loop_spec by (done || (rewrite drop_0; lia) || (cbn; lia)). by rewrite !drop_0.
Qed.

(** * Samples *)

(** A root with the property "a" and the children "cpu@0" and "mem". *)
Definition sample_tree : FDTNode :=
  Node [] [mkProperty [97] [1; 2; 3]] [Node [99; 112; 117; 64; 48] [] []; Node [109; 101; 109] [] []].

Definition sample_struct : bytes := flatten (λ _, 0) sample_tree.

(** The blob; [size] is what its header gives as the size of the structure block. *)
Definition sample_blob (size : Z) : bytes :=
  mjoin (be32 <$> [0xd00dfeed; 56 + size_of sample_struct + 6; 56; 56 + size_of sample_struct + 4; 40; 17; 16; 0; 2; size]) ++
  replicate 16 0 ++ sample_struct ++ be32 FDT_END ++ [97; 0].

(** [n] nested nodes without a name around a token that is none. *)
Definition unknown_inside (n : nat) : bytes :=
  let tree := mjoin (be32 <$> mjoin (replicate n [FDT_BEGIN_NODE; 0]) ++ [7]) in
  let size := 40 + Z.of_nat (length tree) in
  mjoin (be32 <$> [0xd00dfeed; size; 40; 40; 40; 17; 16; 0; 0; size]) ++ tree.

(** Each level doubles the iterations: 3 * 2 ^ n - 2 of them for n levels. *)
Lemma unknown_token_iterations :
  (λ n, node_iterations 0x82000000 (unknown_inside n) (4 * length (unknown_inside n)) NoState (0x82000000 + 40)) <$> [1; 2; 3; 4; 5; 6]%nat
    = [4; 10; 22; 46; 94; 190]%N.
Proof. vm_compute. reflexivity. Qed.

Lemma fdt_parse_ends_witness : parse 0x82000000 (sample_blob 60) 500 ≠ NoFuel.
Proof.
  apply (fdt_parse_ends 0x82000000 (sample_blob 60) 500); [lia|by vm_compute|].
  assert (length (sample_blob 60) = 118%nat) as -> by (vm_compute; reflexivity). lia.
Defined.

(** The tree is parsed when the header gives a size that is 56 too large; with the
    size of the block nothing of it is left. *)
Lemma fdt_roundtrip_witness :
  parse_nodes 0x82000000 (sample_blob 116) 500 = Ret (Some sample_tree) ∧
  parse_nodes 0x82000000 (sample_blob 56) 500 = Ret (Some new_node).
Proof.
  assert (∀ size, length (sample_blob size) = 118%nat) as Hlen by (intros; vm_compute; reflexivity).
  split.
  - refine (proj1 (fdt_roundtrip 0x82000000 (sample_blob 116) 56 116 116 (λ _, 0) sample_tree 500 ltac:(lia)
      ltac:(rewrite Hlen; lia) ltac:(rewrite Hlen; lia) ltac:(by vm_compute) ltac:(by vm_compute) ltac:(by vm_compute)) _ _ _ _ _).
    + by exists 545259534.
    + by repeat constructor.
    + constructor; [|constructor]. split; by vm_compute.
    + eexists (take 56 (sample_blob 116)), _. split; [vm_compute; reflexivity|by vm_compute].
    + by vm_compute.
  - refine (proj2 (fdt_roundtrip 0x82000000 (sample_blob 56) 56 116 56 (λ _, 0) sample_tree 500 ltac:(lia)
      ltac:(rewrite Hlen; lia) ltac:(rewrite Hlen; lia) ltac:(by vm_compute) ltac:(by vm_compute) ltac:(by vm_compute)) _).
    lia.
Defined.

(** "/cpu" *)
Lemma device_tree_search_witness :
  find_node 10 sample_tree [47; 99; 112; 117] = Ret (Value (Node [99; 112; 117; 64; 48] [] [])) ∧
  find_nodes 10 sample_tree [47; 109; 101; 109] = Ret [Node [109; 101; 109] [] []].
Proof.
  assert (all_named sample_tree) as Hn by (repeat constructor; vm_compute; discriminate).
  split.
  - etrans; [exact (proj1 (device_tree_search sample_tree [47; 99; 112; 117] 10 Hn ltac:(cbn; lia)))|]. vm_compute. reflexivity.
  - etrans; [exact (proj2 (device_tree_search sample_tree [47; 109; 101; 109] 10 Hn ltac:(cbn; lia)))|]. vm_compute. reflexivity.
Defined.
