(* ===== verification/FdtReport.v ===== *)
(** What the device tree prints: [FDTProperty::print], [FDTNode::print],
    [FDTParser::print_debug] and [print_reserve_entries] of
    [Firmware/FDT/FDTParser.h], on the console of [Logger.v]. *)
From S2P Require Import Prelude Bits Bytes Strings Containers Logger Runtime DeviceTree.

(** [to_cstring]: the text of a [String] with its terminator. *)
Definition to_cstring (s : bytes) : bytes := s ++ [0].

Definition literal (s : string) : bytes := to_cstring (characters s).

Section Printing.
Context (use_device : bool).

Definition property_print (p : FDTProperty) (this : Logger) : outcome Logger :=
  let! this := print use_device this (to_cstring (p_name p)) in
  let! this := print use_device this (literal ": ") in
  let! this := print use_device this (to_cstring (p_value p)) in
  print use_device this [10; 0].

(** The loops over the lists of a node. *)
Fixpoint print_each {A} (print_one : A → Logger → outcome Logger) (l : list A) (this : Logger) : outcome Logger :=
  match l with [] => Ret this | x :: l' => let! this := print_one x this in print_each print_one l' this end.

Fixpoint node_print (n : FDTNode) (this : Logger) : outcome Logger :=
  match n with
  | Node name properties children =>
      let! this := print use_device this (to_cstring name) in
      let! this := print use_device this [10; 0] in
      let! this := print use_device this (literal "Number of properties: ") in
      let! this := print_ln_number use_device this (Z.of_nat (length properties)) 10 in
      let! this := print_each property_print properties this in
      let! this := print use_device this (literal "Number of children: ") in
      let! this := print_ln_number use_device this (Z.of_nat (length children)) 10 in
      let! this := print_each node_print children this in
      println use_device this (literal "Children end")
  end.

(** There is no root node when it could not be parsed. *)
Definition print_debug (m_root_node : option FDTNode) (this : Logger) : outcome Logger :=
  let! n := defined m_root_node in node_print n this.

Definition entry_print (e : FDTReserveEntry) (this : Logger) : outcome Logger :=
  let! this := print use_device this (literal "Address: ") in
  let! this := print_ln_number use_device this (e_address e) 16 in
  let! this := print use_device this (literal "Size: ") in
  print_ln_number use_device this (e_size e) 16.

Definition print_reserve_entries (m_reserve_entries : list FDTReserveEntry) (this : Logger) : outcome Logger :=
  let! this := println use_device this (literal "Reserve entries:") in
  print_each entry_print m_reserve_entries this.
End Printing.

(** * The text *)

(** Values are bytes, of which those before the first zero appear. *)
Fixpoint visible (s : bytes) : bytes :=
  match s with [] => [] | c :: s' => if c =? 0 then [] else c :: visible s' end.

(** [FDTProperty::get_value_as_string]: a [String] made from the C string. *)
Definition get_value_as_string (p : FDTProperty) : bytes := visible (p_value p).

Definition property_text (p : FDTProperty) : bytes := visible (p_name p) ++ characters ": " ++ visible (p_value p) ++ [10].

Fixpoint node_text (n : FDTNode) : bytes :=
  match n with
  | Node name properties children =>
      visible name ++ [10] ++ characters "Number of properties: " ++ numeral (Z.of_nat (length properties)) 10 ++ [10] ++
      mjoin (property_text <$> properties) ++
      characters "Number of children: " ++ numeral (Z.of_nat (length children)) 10 ++ [10] ++
      mjoin (node_text <$> children) ++ characters "Children end" ++ [10]
  end.

Definition entry_text (e : FDTReserveEntry) : bytes :=
  characters "Address: " ++ numeral (e_address e) 16 ++ [10] ++ characters "Size: " ++ numeral (e_size e) 16 ++ [10].

(** Lists whose lengths are words. *)
Inductive countable_node : FDTNode → Prop :=
| countable_intro name properties children :
    Z.of_nat (length properties) < 2 ^ 64 → Z.of_nat (length children) < 2 ^ 64 → Forall countable_node children →
    countable_node (Node name properties children).

(** [prints f s]: [f] does nothing but to print [s]. *)
Definition prints (ud : bool) (f : Logger → outcome Logger) (s : bytes) : Prop := ∀ this, f this = Ret (print_string ud this s).

Section Printed.
Context (ud : bool).
Abbreviation prints := (prints ud).

Lemma prints_seq f g s t : prints f s → prints g t → prints (λ this, let! this := f this in g this) (s ++ t).
Proof. intros Hf Hg this. rewrite Hf. cbn [obind]. by rewrite Hg, print_string_app. Qed.

Lemma prints_print s : prints (λ this, print ud this (to_cstring s)) (visible s).
Proof.
  unfold to_cstring. induction s as [|c s IH]; intros this; [done|]. cbn [app print visible]. destruct (c =? 0); [done|]. apply IH.
Qed.

Lemma visible_text s : Forall (λ c, c ≠ 0) s → visible s = s.
Proof. induction 1 as [|c s Hc _ IH]; [done|]. cbn. by rewrite (proj2 (Z.eqb_neq _ _) Hc), IH. Qed.

Lemma prints_literal (s : string) : bool_decide (Forall (λ c, c ≠ 0) (characters s)) = true → prints (λ this, print ud this (literal s)) (characters s).
Proof. intros Hs%bool_decide_eq_true this. unfold literal. by rewrite prints_print, visible_text. Qed.

Lemma prints_line (s : string) :
  bool_decide (Forall (λ c, c ≠ 0) (characters s)) = true → prints (λ this, println ud this (literal s)) (characters s ++ [10]).
Proof.
  intros Hs this. unfold literal, to_cstring. rewrite (println_text _ _ _ _ (literal_text s Hs)). unfold println_string.
  change (print_char ud ?x 10) with (print_string ud x [10]). by rewrite print_string_app.
Qed.

Lemma prints_number n base : base = 10 ∨ base = 16 → in_word 64 n → prints (λ this, print_ln_number ud this n base) (numeral n base ++ [10]).
Proof.
  intros Hb Hn this. assert (length (numeral n base) ≤ 20)%nat as Hl.
  { destruct Hb as [-> | ->]; [by apply numeral_word|]. etransitivity; [apply (numeral_short n 16 16); [lia|lia|exact Hn]|lia]. }
  unfold print_ln_number, print_number.
  destruct (itoa_spec (replicate 64 0) n base) as (rest & -> & _); [lia|done|rewrite length_replicate; lia|]. cbn [obind].
  rewrite (print_text _ _ _ (numeral n base)) by (exists rest; split; [done|apply numeral_nonzero; lia]). cbn [obind].
  change (print_char ud ?x 10) with (print_string ud x [10]). by rewrite print_string_app.
Qed.

Lemma prints_each {A} (f : A → Logger → outcome Logger) (text : A → bytes) l :
  Forall (λ x, prints (f x) (text x)) l → prints (print_each f l) (mjoin (text <$> l)).
Proof. induction 1 as [|x l Hx _ IH]; [by intros this|]. cbn [fmap list_fmap mjoin list_join]. exact (prints_seq _ _ _ _ Hx IH). Qed.

Lemma prints_property p : prints (property_print ud p) (property_text p).
Proof.
  unfold property_print, property_text. apply prints_seq; [apply prints_print|]. apply prints_seq; [by apply prints_literal|].
  apply prints_seq; [apply prints_print|]. exact (prints_print [10]).
Qed.

(** The report of a node names its properties and children in order, with their
    numbers, depth first.  Of a value that is not a text, what comes before the
    first zero byte appears: nothing, for a small number. *)
Theorem node_printed n : countable_node n → prints (node_print ud n) (node_text n).
Proof.
  revert n. fix IH 2. intros _ [name properties children Hp Hc Hch]. cbn [node_print node_text].
  apply prints_seq; [apply prints_print|]. apply prints_seq; [exact (prints_print [10])|].
  apply prints_seq; [by apply prints_literal|].
  rewrite (app_assoc (numeral _ 10) [10]), (app_assoc (numeral (Z.of_nat (length children)) 10) [10]).
  apply prints_seq; [apply prints_number; [by left|unfold in_word; lia]|].
  apply prints_seq; [apply prints_each, Forall_forall; intros p _; apply prints_property|].
  apply prints_seq; [by apply prints_literal|]. apply prints_seq; [apply prints_number; [by left|unfold in_word; lia]|].
  apply prints_seq; [|by apply prints_line]. apply prints_each. clear Hp Hc. induction Hch; constructor; auto.
Qed.

Theorem reserve_entries_printed l :
  Forall (λ e, in_word 64 (e_address e) ∧ in_word 64 (e_size e)) l →
  prints (print_reserve_entries ud l) ((characters "Reserve entries:" ++ [10]) ++ mjoin (entry_text <$> l)).
Proof.
  intros Hl. apply prints_seq; [by apply prints_line|]. apply prints_each. eapply Forall_impl; [exact Hl|]. intros e [Ha Hs].
  unfold entry_print, entry_text. apply prints_seq; [by apply prints_literal|]. rewrite app_assoc.
  apply prints_seq; [apply prints_number; [by right|done]|]. apply prints_seq; [by apply prints_literal|]. apply prints_number; [by right|done].
Qed.
End Printed.

(** The property of a small number shows its name only. *)
Example number_hidden : property_text (mkProperty (characters "#address-cells") [0; 0; 0; 2]) = characters "#address-cells: " ++ [10].
Proof. reflexivity. Qed.
