(* ===== verification/Drivers.v ===== *)
(** The drivers that look for devices in the device tree: [VirtIODriver] and
    [MMIODriver] of [Kernel/Drivers], and [DriverManager::init_drivers], which runs
    them.  They put together the device tree ([DeviceTree.v]), the numbers in
    texts ([Bytes.v]), the mapping of registers ([Paging.v]), the list of devices
    ([Devices.v]) and the initialisation of VirtIO devices ([VirtIO.v]). *)
From S2P Require Import Prelude Bits Machine Bytes Strings Containers Logger Mmio PageAllocator Paging AddressSpace VirtIO DeviceTree Devices.

(** What the drivers work on: the page allocator and memory, the devices with
    their VirtIO parts by address, the queues, the names below /dev, the registers
    and the address of the next object. *)
Record machine (D : Type) : Type := mkMachine {
  manager : MemoryManager;
  ram : memory;
  m_devices : list Z;
  store_ : gmap Z Device;
  virtio : gmap Z VirtIO.VirtIODevice;
  queues : gmap Z VirtQueue;
  dev_nodes : gmap string Z;
  bus : D;
  next_object : Z
}.
Arguments mkMachine {D}.
Arguments manager {D}.
Arguments ram {D}.
Arguments m_devices {D}.
Arguments store_ {D}.
Arguments virtio {D}.
Arguments queues {D}.
Arguments dev_nodes {D}.
Arguments bus {D}.
Arguments next_object {D}.

(** [get_value_as_u32] of the values of a property from index [i] on. *)
Fixpoint u32_values (p : FDTProperty) (i : Z) (n : nat) : outcome (list Z) :=
  match n with
  | O => Ret []
  | S n' => let! v := get_value_as_u32 p i in let! l := u32_values p (i + 1) n' in Ret (v :: l)
  end.

(** The interrupts of a node; none without the property. *)
Definition interrupts_of (node : FDTNode) : outcome (list Z) :=
  match find_property node (characters "interrupts") with
  | Value p => u32_values p 0 (Z.to_nat (number_of_u32_values p))
  | Failure _ => Ret []
  end.

(** [node->get_address().to_uint(16)]. *)
Definition node_address (node : FDTNode) : outcome Z := let! text := get_address node in atoi (text ++ [0]) 16.

Definition get_value_as_string (p : FDTProperty) : outcome bytes := cstring_text (p_value p ++ [0]).

(** The constructor of a [VirtIODevice]. *)
Definition new_virtio (mmio_device : Z) : VirtIO.VirtIODevice :=
  VirtIO.mkVirtIODevice mmio_device [] (Array.new 0 0) (Array.new 0 0) 0.

Section Drivers.
Context {D : Type} `{Bus D}.

(** The virtual [init] of a device: block devices and entropy sources initialise
    their VirtIO part; the others have the [Device::init] that fails. *)
Definition device_init (device : Z) (s : machine D) : outcome (ErrorOr unit Error * machine D) :=
  let! d := defined (store_ s !! device) in
  if bool_decide (m_device_type d = Block) || bool_decide (m_device_type d = Entropy) then
    let! v := defined (virtio s !! device) in
    let! r := virtio_init 0 1 (mkSetup v (manager s) (ram s) (queues s) (bus s)) in
    let x := r.2 in
    Ret (r.1, mkMachine (s_manager x) (s_memory x) (m_devices s) (store_ s) (<[device := s_device x]> (virtio s)) (s_queues x)
                (dev_nodes s) (s_bus x) (next_object s))
  else Ret (fail_with "Device slot is empty.", s).

(** ** [VirtIODriver::init] *)

(** The body of the loop over the nodes; [root] is the table in the satp register. *)
Definition virtio_node (root : Z) (node : FDTNode) (s : machine D) : outcome (machine D) :=
  let! address := node_address node in
  let! interrupts := interrupts_of node in
  let! r := try_to_load_mmio_device (manager s) (ram s) root address interrupts (next_object s) (m_devices s) (store_ s) (bus s) in
  let '(result, mapped, listed, d) := r in
  match result with
  | Failure _ => Ret (mkMachine mapped.1 mapped.2 listed.1 listed.2 (virtio s) (queues s) (dev_nodes s) d (next_object s))
  | Value device =>
      let s := mkMachine mapped.1 mapped.2 listed.1 listed.2 (<[device := new_virtio address]> (virtio s)) (queues s)
                 (dev_nodes s) d (next_object s + 1) in
      let! r := device_init device s in Ret r.2
  end.

Fixpoint virtio_nodes (root : Z) (nodes : list FDTNode) (s : machine D) : outcome (machine D) :=
  match nodes with
  | [] => Ret s
  | node :: rest => let! s := virtio_node root node s in virtio_nodes root rest s
  end.

Definition virtio_driver_init (fuel : nat) (tree : FDTNode) (root : Z) (s : machine D) : outcome (machine D) :=
  let! nodes := find_nodes fuel tree (characters "/soc/virtio_mmio") in virtio_nodes root nodes s.

(** ** [MMIODriver::init] *)

(** [create_dev_inode], which [ConsoleDevice::init] calls. *)
Definition create_dev_inode (device : Z) (s : machine D) : outcome (ErrorOr unit Error * machine D) :=
  let! d := defined (store_ s !! device) in
  if bool_decide (m_device_type d = Console)
  then Ret (Value tt, mkMachine (manager s) (ram s) (m_devices s) (store_ s) (virtio s) (queues s)
                        (<["tty0"%string := device]> (dev_nodes s)) (bus s) (next_object s))
  else Ret (fail_with "Unsupported device type", s).

Definition console_init (device : Z) (s : machine D) : outcome (ErrorOr unit Error * machine D) :=
  let! r := create_dev_inode device s in Ret (fail_with "Device slot is empty.", r.2).

Definition mmio_driver_init (fuel : nat) (tree : FDTNode) (s : machine D) : outcome (machine D) :=
  let! r := find_node fuel tree (characters "/soc/serial") in
  match r with
  | Failure _ => Ret s
  | Value serial =>
      let! interrupts := interrupts_of serial in
      let! address := node_address serial in
      let! type := match find_property serial (characters "compatible") with
                   | Value p => get_value_as_string p
                   | Failure _ => Ret (characters "unknown")
                   end in
      let console := new_console (UniversalDevice 0 0 (characters "/soc/serial") type address) interrupts in
      let device := next_object s in
      let s := mkMachine (manager s) (ram s) (add_device (m_devices s) device) (<[device := console]> (store_ s)) (virtio s)
                 (queues s) (dev_nodes s) (bus s) (device + 1) in
      let! r := console_init device s in Ret r.2
  end.

(** ** [DriverManager::init_drivers] *)
Inductive DriverDescriptor : Type := VirtIODriverDescriptor | MMIODriverDescriptor.

(** [register_driver] in [register_default_drivers]. *)
Definition default_drivers : list DriverDescriptor := [VirtIODriverDescriptor; MMIODriverDescriptor].

Definition driver_init_of (x : DriverDescriptor) (fuel : nat) (tree : FDTNode) (root : Z) (s : machine D) : outcome (machine D) :=
  match x with
  | VirtIODriverDescriptor => virtio_driver_init fuel tree root s
  | MMIODriverDescriptor => mmio_driver_init fuel tree s
  end.

(** [instantiate_driver] of both descriptors succeeds. *)
Fixpoint init_drivers (m_driver_descriptors : list DriverDescriptor) (fuel : nat) (tree : FDTNode) (root : Z) (s : machine D) :
    outcome (machine D) :=
  match m_driver_descriptors with
  | [] => Ret s
  | x :: rest => let! s := driver_init_of x fuel tree root s in init_drivers rest fuel tree root s
  end.
End Drivers.

(** * Devices that are register files *)

(** A register of a device. *)
Abbreviation reg b device r := (register b (device + offset_of r)).

Lemma get_register b device r : get_register_value device r b = (reg b device r, b).
Proof. done. Qed.

Lemma set_register_eq b device r v : reg (set_register_value device r v b) device r = u32 v.
Proof. unfold set_register_value. rewrite register_store_eq. apply wrap_wrap. Qed.

Lemma set_register_ne b device r v x : x ≠ device + offset_of r → register (set_register_value device r v b) x = register b x.
Proof. intros. unfold set_register_value. by rewrite register_store_ne. Qed.

Lemma set_register_other b device r r' v : r ≠ r' → reg (set_register_value device r v b) device r' = reg b device r'.
Proof. intros Hne. apply set_register_ne. destruct r, r'; try done; simpl; lia. Qed.

(** The registers of a device. *)
Definition of_device (device x : Z) : Prop := device ≤ x < device + 0x1000.

Lemma offset_bound r : 0 ≤ offset_of r < 0x1000.
Proof. destruct r; simpl; lia. Qed.

Lemma set_register_outside b device r v x : ¬ of_device device x → register (set_register_value device r v b) x = register b x.
Proof. intros Hx. apply set_register_ne. pose proof (offset_bound r). unfold of_device in Hx. lia. Qed.

(** Without required features every device is negotiated with. *)
Lemma negotiate_registers device (b : registers) :
  ∃ b', negotiate device 0 b = (Value 11, b') ∧ reg b' device Status = 11 ∧
    reg b' device QueueNumMax = reg b device QueueNumMax ∧ ∀ x, ¬ of_device device x → register b' x = register b x.
Proof.
  unfold negotiate, virtio_reset. MMIODevice.registers. rewrite get_register, set_register_eq. change (Z.lor (u32 0) Acknowledge) with 1.
  change (Z.lor 1 Driver) with 3. rewrite get_register. rewrite Z.land_0_r. cbn [Z.eqb negb].
  rewrite get_register, set_register_eq. change (u32 (Z.lor 3 FeaturesOK)) with 11. cbn [Z.land FeaturesOK Pos.land Z.eqb].
  eexists. split; [reflexivity|]. split; [by rewrite set_register_eq|]. split; [by rewrite !set_register_other by discriminate|].
  intros x Hx. by rewrite !set_register_outside.
Qed.

(** What the status register of a device ends with: DRIVER_OK unless its queues are too short. *)
Definition started (queue_num_max : Z) : Z := if queue_num_max <? VIRTIO_RING_SIZE then 11 else 15.

Section Initialised.
Context (P : gset (list Z)) (mm0 : MemoryManager) (m0 : memory) (root : Z).

Lemma kernel_space_le spare spare' mm m t rs priv :
  (spare' ≤ spare)%nat → kernel_space P mm0 m0 spare mm m root t rs priv → kernel_space P mm0 m0 spare' mm m root t rs priv.
Proof using. intros Hle [Hs Hr Hv]. constructor; [done| |done]. unfold room in *. eapply tail_free_le; [|done]. lia. Qed.

(** [VirtIODevice::init] with one queue in the kernel's space. *)
Lemma virtio_init_registers spare v mm m t rs priv qs (b : registers) :
  kernel_space P mm0 m0 (2 + spare) mm m root t rs priv →
  let device := VirtIO.m_mmio_device v in
  ∃ r v' mm' m' qs' b' priv',
    virtio_init 0 1 (mkSetup v mm m qs b) = Ret (r, mkSetup v' mm' m' qs' b') ∧
    kernel_space P mm0 m0 spare mm' m' root t rs priv' ∧
    reg b' device Status = started (reg b device QueueNumMax) ∧
    ∀ x, ¬ of_device device x → register b' x = register b x.
Proof using All.
  intros Hk device. unfold virtio_init, started. MMIODevice.registers. cbn [s_device s_manager s_memory s_queues s_bus]. fold device.
  change (Array.fill (Array.new 0 1) 0) with (Ret (Array.mk [Some 0] 1)). cbn [obind].
  destruct (negotiate_registers device b) as (b1 & -> & Hst & Hq & Hout). rewrite get_register, Hq.
  destruct (reg b device QueueNumMax <? VIRTIO_RING_SIZE).
  { eexists _, _, _, _, _, _, priv. split; [reflexivity|]. split; [eapply kernel_space_le; [|done]; lia|].
    split; [by rewrite set_register_other by discriminate|]. intros x Hx. by rewrite set_register_outside, Hout. }
  change ((sizeof_VirtQueue + PAGE_SIZE - 1) / PAGE_SIZE) with (Z.of_nat 2). change (Z.to_nat 1) with 1%nat. cbn [allocate_queues].
  destruct (kernel_zalloc P mm0 m0 spare mm m root t rs priv 2 Hk) as (i & m' & Hz & Hk' & _); [lia|done|]. rewrite Hz. cbn [obind].
  unfold queue_at. cbn [VirtIO.m_virt_queues length runtime_assert Z.ltb Z.compare Z.of_nat Z.to_nat lookup list_lookup defined obind Pos.of_succ_nat].
  eexists _, _, _, _, _, _, _. split; [reflexivity|]. split; [exact Hk'|]. split; [by rewrite set_register_eq|].
  intros x Hx. by rewrite !set_register_outside, Hout.
Qed.
End Initialised.

(** * What the search for devices finds *)

(** A node with the address and the interrupts in it. *)
Record probe : Type := mkProbe { p_node : FDTNode; p_address : Z; p_interrupts : list Z }.

Definition probe_region (p : probe) : region := mkRegion (p_address p) (p_address p + 0x1000) READ_WRITE.

Definition probe_ok (p : probe) : Prop :=
  node_address (p_node p) = Ret (p_address p) ∧ interrupts_of (p_node p) = Ret (p_interrupts p) ∧
  (4096 | p_address p) ∧ 0 ≤ p_address p ∧ p_address p + 0x2000 ≤ 2 ^ 39.

(** The registers say that there is a VirtIO device. *)
Definition present (b : registers) (p : probe) : Prop := reg b (p_address p) VirtIO.MagicValue = Devices.MagicValue.

#[global] Instance present_dec b p : Decision (present b p).
Proof. unfold present. apply _. Defined.

Definition virtio_type (id : Z) : DeviceType := if id =? 4 then Entropy else if id =? 2 then Block else NoDevice.

(** The device that is listed for it. *)
Definition listed_device (b : registers) (p : probe) : Device :=
  let type := virtio_type (reg b (p_address p) DeviceId) in
  mkDevice type (p_interrupts p) (bool_decide (type = Block)) 0 (VirtIODevice (p_address p)).

(** Its status register after the search: a block device or entropy source was initialised. *)
Definition final_status (b : registers) (p : probe) : Z :=
  if bool_decide (virtio_type (reg b (p_address p) DeviceId) = NoDevice) then reg b (p_address p) Status
  else started (reg b (p_address p) QueueNumMax).

(** Objects that [operator new] makes one after the other. *)
Definition objects (n : Z) (k : nat) : list Z := (λ i, n + Z.of_nat i) <$> seq 0 k.

Lemma objects_S n k : objects n (S k) = n :: objects (n + 1) k.
Proof.
  unfold objects. cbn [seq fmap list_fmap]. f_equal; [lia|]. rewrite <- fmap_S_seq, <- list_fmap_compose.
  apply list_fmap_ext. intros i x _. simpl. lia.
Qed.

Section Search.
Context (P : gset (list Z)) (mm0 : MemoryManager) (m0 : memory) (root : Z).

(** The kernel's space of a machine. *)
Definition in_space (spare : nat) (rs : list region) (s : machine registers) : Prop :=
  ∃ t priv, kernel_space P mm0 m0 spare (manager s) (ram s) root t rs priv.

(** [probe_mmio_device] on a register file. *)
Lemma probe_registers a ints (b : registers) :
  probe_mmio_device a ints b =
    (if bool_decide (reg b a VirtIO.MagicValue = Devices.MagicValue) then Value (listed_device b (mkProbe new_node a ints))
     else fail_with "Not a VirtIO device.", b).
Proof using.
  unfold probe_mmio_device, listed_device, virtio_type. cbn [load register_file p_address p_interrupts offset_of]. rewrite Z.add_0_r.
  destruct (Z.eqb_spec (register b a) Devices.MagicValue) as [E|E]; [rewrite bool_decide_true by done|by rewrite bool_decide_false].
  destruct (register b (a + 8) =? 4); [done|]. by destruct (register b (a + 8) =? 2).
Qed.

(** [init] of the device that was just listed. *)
Lemma device_init_ok spare rs s device d v :
  in_space (2 + spare) rs s → store_ s !! device = Some d → virtio s !! device = Some v →
  ∃ r s', device_init device s = Ret (r, s') ∧ in_space spare rs s' ∧ m_devices s' = m_devices s ∧ store_ s' = store_ s ∧
    next_object s' = next_object s ∧
    (∀ x, ¬ of_device (VirtIO.m_mmio_device v) x → register (bus s') x = register (bus s) x) ∧
    reg (bus s') (VirtIO.m_mmio_device v) Status =
      if bool_decide (m_device_type d = Block) || bool_decide (m_device_type d = Entropy)
      then started (reg (bus s) (VirtIO.m_mmio_device v) QueueNumMax) else reg (bus s) (VirtIO.m_mmio_device v) Status.
Proof using All.
  intros (t & priv & Hk) Hd Hv. unfold device_init. rewrite Hd. cbn [defined obind].
  destruct (bool_decide _ || bool_decide _).
  - rewrite Hv. cbn [defined obind].
    destruct (virtio_init_registers P mm0 m0 root spare v _ _ t rs priv (queues s) (bus s) Hk)
      as (r & v' & mm' & m' & qs' & b' & priv' & -> & Hk' & Hst & Hout).
    cbn [obind]. eexists _, _. split; [reflexivity|]. split; [by exists t, priv'|]. by split_and!.
  - eexists _, _. split; [reflexivity|]. split; [|by split_and!]. exists t, priv. eapply kernel_space_le; [|done]. lia.
Qed.

(** One iteration of the loop of [VirtIODriver::init]. *)
Lemma virtio_node_ok spare rs s p :
  in_space (2 + spare) rs s → probe_ok p → regions_tables [probe_region p] ⊆ P →
  ∃ s', virtio_node root (p_node p) s = Ret s' ∧ in_space spare (rs ++ [probe_region p]) s' ∧
    (∀ x, ¬ of_device (p_address p) x → register (bus s') x = register (bus s) x) ∧
    if decide (present (bus s) p) then
      m_devices s' = m_devices s ++ [next_object s] ∧
      store_ s' = <[next_object s := listed_device (bus s) p]> (store_ s) ∧ next_object s' = next_object s + 1 ∧
      reg (bus s') (p_address p) Status = final_status (bus s) p
    else m_devices s' = m_devices s ∧ store_ s' = store_ s ∧ next_object s' = next_object s.
Proof using All.
  intros (t & priv & Hk) (Ha & Hi & Hal & H0 & Hhi) HP. destruct p as [node a ints]. cbn [p_node p_address p_interrupts] in *.
  unfold virtio_node. rewrite Ha, Hi. cbn [obind]. unfold try_to_load_mmio_device.
  rewrite (wrap_small 64 (a + 0x1000)) by (unfold in_word; lia).
  destruct (kernel_map P mm0 m0 _ _ _ root t rs priv (probe_region (mkProbe node a ints)) Hk) as (mm1 & m1 & t1 & Hm & Hk1 & _);
    [repeat split; cbn [r_start r_end r_bits probe_region p_address]; try lia; by vm_compute|done|].
  cbn [r_start r_end r_bits probe_region p_address] in Hm. rewrite Hm. cbn [obind]. rewrite probe_registers.
  destruct (decide (present (bus s) (mkProbe node a ints))) as [Hmagic|Hmagic];
    [rewrite bool_decide_true by exact Hmagic|rewrite bool_decide_false by exact Hmagic].
  - cbn [obind fst snd].
    match goal with |- context [device_init _ ?x] => set (s1 := x) end.
    destruct (device_init_ok spare (rs ++ [probe_region (mkProbe node a ints)]) s1 (next_object s) (listed_device (bus s) (mkProbe new_node a ints)) (new_virtio a))
      as (r & s2 & -> & Hsp & Hd & Hst & Hn & Hout & Hstatus); [by exists t1, priv|apply lookup_insert_eq..|].
    cbn [obind snd]. exists s2. split; [done|]. split; [exact Hsp|]. split; [exact Hout|].
    rewrite Hd, Hst, Hn. split_and!; [done..|]. cbn [new_virtio VirtIO.m_mmio_device] in Hstatus. rewrite Hstatus.
    unfold final_status, listed_device. cbn [m_device_type p_address].
    unfold virtio_type. destruct (_ =? 4); [done|]. by destruct (_ =? 2).
  - cbn [obind fst snd]. eexists. split; [reflexivity|].
    split; [|by split_and!]. exists t1, priv. eapply kernel_space_le; [|exact Hk1]. lia.
Qed.

(** The probes of which the registers [b] tell a device. *)
Definition found (b : registers) (ps : list probe) : list probe := filter (present b) ps.

(** Where the search ends: the devices found are listed in order behind the others. *)
Record searched (b : registers) (ps : list probe) (s s' : machine registers) : Prop := {
  sr_devices : m_devices s' = m_devices s ++ objects (next_object s) (length (found b ps));
  sr_next : next_object s' = next_object s + Z.of_nat (length (found b ps));
  sr_listed : ∀ i p, found b ps !! i = Some p → store_ s' !! (next_object s + Z.of_nat i) = Some (listed_device b p);
  sr_old : ∀ o, o < next_object s → store_ s' !! o = store_ s !! o;
  sr_status : ∀ p, p ∈ found b ps → reg (bus s') (p_address p) Status = final_status b p;
  sr_outside : ∀ x, (∀ p, p ∈ ps → ¬ of_device (p_address p) x) → register (bus s') x = register (bus s) x
}.

Lemma of_device_apart a a' x : (4096 | a) → (4096 | a') → of_device a x → of_device a' x → a = a'.
Proof using. intros [q ->] [r ->]. unfold of_device. lia. Qed.

Lemma reg_of_device a r : of_device a (a + offset_of r).
Proof using. pose proof (offset_bound r). unfold of_device. lia. Qed.

(** The registers of the devices that are still to be probed are the initial ones. *)
Definition same_registers (b b' : registers) (ps : list probe) : Prop :=
  ∀ p x, p ∈ ps → of_device (p_address p) x → register b' x = register b x.

Lemma same_present b b' p : same_registers b b' [p] → present b p ↔ present b' p.
Proof using. intros Hs. unfold present. by rewrite (Hs p) by (apply reg_of_device || by left). Qed.

Lemma same_final b b' p : same_registers b b' [p] → final_status b' p = final_status b p ∧ listed_device b' p = listed_device b p.
Proof using.
  intros Hs. unfold final_status, listed_device. split; by rewrite !(Hs p) by (apply reg_of_device || by left).
Qed.

(** One probe, then the others. *)
Lemma searched_cons b p ps s s1 s2 :
  same_registers b (bus s) [p] →
  (∀ q x, q ∈ ps → of_device (p_address q) x → ¬ of_device (p_address p) x) →
  (∀ x, ¬ of_device (p_address p) x → register (bus s1) x = register (bus s) x) →
  (if decide (present (bus s) p) then
      m_devices s1 = m_devices s ++ [next_object s] ∧
      store_ s1 = <[next_object s := listed_device (bus s) p]> (store_ s) ∧ next_object s1 = next_object s + 1 ∧
      reg (bus s1) (p_address p) Status = final_status (bus s) p
    else m_devices s1 = m_devices s ∧ store_ s1 = store_ s ∧ next_object s1 = next_object s) →
  searched b ps s1 s2 → searched b (p :: ps) s s2.
Proof using.
  intros Hsame Hother Hout1 Hr1 [Hd Hn Hl Ho Hs Hout]. pose proof (same_present _ _ _ Hsame) as Hpres.
  destruct (same_final _ _ _ Hsame) as [Hfin Hlist].
  assert (∀ x, (∀ q, q ∈ p :: ps → ¬ of_device (p_address q) x) → register (bus s2) x = register (bus s) x) as Hout2.
  { intros x Hx. rewrite Hout, Hout1; [done|apply Hx; by left|]. intros q Hq. apply Hx. by right. }
  destruct (decide (present (bus s) p)) as [Hin|Hin].
  - assert (found b (p :: ps) = p :: found b ps) as Hf by (by apply filter_cons_True, Hpres).
    destruct Hr1 as (Hd1 & Hs1 & Hn1 & Hst1). constructor; rewrite ?Hf; [..|done].
    + rewrite Hd, Hd1, Hn1, <- app_assoc. cbn [length]. by rewrite objects_S.
    + rewrite Hn, Hn1. cbn [length]. lia.
    + intros [|i] q Hq.
      * injection Hq as <-. rewrite Z.add_0_r, Ho, Hs1, lookup_insert_eq by lia. by rewrite Hlist.
      * rewrite <- (Hl i q Hq). f_equal. lia.
    + intros o Hlt. rewrite Ho, Hs1 by lia. apply lookup_insert_ne. lia.
    + intros q [->|Hq]%elem_of_cons; [|by apply Hs]. rewrite <- Hfin, <- Hst1. apply Hout.
      intros q' Hq' Hx. apply (Hother q' _ Hq' Hx), reg_of_device.
  - assert (found b (p :: ps) = found b ps) as Hf by (apply filter_cons_False; by rewrite Hpres).
    destruct Hr1 as (Hd1 & Hs1 & Hn1). constructor; rewrite ?Hf, <- ?Hd1, <- ?Hn1, <- ?Hs1; done.
Qed.

Lemma virtio_nodes_ok b spare ps : ∀ rs s,
  in_space (2 * length ps + spare) rs s → Forall probe_ok ps → NoDup (p_address <$> ps) →
  regions_tables (probe_region <$> ps) ⊆ P → same_registers b (bus s) ps →
  ∃ s', virtio_nodes root (p_node <$> ps) s = Ret s' ∧ in_space spare (rs ++ (probe_region <$> ps)) s' ∧ searched b ps s s'.
Proof using All.
  induction ps as [|p ps IH]; intros rs s Hsp Hok Hnd HP Hsame.
  { exists s. split; [done|]. split; [by rewrite app_nil_r|]. constructor; try done; cbn.
    - by rewrite app_nil_r.
    - lia.
    - intros p []%not_elem_of_nil. }
  apply Forall_cons in Hok as [Hp Hok]. cbn [fmap list_fmap] in Hnd. apply NoDup_cons in Hnd as [Hnp Hnd].
  change (regions_tables ([probe_region p] ++ (probe_region <$> ps)) ⊆ P) in HP. rewrite regions_tables_app in HP.
  apply union_subseteq in HP as [HPp HP]. replace (2 * length (p :: ps) + spare)%nat with (2 + (2 * length ps + spare))%nat in Hsp by (simpl; lia).
  destruct (virtio_node_ok _ rs s p Hsp Hp HPp) as (s1 & Hn & Hsp1 & Hout1 & Hr1).
  assert (∀ q x, q ∈ ps → of_device (p_address q) x → ¬ of_device (p_address p) x) as Hother.
  { intros q x Hq Hx Hx'. apply Hnp. rewrite Forall_forall in Hok.
    rewrite (of_device_apart (p_address p) (p_address q) x); [|apply Hp|apply Hok; done|done|done]. by apply list_elem_of_fmap_2. }
  destruct (IH (rs ++ [probe_region p]) s1) as (s2 & Hns & Hsp2 & Hsr); [done..| |].
  { intros q x Hq Hx. rewrite Hout1 by (by eapply Hother). apply (Hsame q); [by right|done]. }
  exists s2. cbn [fmap list_fmap virtio_nodes]. rewrite Hn. cbn [obind]. split; [done|]. split; [by rewrite <- app_assoc in Hsp2|].
  assert (same_registers b (bus s) [p]) as Hsame1 by (intros q x ->%list_elem_of_singleton; apply Hsame; by left).
  eapply searched_cons; [exact Hsame1|exact Hother|exact Hout1|exact Hr1|exact Hsr].
Qed.
End Search.

(** What the device tree says of the serial console. *)
Record serial_node : Type := mkSerial { sn_node : FDTNode; sn_address : Z; sn_interrupts : list Z; sn_type : bytes }.

Definition serial_ok (fuel : nat) (tree : FDTNode) (serial : option serial_node) : Prop :=
  match serial with
  | None => ∃ e, find_node fuel tree (characters "/soc/serial") = Ret (Failure e)
  | Some c =>
      find_node fuel tree (characters "/soc/serial") = Ret (Value (sn_node c)) ∧
      node_address (sn_node c) = Ret (sn_address c) ∧ interrupts_of (sn_node c) = Ret (sn_interrupts c) ∧
      match find_property (sn_node c) (characters "compatible") with
      | Value p => get_value_as_string p = Ret (sn_type c)
      | Failure _ => sn_type c = characters "unknown"
      end
  end.

Definition console_of (c : serial_node) : Device :=
  new_console (UniversalDevice 0 0 (characters "/soc/serial") (sn_type c) (sn_address c)) (sn_interrupts c).

(** [MMIODriver::init] adds the console and its node below /dev. *)
Lemma mmio_driver_init_ok fuel tree serial (s : machine registers) :
  serial_ok fuel tree serial →
  mmio_driver_init fuel tree s = Ret
    (match serial with
     | None => s
     | Some c => mkMachine (manager s) (ram s) (m_devices s ++ [next_object s]) (<[next_object s := console_of c]> (store_ s)) (virtio s)
                   (queues s) (<["tty0"%string := next_object s]> (dev_nodes s)) (bus s) (next_object s + 1)
     end).
Proof.
  intros Hs. unfold mmio_driver_init. destruct serial as [c|]; cbn [serial_ok] in Hs; [|by destruct Hs as [e ->]].
  destruct Hs as (-> & Ha & Hi & Ht). cbn [obind]. rewrite Hi, Ha. cbn [obind].
  destruct (find_property (sn_node c) (characters "compatible")) as [p|e]; [rewrite Ht|rewrite <- Ht]; cbn [obind];
    unfold console_init, create_dev_inode; cbn [store_]; rewrite lookup_insert_eq; reflexivity.
Qed.

(** Both drivers, one after the other. *)
Lemma init_drivers_ok P mm0 m0 root spare rs (fuel : nat) (tree : FDTNode) (ps : list probe) (serial : option serial_node)
    (s : machine registers) :
  in_space P mm0 m0 root (2 * length ps + spare) rs s →
  find_nodes fuel tree (characters "/soc/virtio_mmio") = Ret (p_node <$> ps) →
  Forall probe_ok ps → NoDup (p_address <$> ps) → regions_tables (probe_region <$> ps) ⊆ P →
  serial_ok fuel tree serial →
  let devices := found (bus s) ps in
  let console := next_object s + Z.of_nat (length devices) in
  ∃ s', init_drivers default_drivers fuel tree root s = Ret s' ∧
    in_space P mm0 m0 root spare (rs ++ (probe_region <$> ps)) s' ∧
    m_devices s' = m_devices s ++ objects (next_object s) (length devices) ++ (match serial with Some _ => [console] | None => [] end) ∧
    (∀ i p, devices !! i = Some p → store_ s' !! (next_object s + Z.of_nat i) = Some (listed_device (bus s) p)) ∧
    (∀ o, o < next_object s → store_ s' !! o = store_ s !! o) ∧
    (∀ c, serial = Some c → store_ s' !! console = Some (console_of c) ∧ dev_nodes s' !! "tty0"%string = Some console) ∧
    (∀ p, p ∈ devices → reg (bus s') (p_address p) Status = final_status (bus s) p) ∧
    (∀ x, (∀ p, p ∈ ps → ¬ of_device (p_address p) x) → register (bus s') x = register (bus s) x).
Proof.
  intros Hsp Hfind Hok Hnd HP Hser devices console.
  destruct (virtio_nodes_ok P mm0 m0 root (bus s) spare ps rs s Hsp Hok Hnd HP) as (s1 & Hn & Hsp1 & Hr); [done|].
  unfold init_drivers, default_drivers, driver_init_of, virtio_driver_init. rewrite Hfind. cbn [obind]. rewrite Hn. cbn [obind].
  rewrite (mmio_driver_init_ok fuel tree serial s1 Hser). cbn [obind]. destruct Hr as [Hd Hnx Hl Ho Hst Hout].
  fold devices in Hd, Hnx, Hl, Hst. fold console in Hnx.
  eexists. split; [reflexivity|]. destruct serial as [c|]; cbn [ram bus m_devices store_ dev_nodes].
  - split; [exact Hsp1|].
    rewrite Hnx. split; [by rewrite Hd, <- app_assoc|]. split; [|split; [|split; [|done]]].
    + intros i p Hi. rewrite lookup_insert_ne; [by apply Hl|]. apply lookup_lt_Some in Hi. unfold console. lia.
    + intros o Hlt. rewrite lookup_insert_ne by (unfold console; lia). by apply Ho.
    + intros ? [= <-]. by rewrite !lookup_insert_eq.
  - split; [exact Hsp1|].
    split; [by rewrite Hd, app_nil_r|]. by split_and!.
Qed.

(** C36: the search for devices.  [init_drivers] maps the registers of every
    virtio_mmio node of the device tree for the kernel, lists a device for exactly
    those whose registers hold the magic value, in the order of the tree, with the
    type that the device id names and the interrupts of the node, and brings block
    devices and entropy sources to DRIVER_OK when their queues are long enough;
    then it lists the serial console with the address and type of its node, and
    makes it /dev/tty0.  Objects listed before and other registers are kept. *)
Theorem device_discovery P mm0 m0 root spare rs (fuel : nat) (tree : FDTNode) (ps : list probe) (serial : option serial_node)
    (s : machine registers) :
  in_space P mm0 m0 root (2 * length ps + spare) rs s →
  find_nodes fuel tree (characters "/soc/virtio_mmio") = Ret (p_node <$> ps) →
  Forall probe_ok ps → NoDup (p_address <$> ps) → regions_tables (probe_region <$> ps) ⊆ P →
  serial_ok fuel tree serial →
  let devices := found (bus s) ps in
  let console := next_object s + Z.of_nat (length devices) in
  ∃ s', init_drivers default_drivers fuel tree root s = Ret s' ∧
    in_space P mm0 m0 root spare (rs ++ (probe_region <$> ps)) s' ∧
    (∀ va, in_word 39 va → mmu (ram s') root va = section_view (rs ++ (probe_region <$> ps)) va) ∧
    m_devices s' = m_devices s ++ objects (next_object s) (length devices) ++ (match serial with Some _ => [console] | None => [] end) ∧
    (∀ i p, devices !! i = Some p → store_ s' !! (next_object s + Z.of_nat i) = Some (listed_device (bus s) p)) ∧
    (∀ o, o < next_object s → store_ s' !! o = store_ s !! o) ∧
    (∀ c, serial = Some c → store_ s' !! console = Some (console_of c) ∧ dev_nodes s' !! "tty0"%string = Some console) ∧
    (∀ p, p ∈ devices → reg (bus s') (p_address p) Status = final_status (bus s) p) ∧
    (∀ x, (∀ p, p ∈ ps → ¬ of_device (p_address p) x) → register (bus s') x = register (bus s) x).
Proof.
  intros Hsp Hfind Hok Hnd HP Hser devices console.
  destruct (init_drivers_ok P mm0 m0 root spare rs fuel tree ps serial s) as (s' & Hi & Hsp' & Hrest); [done..|].
  exists s'. split; [exact Hi|]. split; [exact Hsp'|]. split; [|exact Hrest].
  intros va Hva. destruct Hsp' as (t & priv & Hk). by eapply kernel_mmu.
Qed.

(** ** Witness *)

(** Two slots and a serial console; the first slot holds a block device. *)
Definition slot (address : string) (interrupt : Z) : FDTNode :=
  Node (characters ("virtio_mmio@" ++ address)) [mkProperty (characters "interrupts") [0; 0; 0; interrupt]] [].

Definition uart_node : FDTNode :=
  Node (characters "serial@10000000")
    [mkProperty (characters "interrupts") [0; 0; 0; 10]; mkProperty (characters "compatible") (characters "ns16550a" ++ [0])] [].

Definition soc_tree : FDTNode :=
  Node [] [] [Node (characters "soc") [] [slot "10001000" 1; uart_node; slot "10002000" 2]].

Definition slots : list probe :=
  [mkProbe (slot "10001000" 1) 0x10001000 [1]; mkProbe (slot "10002000" 2) 0x10002000 [2]].

Definition uart_serial : serial_node := mkSerial uart_node 0x10000000 [10] (characters "ns16550a").

Definition board : registers :=
  {[ 0x10001000 := 0x74726976; 0x10001008 := 2; 0x10001034 := 1024 ]}.

Definition sample_tables : gset (list Z) := regions_tables (system_regions sample_layout ++ (probe_region <$> slots)).

Lemma sample_tables_size : size sample_tables = 7%nat.
Proof. vm_compute. reflexivity. Qed.

Lemma slots_ok : Forall probe_ok slots.
Proof. repeat constructor; try (vm_compute; reflexivity); cbn; try lia; [by exists 65537|by exists 65538]. Qed.

Lemma soc_search :
  find_nodes 10 soc_tree (characters "/soc/virtio_mmio") = Ret (p_node <$> slots) ∧ serial_ok 10 soc_tree (Some uart_serial).
Proof. split; [|split; [|split; [|split]]]; vm_compute; reflexivity. Qed.

Lemma device_discovery_witness :
  ∃ root mm m kernel_heap s', init_memory sample_layout (replicate 100 Taken) sample_area =
      Ret (root, mm, m, kernel_heap, build_satp Sv39 0 root) ∧
    init_drivers default_drivers 10 soc_tree root (mkMachine mm m [] ∅ ∅ ∅ ∅ board 100) = Ret s' ∧
    m_devices s' = [100; 101] ∧
    store_ s' !! 100 = Some (new_block (VirtIODevice 0x10001000) [1]) ∧ dev_nodes s' !! "tty0"%string = Some 101 ∧
    reg (bus s') 0x10001000 Status = 15.
Proof.
  destruct (init_memory_ok sample_tables 4 sample_layout (replicate 100 Taken) sample_area sample_layout_ok)
    as (mm0 & root & mm & m & h & page & t & Hi & _ & Hk & _);
    [by vm_compute|by vm_compute|unfold sample_tables; rewrite regions_tables_app; apply union_subseteq_l
    |rewrite sample_tables_size; simpl; lia|apply sample_area_mapped|apply sample_area_clear|].
  destruct (device_discovery sample_tables mm0 sample_area root 0 (system_regions sample_layout) 10 soc_tree slots (Some uart_serial)
      (mkMachine mm m [] ∅ ∅ ∅ ∅ board 100)) as (s' & Hd & _ & _ & Hdev & Hl & _ & Hc & Hst & _);
    [by exists t, (AddressSpace.heap_pages h ++ [page])|apply soc_search|apply slots_ok
    |apply NoDup_cons; split; [by intros [=]%list_elem_of_singleton|apply NoDup_singleton]
    |unfold sample_tables; rewrite regions_tables_app; apply union_subseteq_r|apply soc_search|].
  exists root, mm, m, h, s'. split; [exact Hi|]. split; [exact Hd|].
  assert (found board slots = [mkProbe (slot "10001000" 1) 0x10001000 [1]]) as Hf by (vm_compute; reflexivity).
  cbn [bus] in *. rewrite Hf in *. split; [exact Hdev|]. split; [exact (Hl 0%nat _ eq_refl)|].
  split; [exact (proj2 (Hc _ eq_refl))|]. etrans; [exact (Hst _ ltac:(by left))|]. vm_compute. reflexivity.
Defined.
