(* ===== verification/Startup.v ===== *)
(** The second half of [kmain] in [Kernel/Init.cpp]: from the search for devices to
    the first process.  The parts are those of the other files; here they run one
    after the other on one machine ([Drivers.v]), as [kmain] calls them: the mount of
    /dev and the root file system ([Init.v]), the drivers ([Drivers.v], [Devices.v]),
    the processes ([AddressSpace.v], [Processes.v]), the interrupts ([Plic.v]), the
    log ([Logger.v]), the timer ([Timer.cpp]) and the scheduler.

    The drivers of devices are those of [Console.v], with their stores to registers;
    what file systems do is the interface of [Vfs.v].  The first half of [kmain] is
    in [Boot.v]. *)
From S2P Require Import Prelude Console Bits Machine Bytes Strings Containers Files Vfs Logger Mmio PageAllocator Paging Processes.
From S2P Require Import AddressSpace VirtIO DeviceTree Devices Drivers Plic Init.

(** * [ProcessManager], [InterruptManager], [Timer] and [Scheduler] at start *)

(** [ProcessManager::ProcessManager], with what [tp] points to. *)
Definition new_process_manager (kernel_frame : Z * KernelTrapFrame) : kernel := mkKernel ∅ ∅ ∅ [] [] 0 1 kernel_frame.

(** [get_interrupts] of every device of the list. *)
Fixpoint device_interrupts (store : gmap Z Device) (m_devices : list Z) : outcome (list (list Z)) :=
  match m_devices with
  | [] => Ret []
  | device :: rest =>
      let! d := defined (store !! device) in
      let! l := device_interrupts store rest in Ret (m_interrupts d :: l)
  end.

Section Startup.
Context {D : Type} `{Bus D}.

Definition with_bus (s : machine D) (b : D) : machine D :=
  mkMachine (manager s) (ram s) (m_devices s) (store_ s) (virtio s) (queues s) (dev_nodes s) b (next_object s).
Definition with_memory (s : machine D) (mm : MemoryManager) (m : memory) : machine D :=
  mkMachine mm m (m_devices s) (store_ s) (virtio s) (queues s) (dev_nodes s) (bus s) (next_object s).

(** [DeviceManager::load_drivers]: the drivers work on the devices and the bus of the
    machine; their objects get the addresses behind the devices.  [k] is what there
    is of processes, which is nothing yet. *)
Definition driver_world (k : kernel) (s : machine D) : Console.world (D := D) :=
  mkWorld (store_ s) ∅ ∅ ∅ k (bus s) (Z.to_pos (next_object s)).

Definition with_world (s : machine D) (w : Console.world (D := D)) : machine D :=
  mkMachine (manager s) (ram s) (m_devices s) (w_devices w) (virtio s) (queues s) (dev_nodes s) (w_bus w) (Zpos (w_fresh w)).

(** The interrupts of block devices, which do not come before the start has ended. *)
Variable block_interrupt : Z → Console.world (D := D) → outcome (ErrorOr unit Error * Console.world (D := D)).

Definition load_device_drivers (k : kernel) (s : machine D) : outcome (machine D * gmap Z driver) :=
  let! w := load_drivers (H := world_virtuals block_interrupt) default_descriptors (m_devices s) (driver_world k s) in
  Ret (with_world s w, w_drivers w).

(** [set_threshold(0)] and [enable_device_interrupts]. *)
Definition start_interrupts (plic_base : Z) (s : machine D) : outcome (machine D) :=
  let b := set_default_threshold plic_base 0 (bus s) in
  let! interrupts := device_interrupts (store_ s) (m_devices s) in
  Ret (with_bus s (enable_device_interrupts plic_base interrupts b)).

(** [Plic::init] with [Plic::Plic]: [m_base].  Without the node it keeps what the
    memory of the new object holds, [unset]. *)
Definition plic_init (fuel : nat) (tree : FDTNode) (unset : Z) : outcome Z :=
  let! node_or_error := find_node fuel tree (characters "/soc/plic") in
  match node_or_error with
  | Failure _ => Ret unset
  | Value node => node_address node
  end.

(** [Timer::init]: [m_frequency]. *)
Definition timer_init (fuel : nat) (tree : FDTNode) : outcome Z :=
  let! error_or_cpus := find_node fuel tree (characters "/cpus") in
  match error_or_cpus with
  | Failure _ => Halted
  | Value cpus =>
      match find_property cpus (characters "timebase-frequency") with
      | Failure _ => Halted
      | Value frequency => get_value_as_u32 frequency 0
      end
  end.

Definition DEFAULT_PROCESS_TIME : Z := 100.

(** [Scheduler::start_scheduling]: the deadline of the timer, the frame that
    [switch_to_user_mode] gets, and the kernel; [now] is the register time. *)
Definition start_scheduling (fuel : nat) (m_frequency now : Z) (k : kernel) : outcome (Z * Z * kernel) :=
  let ticks := u64 (m_frequency / 1000 * DEFAULT_PROCESS_TIME) in
  let deadline := u64 (now + ticks) in
  let! r := schedule fuel k in
  let! t := thread_at r.2 r.1 in
  Ret (deadline, m_trap_frame t, r.2).

(** The log: the lines from [try_console_lookup] to [start_scheduling]. *)
Definition start_logger (now sie : Z) (this : Logger) (consoles : list Z) : outcome Logger :=
  let! this := try_console_lookup now this consoles in
  let! this := logln now this (characters "MatteOS: Logger initialized." ++ [0]) [] in
  let! this := print true this (characters "MatteOS: The state of SIE is " ++ [0]) in
  let! this := print_ln_number true this sie 16 in
  let! this := println true this (characters "MatteOS: Logging to logfile from now! Available using dmesg." ++ [0]) in
  let this := switch_to_logfile this in
  println true this (characters "MatteOS: Initialization complete! Scheduling next process!" ++ [0]).

(** * [kmain] from [VirtualFileSystem::init] on *)
Context {W : Type} `{FileSystemOps W}.
Context (try_create : Z → W → outcome (ErrorOr Z Error * W)).

Record started : Type := mkStarted {
  st_machine : machine D;
  st_drivers : gmap Z driver;
  st_vfs : VirtualFileSystem.t;
  st_world : W;
  st_kernel : kernel;
  st_logger : Logger;
  st_deadline : Z;
  st_frame : Z                    (** for [switch_to_user_mode] *)
}.

(** The addresses that the linker and the heap give. *)
Record addresses : Type := mkAddresses {
  a_layout : Layout; a_devfs : Z; dummy_process_main : Z; console_main : Z;
  a_thread1 : Z; a_process1 : Z; a_thread2 : Z; a_process2 : Z; unset_base : Z
}.

(** [root] is the table in the satp register, [tp] what the register tp points to. *)
Definition start (a : addresses) (fuel : nat) (tree : FDTNode) (root now sie : Z) (tp : Z * KernelTrapFrame)
    (logger : Logger) (w : W) (s : machine D) : outcome started :=
  let! r := new_device_manager (a_devfs a) VirtualFileSystem.new in
  let vfs := r.2 in
  let! s := init_drivers default_drivers fuel tree root s in
  let k := new_process_manager tp in
  let! r := load_device_drivers k s in
  let '(s, drivers) := r in
  let! r := setup_root_filesystem try_create (store_ s) (m_devices s) vfs w in
  let '(_, vfs, w) := r in
  let! r := create_initial_processes (a_layout a) (manager s) (ram s) k (dummy_process_main a) (console_main a)
              (a_thread1 a) (a_process1 a) (a_thread2 a) (a_process2 a) in
  let '(_, _, mm, m, k) := r in
  let! plic_base := plic_init fuel tree (unset_base a) in
  let! s := start_interrupts plic_base (with_memory s mm m) in
  let! consoles := get_devices_of_type (store_ s) Console (m_devices s) in
  let! logger := start_logger now sie logger consoles in
  let! m_frequency := timer_init fuel tree in
  let! r := start_scheduling fuel m_frequency now k in
  let '(deadline, frame, k) := r in
  Ret (mkStarted s drivers vfs w k logger deadline frame).
End Startup.

Definition of_controller (plic_base x : Z) : Prop := plic_base ≤ x < plic_base + 0x4000000.

(** * The list of devices *)

(** The devices of the list [l] of addresses. *)
Definition devices_at (store : gmap Z Device) (l : list Z) (ds : list Device) : Prop := Forall2 (λ o d, store !! o = Some d) l ds.

(** The addresses of those of a type. *)
Definition of_type (type : DeviceType) (l : list Z) (ds : list Device) : list Z :=
  fst <$> filter (λ x, m_device_type x.2 = type) (zip l ds).

Lemma device_interrupts_at store l ds : devices_at store l ds → device_interrupts store l = Ret (m_interrupts <$> ds).
Proof. induction 1 as [|o d l ds Hd _ IH]; [done|]. cbn [device_interrupts]. rewrite Hd. cbn [defined obind]. by rewrite IH. Qed.

Lemma devices_of_type_at store type l ds : devices_at store l ds → get_devices_of_type store type l = Ret (of_type type l ds).
Proof.
  unfold of_type. induction 1 as [|o d l ds Hd _ IH]; [done|]. cbn [get_devices_of_type zip zip_with]. rewrite Hd. cbn [defined obind].
  rewrite IH, filter_cons. cbn [obind snd]. case_decide; [by rewrite bool_decide_true|by rewrite bool_decide_false].
Qed.

(** A driver changes neither type nor interrupts. *)
Definition same_kind (d d' : Device) : Prop := m_device_type d' = m_device_type d ∧ m_interrupts d' = m_interrupts d.

Lemma same_kind_lists l ds ds' : Forall2 same_kind ds ds' →
  m_interrupts <$> ds' = m_interrupts <$> ds ∧ ∀ type, of_type type l ds' = of_type type l ds.
Proof.
  intros Hds. split; [by induction Hds as [|d d' ds ds' [_ Hi] _ IH]; [|rewrite !fmap_cons, Hi, IH]|]. intros type. unfold of_type.
  revert l. induction Hds as [|d d' ds ds' [Ht _] _ IH]; intros [|o l]; [done..|]. cbn [zip zip_with].
  rewrite !filter_cons. cbn [snd]. rewrite Ht. case_decide; cbn [fmap list_fmap fst]; by rewrite IH.
Qed.

(** ** The drivers of the devices *)

(** What loading the driver of a device does to the registers: the UART is
    initialised, the [init] of the block driver is empty. *)
Definition driver_bus (d : Device) (b : registers) : registers :=
  if wants_driver default_descriptors d
  then match m_underlying_device d with UniversalDevice _ _ _ _ address => uart_init address b | _ => b end else b.

(** The object of the driver. *)
Definition driver_of (device : Z) (d : Device) : driver :=
  match m_underlying_device d with UniversalDevice _ _ _ _ _ => NS16550ADriver device (mkInput [] []) | _ => BlockIODriver device end.

(** A device with and without its driver, an object below [n]. *)
Definition driven (n : Z) (drivers : gmap Z driver) (device : Z) (d d' : Device) : Prop :=
  if wants_driver default_descriptors d
  then ∃ p, 0 < p < n ∧ d' = set_driver d p ∧ drivers !! p = Some (driver_of device d) else d' = d.

Lemma driven_kind n drivers device d d' : driven n drivers device d d' → same_kind d d'.
Proof. unfold driven. destruct (wants_driver _ d); [by intros (p & _ & -> & _)|by intros ->]. Qed.

Lemma driven_kinds n drivers l ds ds' : Forall3 (driven n drivers) l ds ds' → Forall2 same_kind ds ds'.
Proof. induction 1; constructor; [by eapply driven_kind|done]. Qed.

Section Loading.
Context (block_interrupt : Z → Console.world (D := registers) → outcome (ErrorOr unit Error * Console.world (D := registers))).
Implicit Types (w : Console.world (D := registers)).
#[local] Existing Instance world_virtuals.

(** What later drivers keep of the objects. *)
Definition keeps_drivers w w' : Prop :=
  (w_fresh w ≤ w_fresh w')%positive ∧ ∀ q, q < Zpos (w_fresh w) → w_drivers w' !! q = w_drivers w !! q.

Lemma driven_keeps w w' device d d' :
  keeps_drivers w w' → driven (Zpos (w_fresh w)) (w_drivers w) device d d' → driven (Zpos (w_fresh w')) (w_drivers w') device d d'.
Proof using.
  intros [Hle Hk]. unfold driven. destruct (wants_driver _ d); [|done]. intros (p & [Hp Hlt] & -> & Hd).
  exists p. split; [lia|]. split; [done|]. by rewrite Hk.
Qed.

(** The first compatible descriptor makes the driver of the kind of the device. *)
Lemma compatible_kind d x l :
  find_compatible_drivers default_descriptors d = x :: l →
  (x = VirtIODeviceDriverDescriptor ∧ instantiate_driver x d = Value BlockIO ∧
     match m_underlying_device d with UniversalDevice _ _ _ _ _ => False | _ => True end) ∨
  (x = NS16550ADriverDescriptor ∧ ∃ i v path t a, m_underlying_device d = UniversalDevice i v path t a).
Proof using.
  unfold find_compatible_drivers, default_descriptors. rewrite !filter_cons. cbn [is_compatible_with].
  unfold block_is_compatible_with, uart_is_compatible_with.
  destruct (bool_decide (underlying_type (m_underlying_device d) = VirtIO)) eqn:Hu.
  - apply bool_decide_eq_true in Hu. destruct (bool_decide (m_device_type d = Block)) eqn:Hb; cbn [andb].
    + intros [= <- _]. left. split; [done|]. unfold instantiate_driver, instantiate_block_driver, block_is_compatible_with.
      rewrite Hu, Hb. split; [done|]. revert Hu. by destruct (m_underlying_device d).
    + rewrite Hu, andb_false_r. done.
  - cbn [andb]. destruct (m_underlying_device d) as [| |i v path t a]; cbn [underlying_type]; [by apply bool_decide_eq_false in Hu| |].
    + by destruct (bool_decide (m_device_type d = _)).
    + rewrite decide_False by done. destruct (decide (_ && _ && _ = true)); [|done]. intros [= <- _]. right. split; [done|]. by exists i, v, path, t, a.
Qed.

Lemma world_load_driver p d w : w_devices w !! p = Some d →
  ∃ w' d', load_driver (H := world_virtuals block_interrupt) default_descriptors p w = Ret w' ∧ w_bus w' = driver_bus d (w_bus w) ∧
    w_devices w' = <[p := d']> (w_devices w) ∧ driven (Zpos (w_fresh w')) (w_drivers w') p d d' ∧ keeps_drivers w w'.
Proof using.
  intros Hp. unfold load_driver, driver_bus, driven, wants_driver. cbn [device_store world_virtuals]. rewrite Hp. cbn [defined obind].
  destruct (has_driver d); [exists w, d; split_and!; try done; by rewrite insert_id|]. cbn [orb negb].
  destruct (m_needs_driver d); [|exists w, d; split_and!; try done; by rewrite insert_id]. cbn [negb andb].
  pose proof (find_compatible_head default_descriptors d) as Hf. pose proof (compatible_kind d) as Hk.
  destruct (find_compatible_drivers default_descriptors d) as [|x l].
  { rewrite Hf. exists w, d. split_and!; try done. by rewrite insert_id. }
  destruct Hf as [_ ->]. specialize (Hk x l eq_refl).
  assert (∀ x' w', w_fresh w' = Pos.succ (w_fresh w) → w_drivers w' = <[Zpos (w_fresh w) := x']> (w_drivers w) → keeps_drivers w w') as Hkeep.
  { intros x' w' Hf Hd. unfold keeps_drivers. rewrite Hf, Hd. split; [lia|]. intros q Hq. apply lookup_insert_ne. lia. }
  destruct Hk as [(-> & -> & Hu)|(-> & i & v & path & t & a & Hu)].
  - cbn [new_driver world_virtuals world_new_driver set_device_store device_store driver_init]. unfold world_driver_init.
    cbn [with_devices w_drivers w_devices]. rewrite lookup_insert_eq. cbn [defined obind].
    eexists _, _. split; [reflexivity|]. cbn [with_devices w_bus w_devices w_fresh w_drivers w_requests w_contexts w_kernel]. split; [by destruct (m_underlying_device d)|].
    split; [reflexivity|]. split; [|by eapply Hkeep]. exists (Zpos (w_fresh w)). split; [lia|]. split; [done|].
    rewrite lookup_insert_eq. unfold driver_of. by destruct (m_underlying_device d).
  - cbn [instantiate_driver instantiate_uart_driver new_driver world_virtuals world_new_driver set_device_store device_store driver_init].
    unfold world_driver_init, uart_address. cbn [with_devices w_drivers w_devices]. rewrite !lookup_insert_eq. cbn [defined obind].
    cbn [set_driver m_underlying_device]. rewrite Hu. cbn [obind].
    eexists _, _. split; [reflexivity|]. cbn [with_devices Console.with_bus Console.with_driver w_bus w_devices w_fresh w_drivers w_requests w_contexts w_kernel].
    split; [done|]. split; [reflexivity|]. split.
    + exists (Zpos (w_fresh w)). split; [lia|]. split; [done|]. rewrite insert_insert_eq, lookup_insert_eq. unfold driver_of. by rewrite Hu.
    + eapply Hkeep; [done|apply insert_insert_eq].
Qed.

Lemma world_load_drivers l : ∀ ds w, NoDup l → devices_at (w_devices w) l ds →
  ∃ w' ds', load_drivers (H := world_virtuals block_interrupt) default_descriptors l w = Ret w' ∧
    w_bus w' = foldl (λ b d, driver_bus d b) (w_bus w) ds ∧ devices_at (w_devices w') l ds' ∧
    Forall3 (driven (Zpos (w_fresh w')) (w_drivers w')) l ds ds' ∧
    (∀ q, q ∉ l → w_devices w' !! q = w_devices w !! q) ∧ keeps_drivers w w'.
Proof using.
  induction l as [|p l IH]; intros ds w Hnd Hds.
  { apply Forall2_nil_inv_l in Hds as ->. exists w, []. split_and!; try done; constructor. }
  apply NoDup_cons in Hnd as [Hp Hnd]. apply Forall2_cons_inv_l in Hds as (d & ds1 & Hd & Hds & ->).
  destruct (world_load_driver p d w Hd) as (w1 & d' & Hl1 & Hb1 & Hs1 & Hdr1 & Hk1).
  destruct (IH ds1 w1 Hnd) as (w2 & ds' & Hl2 & Hb2 & Hat & Hdr2 & Ho & Hk2).
  { rewrite Hs1. apply Forall2_same_length_lookup. split; [by eapply Forall2_length|]. intros i q x Hq Hx.
    rewrite lookup_insert_ne by (intros <-; apply Hp; by eapply list_elem_of_lookup_2).
    by apply (Forall2_lookup_lr _ _ _ _ _ _ Hds Hq Hx). }
  exists w2, (d' :: ds'). cbn [load_drivers]. rewrite Hl1. cbn [obind foldl]. split; [exact Hl2|]. split; [by rewrite Hb2, Hb1|].
  split; [constructor; [|done]; by rewrite Ho, Hs1, lookup_insert_eq|].
  split; [constructor; [by eapply driven_keeps|done]|]. split.
  - intros q [Hqp Hql]%not_elem_of_cons. rewrite Ho, Hs1 by done. by apply lookup_insert_ne.
  - destruct Hk1 as [H1 H2], Hk2 as [H3 H4]. split; [lia|]. intros q Hq. rewrite H4, H2 by lia. done.
Qed.

(** All devices of a machine get their drivers. *)
Lemma load_all (k : kernel) (s : machine registers) ds :
  NoDup (m_devices s) → devices_at (store_ s) (m_devices s) ds →
  ∃ s' drivers ds', load_device_drivers block_interrupt k s = Ret (s', drivers) ∧
    manager s' = manager s ∧ ram s' = ram s ∧ m_devices s' = m_devices s ∧ dev_nodes s' = dev_nodes s ∧
    bus s' = foldl (λ b d, driver_bus d b) (bus s) ds ∧ devices_at (store_ s') (m_devices s) ds' ∧
    Forall3 (driven (next_object s') drivers) (m_devices s) ds ds'.
Proof using.
  intros Hnd Hds. destruct (world_load_drivers (m_devices s) ds (driver_world k s) Hnd Hds) as (w' & ds' & Hl & Hb & Hat & Hdr & _ & _).
  unfold load_device_drivers. rewrite Hl. cbn [obind]. eexists _, _, ds'. split; [reflexivity|]. by split_and!.
Qed.
End Loading.

(** The registers of a UART; its initialisation on a register file. *)
Definition of_uart (address x : Z) : Prop := address ≤ x < address + 8.

Lemma uart_init_outside address x (b : registers) : ¬ of_uart address x → register (uart_init address b) x = register b x.
Proof.
  intros Hx. unfold of_uart in Hx. unfold uart_init, init_stores. cbn [foldl fst snd]. by rewrite !register_store_ne by lia.
Qed.

(** The registers that the initialisation leaves: divisor, interrupts, FIFO, line, modem. *)
Lemma uart_init_registers address (b : registers) (u := uart_init address b) :
  register u address = 3 ∧ register u (address + 1) = 1 ∧ register u (address + 2) = 7 ∧ register u (address + 3) = 3 ∧
  register u (address + 4) = 15.
Proof.
  unfold u, uart_init, init_stores. cbn [foldl fst snd]. rewrite Z.add_0_r.
  split_and!; repeat first [rewrite register_store_eq; reflexivity|rewrite register_store_ne by lia].
Qed.

(** * The log *)

(** Printing keeps where the log goes, and with a console the firmware gets nothing. *)
Record printed_on (this this' : Logger) : Prop := {
  po_output : m_output this' = m_output this;
  po_level : m_level this' = m_level this;
  po_console : m_console this' = m_console this;
  po_sbi : m_console this ≠ 0 → sbi_text this' = sbi_text this
}.

#[global] Instance printed_on_preorder : PreOrder printed_on.
Proof. split; [by constructor|]. intros x y z [A1 A2 A3 A4] [B1 B2 B3 B4]. constructor; [congruence..|]. intros Hc. by rewrite B4, A4 by congruence. Qed.

Lemma print_char_on this c : printed_on this (print_char true this c).
Proof. unfold print_char, log_char. destruct (Z.eqb_spec (m_console this) 0); constructor; done. Qed.

Lemma print_on b : 0 ∈ b → ∀ this, ∃ this', print true this b = Ret this' ∧ printed_on this this'.
Proof.
  induction b as [|c b IH]; intros H0 this; [by apply not_elem_of_nil in H0|]. cbn [print].
  destruct (Z.eqb_spec c 0) as [->|Hc]; [by eexists|]. apply elem_of_cons in H0 as [H0|H0]; [done|].
  destruct (IH H0 (print_char true this c)) as (this' & -> & Hp). eexists. split; [done|]. etrans; [apply print_char_on|exact Hp].
Qed.

Lemma println_on b : 0 ∈ b → ∀ this, ∃ this', println true this b = Ret this' ∧ printed_on this this'.
Proof.
  induction b as [|c b IH]; intros H0 this; [by apply not_elem_of_nil in H0|]. cbn [println].
  destruct (Z.eqb_spec c 0) as [->|Hc]; [eexists; split; [done|]; apply print_char_on|]. apply elem_of_cons in H0 as [H0|H0]; [done|].
  destruct (IH H0 (print_char true this c)) as (this' & -> & Hp). eexists. split; [done|]. etrans; [apply print_char_on|exact Hp].
Qed.

Lemma print_number_on this n : in_word 64 n → ∃ this', print_ln_number true this n 16 = Ret this' ∧ printed_on this this'.
Proof.
  intros Hn. unfold print_ln_number, print_number.
  destruct (itoa_spec (replicate 64 0) n 16) as (rest & -> & _); [lia|done| |].
  { rewrite length_replicate. pose proof (numeral_short n 16 16) as Hs. unfold in_word in Hn. specialize (Hs ltac:(lia) ltac:(lia) ltac:(change (16 ^ Z.of_nat 16) with (2 ^ 64); lia)). lia. }
  cbn [obind]. destruct (print_on (numeral n 16 ++ 0 :: rest)) with (this := this) as (this' & -> & Hp);
    [apply elem_of_app; right; by left|]. cbn [obind]. eexists. split; [done|]. etrans; [exact Hp|apply print_char_on].
Qed.

Lemma line_end s : 0 ∈ characters s ++ [0].
Proof. apply elem_of_app. right. by left. Qed.

Lemma start_logger_ok now sie this consoles :
  m_output this = SBI → m_console this = 0 → m_level this = LevelDebug → in_word 64 sie → Forall (λ d, d ≠ 0) consoles →
  ∃ this', start_logger now sie this consoles = Ret this' ∧ m_output this' = LogFile ∧
    m_console this' = default 0 (head consoles) ∧ (consoles ≠ [] → sbi_text this' = sbi_text this).
Proof.
  intros Ho Hc Hl Hsie Hcs. unfold start_logger.
  assert (∃ l1, (let! l := try_console_lookup now this consoles in
      logln now l (characters "MatteOS: Logger initialized." ++ [0]) []) = Ret l1 ∧
    m_console l1 = default 0 (head consoles) ∧ (consoles ≠ [] → sbi_text l1 = sbi_text this)) as (l1 & H1 & Hc1 & Hs1).
  { unfold try_console_lookup, logln, log_format. rewrite Hc. cbn [Z.eqb negb].
    assert (∃ t, format (characters "MatteOS: Logger initialized." ++ [0]) [] = Ret t) as [t Ht]
      by (eexists; vm_compute; reflexivity).
    destruct this as [o lv c b t0 ws]. cbn [m_output m_console m_level] in Ho, Hc, Hl. subst o lv c.
    destruct consoles as [|d l]; cbn [obind].
    - rewrite Ht. cbn. by eexists.
    - apply Forall_cons in Hcs as [Hd _]. pose proof (proj2 (Z.eqb_neq d 0) Hd) as He.
      unfold log. cbn -[format characters app]. rewrite He. cbn -[format characters app]. rewrite Ht.
      cbn -[format characters app]. rewrite He. cbn -[format characters app]. rewrite He. by eexists. }
  destruct (try_console_lookup now this consoles) as [l0| | |]; cbn [obind] in *; try discriminate. rewrite H1. cbn [obind].
  destruct (print_on _ (line_end "MatteOS: The state of SIE is ") l1) as (l2 & -> & Hp2). cbn [obind].
  destruct (print_number_on l2 sie Hsie) as (l3 & -> & Hp3). cbn [obind].
  destruct (println_on _ (line_end "MatteOS: Logging to logfile from now! Available using dmesg.") l3) as (l4 & -> & Hp4). cbn [obind].
  destruct (println_on _ (line_end "MatteOS: Initialization complete! Scheduling next process!") (switch_to_logfile l4)) as (l5 & -> & Hp5).
  assert (printed_on l1 l4) as [_ _ P3 P4] by (etrans; [exact Hp2|]; by etrans). destruct Hp5 as [Q1 _ Q3 Q4].
  cbn [switch_to_logfile with_output m_output m_console sbi_text] in *. exists l5. split; [done|]. split; [done|].
  split; [congruence|]. intros Hne. rewrite Q4, P4, Hs1; try done; rewrite ?P3, Hc1;
    (destruct Hcs as [|d l Hd _]; [done|exact Hd]).
Qed.

(** * The first switch: the queue is rotated before the first thread is taken *)
Lemma start_scheduling_ok fuel m_frequency now tp pc1 root1 satp1 frame1 thread1 process1 pc2 root2 satp2 frame2 thread2 process2 :
  length (regs (base tp.2)) = 32%nat → (0 < fuel)%nat →
  ∃ k, start_scheduling fuel m_frequency now
      (add_process (add_process (new_process_manager tp) pc1 root1 satp1 frame1 thread1 process1) pc2 root2 satp2 frame2 thread2 process2) =
    Ret (u64 (now + u64 (m_frequency / 1000 * DEFAULT_PROCESS_TIME)), frame2, k) ∧
    m_run_queue k = [thread2; thread1] ∧ m_process_list k = [process1; process2] ∧
    current_process_id (kernel_frame k).2 = 2 ∧ m_process_list_lock k = 0.
Proof.
  intros Hregs Hfuel. unfold start_scheduling. set (k0 := add_process _ _ _ _ _ _ _).
  assert (threads k0 !! thread2 = Some (mkThread frame2 0 2 Running)) as Ht by apply lookup_insert_eq.
  rewrite (schedule_finds k0 fuel [] thread2 [thread1] (mkThread frame2 0 2 Running) (initial_frame pc2 satp2 frame2));
    [|done|done|constructor|unfold runs; by rewrite Ht|done|exact Ht|apply lookup_insert_eq|done].
  cbn [obind fst snd]. unfold thread_at. cbn [switched threads]. rewrite Ht. cbn [defined obind m_trap_frame].
  eexists. split; [reflexivity|]. by split_and!.
Qed.

(** * The machine after the start *)

(** The devices that the device tree and the registers tell of, in order. *)
Definition discovered (b : registers) (ps : list probe) (serial : option serial_node) : list Device :=
  (listed_device b <$> found b ps) ++ (console_of <$> option_list serial).

Lemma objects_app n k k' : objects n (k + k') = objects n k ++ objects (n + Z.of_nat k) k'.
Proof.
  unfold objects. rewrite seq_app, fmap_app. f_equal. cbn [plus].
  replace (seq k k') with (Nat.add k <$> seq 0 k') by (by rewrite fmap_add_seq, Nat.add_0_r). rewrite <- list_fmap_compose.
  apply list_fmap_ext. intros i x _. simpl. lia.
Qed.

Lemma objects_nodup n k : NoDup (objects n k).
Proof. unfold objects. apply NoDup_fmap_2; [intros i j Hij; lia|apply NoDup_seq]. Qed.

Lemma objects_at {A} store n (f : A → Device) (xs : list A) :
  (∀ i x, xs !! i = Some x → store !! (n + Z.of_nat i) = Some (f x)) → devices_at store (objects n (length xs)) (f <$> xs).
Proof.
  intros Hl. apply Forall2_same_length_lookup. unfold objects. rewrite !length_fmap, length_seq. split; [done|].
  intros i o d Ho Hd. apply list_lookup_fmap_Some in Hd as (x & -> & Hx).
  apply list_lookup_fmap_Some in Ho as (j & -> & Hj). apply lookup_seq in Hj as [-> _]. by apply Hl.
Qed.

(** The drivers find the discovered devices. *)
Lemma find_devices P mm0 m0 root spare rs (fuel : nat) (tree : FDTNode) (ps : list probe) (serial : option serial_node)
    (s : machine registers) :
  in_space P mm0 m0 root (2 * length ps + spare) rs s → m_devices s = [] →
  find_nodes fuel tree (characters "/soc/virtio_mmio") = Ret (p_node <$> ps) →
  Forall probe_ok ps → NoDup (p_address <$> ps) → regions_tables (probe_region <$> ps) ⊆ P →
  serial_ok fuel tree serial →
  let devices := discovered (bus s) ps serial in
  ∃ s', init_drivers default_drivers fuel tree root s = Ret s' ∧
    in_space P mm0 m0 root spare (rs ++ (probe_region <$> ps)) s' ∧
    m_devices s' = objects (next_object s) (length devices) ∧ devices_at (store_ s') (m_devices s') devices ∧
    (∀ x, (∀ p, p ∈ ps → ¬ of_device (p_address p) x) → register (bus s') x = register (bus s) x).
Proof.
  intros Hsp H0 Hfind Hok Hnd HP Hser devices.
  destruct (init_drivers_ok P mm0 m0 root spare rs fuel tree ps serial s) as (s' & Hi & Hsp' & Hd & Hl & _ & Hc & _ & Hout); [done..|].
  rewrite H0 in Hd. cbn [app] in Hd. exists s'. split; [exact Hi|]. split; [exact Hsp'|].
  assert (m_devices s' = objects (next_object s) (length (found (bus s) ps)) ++
    objects (next_object s + Z.of_nat (length (found (bus s) ps))) (length (option_list serial))) as Hd'.
  { rewrite Hd. f_equal. destruct serial; [cbn; f_equal; lia|done]. }
  unfold devices, discovered. split; [rewrite Hd', <- objects_app; by rewrite length_app, !length_fmap|].
  split; [|exact Hout]. rewrite Hd'. apply Forall2_app; apply objects_at; [exact Hl|].
  destruct serial as [c|]; intros i x Hx; [|by destruct i].
  destruct i as [|i]; [|by destruct i]. injection Hx as <-. cbn [Z.of_nat]. rewrite Z.add_0_r. by apply Hc.
Qed.

(** [set_threshold] does not change what is enabled. *)
Lemma enable_address_range m_base c i : 0 ≤ m_base → m_base < 2 ^ 62 → context_ok c → id_ok i →
  m_base ≤ enable_address m_base c i < m_base + 0x200000.
Proof.
  intros Hb Hb' Hc Hi. rewrite enable_address_small by done. unfold context_ok, id_ok, InterruptEnable in *.
  pose proof (Z.div_lt_upper_bound i 32 32 ltac:(lia) ltac:(lia)). pose proof (Z.div_pos i 32 ltac:(lia) ltac:(lia)). lia.
Qed.

Lemma threshold_enabled m_base r c i : 0 ≤ m_base → m_base < 2 ^ 62 → context_ok c → id_ok i →
  enabled m_base (set_default_threshold m_base 0 r) c i = enabled m_base r c i.
Proof.
  intros Hb Hb' Hc Hi. unfold enabled, set_default_threshold, set_threshold. rewrite register_store_ne; [done|].
  pose proof (enable_address_range m_base c i Hb Hb' Hc Hi). unfold threshold_address, PriorityThreshold, DEFAULT_CONTEXT_ID.
  change (u32 (0x1000 * 1)) with 4096. rewrite wrap_small by (unfold in_word; lia). lia.
Qed.

(** The file system of the first block device, if there is one, can be tried. *)
Definition loadable {W : Type} `{FileSystemOps W} (try_create : Z → W → outcome (ErrorOr Z Error * W)) (blocks : list Z) (w : W) : Prop :=
  match blocks with
  | [] => True
  | block :: _ => ∃ r w1, try_create block w = Ret (r, w1) ∧ ∀ fs, r = Value fs → ∃ i w2, fs_root fs w1 = Ret (i, w2)
  end.

Lemma setup_returns {W : Type} `{FileSystemOps W} try_create store l ds m_devfs printed vfs (w : W) :
  new_device_manager m_devfs VirtualFileSystem.new = Ret (printed, vfs) → devices_at store l ds →
  loadable try_create (of_type Block l ds) w →
  ∃ printed' vfs' w', setup_root_filesystem try_create store l vfs w = Ret (printed', vfs', w').
Proof.
  intros Hv Hds Hload. unfold setup_root_filesystem. rewrite (devices_of_type_at store Block l ds Hds). cbn [obind].
  destruct (of_type Block l ds) as [|o os] eqn:Hb; [by eexists _, _, _|]. destruct Hload as (r & w1 & Hr & Hroot).
  assert (∃ d, store !! o = Some d ∧ m_device_type d = Block) as (d & Hd & Ht).
  { assert (o ∈ of_type Block l ds) as Hin by (rewrite Hb; by left). unfold of_type in Hin.
    apply list_elem_of_fmap in Hin as ([o' d] & -> & [Ht Hz]%list_elem_of_filter). exists d. split; [|exact Ht].
    apply list_elem_of_lookup in Hz as [i Hi]. apply lookup_zip_with_Some in Hi as (x & y & [= -> ->] & Hx & Hy).
    by apply (Forall2_lookup_lr _ _ _ _ _ _ Hds Hx Hy). }
  rewrite Hd. cbn [defined obind]. rewrite bool_decide_true by done. cbn [VirtualFileSystem.device_load_filesystem negb].
  rewrite Hr. cbn [obind fst snd]. destruct r as [fs|e]; [|by eexists _, _, _]. destruct (Hroot fs eq_refl) as (i & w2 & Hi).
  destruct i as [inode|e].
  - destruct (mount_root m_devfs fs inode printed vfs w1 w2 Hv Hi) as (vfs' & -> & _). cbn [obind has_error has_value negb].
    by eexists _, _, _.
  - unfold VirtualFileSystem.mount_root_fs. rewrite Hi. cbn [obind fst snd has_error has_value negb]. by eexists _, _, _.
Qed.

Lemma start_interrupts_ok plic_base (s : machine registers) ds :
  0 ≤ plic_base → plic_base < 2 ^ 62 → devices_at (store_ s) (m_devices s) ds → Forall (Forall id_ok) (m_interrupts <$> ds) →
  ∃ b, start_interrupts plic_base s = Ret (with_bus s b) ∧
    ∀ c i, context_ok c → id_ok i → enabled plic_base b c i =
      (bool_decide (c = DEFAULT_CONTEXT_ID) && bool_decide (i ∈ mjoin (m_interrupts <$> ds))) || enabled plic_base (bus s) c i.
Proof.
  intros Hb Hb' Hds Hids. unfold start_interrupts. rewrite (device_interrupts_at _ _ _ Hds). cbn [obind].
  eexists. split; [reflexivity|]. intros c i Hc Hi. rewrite enabled_devices by done. by rewrite threshold_enabled.
Qed.

(** The registers outside of the controller keep their values. *)
Lemma interrupts_outside plic_base (s s' : machine registers) ds x :
  0 ≤ plic_base → plic_base < 2 ^ 62 → devices_at (store_ s) (m_devices s) ds → Forall (Forall id_ok) (m_interrupts <$> ds) →
  start_interrupts plic_base s = Ret s' → ¬ of_controller plic_base x → register (bus s') x = register (bus s) x.
Proof.
  intros Hb Hb' Hds Hids Hs Hx. unfold start_interrupts in Hs. rewrite (device_interrupts_at _ _ _ Hds) in Hs.
  injection Hs as <-. cbn [with_bus bus]. unfold of_controller in Hx.
  assert (∀ ids, Forall id_ok ids → ∀ b : registers, register (foldl (enable_device_interrupt plic_base) b ids) x = register b x) as Hone.
  { induction 1 as [|i ids Hi _ IH]; intros b; [done|]. cbn [foldl]. rewrite IH. unfold enable_device_interrupt, set_priority, enable.
    rewrite (wrap_small 32 i) by (unfold id_ok in Hi; unfold in_word; lia).
    pose proof (enable_address_range plic_base DEFAULT_CONTEXT_ID i Hb Hb' ltac:(unfold context_ok, DEFAULT_CONTEXT_ID; lia) Hi).
    assert (priority_address plic_base i ≠ x) as Hp.
    { unfold priority_address, Priority, id_ok in *. rewrite (wrap_small 32), wrap_small by (unfold in_word; lia). lia. }
    rewrite register_store_ne, modify_register by done. apply register_store_ne. lia. }
  assert (∀ l, Forall (Forall id_ok) l → ∀ b : registers, register (enable_device_interrupts plic_base l b) x = register b x) as Hall.
  { induction 1 as [|ids l Hi _ IH]; intros b; [done|]. unfold enable_device_interrupts in *. cbn [foldl]. by rewrite IH, Hone. }
  etrans; [by apply Hall|]. apply register_store_ne. unfold threshold_address, PriorityThreshold, DEFAULT_CONTEXT_ID.
  change (u32 (0x1000 * 1)) with 4096. rewrite wrap_small by (unfold in_word; lia). lia.
Qed.

(** Of the discovered devices only the serial console has a driver that stores to registers. *)
Lemma discovered_bus b0 ps serial b :
  foldl (λ b d, driver_bus d b) b (discovered b0 ps serial) =
    match serial with
    | Some c => if wants_driver default_descriptors (console_of c) then uart_init (sn_address c) b else b
    | None => b
    end.
Proof.
  unfold discovered. rewrite foldl_app.
  assert (foldl (λ b d, driver_bus d b) b (listed_device b0 <$> found b0 ps) = b) as ->; [|by destruct serial].
  generalize (found b0 ps) as l. induction l as [|p l IH]; [done|]. cbn [fmap list_fmap foldl].
  replace (driver_bus (listed_device b0 p) b) with b; [exact IH|]. unfold driver_bus. by destruct (wants_driver _ _).
Qed.

Lemma enabled_same plic_base (b b' : registers) c i : 0 ≤ plic_base → plic_base < 2 ^ 62 → context_ok c → id_ok i →
  (∀ x, of_controller plic_base x → register b' x = register b x) → enabled plic_base b' c i = enabled plic_base b c i.
Proof.
  intros Hb Hb' Hc Hi Hsame. unfold enabled. rewrite Hsame; [done|]. unfold of_controller.
  pose proof (enable_address_range plic_base c i Hb Hb' Hc Hi). lia.
Qed.

Lemma of_type_nonzero n k type ds : 0 < n → Forall (λ d, d ≠ 0) (of_type type (objects n k) ds).
Proof.
  intros Hn. apply Forall_forall. intros o Ho. unfold of_type in Ho.
  apply list_elem_of_fmap in Ho as ([o' d] & -> & [_ Hz]%list_elem_of_filter). cbn [fst].
  apply elem_of_zip_l in Hz. unfold objects in Hz. apply list_elem_of_fmap in Hz as (j & -> & _). lia.
Qed.

(** What the start finds, and where it starts from. *)
Record start_ok (P : gset (list Z)) (mm0 : MemoryManager) (m0 : memory) (a : addresses) (fuel : nat) (tree : FDTNode)
    (root sie : Z) (tp : Z * KernelTrapFrame) (logger : Logger) (rs : list region) (ps : list probe) (serial : option serial_node)
    (plic_base frequency : Z) (s : machine registers) : Prop := {
  ok_space : in_space P mm0 m0 root (2 * length ps + 2 * (size (process_tables (a_layout a)) + 4)) rs s;
  ok_empty : m_devices s = [] ∧ 0 < next_object s;
  ok_nodes : find_nodes fuel tree (characters "/soc/virtio_mmio") = Ret (p_node <$> ps);
  ok_probes : Forall probe_ok ps ∧ NoDup (p_address <$> ps) ∧ regions_tables (probe_region <$> ps) ⊆ P;
  ok_serial : serial_ok fuel tree serial;
  ok_timer : timer_init fuel tree = Ret frequency;
  ok_layout : layout_ok (a_layout a) ∧ in_word 64 (dummy_process_main a) ∧ in_word 64 (console_main a);
  ok_plic : plic_init fuel tree (unset_base a) = Ret plic_base;
  ok_controller : 0 ≤ plic_base ∧ plic_base < 2 ^ 62 ∧
    (∀ p x, p ∈ ps → of_controller plic_base x → ¬ of_device (p_address p) x) ∧
    (∀ c x, serial = Some c → of_controller plic_base x → ¬ of_uart (sn_address c) x);
  ok_interrupts : Forall (Forall id_ok) (m_interrupts <$> discovered (bus s) ps serial);
  ok_hart : length (regs (base tp.2)) = 32%nat ∧ in_word 64 sie ∧ (0 < fuel)%nat;
  ok_logger : m_output logger = SBI ∧ m_console logger = 0 ∧ m_level logger = LevelDebug
}.

(** * Properties *)

(** C37: the start of the kernel, from the search for devices to the first switch,
    when the file system of the first block device can be tried and the registers of
    the devices lie outside of those of the interrupt controller.  The device list
    holds exactly the devices that the device tree and their registers tell of, and
    a device has a driver of its kind when there is one for it; the UART of the
    console is initialised, with its receive interrupt enabled; of all interrupts
    exactly those of these devices become enabled, for the default context only, in
    the controller that the device tree names.  The kernel sees its
    regions and the registers of all nodes.  The two processes see their own frame,
    stack and the image, on six different pages; the scheduler rotates before it
    takes a thread, so the second process, the console program, runs first, and the
    timer is set to 100 ms.  The log goes to the log file, what is printed to the
    first console, with nothing more for the firmware when there is one. *)
Theorem kernel_start {W : Type} `{FileSystemOps W} block_interrupt
    (try_create : Z → W → outcome (ErrorOr Z Error * W)) P mm0 m0 a plic_base
    fuel tree root now sie tp logger rs ps serial frequency (w : W) s :
  start_ok P mm0 m0 a fuel tree root sie tp logger rs ps serial plic_base frequency s →
  let devices := discovered (bus s) ps serial in
  let objs := objects (next_object s) (length devices) in
  loadable try_create (of_type Block objs devices) w →
  ∃ r root1 frame1 stack1 root2 stack2, start block_interrupt try_create a fuel tree root now sie tp logger w s = Ret r ∧
    let m := st_machine r in
    m_devices m = objs ∧
    (∃ ds, devices_at (store_ m) objs ds ∧ Forall3 (driven (next_object m) (st_drivers r)) objs devices ds) ∧
    (∀ c, serial = Some c → wants_driver default_descriptors (console_of c) = true →
       register (bus m) (sn_address c + 1) = 1 ∧ register (bus m) (sn_address c + 2) = 7 ∧
       register (bus m) (sn_address c + 3) = 3 ∧ register (bus m) (sn_address c + 4) = 15) ∧
    (∃ printed vfs printed', new_device_manager (a_devfs a) VirtualFileSystem.new = Ret (printed, vfs) ∧
       setup_root_filesystem try_create (store_ m) objs vfs w = Ret (printed', st_vfs r, st_world r)) ∧
    (∀ c i, context_ok c → id_ok i → enabled plic_base (bus m) c i =
       (bool_decide (c = DEFAULT_CONTEXT_ID) && bool_decide (i ∈ mjoin (m_interrupts <$> devices))) ||
       enabled plic_base (bus s) c i) ∧
    (∀ va, in_word 39 va →
       mmu (ram m) root va = section_view (rs ++ (probe_region <$> ps)) va ∧
       mmu (ram m) root1 va = process_view (a_layout a) frame1 stack1 va ∧
       mmu (ram m) root2 va = process_view (a_layout a) (st_frame r) stack2 va) ∧
    NoDup [stack1; stack1 + 4096; frame1; stack2; stack2 + 4096; st_frame r] ∧
    m_run_queue (st_kernel r) = [a_thread2 a; a_thread1 a] ∧ m_process_list (st_kernel r) = [a_process1 a; a_process2 a] ∧
    current_process_id (kernel_frame (st_kernel r)).2 = 2 ∧
    st_deadline r = u64 (now + u64 (frequency / 1000 * 100)) ∧
    m_output (st_logger r) = LogFile ∧ m_console (st_logger r) = default 0 (head (of_type Console objs devices)) ∧
    (of_type Console objs devices ≠ [] → sbi_text (st_logger r) = sbi_text logger).
Proof.
  intros [Hsp [H0 Hn] Hnodes (Hps & Hnd & HP) Hser Htimer (Hl & Hpc1 & Hpc2) Hplic (Hb & Hb' & Hapart & Hapart') Hints (Hregs & Hsie & Hfuel) (Ho & Hc & Hlv)] devices objs Hload.
  destruct (devices_mounted (a_devfs a)) as (printed & vfs & Hv & _).
  destruct (find_devices P mm0 m0 root _ rs fuel tree ps serial s Hsp H0 Hnodes Hps Hnd HP Hser) as (s1 & Hi & Hsp1 & Hd1 & Hat1 & Hout).
  fold devices in Hd1, Hat1. fold objs in Hd1.
  destruct (load_all block_interrupt (new_process_manager tp) s1 devices) as (s2 & drivers & ds & Hload2 & Hmm & Hram & Hdv & _ & Hbus & Hat2 & Hdrv);
    [rewrite Hd1; apply objects_nodup|done|].
  rewrite Hd1 in Hat2, Hdrv, Hdv. unfold devices in Hbus. rewrite discovered_bus in Hbus.
  destruct (same_kind_lists objs devices ds) as [Hsi Hst]; [by eapply driven_kinds|].
  destruct (setup_returns try_create (store_ s2) objs ds (a_devfs a) printed vfs w Hv Hat2) as (printed' & vfs' & w' & Hset); [by rewrite Hst|].
  destruct Hsp1 as (t & priv & Hk). pose proof (ks_space _ _ _ _ _ _ _ _ _ _ Hk) as Hso. pose proof (so_free _ _ _ _ _ _ _ Hso) as Hfree.
  destruct (create_initial_processes_ok (a_layout a) (manager s1) (ram s1) (new_process_manager tp) (dummy_process_main a) (console_main a)
    (a_thread1 a) (a_process1 a) (a_thread2 a) (a_process2 a)) as (root1 & frame1 & stack1 & root2 & frame2 & stack2 & mm' & m' & Hproc & Hview & Hpages & _ & Hkeep);
    [done|destruct Hfree; constructor; done|eapply tail_free_le; [|exact (ks_room _ _ _ _ _ _ _ _ _ _ Hk)]; lia|done..|].
  destruct (start_scheduling_ok fuel frequency now tp (dummy_process_main a) root1 (build_satp Sv39 1 root1) frame1 (a_thread1 a) (a_process1 a)
    (console_main a) root2 (build_satp Sv39 1 root2) frame2 (a_thread2 a) (a_process2 a) Hregs Hfuel) as (k & Hsched & Hq & Hpl & Hcur & _).
  assert (devices_at (store_ (with_memory s2 mm' m')) (m_devices (with_memory s2 mm' m')) ds) as Hat3
    by (cbn [with_memory store_ m_devices]; by rewrite Hdv).
  destruct (start_interrupts_ok plic_base (with_memory s2 mm' m') ds Hb Hb' Hat3) as (b & Hirq & Hen); [by rewrite Hsi|].
  pose proof (λ x, interrupts_outside plic_base _ _ ds x Hb Hb' Hat3 ltac:(by rewrite Hsi) Hirq) as Hother.
  destruct (start_logger_ok now sie logger (of_type Console objs devices)) as (logger' & Hlog & Hlo & Hlc & Hls); [done..|by apply of_type_nonzero|].
  eexists _, root1, frame1, stack1, root2, stack2. split.
  - unfold start. rewrite Hv. cbn [obind snd]. rewrite Hi. cbn [obind]. rewrite Hload2. cbn [obind]. rewrite Hdv, Hset. cbn [obind].
    rewrite Hmm, Hram, Hproc. cbn [obind]. rewrite Hplic. cbn [obind]. rewrite Hirq. cbn [obind with_bus with_memory store_ m_devices]. rewrite Hdv.
    rewrite (devices_of_type_at _ _ _ _ Hat2), Hst. cbn [obind]. rewrite Hlog. cbn [obind]. rewrite Htimer. cbn [obind].
    rewrite Hsched. cbn [obind]. reflexivity.
  - cbn [st_machine st_drivers with_bus with_memory m_devices store_ bus ram next_object st_vfs st_world st_kernel st_deadline st_frame st_logger] in *.
    split; [exact Hdv|]. split; [by exists ds|]. split; [|split; [by exists printed, vfs, printed'|split; [|split; [|by split_and!]]]].
    + intros c -> Hw. rewrite Hw in Hbus.
      destruct (uart_init_registers (sn_address c) (bus s1)) as (_ & R1 & R2 & R3 & R4). rewrite <- Hbus in R1, R2, R3, R4.
      assert (∀ i, 0 ≤ i < 8 → register b (sn_address c + i) = register (bus s2) (sn_address c + i)) as Hu.
      { intros i Hii. apply Hother. intros Hx. apply (Hapart' c _ eq_refl Hx). unfold of_uart. lia. }
      rewrite !Hu by lia. by split_and!.
    + intros c i Hci Hii. rewrite Hen, Hsi by done. f_equal. apply enabled_same; [done..|].
      intros x Hx. trans (register (bus s1) x); [|apply Hout; intros p Hp; by eapply Hapart].
      rewrite Hbus. destruct serial as [n|]; [|done]. destruct (wants_driver _ _); [|done].
      apply uart_init_outside. by apply (Hapart' n).
    + intros va Hva. destruct (Hview va Hva) as [Hv1 Hv2]. split; [|by split].
      rewrite (Hkeep root t va (so_tree _ _ _ _ _ _ _ Hso) Hfree). by eapply kernel_mmu.
Qed.

(** ** Witness: the board of [Drivers.v] with 110 pages, and a disk without a file system *)
#[local] Instance start_file_systems : FileSystemOps unit := {
  fs_exists fs path w := Ret false;
  fs_open_file fs path mode w := Ret (fail_with "Not found", w);
  fs_root fs w := Ret (fail_with "No root", w);
  inode_fs inode w := Ret 0;
  list_directory_of inode w := Ret (Value [], w)
}.

Definition start_layout : Layout :=
  mkLayout 0x80000000 0x80000800 0x80001000 0x80001010 0x80000800 0x80000900 0x80002000 0x80002100
    0x80002100 0x80003000 0x80001010 0x80001100 0x80003000 0x80005000 0x80010000 450560.

Definition start_area : memory := zero_page_memory 0x80011000 0 (512 * 110).

Definition start_addresses : addresses := mkAddresses start_layout 5 0x80000000 0x80000100 7000 8000 7100 8100 0.

Definition plic_node : FDTNode := Node (characters "plic@c000000") [] [].

Definition start_tree : FDTNode :=
  Node [] [] ([Node (characters "soc") [] [slot "10001000" 1; uart_node; plic_node; slot "10002000" 2]] ++
    [Node (characters "cpus") [mkProperty (characters "timebase-frequency") [0; 152; 150; 128]] []]).

Definition start_tp : Z * KernelTrapFrame := (500, mkKernelFrame zero_frame 0 0 0).

Definition start_tables : gset (list Z) := regions_tables (system_regions start_layout ++ (probe_region <$> slots)).

Definition no_file_system (device : Z) (w : unit) : outcome (ErrorOr Z Error * unit) := Ret (fail_with "No file system", w).

Definition start_log : Logger := mkLogger SBI LevelDebug 0 (m_buffer (small_log SBI 0)) [] [].

Lemma start_area_mapped i : (i < 110)%nat → mapped start_area (0x80011000 + 4096 * Z.of_nat i) 512.
Proof.
  intros Hi. split; [apply word_aligned_iff; exists (268444160 + 512 * Z.of_nat i); lia|]. intros k Hk. exists 0.
  apply zero_page_memory_lookup; [by exists 268444160| |lia]. exists (268444160 + 512 * Z.of_nat i + Z.of_nat k). lia.
Qed.

Lemma start_area_clear : words_at start_area (0x80011000 + 4096) (replicate 512 0).
Proof.
  intros k w [-> Hk]%lookup_replicate. apply zero_page_memory_lookup; [by exists 268444160| |lia].
  exists (268444160 + 512 + Z.of_nat k). lia.
Qed.

Lemma start_sizes : size start_tables = 7%nat ∧ size (process_tables start_layout) = 6%nat.
Proof. split; vm_compute; reflexivity. Qed.

Lemma start_search :
  find_nodes 10 start_tree (characters "/soc/virtio_mmio") = Ret (p_node <$> slots) ∧
  serial_ok 10 start_tree (Some uart_serial) ∧ timer_init 10 start_tree = Ret 10000000 ∧ plic_init 10 start_tree 0 = Ret 0xc000000.
Proof. split; [|split; [split; [|split; [|split]]|split]]; vm_compute; reflexivity. Qed.

Lemma slots_apart : NoDup (p_address <$> slots).
Proof. apply NoDup_cons. split; [by intros [=]%list_elem_of_singleton|apply NoDup_singleton]. Qed.

Lemma start_discovered :
  discovered board slots (Some uart_serial) = [new_block (VirtIODevice 0x10001000) [1]; console_of uart_serial].
Proof. vm_compute. reflexivity. Qed.

Lemma start_bits (ds := [new_block (VirtIODevice 0x10001000) [1]; console_of uart_serial]) :
  context_ok 1 ∧ id_ok 10 ∧ id_ok 2 ∧
  (bool_decide (1 = DEFAULT_CONTEXT_ID) && bool_decide (10 ∈ mjoin (m_interrupts <$> ds))) || enabled 0xc000000 board 1 10 = true ∧
  (bool_decide (1 = DEFAULT_CONTEXT_ID) && bool_decide (2 ∈ mjoin (m_interrupts <$> ds))) || enabled 0xc000000 board 1 2 = false.
Proof. split; [unfold context_ok; lia|]. do 2 (split; [unfold id_ok; lia|]). split; vm_compute; reflexivity. Qed.

Lemma start_layout_ok : layout_ok start_layout.
Proof. repeat split; vm_compute; discriminate. Qed.

Definition no_block_interrupt (device : Z) (w : Console.world (D := registers)) :
    outcome (ErrorOr unit Error * Console.world (D := registers)) := Ret (Value tt, w).

Lemma start_uart : wants_driver default_descriptors (console_of uart_serial) = true.
Proof. vm_compute. reflexivity. Qed.

Lemma kernel_start_witness :
  ∃ root mm m kernel_heap r, init_memory start_layout (replicate 110 Taken) start_area =
      Ret (root, mm, m, kernel_heap, build_satp Sv39 0 root) ∧
    start no_block_interrupt no_file_system start_addresses 10 start_tree root 5 0x222 start_tp start_log tt
      (mkMachine mm m [] ∅ ∅ ∅ ∅ board 100) = Ret r ∧
    m_devices (st_machine r) = [100; 101] ∧ enabled 0xc000000 (bus (st_machine r)) 1 10 = true ∧
    enabled 0xc000000 (bus (st_machine r)) 1 2 = false ∧ register (bus (st_machine r)) 0x10000001 = 1 ∧
    m_run_queue (st_kernel r) = [7100; 7000] ∧
    st_deadline r = 1000005 ∧ m_console (st_logger r) = 101 ∧ sbi_text (st_logger r) = [].
Proof.
  destruct (init_memory_ok start_tables 24 start_layout (replicate 110 Taken) start_area start_layout_ok)
    as (mm0 & root & mm & m & h & page & t & Hi & _ & Hk & _);
    [by vm_compute|by vm_compute|unfold start_tables; rewrite regions_tables_app; apply union_subseteq_l
    |rewrite (proj1 start_sizes); simpl; lia|apply start_area_mapped|apply start_area_clear|].
  set (s := mkMachine mm m [] ∅ ∅ ∅ ∅ board 100).
  destruct (kernel_start no_block_interrupt no_file_system start_tables mm0 start_area start_addresses 0xc000000 10 start_tree root 5 0x222
      start_tp start_log (system_regions start_layout) slots (Some uart_serial) 10000000 tt s) as (r & root1 & frame1 & stack1 & root2 & stack2 & Hs & Hrest).
  - constructor.
    + cbn [start_addresses a_layout]. rewrite (proj2 start_sizes). by exists t, (AddressSpace.heap_pages h ++ [page]).
    + split; reflexivity.
    + apply start_search.
    + split; [exact slots_ok|]. split; [exact slots_apart|].
      unfold start_tables. rewrite regions_tables_app. apply union_subseteq_r.
    + apply start_search.
    + apply start_search.
    + split; [exact start_layout_ok|]. split; (split; [vm_compute; discriminate|reflexivity]).
    + apply start_search.
    + split; [vm_compute; discriminate|]. split; [reflexivity|]. unfold of_controller, of_device, of_uart. split.
      * intros p x [->|[->|[]%not_elem_of_nil]%elem_of_cons]%elem_of_cons Hx; cbn [p_address]; lia.
      * intros c x [= <-] Hx. cbn [sn_address uart_serial]. lia.
    + change (bus s) with board. rewrite start_discovered. change (Forall (Forall id_ok) [[1]; [10]]).
      repeat constructor; unfold id_ok; lia.
    + split; [reflexivity|]. split; [split; [vm_compute; discriminate|reflexivity]|apply Nat.lt_0_succ].
    + split; [reflexivity|split; reflexivity].
  - change (bus s) with board. rewrite start_discovered. eexists _, _. split; [reflexivity|]. intros fs. discriminate.
  - cbv zeta in Hrest. change (bus s) with board in Hrest. rewrite start_discovered in Hrest.
    destruct Hrest as (H1 & _ & Hu & _ & H2 & _ & _ & H3 & _ & _ & H4 & _ & H5 & H6).
    exists root, mm, m, h, r. split; [exact Hi|]. split; [exact Hs|]. split; [exact H1|].
    destruct start_bits as (Hc & H10 & Hi2 & E10 & E2).
    split; [exact (eq_trans (H2 1 10 Hc H10) E10)|]. split; [exact (eq_trans (H2 1 2 Hc Hi2) E2)|].
    split; [exact (proj1 (Hu uart_serial eq_refl start_uart))|].
    split; [exact H3|]. split; [rewrite H4; reflexivity|]. split; [rewrite H5; reflexivity|]. rewrite H6; [reflexivity|discriminate].
Defined.
