(* ===== verification/Elf.v ===== *)
(** The format of ELF files: [Process/Loader/ELF.h], and the constants of
    [ELFDefs.h] that the loader uses.

    A packed structure is the list of its bytes; [reinterpret_cast] to it is a
    function that takes its fields from their offsets.  The enumerations of the
    fields are the numbers in the file, which may be others than those that have a
    name. *)
From S2P Require Import Prelude Bits Bytes Endian.

(** * Enumerations *)
Inductive FileType : Type := NoFile | Relocatable | Executable | Dynamic | Core.
Definition file_type (t : FileType) : Z :=
  match t with NoFile => 0 | Relocatable => 1 | Executable => 2 | Dynamic => 3 | Core => 4 end.

#[global] Instance FileType_eq : EqDecision FileType.
Proof. solve_decision. Defined.

Inductive Machine : Type := NoMachine | X86_64 | RISCV.
Definition machine_number (m : Machine) : Z :=
  match m with NoMachine => 0 | X86_64 => 62 | RISCV => 243 end.

Inductive SegmentType : Type := SegNull | SegLoad | SegDynamic | SegInterp | SegNote | SegShLib | SegPhdr | SegTLS.
Definition segment_type (t : SegmentType) : Z :=
  match t with
  | SegNull => 0 | SegLoad => 1 | SegDynamic => 2 | SegInterp => 3
  | SegNote => 4 | SegShLib => 5 | SegPhdr => 6 | SegTLS => 7
  end.

Inductive SegmentFlags : Type := Execute | Write | Read | ReadWrite | ReadExecute | ReadWriteExecute.
Definition segment_flags (f : SegmentFlags) : Z :=
  match f with Execute => 1 | Write => 2 | Read => 4 | ReadWrite => 6 | ReadExecute => 5 | ReadWriteExecute => 7 end.

Inductive SectionType : Type :=
  | SecNull | ProgBits | SymTab | StrTab | Rela | Hash | SecDynamic | SecNote | NoBits | Rel | SecShLib | DynSym
  | RiscvAttributes.
Definition section_type_number (t : SectionType) : Z :=
  match t with
  | SecNull => 0 | ProgBits => 1 | SymTab => 2 | StrTab => 3 | Rela => 4 | Hash => 5 | SecDynamic => 6 | SecNote => 7
  | NoBits => 8 | Rel => 9 | SecShLib => 10 | DynSym => 11 | RiscvAttributes => 0x70000003
  end.

Inductive SectionFlags : Type := SectionWrite | Alloc | SectionExecInstr | Merge | StringsFlag.
Definition section_flag (f : SectionFlags) : Z :=
  match f with
  | SectionWrite => Z.shiftl 1 0 | Alloc => Z.shiftl 1 1 | SectionExecInstr => Z.shiftl 1 2
  | Merge => Z.shiftl 1 4 | StringsFlag => Z.shiftl 1 5
  end.

Inductive RelocationType : Type :=
  | RelNone | Riscv32 | Riscv64 | Relative | Copy | JumpSlot | TlsDtpMod64 | TlsDtpRel64 | TlsTpRel64
  | Branch | Jal | Call | CallPlt | GotHi20 | PcrelHi20 | PcrelLo12I | PcrelLo12S | Hi20 | Lo12I | Lo12S
  | TpRelHi20 | TpRelLo12I | TpRelLo12S | Add64 | Sub64.
Definition relocation_type_number (t : RelocationType) : Z :=
  match t with
  | RelNone => 0 | Riscv32 => 1 | Riscv64 => 2 | Relative => 3 | Copy => 4 | JumpSlot => 5
  | TlsDtpMod64 => 7 | TlsDtpRel64 => 9 | TlsTpRel64 => 11
  | Branch => 16 | Jal => 17 | Call => 18 | CallPlt => 19 | GotHi20 => 20
  | PcrelHi20 => 23 | PcrelLo12I => 24 | PcrelLo12S => 25 | Hi20 => 26 | Lo12I => 27 | Lo12S => 28
  | TpRelHi20 => 29 | TpRelLo12I => 30 | TpRelLo12S => 31 | Add64 => 36 | Sub64 => 40
  end.

Inductive SymbolType : Type := NoType | Object | Func | SectionSymbol | File.
Definition symbol_type_number (t : SymbolType) : Z :=
  match t with NoType => 0 | Object => 1 | Func => 2 | SectionSymbol => 3 | File => 4 end.

Inductive SymbolBinding : Type := LocalBinding | GlobalBinding | WeakBinding.
Definition symbol_binding_number (b : SymbolBinding) : Z :=
  match b with LocalBinding => 0 | GlobalBinding => 1 | WeakBinding => 2 end.

(** * Structures *)
Record ElfHeader : Type := mkElfHeader {
  ident : bytes; type_ : Z; machine : Z; version : Z; entry : Z;
  program_header_offset : Z; section_header_offset : Z; eflags : Z; elf_header_size : Z;
  program_header_entry_size : Z; program_header_entry_count : Z;
  section_header_entry_size : Z; section_header_entry_count : Z; section_header_string_table_index : Z
}.

Definition sizeof_ElfHeader : Z := 64.

Record ProgramHeader : Type := mkProgramHeader {
  p_type : Z; p_flags : Z; p_offset : Z; virtual_address : Z; physical_address : Z;
  in_file_size : Z; in_memory_size : Z; p_align : Z
}.

Definition sizeof_ProgramHeader : Z := 56.

(** A flag is tested as a bit mask, the result converted to [bool]. *)
Definition has_bits (flags mask : Z) : bool := negb (Z.land flags mask =? 0).

Definition is_readable (h : ProgramHeader) : bool := has_bits (p_flags h) (segment_flags Read).
Definition is_writable (h : ProgramHeader) : bool := has_bits (p_flags h) (segment_flags Write).
Definition is_executable (h : ProgramHeader) : bool := has_bits (p_flags h) (segment_flags Execute).

Record SectionHeader : Type := mkSectionHeader {
  name_index : Z; section_type : Z; section_flags : Z; addr : Z; offset : Z; size : Z;
  link : Z; info : Z; align : Z; entry_size : Z
}.

Definition sizeof_SectionHeader : Z := 64.

Definition section_is_writable (h : SectionHeader) : bool := has_bits (section_flags h) (section_flag SectionWrite).
Definition section_is_alloc (h : SectionHeader) : bool := has_bits (section_flags h) (section_flag Alloc).
Definition section_is_executable (h : SectionHeader) : bool := has_bits (section_flags h) (section_flag SectionExecInstr).

Record Symbol : Type := mkSymbol { s_name_index : Z; s_info : Z; s_other : Z; s_section_index : Z; s_value : Z; s_size : Z }.

Definition sizeof_Symbol : Z := 24.

Definition symbol_binding (s : Symbol) : Z := Z.shiftr (s_info s) 4.
Definition symbol_type (s : Symbol) : Z := Z.land (s_info s) 0xF.

Record Relocation : Type := mkRelocation { r_offset : Z; r_info : Z; r_addend : Z }.

Definition sizeof_Relocation : Z := 24.

Definition symbol_index (r : Relocation) : Z := u32 (Z.shiftr (r_info r) 32).
Definition relocation_type (r : Relocation) : Z := u32 (Z.land (r_info r) 0xFFFFFFFF).

(** * [ELFDefs.h] *)
Definition ELFMAG : bytes := [127; 69; 76; 70].
Definition SELFMAG : nat := 4.
Definition EI_CLASS : nat := 4.
Definition EI_DATA : nat := 5.
Definition ELFCLASS64 : Z := 2.
Definition ELFDATA2LSB : Z := 1.
Definition EV_CURRENT : Z := 1.

(** * Reading a packed structure of a little-endian file *)
Definition field (buffer : bytes) (at_ size : nat) : Z := of_le_bytes (take size (drop at_ buffer)).

(** A field of type [s64]. *)
Definition signed64 (x : Z) : Z := if x <? 2 ^ 63 then x else x - 2 ^ 64.

(** [reinterpret_cast<ELF::ElfHeader*>] of a buffer that is long enough. *)
Definition elf_header_of (b : bytes) : ElfHeader :=
  mkElfHeader (take 16 b) (field b 16 2) (field b 18 2) (field b 20 4) (field b 24 8)
    (field b 32 8) (field b 40 8) (field b 48 4) (field b 52 2)
    (field b 54 2) (field b 56 2) (field b 58 2) (field b 60 2) (field b 62 2).

Definition program_header_of (b : bytes) : ProgramHeader :=
  mkProgramHeader (field b 0 4) (field b 4 4) (field b 8 8) (field b 16 8) (field b 24 8)
    (field b 32 8) (field b 40 8) (field b 48 8).

Definition section_header_of (b : bytes) : SectionHeader :=
  mkSectionHeader (field b 0 4) (field b 4 4) (field b 8 8) (field b 16 8) (field b 24 8) (field b 32 8)
    (field b 40 4) (field b 44 4) (field b 48 8) (field b 56 8).

Definition symbol_of (b : bytes) : Symbol :=
  mkSymbol (field b 0 4) (field b 4 1) (field b 5 1) (field b 6 2) (field b 8 8) (field b 16 8).

Definition relocation_of (b : bytes) : Relocation :=
  mkRelocation (field b 0 8) (field b 8 8) (signed64 (field b 16 8)).

(** * Writing

    The reference: a structure is the sequence of its fields, each with its width in
    bytes and nothing in between. *)
Fixpoint pack (fields : list (nat * Z)) : bytes :=
  match fields with
  | [] => []
  | (n, v) :: fields => le_bytes n v ++ pack fields
  end.

Definition fits (fields : list (nat * Z)) : Prop := Forall (λ f, in_word (8 * Z.of_nat f.1) f.2) fields.

Definition elf_header_fields (h : ElfHeader) : list (nat * Z) :=
  [(2, type_ h); (2, machine h); (4, version h); (8, entry h); (8, program_header_offset h);
   (8, section_header_offset h); (4, eflags h); (2, elf_header_size h); (2, program_header_entry_size h);
   (2, program_header_entry_count h); (2, section_header_entry_size h); (2, section_header_entry_count h);
   (2, section_header_string_table_index h)]%nat.

Definition program_header_fields (h : ProgramHeader) : list (nat * Z) :=
  [(4, p_type h); (4, p_flags h); (8, p_offset h); (8, virtual_address h); (8, physical_address h);
   (8, in_file_size h); (8, in_memory_size h); (8, p_align h)]%nat.

Definition section_header_fields (h : SectionHeader) : list (nat * Z) :=
  [(4, name_index h); (4, section_type h); (8, section_flags h); (8, addr h); (8, offset h); (8, size h);
   (4, link h); (4, info h); (8, align h); (8, entry_size h)]%nat.

Definition symbol_fields (s : Symbol) : list (nat * Z) :=
  [(4, s_name_index s); (1, s_info s); (1, s_other s); (2, s_section_index s); (8, s_value s); (8, s_size s)]%nat.

Definition relocation_fields (r : Relocation) : list (nat * Z) :=
  [(8, r_offset r); (8, r_info r); (8, u64 (r_addend r))]%nat.

Lemma length_pack fields : length (pack fields) = sum_list (fst <$> fields).
Proof. induction fields as [|[n v] fields IH]; [done|]. cbn. by rewrite length_app, le_bytes_length, IH. Qed.

Lemma field_here n v fields rest : in_word (8 * Z.of_nat n) v → field (pack ((n, v) :: fields) ++ rest) 0 n = v.
Proof.
  intros Hv. unfold field. rewrite drop_0. cbn [pack]. rewrite <- app_assoc, take_app_length' by (by rewrite le_bytes_length).
  by apply of_le_bytes_le.
Qed.

Lemma field_skip n v fields rest at_ k : (n ≤ at_)%nat →
  field (pack ((n, v) :: fields) ++ rest) at_ k = field (pack fields ++ rest) (at_ - n) k.
Proof.
  intros Hn. unfold field. cbn [pack]. rewrite <- app_assoc.
  by rewrite drop_app_ge, le_bytes_length by (rewrite le_bytes_length; lia).
Qed.

#[local] Arguments pack : simpl never.

(** One hypothesis for each field. *)
Ltac split_fits Hf := rewrite !Forall_cons in Hf; repeat match type of Hf with _ ∧ _ => destruct Hf as [? Hf] end.

(** Reads a field of a packed structure. *)
Ltac read_fields := repeat first
  [ rewrite field_here by assumption
  | rewrite field_skip by lia; cbn [Nat.sub] ].

Lemma signed64_u64 x : - 2 ^ 63 ≤ x < 2 ^ 63 → signed64 (u64 x) = x.
Proof.
  intros Hx. unfold signed64. destruct (Z.leb_spec 0 x).
  - rewrite wrap_small by (unfold in_word; lia). by rewrite (proj2 (Z.ltb_lt _ _)) by lia.
  - assert (u64 x = x + 2 ^ 64) as -> by (unfold wrap; symmetry; apply (Z.mod_unique_pos _ _ (-1)); lia).
    rewrite (proj2 (Z.ltb_ge _ _)) by lia. lia.
Qed.

(** ** Packed numbers *)
Lemma low_bits n hi lo : 0 ≤ n → in_word n lo → Z.land (hi * 2 ^ n + lo) (Z.ones n) = lo.
Proof.
  intros Hn Hlo. rewrite Z.land_ones by done. unfold in_word in Hlo.
  rewrite Z.add_comm, Z_mod_plus_full. by apply Z.mod_small.
Qed.

Lemma high_bits n hi lo : 0 ≤ n → in_word n lo → Z.shiftr (hi * 2 ^ n + lo) n = hi.
Proof.
  intros Hn Hlo. rewrite Z.shiftr_div_pow2 by done. unfold in_word in Hlo.
  rewrite Z.div_add_l by lia. rewrite Z.div_small by done. lia.
Qed.

(** * What the structures promise *)

(** Every structure has the size that the file asserts, and reading one from the
    bytes of its fields, whatever is behind them, gives it back. *)
Theorem elf_structures (rest : bytes) :
  (∀ h, length (ident h) = 16%nat → fits (elf_header_fields h) →
     let b := ident h ++ pack (elf_header_fields h) in
     Z.of_nat (length b) = sizeof_ElfHeader ∧ elf_header_of (b ++ rest) = h) ∧
  (∀ h, fits (program_header_fields h) →
     let b := pack (program_header_fields h) in
     Z.of_nat (length b) = sizeof_ProgramHeader ∧ program_header_of (b ++ rest) = h) ∧
  (∀ h, fits (section_header_fields h) →
     let b := pack (section_header_fields h) in
     Z.of_nat (length b) = sizeof_SectionHeader ∧ section_header_of (b ++ rest) = h) ∧
  (∀ s, fits (symbol_fields s) →
     let b := pack (symbol_fields s) in
     Z.of_nat (length b) = sizeof_Symbol ∧ symbol_of (b ++ rest) = s) ∧
  (∀ r, fits (relocation_fields r) → - 2 ^ 63 ≤ r_addend r < 2 ^ 63 →
     let b := pack (relocation_fields r) in
     Z.of_nat (length b) = sizeof_Relocation ∧ relocation_of (b ++ rest) = r).
Proof.
  split_and!.
  - intros h Hi Hf b. split; [unfold b; by rewrite length_app, Hi, length_pack|].
    assert (∀ k n, field (b ++ rest) (16 + k) n = field (pack (elf_header_fields h) ++ rest) k n) as Hb.
    { intros k n. unfold field, b. rewrite <- app_assoc, drop_app_ge by lia. rewrite Hi. do 3 f_equal. lia. }
    unfold elf_header_of.
    rewrite (Hb 0%nat), (Hb 2%nat), (Hb 4%nat), (Hb 8%nat), (Hb 16%nat), (Hb 24%nat), (Hb 32%nat), (Hb 36%nat),
      (Hb 38%nat), (Hb 40%nat), (Hb 42%nat), (Hb 44%nat), (Hb 46%nat).
    assert (take 16 (b ++ rest) = ident h) as -> by (unfold b; rewrite <- app_assoc; by apply take_app_length').
    destruct h. unfold fits, elf_header_fields in *. cbn in Hf. split_fits Hf. cbn in *. by read_fields.
  - intros [] Hf. split; [by cbv zeta; rewrite length_pack|].
    unfold fits, program_header_fields, program_header_of in *. cbn in *. split_fits Hf. by read_fields.
  - intros [] Hf. split; [by cbv zeta; rewrite length_pack|].
    unfold fits, section_header_fields, section_header_of in *. cbn in *. split_fits Hf. by read_fields.
  - intros [] Hf. split; [by cbv zeta; rewrite length_pack|].
    unfold fits, symbol_fields, symbol_of in *. cbn in *. split_fits Hf. by read_fields.
  - intros [] Hf Ha. split; [by cbv zeta; rewrite length_pack|].
    unfold fits, relocation_fields, relocation_of in *. cbn in *. split_fits Hf. read_fields.
    by rewrite signed64_u64.
Qed.

(** The accessors take packed numbers apart: binding and type of a symbol, symbol and
    type of a relocation; a named combination of rights is readable, writable and
    executable as its name says. *)
Theorem elf_accessors s r h (b : SymbolBinding) (t : SymbolType) (index : Z) (k : RelocationType) (f : SegmentFlags) :
  (s_info s = symbol_binding_number b * 2 ^ 4 + symbol_type_number t →
     symbol_binding s = symbol_binding_number b ∧ symbol_type s = symbol_type_number t) ∧
  (in_word 32 index → r_info r = index * 2 ^ 32 + relocation_type_number k →
     symbol_index r = index ∧ relocation_type r = relocation_type_number k) ∧
  (p_flags h = segment_flags f →
     (is_readable h, is_writable h, is_executable h) =
       match f with
       | Execute => (false, false, true) | Write => (false, true, false) | Read => (true, false, false)
       | ReadWrite => (true, true, false) | ReadExecute => (true, false, true) | ReadWriteExecute => (true, true, true)
       end).
Proof.
  split_and!.
  - intros Hs. unfold symbol_binding, symbol_type. rewrite Hs. change 0xF with (Z.ones 4).
    assert (in_word 4 (symbol_type_number t)) by (destruct t; done). by rewrite low_bits, high_bits.
  - intros Hi Hr. unfold symbol_index, relocation_type. rewrite Hr. change 0xFFFFFFFF with (Z.ones 32).
    assert (in_word 32 (relocation_type_number k)) by (destruct k; done). rewrite low_bits, high_bits by done.
    by rewrite !wrap_small.
  - intros Hf. unfold is_readable, is_writable, is_executable. rewrite Hf. by destruct f.
Qed.

Lemma elf_structures_witness : symbol_of (pack (symbol_fields (mkSymbol 1 18 0 3 4096 64)) ++ [7; 7]) = mkSymbol 1 18 0 3 4096 64.
Proof.
  refine (proj2 (proj1 (proj2 (proj2 (proj2 (elf_structures [7; 7])))) (mkSymbol 1 18 0 3 4096 64) _)).
  repeat constructor; discriminate.
Defined.
