(* ===== verification/Loader.v ===== *)
(** The loader of ELF files: [Process/Loader/Loader.cpp] and
    [API/Module/Module.h]; the format of the files is in [Elf.v].

    A buffer is the list of its bytes; a read outside of it is [Undef].  A
    [String] is its text.  [Loader::get_section_header] is declared and called,
    but the repository has no definition of it: it is a parameter. *)
From S2P Require Import Prelude Bits Bytes Endian Strings Elf.

(** The product of two 16-bit numbers is an [int]. *)
Definition int_product (x y : Z) : outcome Z := if x * y <? 2 ^ 31 then Ret (x * y) else Undef.

(** * [Loader.cpp] *)
Definition validate_elf_header (elf_buffer : bytes) (expected_type : FileType) : outcome (ErrorOr ElfHeader Error) :=
  let buffer_size := Z.of_nat (length elf_buffer) in
  if buffer_size <? sizeof_ElfHeader then Ret (fail_with "ELF buffer too small to contain ELF header")
  else
    let h := elf_header_of elf_buffer in
    let! same := memcmp (ident h) ELFMAG SELFMAG in
    (* the result of [memcmp] is compared with 0 as that of the C function *)
    if negb ((if same : bool then 1 else 0) =? 0) then Ret (fail_with "Invalid ELF magic")
    else if negb (nth EI_CLASS (ident h) 0 =? ELFCLASS64) then Ret (fail_with "Unsupported ELF class")
    else if negb (nth EI_DATA (ident h) 0 =? ELFDATA2LSB) then Ret (fail_with "Unsupported ELF data encoding")
    else if negb (machine h =? machine_number RISCV) then Ret (fail_with "Unsupported ELF machine type")
    else if negb (version h =? EV_CURRENT) then Ret (fail_with "Unsupported ELF version")
    else if negb (type_ h =? file_type expected_type) &&
            negb (bool_decide (expected_type = Executable) && (type_ h =? file_type Dynamic))
    then Ret (fail_with "Unexpected ELF type")
    else
      let! program := int_product (program_header_entry_count h) (program_header_entry_size h) in
      if buffer_size <? u64 (program_header_offset h + program)
      then Ret (fail_with "ELF program headers exceed ELF buffer size")
      else
        let! sections := int_product (section_header_entry_count h) (section_header_entry_size h) in
        if buffer_size <? u64 (section_header_offset h + sections)
        then Ret (fail_with "ELF section headers exceed ELF buffer size")
        else Ret (Value h).

(** [Character::is_printable] of a [char], which is unsigned. *)
Definition is_printable (c : Z) : bool :=
  ((0x20 <=? c) && (c <=? 0x7E)) || ((0xA0 <=? c) && (c <=? 0xD7FF)) || ((0xE000 <=? c) && (c <=? 0xFFFD)) ||
  ((0x10000 <=? c) && (c <=? 0x10FFFF)).

Definition ModuleProperty : Type := bytes * bytes.

(** [enum class ParseState], with the key that was read in [current_property.first]. *)
Inductive ParseState : Type := Key | ValueOf (key : bytes).

Definition equals_sign : Z := 61.

(** The loop over the [n] bytes of the section from [i] on. *)
Fixpoint modinfo_loop (elf_buffer : bytes) (n : nat) (i : Z) (state : ParseState) (current_string : bytes)
    (out_properties : list ModuleProperty) : outcome (ErrorOr unit Error * list ModuleProperty) :=
  match n with
  | O =>
      match state with
      | ValueOf _ => Ret (fail_with "Unexpected end of modinfo. Expected null terminator after value.", out_properties)
      | Key => Ret (Value tt, out_properties)
      end
  | S n' =>
      let! c := get_byte elf_buffer i in
      match state with
      | Key =>
          if c =? equals_sign then modinfo_loop elf_buffer n' (i + 1) (ValueOf current_string) [] out_properties
          else if c =? 0 then Ret (fail_with "Unexpected end of line. Expected '=' separator.", out_properties)
          else if is_printable c then modinfo_loop elf_buffer n' (i + 1) Key (current_string ++ [c]) out_properties
          else Ret (fail_with "Invalid character in modinfo key.", out_properties)
      | ValueOf key =>
          if c =? 0 then modinfo_loop elf_buffer n' (i + 1) Key [] (out_properties ++ [(key, current_string)])
          else if is_printable c then modinfo_loop elf_buffer n' (i + 1) state (current_string ++ [c]) out_properties
          else Ret (fail_with "Invalid character in modinfo value.", out_properties)
      end
  end.

(** The properties of the caller are changed even when an error is returned. *)
Definition parse_modinfo (elf_buffer : bytes) (section_header : SectionHeader) (out_properties : list ModuleProperty)
    : outcome (ErrorOr unit Error * list ModuleProperty) :=
  modinfo_loop elf_buffer (Z.to_nat (size section_header)) (offset section_header) Key [] out_properties.

(** [sizeof(ModuleHeader)] and the header itself: magic, ABI version, two functions. *)
Definition sizeof_ModuleHeader : Z := 24.
Record ModuleHeader : Type := mkModuleHeader { module_magic : Z; abi_version : Z; init : Z; cleanup : Z }.

Definition module_header_of (b : bytes) : ModuleHeader := mkModuleHeader (field b 0 4) (field b 4 4) (field b 8 8) (field b 16 8).

(** [MemoryRegionPermissions] of a section. *)
Definition permissions_of (section_header : SectionHeader) : Z :=
  let permissions := 1 in
  let permissions := if negb (Z.land (section_flags section_header) (section_flag SectionWrite) =? 0) then Z.lor permissions 2 else permissions in
  if negb (Z.land (section_flags section_header) (section_flag SectionExecInstr) =? 0) then Z.lor permissions 4 else permissions.

Definition modinfo_name : bytes := [46; 109; 111; 100; 105; 110; 102; 111].
Definition module_header_name : bytes := [46; 109; 111; 100; 117; 108; 101; 95; 104; 101; 97; 100; 101; 114].

Section Loader.
Variable get_section_header : bytes → ElfHeader → Z → outcome (ErrorOr SectionHeader Error).

(** The properties, the header and the permissions of the sections to load. *)
Record loaded : Type := mkLoaded { l_properties : list ModuleProperty; l_header : ModuleHeader; l_permissions : list Z }.

(** The body of the loop over the sections. *)
Definition load_section (buffer : bytes) (section_names : Z) (h : SectionHeader) (l : loaded) : outcome (ErrorOr loaded Error) :=
  let! section_name := if 0 <=? section_names + name_index h
                       then cstring_text (drop (Z.to_nat (section_names + name_index h)) buffer) else Undef in
  let! r := if bool_decide (section_name = modinfo_name)
            then let! r := parse_modinfo buffer h (l_properties l) in
                 Ret match r.1 with Value _ => Value r.2 | Failure e => Failure e end
            else Ret (Value (l_properties l)) in
  match r with
  | Failure e => Ret (Failure e)
  | Value properties =>
      let load := if (section_type h =? section_type_number ProgBits) || (section_type h =? section_type_number NoBits) then [permissions_of h] else [] in
      if bool_decide (section_name = module_header_name) then
        if negb (size h =? sizeof_ModuleHeader) then Ret (fail_with "Invalid .module_header size")
        else if (0 <=? offset h) && (offset h + sizeof_ModuleHeader <=? Z.of_nat (length buffer)) then
          Ret (Value (mkLoaded properties (module_header_of (drop (Z.to_nat (offset h)) buffer)) (l_permissions l ++ load)))
        else Undef
      else Ret (Value (mkLoaded properties (l_header l) (l_permissions l ++ load)))
  end.

Fixpoint load_sections (buffer : bytes) (elf_header : ElfHeader) (section_names i : Z) (n : nat) (l : loaded)
    : outcome (ErrorOr loaded Error) :=
  match n with
  | O => Ret (Value l)
  | S n' =>
      let! h := get_section_header buffer elf_header i in
      match h with
      | Failure e => Ret (Failure e)
      | Value h =>
          let! r := load_section buffer section_names h l in
          match r with
          | Failure e => Ret (Failure e)
          | Value l => load_sections buffer elf_header section_names (i + 1) n' l
          end
      end
  end.

(** Control reaches the end of the function, which returns nothing. *)
Definition load_module (buffer : bytes) : outcome (ErrorOr unit Error) :=
  let! r := validate_elf_header buffer Relocatable in
  match r with
  | Failure e => Ret (Failure e)
  | Value elf_header =>
      let! h := get_section_header buffer elf_header (section_header_string_table_index elf_header) in
      match h with
      | Failure e => Ret (Failure e)
      | Value shstrtab_section =>
          let! r := load_sections buffer elf_header (offset shstrtab_section) 0
                      (Z.to_nat (section_header_entry_count elf_header)) (mkLoaded [] (mkModuleHeader 0 0 0 0) []) in
          match r with Failure e => Ret (Failure e) | Value _ => Undef end
      end
  end.
End Loader.

(** * The header *)

(** What a header has to satisfy, besides its magic. *)
Record acceptable (b : bytes) (expected_type : FileType) (h : ElfHeader) : Prop := {
  ok_class : nth EI_CLASS (ident h) 0 = ELFCLASS64;
  ok_data : nth EI_DATA (ident h) 0 = ELFDATA2LSB;
  ok_machine : machine h = machine_number RISCV;
  ok_version : version h = EV_CURRENT;
  ok_type : type_ h = file_type expected_type ∨ expected_type = Executable ∧ type_ h = file_type Dynamic;
  ok_program : program_header_entry_count h * program_header_entry_size h < 2 ^ 31 ∧
    u64 (program_header_offset h + program_header_entry_count h * program_header_entry_size h) ≤ Z.of_nat (length b);
  ok_sections : section_header_entry_count h * section_header_entry_size h < 2 ^ 31 ∧
    u64 (section_header_offset h + section_header_entry_count h * section_header_entry_size h) ≤ Z.of_nat (length b)
}.

Lemma magic_compare b : (64 ≤ length b)%nat → memcmp (ident (elf_header_of b)) ELFMAG SELFMAG = Ret (bool_decide (take 4 b = ELFMAG)).
Proof.
  intros Hb. cbn [ident elf_header_of]. do 16 (destruct b as [|? b]; [cbn in Hb; lia|]). cbn [take].
  pose proof (memcmp_spec [z; z0; z1; z2] ELFMAG [z3; z4; z5; z6; z7; z8; z9; z10; z11; z12; z13; z14] [] eq_refl) as H.
  rewrite app_nil_r in H. exact H.
Qed.

Lemma int_product_Ret x y z : int_product x y = Ret z ↔ x * y < 2 ^ 31 ∧ z = x * y.
Proof. unfold int_product. destruct (Z.ltb_spec (x * y) (2 ^ 31)); split; [intros [= <-]|intros [_ ->]| |]; try done. intros [? _]; lia. Qed.

Lemma validate_magic b t :
  (64 ≤ length b)%nat → take 4 b = ELFMAG → validate_elf_header b t = Ret (fail_with "Invalid ELF magic").
Proof.
  intros Hb Hm. unfold validate_elf_header. rewrite (proj2 (Z.ltb_ge _ _)) by (unfold sizeof_ElfHeader; lia).
  rewrite magic_compare by done. by rewrite bool_decide_true.
Qed.

Lemma validate_short b t :
  (length b < 64)%nat → validate_elf_header b t = Ret (fail_with "ELF buffer too small to contain ELF header").
Proof. intros Hb. unfold validate_elf_header. by rewrite (proj2 (Z.ltb_lt _ _)) by (unfold sizeof_ElfHeader; lia). Qed.

Lemma validate_value b t h :
  (64 ≤ length b)%nat →
  validate_elf_header b t = Ret (Value h) ↔ h = elf_header_of b ∧ take 4 b ≠ ELFMAG ∧ acceptable b t h.
Proof.
  intros Hb. unfold validate_elf_header. rewrite (proj2 (Z.ltb_ge _ _)) by (unfold sizeof_ElfHeader; lia).
  rewrite magic_compare by done. cbn [obind]. set (g := elf_header_of b).
  case_bool_decide as Hm; cbn [Z.eqb negb]; [split; [done|tauto]|].
  destruct (Z.eqb_spec (nth EI_CLASS (ident g) 0) ELFCLASS64); cbn [negb]; [|split; [done|intros (-> & _ & [])]; done].
  destruct (Z.eqb_spec (nth EI_DATA (ident g) 0) ELFDATA2LSB); cbn [negb]; [|split; [done|intros (-> & _ & [])]; done].
  destruct (Z.eqb_spec (machine g) (machine_number RISCV)); cbn [negb]; [|split; [done|intros (-> & _ & [])]; done].
  destruct (Z.eqb_spec (version g) EV_CURRENT); cbn [negb]; [|split; [done|intros (-> & _ & [])]; done].
  assert (negb (type_ g =? file_type t) && negb (bool_decide (t = Executable) && (type_ g =? file_type Dynamic)) = false ↔
    (type_ g = file_type t ∨ t = Executable ∧ type_ g = file_type Dynamic)) as Ht.
  { rewrite andb_false_iff, !negb_false_iff, andb_true_iff, bool_decide_eq_true, !Z.eqb_eq. done. }
  destruct (negb _ && _); [split; [done|]; intros (-> & _ & Ha); exfalso; destruct Ha; by apply Ht in ok_type0|].
  pose proof (proj1 Ht eq_refl) as Hty.
  destruct (int_product (program_header_entry_count g) _) as [p| | |] eqn:Ep; cbn [obind];
    try (split; [done|]; intros (-> & _ & [_ _ _ _ _ [Hp _] _]); unfold int_product in Ep; by rewrite (proj2 (Z.ltb_lt _ _) Hp) in Ep).
  apply int_product_Ret in Ep as [Ep ->].
  destruct (Z.ltb_spec (Z.of_nat (length b)) (u64 (program_header_offset g + program_header_entry_count g * program_header_entry_size g)));
    [split; [done|]; intros (-> & _ & [_ _ _ _ _ [_ Hp] _]); fold g in Hp; lia|].
  destruct (int_product (section_header_entry_count g) _) as [p| | |] eqn:Es; cbn [obind];
    try (split; [done|]; intros (-> & _ & [_ _ _ _ _ _ [Hp _]]); unfold int_product in Es; by rewrite (proj2 (Z.ltb_lt _ _) Hp) in Es).
  apply int_product_Ret in Es as [Es ->].
  destruct (Z.ltb_spec (Z.of_nat (length b)) (u64 (section_header_offset g + section_header_entry_count g * section_header_entry_size g)));
    [split; [done|]; intros (-> & _ & [_ _ _ _ _ _ [_ Hp]]); fold g in Hp; lia|].
  split; [intros [= <-]|by intros (-> & _)]. done.
Qed.

Lemma load_module_no_value g b : load_module g b ≠ Ret (Value tt).
Proof.
  unfold load_module. intros Hl. inv_outcome. destruct x; [|discriminate]. inv_outcome. destruct x; [|discriminate]. inv_outcome.
  by destruct x.
Qed.

(** * Module information *)
Section Modinfo.
Context (buffer : bytes).

(** The bytes [l] are at [i]. *)
Definition bytes_from (i : Z) (l : bytes) : Prop := 0 ≤ i ∧ ∃ post, drop (Z.to_nat i) buffer = l ++ post.

Lemma bytes_from_cons i c l : bytes_from i (c :: l) → get_byte buffer i = Ret c ∧ bytes_from (i + 1) l.
Proof.
  intros [Hi [post Hp]]. split.
  - unfold get_byte. rewrite (proj2 (Z.leb_le 0 i) Hi). rewrite <- (Nat.add_0_r (Z.to_nat i)), <- lookup_drop, Hp. done.
  - split; [lia|]. exists post. replace (Z.to_nat (i + 1)) with (Z.to_nat i + 1)%nat by lia. by rewrite <- drop_drop, Hp.
Qed.

Lemma bytes_from_app i l k : bytes_from i (l ++ k) → bytes_from (i + Z.of_nat (length l)) k.
Proof.
  revert i. induction l as [|c l IH]; intros i Hl; [by rewrite Z.add_0_r|].
  apply bytes_from_cons in Hl as [_ Hl]. apply IH in Hl. cbn [length]. by replace (i + Z.of_nat (S (length l))) with (i + 1 + Z.of_nat (length l)) by lia.
Qed.

Definition key_char (c : Z) : Prop := is_printable c = true ∧ c ≠ equals_sign.
Definition value_char (c : Z) : Prop := is_printable c = true.

Lemma printable_nonzero c : is_printable c = true → c ≠ 0.
Proof. by intros H ->. Qed.

Lemma read_key k : ∀ n i s out rest,
  bytes_from i (k ++ rest) → Forall key_char k →
  modinfo_loop buffer (length k + n) i Key s out = modinfo_loop buffer n (i + Z.of_nat (length k)) Key (s ++ k) out.
Proof.
  induction k as [|c k IH]; intros n i s out rest Hb Hk; [by rewrite Z.add_0_r, app_nil_r|].
  apply Forall_cons in Hk as [[Hc Hne] Hk]. apply bytes_from_cons in Hb as [Hg Hb]. cbn [length Nat.add modinfo_loop]. rewrite Hg. cbn [obind].
  rewrite (proj2 (Z.eqb_neq _ _) Hne), (proj2 (Z.eqb_neq _ _) (printable_nonzero c Hc)), Hc.
  rewrite (IH n (i + 1) (s ++ [c]) out rest Hb Hk), <- app_assoc. f_equal. lia.
Qed.

Lemma read_value v : ∀ n i key s out rest,
  bytes_from i (v ++ rest) → Forall value_char v →
  modinfo_loop buffer (length v + n) i (ValueOf key) s out = modinfo_loop buffer n (i + Z.of_nat (length v)) (ValueOf key) (s ++ v) out.
Proof.
  induction v as [|c v IH]; intros n i key s out rest Hb Hv; [by rewrite Z.add_0_r, app_nil_r|].
  apply Forall_cons in Hv as [Hc Hv]. apply bytes_from_cons in Hb as [Hg Hb]. cbn [length Nat.add modinfo_loop]. rewrite Hg. cbn [obind].
  rewrite (proj2 (Z.eqb_neq _ _) (printable_nonzero c Hc)), Hc.
  rewrite (IH n (i + 1) key (s ++ [c]) out rest Hb Hv), <- app_assoc. f_equal. lia.
Qed.

(** What the macro [MODULE_INFO] puts into the section. *)
Definition module_info (p : ModuleProperty) : bytes := p.1 ++ [equals_sign] ++ p.2 ++ [0].
Definition modinfo_text (ps : list ModuleProperty) : bytes := mjoin (module_info <$> ps).

Definition good_info (p : ModuleProperty) : Prop := Forall key_char p.1 ∧ Forall value_char p.2.

Lemma read_info p n i out rest :
  bytes_from i (module_info p ++ rest) → good_info p →
  modinfo_loop buffer (length (module_info p) + n) i Key [] out =
    modinfo_loop buffer n (i + Z.of_nat (length (module_info p))) Key [] (out ++ [p]).
Proof.
  intros Hb [Hk Hv]. unfold module_info in *. rewrite <- !app_assoc in Hb. rewrite !length_app. cbn [length].
  rewrite <- !Nat.add_assoc. rewrite (read_key p.1 _ i [] out _ Hb Hk). apply bytes_from_app in Hb.
  change ([equals_sign] ++ ?l) with (equals_sign :: l) in Hb. apply bytes_from_cons in Hb as [Hg Hb]. cbn [Nat.add modinfo_loop].
  rewrite Hg. cbn [obind]. rewrite Z.eqb_refl. rewrite (read_value p.2 _ _ _ [] out _ Hb Hv). apply bytes_from_app in Hb.
  change ([0] ++ ?l) with (0 :: l) in Hb. apply bytes_from_cons in Hb as [Hg' Hb]. cbn [modinfo_loop]. rewrite Hg'. cbn [obind Z.eqb app].
  f_equal; [lia|by destruct p].
Qed.

Lemma read_infos ps : ∀ n i out rest,
  bytes_from i (modinfo_text ps ++ rest) → Forall good_info ps →
  modinfo_loop buffer (length (modinfo_text ps) + n) i Key [] out =
    modinfo_loop buffer n (i + Z.of_nat (length (modinfo_text ps))) Key [] (out ++ ps) ∧
  bytes_from (i + Z.of_nat (length (modinfo_text ps))) rest.
Proof.
  induction ps as [|p ps IH]; intros n i out rest Hb Hps.
  { change (modinfo_text []) with (@nil Z) in *. cbn [length Nat.add]. rewrite Z.add_0_r, app_nil_r. done. }
  change (modinfo_text (p :: ps)) with (module_info p ++ modinfo_text ps) in *. rewrite <- app_assoc in Hb.
  apply Forall_cons in Hps as [Hp Hps]. rewrite length_app, <- Nat.add_assoc. rewrite (read_info p _ i out _ Hb Hp).
  apply bytes_from_app in Hb. destruct (IH n _ (out ++ [p]) rest Hb Hps) as [-> Hr].
  rewrite <- app_assoc, Nat2Z.inj_add, Z.add_assoc. done.
Qed.
End Modinfo.

(** * Properties *)

(** The checks of the header.  A buffer is accepted exactly when its class,
    encoding, machine, version and type fit, its program and section headers lie
    inside as far as 64-bit sums tell, and it does *not* start with the magic of an
    ELF file: [memcmp] tells whether the bytes are equal, and its result is used as
    that of the C function.  So every ELF file is refused with the error "Invalid
    ELF magic", by [load_module] too, which never returns a success. *)
Theorem elf_header_checks (b : bytes) :
  (∀ t, (length b < 64)%nat → validate_elf_header b t = Ret (fail_with "ELF buffer too small to contain ELF header")) ∧
  ((64 ≤ length b)%nat →
     (take 4 b = ELFMAG → (∀ t, validate_elf_header b t = Ret (fail_with "Invalid ELF magic")) ∧
        ∀ g, load_module g b = Ret (fail_with "Invalid ELF magic")) ∧
     ∀ t h, validate_elf_header b t = Ret (Value h) ↔ h = elf_header_of b ∧ take 4 b ≠ ELFMAG ∧ acceptable b t h) ∧
  (∀ g, load_module g b ≠ Ret (Value tt)).
Proof.
  split; [intros t; apply validate_short|]. split; [|intros g; apply load_module_no_value]. intros Hb. split.
  - intros Hm. split; [intros t; by apply validate_magic|]. intros g. unfold load_module. by rewrite validate_magic.
  - intros t h. by apply validate_value.
Qed.

(** C35: the module information of a section is parsed into the properties that
    [MODULE_INFO] wrote, in order, behind those of the caller.  A value without its
    NUL, a key that ends in a NUL and a byte that is not printable are errors with
    their messages, after the properties in front of them were added; a last key
    without a value is ignored. *)
Theorem modinfo_roundtrip (buffer : bytes) (h : SectionHeader) (ps out : list ModuleProperty) (rest : bytes) :
  bytes_from buffer (offset h) (modinfo_text ps ++ rest) → size h = Z.of_nat (length (modinfo_text ps ++ rest)) →
  Forall good_info ps →
  (rest = [] → parse_modinfo buffer h out = Ret (Value tt, out ++ ps)) ∧
  (Forall key_char rest → parse_modinfo buffer h out = Ret (Value tt, out ++ ps)) ∧
  (∀ k v, rest = k ++ [equals_sign] ++ v → Forall key_char k → Forall value_char v →
     parse_modinfo buffer h out =
       Ret (fail_with "Unexpected end of modinfo. Expected null terminator after value.", out ++ ps)) ∧
  (∀ k l, rest = k ++ 0 :: l → Forall key_char k →
     parse_modinfo buffer h out = Ret (fail_with "Unexpected end of line. Expected '=' separator.", out ++ ps)) ∧
  (∀ k c l, rest = k ++ c :: l → Forall key_char k → is_printable c = false → c ≠ 0 →
     parse_modinfo buffer h out = Ret (fail_with "Invalid character in modinfo key.", out ++ ps)) ∧
  (∀ k v c l, rest = k ++ [equals_sign] ++ v ++ c :: l → Forall key_char k → Forall value_char v → is_printable c = false → c ≠ 0 →
     parse_modinfo buffer h out = Ret (fail_with "Invalid character in modinfo value.", out ++ ps)).
Proof.
  intros Hb Hs Hps. destruct (read_infos buffer ps (length rest) (offset h) out rest Hb Hps) as [Hr Hb'].
  assert (parse_modinfo buffer h out =
    modinfo_loop buffer (length rest) (offset h + Z.of_nat (length (modinfo_text ps))) Key [] (out ++ ps)) as ->.
  { unfold parse_modinfo. rewrite Hs, Nat2Z.id, length_app. exact Hr. }
  set (i := offset h + Z.of_nat (length (modinfo_text ps))) in *. clearbody i. clear Hr Hb Hs.
  assert (∀ k n o, rest = k ++ o → length o = n → Forall key_char k →
    bytes_from buffer (i + Z.of_nat (length k)) o ∧
    modinfo_loop buffer (length rest) i Key [] (out ++ ps) = modinfo_loop buffer n (i + Z.of_nat (length k)) Key k (out ++ ps)) as Hkey.
  { intros k n o -> <- Hk. split; [by eapply bytes_from_app|]. rewrite length_app. by rewrite (read_key buffer k _ i [] _ o). }
  split_and!.
  - intros ->. done.
  - intros Hk. destruct (Hkey rest 0%nat []) as [_ ->]; [by rewrite app_nil_r|done|done|]. done.
  - intros k v Hrest Hk Hv. destruct (Hkey k _ _ Hrest eq_refl Hk) as [Ho ->].
    change ([equals_sign] ++ v) with (equals_sign :: v) in *. apply bytes_from_cons in Ho as [Hg Ho]. cbn [length modinfo_loop].
    rewrite Hg. cbn [obind]. rewrite Z.eqb_refl. rewrite <- (app_nil_r v) in Ho. rewrite <- (Nat.add_0_r (length v)).
    by rewrite (read_value buffer v 0 _ k [] _ [] Ho Hv).
  - intros k l Hrest Hk. destruct (Hkey k _ _ Hrest eq_refl Hk) as [Ho ->]. apply bytes_from_cons in Ho as [Hg Ho]. cbn [length modinfo_loop].
    by rewrite Hg.
  - intros k c l Hrest Hk Hc H0. destruct (Hkey k _ _ Hrest eq_refl Hk) as [Ho ->]. apply bytes_from_cons in Ho as [Hg Ho].
    cbn [length modinfo_loop]. rewrite Hg. cbn [obind]. rewrite (proj2 (Z.eqb_neq _ _) H0), Hc.
    destruct (Z.eqb_spec c equals_sign) as [->|]; [done|]. done.
  - intros k v c l Hrest Hk Hv Hc H0. destruct (Hkey k _ _ Hrest eq_refl Hk) as [Ho ->].
    change ([equals_sign] ++ v ++ c :: l) with (equals_sign :: v ++ c :: l) in *. apply bytes_from_cons in Ho as [Hg Ho]. cbn [length modinfo_loop].
    rewrite Hg. cbn [obind]. rewrite Z.eqb_refl, length_app. rewrite (read_value buffer v _ _ k [] _ _ Ho Hv).
    apply bytes_from_app, bytes_from_cons in Ho as [Hg' _]. cbn [length modinfo_loop]. rewrite Hg'. cbn [obind].
    by rewrite (proj2 (Z.eqb_neq _ _) H0), Hc.
Qed.

(** A header of a relocatable file for RISC-V without program and section headers. *)
Definition sample_elf : bytes :=
  [127; 69; 76; 70; 2; 1; 1] ++ replicate 9 0 ++ [1; 0; 243; 0; 1; 0; 0; 0] ++ replicate 40 0.

Lemma elf_header_checks_witness :
  validate_elf_header sample_elf Relocatable = Ret (fail_with "Invalid ELF magic") ∧
  ∃ h, validate_elf_header (0 :: tail sample_elf) Relocatable = Ret (Value h).
Proof.
  split.
  - exact (proj1 (proj1 (proj1 (proj2 (elf_header_checks sample_elf)) ltac:(cbn; lia)) eq_refl) Relocatable).
  - exists (elf_header_of (0 :: tail sample_elf)).
    apply (proj2 (proj1 (proj2 (elf_header_checks (0 :: tail sample_elf))) ltac:(cbn; lia))).
    split; [reflexivity|]. split; [discriminate|].
    constructor; [reflexivity|reflexivity|reflexivity|reflexivity|left; reflexivity|split; by vm_compute|split; by vm_compute].
Defined.

(** "a=b", NUL, "c=", NUL. *)
Lemma modinfo_roundtrip_witness :
  parse_modinfo [9; 97; 61; 98; 0; 99; 61; 0] (mkSectionHeader 0 1 0 0 1 7 0 0 1 0) [] = Ret (Value tt, [([97], [98]); ([99], [])]).
Proof.
  refine (proj1 (modinfo_roundtrip _ (mkSectionHeader 0 1 0 0 1 7 0 0 1 0) [([97], [98]); ([99], [])] [] [] _ _ _) eq_refl).
  - split; [cbn; lia|]. by exists [].
  - reflexivity.
  - repeat constructor; discriminate.
Defined.
