(* ===== verification/Interrupts.v ===== *)
(** Traps: [Arch/riscv64/Interrupts/Interrupts.cpp] and [System/Timer.cpp].

    The trap handler runs on the state of [Syscalls.v], the interrupt controller
    of [Plic.v] on a bus, and what was given to the firmware's timer.  Frames are
    named by their addresses; the frame of the kernel is one of them. *)
From S2P Require Import Prelude Bits Machine Strings Containers Files Processes Logger Mmio Plic Syscalls.

(** * [enum class Interrupts] *)
Definition SoftwareInterrupt : Z := 0x8000000000000001.
Definition TimerInterrupt : Z := 0x8000000000000005.
Definition ExternalInterrupt : Z := 0x8000000000000009.
Definition CounterOverflowInterrupt : Z := 0x800000000000000d.
Definition SystemCall : Z := 8.
Definition InstructionPageFault : Z := 12.
Definition LoadPageFault : Z := 13.
Definition StorePageFault : Z := 15.
Definition IllegalInstruction : Z := 2.

Definition interrupt_to_string (cause : Z) : string :=
  if cause =? SoftwareInterrupt then "SoftwareInterrupt"
  else if cause =? TimerInterrupt then "TimerInterrupt"
  else if cause =? ExternalInterrupt then "ExternalInterrupt"
  else if cause =? CounterOverflowInterrupt then "CounterOverflowInterrupt"
  else if cause =? SystemCall then "SystemCall"
  else if cause =? InstructionPageFault then "InstructionPageFault"
  else if cause =? LoadPageFault then "LoadPageFault"
  else if cause =? StorePageFault then "StorePageFault"
  else if cause =? IllegalInstruction then "IllegalInstruction"
  else "Unknown interrupt".

Section Interrupts.
Context {W D : Type} `{SyscallWorld W} `{Bus D}.

(** The machine: kernel and world, the bus, and the deadlines given to the timer. *)
Record machine : Type := mkMachine { sys : state (W := W); bus : D; deadlines : list Z }.

Definition with_sys (m : machine) (s : state) : machine := mkMachine s (bus m) (deadlines m).

(** * [class Timer] *)
Definition DEFAULT_PROCESS_TIME : Z := 100.
Variable m_frequency : Z.

Definition current_time (m : machine) : Z := time_register (world (sys m)).

Definition set_timer (time_in_ms : Z) (m : machine) : machine :=
  let ticks := u64 (m_frequency / 1000 * time_in_ms) in
  let next_time := u64 (current_time m + ticks) in
  mkMachine (sys m) (bus m) (deadlines m ++ [next_time]).

(** * The handlers

    [plic_base] is the base of the controller, [delegate] what the device manager
    does with the interrupt of a device, [fuel] bounds the scheduler's loop and
    the strings of system calls, [file] is the result of [new File]. *)
Variable plic_base : Z.
Variable delegate : Z → state (W := W) → D → outcome (ErrorOr unit Error * (state (W := W) * D)).
Variable fuel : nat.
Variable file : Z.

Definition frame_at (m : machine) (tf : Z) : outcome TrapFrame :=
  let k := kern (sys m) in
  if tf =? (kernel_frame k).1 then Ret (base (kernel_frame k).2) else defined (frames k !! tf).

Definition write_frame (m : machine) (tf : Z) (f : TrapFrame) : machine :=
  let k := kern (sys m) in
  let k := if tf =? (kernel_frame k).1
           then with_kernel_frame k (mkKernelFrame f (cpu_id (kernel_frame k).2) (current_thread_id (kernel_frame k).2)
                                       (current_process_id (kernel_frame k).2))
           else with_frames k (<[tf := f]> (frames k)) in
  with_sys m (with_kern (sys m) k).

Definition is_kernel_trap (f : TrapFrame) : bool := negb (Z.land (sstatus f) (Z.shiftl 1 8) =? 0).

Definition handle_software_interrupt (tf : Z) (m : machine) : outcome (Z * machine) := Ret (tf, m).

(** [next_thread->get_trap_frame()]: a null thread is not looked for. *)
Definition trap_frame_of (thread : Z) (m : machine) : outcome Z :=
  let! t := thread_at (kern (sys m)) thread in Ret (m_trap_frame t).

Definition run_scheduler (m : machine) : outcome (Z * machine) :=
  let! r := schedule fuel (kern (sys m)) in Ret (r.1, with_sys m (with_kern (sys m) r.2)).

Definition handle_timer_interrupt (tf : Z) (m : machine) : outcome (Z * machine) :=
  let! r := run_scheduler m in
  let m := set_timer DEFAULT_PROCESS_TIME r.2 in
  let! f := trap_frame_of r.1 m in Ret (f, m).

Definition handle_external_interrupt (tf : Z) (m : machine) : outcome (Z * machine) :=
  let '(next_interrupt, d) := next plic_base DEFAULT_CONTEXT_ID (bus m) in
  match next_interrupt with
  | None => Ret (tf, mkMachine (sys m) d (deadlines m))
  | Some interrupt =>
      let! r := delegate interrupt (sys m) d in
      Ret (tf, mkMachine r.2.1 (complete plic_base DEFAULT_CONTEXT_ID interrupt r.2.2) (deadlines m))
  end.

Definition log_line (m : machine) (fmt : string) (args : list argument) : machine :=
  with_sys m (add_call (sys m) (Logln (characters fmt) args)).

Definition handle_system_call (tf : Z) (m : machine) : outcome (Z * machine) :=
  let! process := get_current_process (kern (sys m)) in
  let! current_thread := get_current_thread (kern (sys m)) in
  let! t := thread_at (kern (sys m)) current_thread in
  let! f := defined (frames (kern (sys m)) !! m_trap_frame t) in
  let! id := get_register f SyscallId in
  let log_before := log_size (world (sys m)) in
  let mem_before := used_size (sys m) in
  let! r := handle_syscall fuel file (sys m) process id in
  let m := with_sys m r.2 in
  let m := log_line m "Memory usage change during syscall: {} bytes"
             [ArgNumber (used_size (sys m) - mem_before - (log_size (world (sys m)) - log_before))] in
  match r.1 with
  | Failure SysBlocked => let! r := run_scheduler m in let! f := trap_frame_of r.1 r.2 in Ret (f, r.2)
  | _ =>
      let! f := frame_at m tf in
      Ret (tf, write_frame m tf (with_sepc f (u64 (sepc f + 4))))
  end.

Definition unknown_interrupt (tf : Z) (m : machine) : outcome (Z * machine) :=
  let! f := frame_at m tf in
  Ret (tf, log_line m "Interrupts: No handler for interrupt {}, on address: {16}" [ArgNumber (scause f); ArgNumber (sepc f)]).

(** [kernel_panic] writes its message and stops the hart. *)
Definition kernel_panic : outcome (Z * machine) := Halted.

Definition is_fault (cause : Z) : bool :=
  (cause =? InstructionPageFault) || (cause =? LoadPageFault) || (cause =? StorePageFault) || (cause =? IllegalInstruction).

Definition handle_interrupt (tf : Z) (m : machine) : outcome (Z * machine) :=
  let! f := frame_at m tf in
  let cause := scause f in
  if is_kernel_trap f then
    if is_fault cause then kernel_panic
    else if cause =? ExternalInterrupt then handle_external_interrupt tf m
    else Ret (tf, m)
  else
    let allocated_bytes_on_int_start := used_size (sys m) in
    let allocated_by_logger_start := log_size (world (sys m)) in
    let! r :=
      if cause =? SoftwareInterrupt then handle_software_interrupt tf m
      else if cause =? TimerInterrupt then handle_timer_interrupt tf m
      else if cause =? ExternalInterrupt then handle_external_interrupt tf m
      else if cause =? SystemCall then handle_system_call tf m
      else unknown_interrupt tf m in
    let m := r.2 in
    let total := used_size (sys m) - allocated_bytes_on_int_start - (log_size (world (sys m)) - allocated_by_logger_start) in
    if 300 <? total then
      let! f := frame_at m tf in
      Ret (r.1, log_line m "Interrupts: Warning, memory allocation during interrupt (int: {}) handling detected! ({} bytes)"
                  [ArgNumber (scause f); ArgNumber total])
    else Ret (r.1, m).

(** * What the handlers do *)

(** Two machines that differ at most in the calls of the log. *)
Record logged (m m' : machine) : Prop := {
  logged_kern : kern (sys m') = kern (sys m);
  logged_world : world (sys m') = world (sys m);
  logged_files : files (sys m') = files (sys m);
  logged_statistics : m_statistics (sys m') = m_statistics (sys m);
  logged_bus : bus m' = bus m;
  logged_deadlines : deadlines m' = deadlines m
}.

Lemma logged_refl m : logged m m.
Proof. done. Qed.

(** The frame of the current thread, and not that of the kernel, is the one of the trap. *)
Definition trapped (m : machine) (tf : Z) (process tp : Z) (p : Process) (t : Thread) (f : TrapFrame) : Prop :=
  get_current_process (kern (sys m)) = Ret process ∧ processes (kern (sys m)) !! process = Some p ∧
  get_current_thread (kern (sys m)) = Ret tp ∧ threads (kern (sys m)) !! tp = Some t ∧ m_trap_frame t = tf ∧
  frames (kern (sys m)) !! tf = Some f ∧ length (regs f) = 32%nat ∧ tf ≠ (kernel_frame (kern (sys m))).1.

Lemma trapped_frame m tf process tp p t f : trapped m tf process tp p t f → frame_at m tf = Ret f.
Proof.
  intros (_ & _ & _ & _ & _ & Hf & _ & Hne). unfold frame_at. rewrite (proj2 (Z.eqb_neq _ _) Hne). by rewrite Hf.
Qed.

(** The number of the system call in a frame. *)
Definition call_number (f : TrapFrame) : Z := default 0 (regs f !! SyscallId).

Lemma get_call_number f : length (regs f) = 32%nat → get_register f SyscallId = Ret (call_number f).
Proof.
  intros Hl. unfold get_register, call_number. destruct (regs f !! SyscallId) eqn:E; [done|].
  apply lookup_ge_None in E. unfold SyscallId in E. lia.
Qed.

(** A system call up to the answer of the manager. *)
Lemma system_call_reaches m tf process tp p t f r s' :
  trapped m tf process tp p t f → handle_syscall fuel file (sys m) process (call_number f) = Ret (r, s') →
  ∃ m1, logged (with_sys m s') m1 ∧
    handle_system_call tf m =
      match r with
      | Failure SysBlocked => let! r := run_scheduler m1 in let! f := trap_frame_of r.1 r.2 in Ret (f, r.2)
      | _ => let! f := frame_at m1 tf in Ret (tf, write_frame m1 tf (with_sepc f (u64 (sepc f + 4))))
      end.
Proof.
  intros (Hp & _ & Htp & Ht & Htf & Hf & Hl & _) Hs. unfold handle_system_call. rewrite Hp. cbn [obind]. rewrite Htp. cbn [obind].
  unfold thread_at. rewrite Ht. cbn [defined obind]. rewrite Htf, Hf. cbn [defined obind]. rewrite (get_call_number _ Hl).
  cbn [obind]. rewrite Hs. cbn [obind fst snd]. eexists. split; [|reflexivity]. done.
Qed.

(** The end of [handle_interrupt] in user mode: at most a line is logged. *)
Lemma user_trap m tf f r m1 :
  frame_at m tf = Ret f → is_kernel_trap f = false →
  (if scause f =? SoftwareInterrupt then handle_software_interrupt tf m
   else if scause f =? TimerInterrupt then handle_timer_interrupt tf m
   else if scause f =? ExternalInterrupt then handle_external_interrupt tf m
   else if scause f =? SystemCall then handle_system_call tf m
   else unknown_interrupt tf m) = Ret (r, m1) →
  (∃ f1, frame_at m1 tf = Ret f1) →
  ∃ m2, handle_interrupt tf m = Ret (r, m2) ∧ logged m1 m2.
Proof.
  intros Hf Hk Hh (f1 & Hf1). unfold handle_interrupt. rewrite Hf. cbn [obind]. rewrite Hk, Hh. cbn [obind fst snd].
  destruct (300 <? _); [|by exists m1]. rewrite Hf1. cbn [obind]. eexists. split; [reflexivity|done].
Qed.
End Interrupts.

(** * Traps *)
Section Traps.
Context {W D : Type} `{SyscallWorld W} `{Bus D}.
Variables (m_frequency plic_base : Z) (delegate : Z → state (W := W) → D → outcome (ErrorOr unit Error * (state (W := W) * D))).
Variables (fuel : nat) (file : Z).
Implicit Types (m : machine (W := W) (D := D)).

Abbreviation trap := (handle_interrupt m_frequency plic_base delegate fuel file).

(** The threads of the queue up to the next one that runs. *)
Definition next_is (k : kernel) (pre : list Z) (p : Z) (post : list Z) (t : Thread) (f : TrapFrame) : Prop :=
  m_process_list_lock k = 0 ∧ rotate_left (m_run_queue k) = pre ++ p :: post ∧ Forall (waits k) pre ∧ runs k p ∧
  threads k !! p = Some t ∧ frames k !! m_trap_frame t = Some f ∧ length (regs (base (kernel_frame k).2)) = 32%nat.

Lemma run_scheduler_next m pre p post t f :
  next_is (kern (sys m)) pre p post t f → (length pre < fuel)%nat →
  run_scheduler fuel m = Ret (p, with_sys m (with_kern (sys m) (switched (kern (sys m)) (p :: post ++ pre) t f))).
Proof.
  intros (Hl & Hq & Hw & Hr & Ht & Hf & Hg) Hfuel. unfold run_scheduler.
  by rewrite (schedule_finds _ fuel pre p post t f).
Qed.

(** Only the kernel and the log differ. *)
Record same_world (s s' : state (W := W)) : Prop := {
  sw_world : world s' = world s; sw_files : files s' = files s; sw_statistics : m_statistics s' = m_statistics s
}.

Lemma timer_trap m tf f pre p post t fr :
  frame_at m tf = Ret f → is_kernel_trap f = false → scause f = TimerInterrupt →
  next_is (kern (sys m)) pre p post t fr → (length pre < fuel)%nat →
  ∃ m', trap tf m = Ret (m_trap_frame t, m') ∧ kern (sys m') = switched (kern (sys m)) (p :: post ++ pre) t fr ∧
    deadlines m' = deadlines m ++ [u64 (current_time m + u64 (m_frequency / 1000 * 100))] ∧
    same_world (sys m) (sys m') ∧ bus m' = bus m.
Proof.
  intros Hf Hk Hc Hn Hfuel. unfold handle_interrupt. rewrite Hf. cbn [obind]. rewrite Hk, Hc.
  change (TimerInterrupt =? SoftwareInterrupt) with false. change (TimerInterrupt =? TimerInterrupt) with true. cbn iota.
  unfold handle_timer_interrupt. rewrite (run_scheduler_next m pre p post t fr) by done. cbn [obind fst snd].
  pose proof Hn as (_ & _ & _ & _ & Ht & _). unfold trap_frame_of, thread_at. simpl. rewrite Ht. simpl.
  unfold used_size. simpl. rewrite !Z.sub_diag. simpl. eexists. split; [reflexivity|]. by repeat split.
Qed.

(** A system call that gets its answer: the thread goes on behind the [ecall]. *)
Lemma answered_call m tf process tp p t f (id : nat) stats r s2 :
  trapped m tf process tp p t f → is_kernel_trap f = false → scause f = SystemCall →
  (id < 10)%nat → call_number f = Z.of_nat id → increment (m_statistics (sys m)) (Z.of_nat id) = Ret stats →
  let arg i := default 0 (arguments f !! i) in
  call_handler fuel file (entered (sys m) p (Z.of_nat id) stats (arguments f)) process (Z.of_nat id) (arg 0%nat) (arg 1%nat) (arg 2%nat) = Ret (r, s2) →
  r ≠ Failure SysBlocked →
  ∃ m', trap tf m = Ret (tf, m') ∧
    frames (kern (sys m')) = <[tf := with_sepc (answered f r) (u64 (sepc f + 4))]> (frames (kern (sys m))) ∧
    threads (kern (sys m')) = threads (kern s2) ∧ m_run_queue (kern (sys m')) = m_run_queue (kern (sys m)) ∧
    world (sys m') = world s2 ∧ deadlines m' = deadlines m ∧
    kern (sys m') = with_frames (kern s2) (<[tf := with_sepc (answered f r) (u64 (sepc f + 4))]> (frames (kern (sys m)))) ∧
    files (sys m') = files s2 ∧ m_statistics (sys m') = stats ∧ bus m' = bus m.
Proof.
  intros Htr Hk Hc Hid Hn Hst arg Hr Hne. pose proof Htr as (_ & Hp & Htp & Ht & Htf & Hf & Hl & Hkf). rewrite <- Htf in Hf.
  destruct (dispatch_returns fuel file (sys m) process id p tp t f stats r s2 Hid Hp Htp Ht Hf Hl Hst Hr)
    as (s' & Hs & Hfr & Hss & Hw & Hfl & Hth & _ & Hq & Hkfr & _ & Hks).
  rewrite Htf in *. rewrite <- Hn in Hs.
  destruct (system_call_reaches fuel file m tf process tp p t f _ s' Htr Hs) as (m1 & [Lk Lw Lf Ls Lb Ld] & Hcall). simpl in *.
  assert (frame_at m1 tf = Ret (answered f r)) as Hm1.
  { unfold frame_at. rewrite Lk, Hkfr, (proj2 (Z.eqb_neq _ _) Hkf), Hfr, lookup_insert_eq. done. }
  assert (match (match r with Failure SysBlocked => Failure SysBlocked | _ => Value tt end) with
    | Failure SysBlocked => let! r := run_scheduler fuel m1 in let! f := trap_frame_of r.1 r.2 in Ret (f, r.2)
    | _ => let! f := frame_at m1 tf in Ret (tf, write_frame m1 tf (with_sepc f (u64 (sepc f + 4)))) end =
    Ret (tf, write_frame m1 tf (with_sepc (answered f r) (u64 (sepc f + 4))))) as Hend.
  { rewrite Hm1. by destruct r as [|[]]. }
  rewrite Hend in Hcall.
  destruct (user_trap m_frequency plic_base delegate fuel file m tf f tf
    (write_frame m1 tf (with_sepc (answered f r) (u64 (sepc f + 4)))) (trapped_frame _ _ _ _ _ _ _ Htr) Hk)
    as (m2 & Hm2 & [Mk Mw Mf Ms Mb Md]).
  - rewrite Hc. exact Hcall.
  - unfold write_frame, frame_at. rewrite Lk, Hkfr, (proj2 (Z.eqb_neq _ _) Hkf). simpl.
    rewrite ?Lk, ?Hkfr, (proj2 (Z.eqb_neq _ _) Hkf), lookup_insert_eq. by eexists.
  - exists m2. split; [done|]. rewrite Mk, Mw, Md, Mf, Ms, Mb. unfold write_frame. rewrite Lk, Hkfr, (proj2 (Z.eqb_neq _ _) Hkf). simpl.
    rewrite ?Lk, Lw, Ld, Lf, Ls, Lb, Hfr, insert_insert_eq. split_and!; try done. rewrite Hks. done.
Qed.

(** A system call that must wait: another thread goes on, and the call is made again. *)
Lemma waiting_call m tf process tp p t f (id : nat) stats s2 pre q post t' f' :
  trapped m tf process tp p t f → is_kernel_trap f = false → scause f = SystemCall →
  (id < 10)%nat → call_number f = Z.of_nat id → increment (m_statistics (sys m)) (Z.of_nat id) = Ret stats →
  let arg i := default 0 (arguments f !! i) in
  call_handler fuel file (entered (sys m) p (Z.of_nat id) stats (arguments f)) process (Z.of_nat id) (arg 0%nat) (arg 1%nat) (arg 2%nat) = Ret (Failure SysBlocked, s2) →
  next_is (with_threads (kern (sys m)) (threads (kern s2))) pre q post t' f' → (length pre < fuel)%nat → m_trap_frame t' ≠ tf →
  ∃ m', trap tf m = Ret (m_trap_frame t', m') ∧ frames (kern (sys m')) !! tf = Some f ∧
    threads (kern (sys m')) = threads (kern s2) ∧ m_run_queue (kern (sys m')) = q :: post ++ pre ∧ deadlines m' = deadlines m ∧
    frames (kern (sys m')) !! m_trap_frame t' =
      Some (with_kernel f' (default 0 (regs (base (kernel_frame (kern (sys m))).2) !! SP)) (kernel_frame (kern (sys m))).1) ∧
    kern (sys m') = switched (kern s2) (q :: post ++ pre) t' f' ∧ world (sys m') = world s2 ∧ files (sys m') = files s2 ∧
    m_statistics (sys m') = stats ∧ bus m' = bus m.
Proof.
  intros Htr Hk Hc Hid Hn Hst arg Hr (Nl & Nq & Nw & Nr & Nt & Nf & Ng) Hfuel Hne. simpl in *.
  pose proof Htr as (_ & Hp & Htp & Ht & Htf & Hf & Hl & Hkf). rewrite <- Htf in Hf.
  destruct (dispatch_returns fuel file (sys m) process id p tp t f stats _ s2 Hid Hp Htp Ht Hf Hl Hst Hr)
    as (s' & Hs & Hfr & Hss & Hw & Hfl & Hth & _ & Hq & Hkfr & Hlk & Hks).
  simpl in Hfr, Hks. rewrite insert_id in Hfr, Hks by done. rewrite Htf in *. rewrite <- Hn in Hs.
  destruct (system_call_reaches fuel file m tf process tp p t f _ s' Htr Hs) as (m1 & [Lk Lw Lf Ls Lb Ld] & Hcall). simpl in *.
  rewrite (run_scheduler_next m1 pre q post t' f') in Hcall; [|split_and!|done].
  2:{ by rewrite Lk, Hlk. } 2:{ by rewrite Lk, Hq. }
  2:{ eapply Forall_impl; [exact Nw|]. intros x (st & Hx & ?). exists st. split; [|done]. by rewrite Lk, Hth. }
  2:{ unfold runs. by rewrite Lk, Hth. } 2:{ by rewrite Lk, Hth. } 2:{ by rewrite Lk, Hfr. } 2:{ by rewrite Lk, Hkfr. }
  cbn [obind fst snd] in Hcall. unfold trap_frame_of, thread_at in Hcall. simpl in Hcall.
  rewrite Lk, Hth, Nt in Hcall. simpl in Hcall.
  destruct (user_trap m_frequency plic_base delegate fuel file m tf f (m_trap_frame t')
    (with_sys m1 (with_kern (sys m1) (switched (kern s') (q :: post ++ pre) t' f'))) (trapped_frame _ _ _ _ _ _ _ Htr) Hk) as (m2 & Hm2 & [Mk Mw Mf Ms Mb Md]).
  - rewrite Hc. exact Hcall.
  - unfold frame_at. simpl. rewrite Hkfr, (proj2 (Z.eqb_neq _ _) Hkf), lookup_insert_ne, Hfr, Hf by done. by eexists.
  - exists m2. split; [done|]. rewrite Mk, Md. simpl. rewrite lookup_insert_ne, Hfr by done. rewrite Ld, lookup_insert_eq, Hkfr. split_and!; try done.
    + f_equal. rewrite Hks. pose proof (handler_keeps _ _ _ _ _ _ _ _ _ Hr) as [[Hf2 _ _ _ _] _]. simpl in Hf2. rewrite <- Hf2. by destruct (kern s2).
    + rewrite Mw. simpl. by rewrite Lw.
    + rewrite Mf. simpl. by rewrite Lf.
    + rewrite Ms. simpl. by rewrite Ls.
    + rewrite Mb. simpl. by rewrite Lb.
Qed.
End Traps.

(** Nothing is logged about memory when a trap leaves the used size and the log as they were. *)
Lemma quiet_trap `{SyscallWorld W} `{Bus D} m_frequency plic_base
    (delegate : Z → state (W := W) → D → outcome (ErrorOr unit Error * (state (W := W) * D))) fuel file
    (m m1 : machine (W := W) (D := D)) tf f r :
  frame_at m tf = Ret f → is_kernel_trap f = false →
  (if scause f =? SoftwareInterrupt then handle_software_interrupt tf m
   else if scause f =? TimerInterrupt then handle_timer_interrupt m_frequency fuel tf m
   else if scause f =? ExternalInterrupt then handle_external_interrupt plic_base delegate tf m
   else if scause f =? SystemCall then handle_system_call fuel file tf m
   else unknown_interrupt tf m) = Ret (r, m1) →
  world (sys m1) = world (sys m) → handle_interrupt m_frequency plic_base delegate fuel file tf m = Ret (r, m1).
Proof.
  intros Hf Hk Hh Hw. unfold handle_interrupt. rewrite Hf. cbn [obind]. rewrite Hk, Hh. cbn [obind fst snd].
  unfold used_size. by rewrite Hw, !Z.sub_diag.
Qed.

(** C25: the trap handler.  From the kernel, faults stop it, device interrupts
    are served and everything else is ignored.  From user mode, a timer interrupt
    goes on with the next running thread and sets the timer 100 ms ahead; a
    system call that is answered changes of all frames only the argument register
    and the program counter of its own, and goes on behind the call; a system call that
    must wait leaves its frame as it was, so that it is made again, and another
    thread goes on; a software interrupt changes nothing, and any other cause is logged
    and the same frame goes on, at the instruction that trapped.  From either mode a
    device interrupt is claimed, given to the device manager and then completed with
    its number, nothing is completed without a claim, and the interrupted frame goes
    on; from user mode at most a line about memory usage is logged as well. *)
Theorem trap_handler `{SyscallWorld W} `{Bus D} m_frequency plic_base
    (delegate : Z → state (W := W) → D → outcome (ErrorOr unit Error * (state (W := W) * D))) fuel file (m : machine) tf f :
  let trap := handle_interrupt m_frequency plic_base delegate fuel file in
  frame_at m tf = Ret f →
  (is_kernel_trap f = true →
     (is_fault (scause f) = true → trap tf m = Halted) ∧
     (is_fault (scause f) = false → scause f ≠ ExternalInterrupt → trap tf m = Ret (tf, m)) ∧
     (scause f = ExternalInterrupt → ∀ c d, load 4 (claim_address plic_base DEFAULT_CONTEXT_ID) (bus m) = (c, d) →
        (c = 0 → trap tf m = Ret (tf, mkMachine (sys m) d (deadlines m))) ∧
        (c ≠ 0 → ∀ r s' d', delegate c (sys m) d = Ret (r, (s', d')) →
           trap tf m = Ret (tf, mkMachine s' (complete plic_base DEFAULT_CONTEXT_ID c d') (deadlines m))))) ∧
  (is_kernel_trap f = false →
     (scause f = TimerInterrupt → ∀ pre p post t fr,
        next_is (kern (sys m)) pre p post t fr → (length pre < fuel)%nat →
        ∃ m', trap tf m = Ret (m_trap_frame t, m') ∧ kern (sys m') = switched (kern (sys m)) (p :: post ++ pre) t fr ∧
          deadlines m' = deadlines m ++ [u64 (current_time m + u64 (m_frequency / 1000 * 100))]) ∧
     (scause f = SystemCall → ∀ process tp p t (id : nat) stats r s2,
        trapped m tf process tp p t f → (id < 10)%nat → call_number f = Z.of_nat id →
        increment (m_statistics (sys m)) (Z.of_nat id) = Ret stats →
        let arg i := default 0 (arguments f !! i) in
        call_handler fuel file (entered (sys m) p (Z.of_nat id) stats (arguments f)) process (Z.of_nat id)
          (arg 0%nat) (arg 1%nat) (arg 2%nat) = Ret (r, s2) →
        (r ≠ Failure SysBlocked →
           ∃ m', trap tf m = Ret (tf, m') ∧
             frames (kern (sys m')) = <[tf := with_sepc (answered f r) (u64 (sepc f + 4))]> (frames (kern (sys m))) ∧
             threads (kern (sys m')) = threads (kern s2) ∧ m_run_queue (kern (sys m')) = m_run_queue (kern (sys m)) ∧
             world (sys m') = world s2 ∧ deadlines m' = deadlines m) ∧
        (r = Failure SysBlocked → ∀ pre q post t' f',
           next_is (with_threads (kern (sys m)) (threads (kern s2))) pre q post t' f' → (length pre < fuel)%nat → m_trap_frame t' ≠ tf →
           ∃ m', trap tf m = Ret (m_trap_frame t', m') ∧ frames (kern (sys m')) !! tf = Some f ∧
             threads (kern (sys m')) = threads (kern s2) ∧ m_run_queue (kern (sys m')) = q :: post ++ pre ∧
             deadlines m' = deadlines m)) ∧
     (scause f = ExternalInterrupt → ∀ c d, load 4 (claim_address plic_base DEFAULT_CONTEXT_ID) (bus m) = (c, d) →
        (c = 0 → trap tf m = Ret (tf, mkMachine (sys m) d (deadlines m))) ∧
        (c ≠ 0 → ∀ r s' d', delegate c (sys m) d = Ret (r, (s', d')) →
           (∃ f1, frame_at (mkMachine s' d' (deadlines m)) tf = Ret f1) →
           ∃ m', trap tf m = Ret (tf, m') ∧
             logged (mkMachine s' (complete plic_base DEFAULT_CONTEXT_ID c d') (deadlines m)) m')) ∧
     (scause f = SoftwareInterrupt → trap tf m = Ret (tf, m)) ∧
     (scause f ≠ SoftwareInterrupt → scause f ≠ TimerInterrupt → scause f ≠ ExternalInterrupt → scause f ≠ SystemCall →
        trap tf m = Ret (tf, log_line m "Interrupts: No handler for interrupt {}, on address: {16}"
                               [ArgNumber (scause f); ArgNumber (sepc f)]))).
Proof.
  intros trap Hf. split.
  - intros Hk. unfold trap, handle_interrupt. rewrite Hf. cbn [obind]. rewrite Hk. split_and!.
    + by intros ->.
    + intros -> Hne. by rewrite (proj2 (Z.eqb_neq _ _) Hne).
    + intros -> c d Hl. change (is_fault ExternalInterrupt) with false. rewrite Z.eqb_refl.
      unfold handle_external_interrupt, next. rewrite Hl. split.
      * by intros ->.
      * intros Hc r s' d' Hd. rewrite (proj2 (Z.eqb_neq _ _) Hc), Hd. done.
  - intros Hk. split_and!.
    + intros Hc pre p post t fr Hn Hfuel.
      destruct (timer_trap m_frequency plic_base delegate fuel file m tf f pre p post t fr) as (m' & ? & ? & ? & _); try done. by exists m'.
    + intros Hc process tp p t id stats r s2 Htr Hid Hn Hst arg Hr. split.
      * intros Hne.
        destruct (answered_call m_frequency plic_base delegate fuel file m tf process tp p t f id stats r s2)
          as (m' & ? & ? & ? & ? & ? & ? & _); try done. by exists m'.
      * intros -> pre q post t' f' Hnext Hfuel Hne.
        destruct (waiting_call m_frequency plic_base delegate fuel file m tf process tp p t f id stats s2 pre q post t' f')
          as (m' & ? & ? & ? & ? & ? & _); try done. by exists m'.
    + intros Hc c d Hl. split.
      * intros ->. apply (quiet_trap _ _ _ _ _ _ _ _ f); [done..| |done]. rewrite Hc. unfold handle_external_interrupt, next. by rewrite Hl.
      * intros Hne r s' d' Hd [f1 Hf1]. apply (user_trap _ _ _ _ _ _ _ f); [done..| |by exists f1].
        rewrite Hc. unfold handle_external_interrupt, next. by rewrite Hl, (proj2 (Z.eqb_neq _ _) Hne), Hd.
    + intros Hc. apply (quiet_trap _ _ _ _ _ _ _ _ f); [done..| |done]. by rewrite Hc.
    + intros H1 H2 H3 H4. apply (quiet_trap _ _ _ _ _ _ _ _ f); [done..| |done].
      rewrite !(proj2 (Z.eqb_neq _ _)) by done. unfold unknown_interrupt. by rewrite Hf.
Qed.

(** ** Witness: two processes share the time, and the first one exits *)
Section Example_.
Definition user_frame (cause call : Z) : TrapFrame :=
  mkTrapFrame (<[SyscallId := call]> (replicate 32 0)) (replicate 32 0) 0x400 0 cause 0 0 0 0 101.

Definition pair (f : TrapFrame) : machine (W := Request.contexts) (D := registers) :=
  mkMachine
    (mkState
      (mkKernel {[101 := f; 102 := zero_frame]} {[1 := mkThread 101 0 1 Running; 2 := mkThread 102 0 2 Running]}
         {[50 := new_process 1 1 0x1000 ProcessRunning; 51 := new_process 2 2 0x1000 ProcessRunning]} [1; 2] [50; 51] 0 3
         (500, mkKernelFrame zero_frame 0 0 1))
      ∅ ∅ (Array.new 0 Count) []) ∅ [].

#[local] Instance pair_world : SyscallWorld Request.contexts := {
  kernel_memory w := ∅;
  vfs_open path flags w := Ret (fail_with "Not found", w);
  vfs_list_directory path w := Ret (Value [], w);
  inode_read d o a s w := Ret (fail_with "Not found", w);
  request_contexts w := w;
  set_request_contexts cs w := cs;
  page_statistics w := (4, 3, 1);
  heap_statistics w := (64, 32, 32);
  log_size w := 0;
  time_register w := 7
}.

Definition no_devices (id : Z) (s : state (W := Request.contexts)) (d : registers) :
    outcome (ErrorOr unit Error * (state (W := Request.contexts) * registers)) := Ret (Value tt, (s, d)).

(** The controller of the example gives out interrupt 3. *)
Definition pending (m : machine (W := Request.contexts) (D := registers)) : machine (W := Request.contexts) (D := registers) :=
  mkMachine (sys m) {[claim_address 0 DEFAULT_CONTEXT_ID := 3]} (deadlines m).

Lemma trap_handler_witness :
  (∃ m', handle_interrupt 10000000 0 no_devices 5 200 101 (pair (user_frame TimerInterrupt 0)) = Ret (102, m') ∧
     deadlines m' = [1000007]) ∧
  (∃ m' f', handle_interrupt 10000000 0 no_devices 5 200 101 (pair (user_frame SystemCall 5)) = Ret (101, m') ∧
     frames (kern (sys m')) !! 101 = Some f' ∧ sepc f' = 0x404) ∧
  (∃ m', handle_interrupt 10000000 0 no_devices 5 200 101 (pending (pair (user_frame ExternalInterrupt 0))) = Ret (101, m') ∧
     bus m' = complete 0 DEFAULT_CONTEXT_ID 3 {[claim_address 0 DEFAULT_CONTEXT_ID := 3]}).
Proof.
  split_and!.
  - pose proof (trap_handler 10000000 0 no_devices 5 200 (pair (user_frame TimerInterrupt 0)) 101 _ eq_refl) as [_ Hu].
    destruct (proj1 (Hu eq_refl) eq_refl [] 2 [1] (mkThread 102 0 2 Running) zero_frame) as (m' & H1 & _ & H2);
      [split_and!; try reflexivity; constructor|simpl; lia|]. exists m'. split; [exact H1|exact H2].
  - pose proof (trap_handler 10000000 0 no_devices 5 200 (pair (user_frame SystemCall 5)) 101 _ eq_refl) as [_ Hu].
    edestruct (proj1 (proj2 (Hu eq_refl)) eq_refl 50 1 (new_process 1 1 0x1000 ProcessRunning) (mkThread 101 0 1 Running) 5%nat) as [Ha _];
      [split_and!; try reflexivity; discriminate|lia|reflexivity|reflexivity|reflexivity|].
    destruct Ha as (m' & H1 & H2 & _); [discriminate|]. exists m'. eexists. split; [exact H1|]. split; [by rewrite H2|reflexivity].
  - pose proof (trap_handler 10000000 0 no_devices 5 200 (pending (pair (user_frame ExternalInterrupt 0))) 101 _ eq_refl) as [_ Hu].
    destruct (proj2 (proj1 (proj2 (proj2 (Hu eq_refl))) eq_refl 3 _ eq_refl) ltac:(discriminate) _ _ _ eq_refl) as (m' & H1 & H2);
      [eexists; reflexivity|]. exists m'. split; [exact H1|]. exact (logged_bus _ _ H2).
Defined.
End Example_.
