(* ===== verification/Keyboard.v ===== *)
(** From the key to the process: the composition of the trap handler
    ([Interrupts.v]), the interrupt controller ([Plic.v]), the device manager
    ([Devices.v]), the console with its UART ([Console.v]), the inodes of /dev
    ([Vfs.v]), the system call [read] ([Syscalls.v]) and the scheduler
    ([Processes.v]) on one machine: a kernel state whose world holds the devices,
    and a board with a UART and an interrupt controller. *)
From S2P Require Import Prelude Bits Machine Paging Bytes Strings Containers HashMap Files Vfs Processes Logger Mmio Plic Syscalls Devices Console Interrupts.

(** * The board: a UART on an interrupt controller

    The line of the UART is raised while it has received characters and its
    receive interrupt is enabled.  The controller hands the interrupt out once,
    when it is enabled and its priority is above the threshold of the context, and
    again only after it was completed. *)
Record board : Type := mkBoard {
  b_base : Z;                  (** of the controller *)
  b_line : Z;                  (** the interrupt of the UART *)
  b_uart : uart;
  b_plic : registers;
  in_service : bool;
  completed : list Z
}.

Definition with_uart (b : board) (u : uart) : board := mkBoard (b_base b) (b_line b) u (b_plic b) (in_service b) (completed b).
Definition with_plic (b : board) (r : registers) : board := mkBoard (b_base b) (b_line b) (b_uart b) r (in_service b) (completed b).
Definition claimed (b : board) : board := mkBoard (b_base b) (b_line b) (b_uart b) (b_plic b) true (completed b).
Definition done_with (b : board) (id : Z) : board :=
  mkBoard (b_base b) (b_line b) (b_uart b) (b_plic b) (in_service b && negb (id =? b_line b)) (completed b ++ [id]).

Definition raised (b : board) : bool := negb (bool_decide (rx (b_uart b) = [])) && Z.testbit (ier (b_uart b)) 0.

Definition deliverable (b : board) : bool :=
  enabled (b_base b) (b_plic b) DEFAULT_CONTEXT_ID (b_line b) &&
  (register (b_plic b) (threshold_address (b_base b) DEFAULT_CONTEXT_ID) <? register (b_plic b) (priority_address (b_base b) (b_line b))).

Definition claim_register (b : board) : Z := claim_address (b_base b) DEFAULT_CONTEXT_ID.
Definition of_uart (b : board) (a : Z) : bool := (Console.base (b_uart b) <=? a) && (a <? Console.base (b_uart b) + 8).

Definition board_load (width : nat) (a : Z) (b : board) : Z * board :=
  if a =? claim_register b then
    if raised b && deliverable b && negb (in_service b) then (b_line b, claimed b) else (0, b)
  else if of_uart b a then let '(v, u) := load width a (b_uart b) in (v, with_uart b u)
  else (register (b_plic b) a, b).

Definition board_store (width : nat) (a v : Z) (b : board) : board :=
  if a =? claim_register b then done_with b v
  else if of_uart b a then with_uart b (store width a v (b_uart b))
  else with_plic b (store width a v (b_plic b)).

#[export] Instance board_bus : Bus board := { load := board_load; store := board_store }.

Section Board.
Implicit Types (b : board).

(** The controller is not among the registers of the UART. *)
Definition apart b : Prop := of_uart b (claim_register b) = false.

Lemma board_load_uart b w k : apart b → 0 ≤ k < 8 →
  load w (Console.base (b_uart b) + k) b = ((load w (Console.base (b_uart b) + k) (b_uart b)).1, with_uart b (load w (Console.base (b_uart b) + k) (b_uart b)).2).
Proof.
  intros Ha Hk. cbn [load board_bus]. unfold board_load.
  assert (of_uart b (Console.base (b_uart b) + k) = true) as Hu.
  { unfold of_uart. apply andb_true_iff. split; [apply Z.leb_le|apply Z.ltb_lt]; lia. }
  rewrite (proj2 (Z.eqb_neq _ _)), Hu by (intros He; unfold apart in Ha; rewrite <- He in Ha; congruence).
  by destruct (load w _ (b_uart b)).
Qed.

Lemma board_store_uart b w v : apart b →
  store w (Console.base (b_uart b)) v b = with_uart b (store w (Console.base (b_uart b)) v (b_uart b)).
Proof.
  intros Ha. cbn [store board_bus]. unfold board_store.
  assert (of_uart b (Console.base (b_uart b)) = true) as Hu.
  { unfold of_uart. apply andb_true_iff. split; [apply Z.leb_le|apply Z.ltb_lt]; lia. }
  by rewrite (proj2 (Z.eqb_neq _ _)), Hu by (intros He; unfold apart in Ha; rewrite <- He in Ha; congruence).
Qed.

(** The driver on the board does what it does on the UART. *)
Lemma board_driver b i : apart b →
  driver_interrupt (Console.base (b_uart b)) i b =
    let '(i', u') := driver_interrupt (Console.base (b_uart b)) i (b_uart b) in (i', with_uart b u').
Proof.
  intros Ha. unfold driver_interrupt, read_char, uart_write. rewrite board_load_uart by (done || lia).
  destruct (load 1 (Console.base (b_uart b) + 5) (b_uart b)) as [status u1] eqn:E1. cbn [fst snd].
  assert (Console.base u1 = Console.base (b_uart b)) as Hb1.
  { cbn [load uart_bus] in E1. unfold uart_load in E1. rewrite Z.eqb_refl in E1. by injection E1 as _ <-. }
  destruct (Z.land status 1 =? 0); [done|].
  assert (apart (with_uart b u1)) as Ha1 by (unfold apart, of_uart, claim_register in *; cbn; by rewrite Hb1).
  pose proof (board_load_uart (with_uart b u1) 1 0 Ha1 ltac:(lia)) as Hl. cbn [b_uart with_uart] in Hl.
  rewrite Z.add_0_r, Hb1 in Hl. rewrite Hl. destruct (load 1 (Console.base (b_uart b)) u1) as [c u2] eqn:E2. cbn [fst snd].
  assert (Console.base u2 = Console.base (b_uart b)) as Hb2.
  { cbn [load uart_bus] in E2. unfold uart_load in E2. rewrite (proj2 (Z.eqb_neq _ _)) in E2 by lia. rewrite <- Hb1 in E2 at 1.
    rewrite Z.eqb_refl in E2. destruct (rx u1); injection E2 as _ <-; done. }
  assert (apart (with_uart (with_uart b u1) u2)) as Ha2 by (unfold apart, of_uart, claim_register in *; cbn; by rewrite Hb2).
  pose proof (board_store_uart (with_uart (with_uart b u1) u2) 1 line_feed Ha2) as Hs1.
  pose proof (board_store_uart (with_uart (with_uart b u1) u2) 1 c Ha2) as Hs2. cbn [b_uart with_uart] in Hs1, Hs2.
  rewrite Hb2 in Hs1, Hs2. destruct (c =? carriage_return); [rewrite Hs1|rewrite Hs2]; reflexivity.
Qed.

Lemma board_takes b i c cs : apart b → latch (b_uart b) = false → is_byte c → rx (b_uart b) = c :: cs →
  driver_interrupt (Console.base (b_uart b)) i b = (typed i c, with_uart b (sent (received (b_uart b) cs) [echo c])).
Proof. intros Ha Hl Hc Hrx. rewrite board_driver, (driver_takes _ i c cs) by done. done. Qed.

(** Claiming and completing. *)
Lemma board_claims b :
  rx (b_uart b) ≠ [] → Z.testbit (ier (b_uart b)) 0 = true → deliverable b = true → in_service b = false → b_line b ≠ 0 →
  next (b_base b) DEFAULT_CONTEXT_ID b = (Some (b_line b), claimed b).
Proof.
  intros Hr Hi Hd Hs Hz. unfold next. cbn [load board_bus]. unfold board_load, raised. fold (claim_register b).
  rewrite Z.eqb_refl, (bool_decide_false _ Hr), Hi, Hd, Hs. cbn. by rewrite (proj2 (Z.eqb_neq _ _) Hz).
Qed.

Lemma board_completes b id : complete (b_base b) DEFAULT_CONTEXT_ID id b = done_with b id.
Proof. unfold complete. cbn [store board_bus]. unfold board_store. fold (claim_register b). by rewrite Z.eqb_refl. Qed.
End Board.

(** * The world of the kernel

    The objects of the device manager, those of the console, and the open files
    of /dev. *)
Record io : Type := mkIo {
  io_devices : gmap Z Device;
  io_drivers : gmap Z driver;
  io_requests : gmap Z (list Z);
  io_list : list Z;                    (** [m_devices] of the [DeviceManager] *)
  io_fresh : positive
}.

Record kernel_world : Type := mkKernelWorld {
  kw_memory : memory;
  kw_contexts : Request.contexts;
  kw_io : io;
  kw_open : gmap Z Z;                  (** the inode of an [OpenFileDescriptor] *)
  kw_inodes : Ram.inodes;
  kw_pages : Z * Z * Z;
  kw_heap : Z * Z * Z;
  kw_log : Z;
  kw_time : Z
}.

Definition with_io (w : kernel_world) (cs : Request.contexts) (x : io) : kernel_world :=
  mkKernelWorld (kw_memory w) cs x (kw_open w) (kw_inodes w) (kw_pages w) (kw_heap w) (kw_log w) (kw_time w).
Definition with_kw_memory (w : kernel_world) (m : memory) : kernel_world :=
  mkKernelWorld m (kw_contexts w) (kw_io w) (kw_open w) (kw_inodes w) (kw_pages w) (kw_heap w) (kw_log w) (kw_time w).

(** The devices with the kernel and a bus, as [Console.v] has them. *)
Definition device_world {D} (k : kernel) (d : D) (w : kernel_world) : Console.world (D := D) :=
  mkWorld (io_devices (kw_io w)) (io_drivers (kw_io w)) (io_requests (kw_io w)) (kw_contexts w) k d (io_fresh (kw_io w)).

Definition put_devices {D} (x : Console.world (D := D)) (w : kernel_world) : kernel_world :=
  with_io w (w_contexts x) (mkIo (w_devices x) (w_drivers x) (w_requests x) (io_list (kw_io w)) (w_fresh x)).

(** [Utils::memcpy] to an address of the kernel. *)
Fixpoint write_bytes (m : memory) (a : Z) (l : bytes) : outcome memory :=
  match l with
  | [] => Ret m
  | c :: l' => let! m := write8 m a c in write_bytes m (u64 (a + 1)) l'
  end.

Definition no_kernel : kernel := mkKernel ∅ ∅ ∅ [] [] 0 0 (0, mkKernelFrame zero_frame 0 0 0).

(** [Inode::read]: [DevInode::read] of a device, the error of [RamInode::read] else.
    [ConsoleDevice::read_async] looks neither at the kernel nor at the bus. *)
Definition read_inode (descriptor offset a size : Z) (w : kernel_world) : outcome (ErrorOr (Request.t Z) Error * kernel_world) :=
  let! inode := defined (kw_open w !! descriptor) in
  let! n := defined (kw_inodes w !! inode) in
  match Ram.m_type n with
  | Ram.Device =>
      let! d := defined (io_devices (kw_io w) !! Ram.m_device n) in
      if bool_decide (m_device_type d = Console) then
        let! r := read_async (Ram.m_device n) (device_world no_kernel (∅ : registers) w) in
        let! x := Ram.dev_read (Some (Value r.1)) size in
        let w := put_devices r.2 w in
        let! m := write_bytes (kw_memory w) a x.2 in
        Ret (x.1, with_kw_memory w m)
      else
        let! x := Ram.dev_read None size in Ret (x.1, w)
  | _ => Ret (Ram.read, w)
  end.

Section World.
(** The other operations of the file system, and the interrupt of the block device. *)
Context (open_file : bytes → Z → kernel_world → outcome (ErrorOr Z Error * kernel_world)).
Context (list_files : bytes → kernel_world → outcome (ErrorOr (list bytes) Error * kernel_world)).
Context (block_interrupt : Z → Console.world (D := board) → outcome (ErrorOr unit Error * Console.world (D := board))).

#[local] Instance kernel_syscalls : SyscallWorld kernel_world := {
  kernel_memory := kw_memory;
  vfs_open := open_file;
  vfs_list_directory := list_files;
  inode_read := read_inode;
  request_contexts := kw_contexts;
  set_request_contexts cs w := with_io w cs (kw_io w);
  page_statistics := kw_pages;
  heap_statistics := kw_heap;
  log_size := kw_log;
  time_register := kw_time
}.

Abbreviation kstate := (state (W := kernel_world)).
Abbreviation kmachine := (machine (W := kernel_world) (D := board)).

(** [InterruptManager::delegate_device_interrupt]. *)
Definition delegate_to_devices (interrupt_id : Z) (s : kstate) (b : board) : outcome (ErrorOr unit Error * (kstate * board)) :=
  let! r := delegate_device_interrupt (H := world_virtuals block_interrupt) (io_list (kw_io (Syscalls.world s))) interrupt_id
              (device_world (kern s) b (Syscalls.world s)) in
  Ret (r.1, (mkState (w_kernel r.2) (put_devices r.2 (Syscalls.world s)) (files s) (m_statistics s) (calls s), w_bus r.2)).

(** * One key

    The console at [console] has its driver and is the first listed device with
    the interrupt of the UART, which can be delivered. *)
Record ready (plic_base : Z) (s : kstate) (b : board) (console driver : Z) (d : Device) (i : input) : Prop := {
  rd_console : console_at (device_world (kern s) b (Syscalls.world s)) console driver d i (Console.base (b_uart b));
  rd_type : m_device_type d = Console;
  rd_listed : ∃ pre post, io_list (kw_io (Syscalls.world s)) = pre ++ console :: post ∧ handles_interrupt d (b_line b) = true ∧
    Forall (λ q, ∃ x, io_devices (kw_io (Syscalls.world s)) !! q = Some x ∧ handles_interrupt x (b_line b) = false) pre;
  rd_board : b_base b = plic_base ∧ b_line b ≠ 0 ∧ apart b ∧ deliverable b = true ∧ in_service b = false;
  rd_uart : latch (b_uart b) = false ∧ Z.testbit (ier (b_uart b)) 0 = true;
  rd_table : table_ok (kern s);
  rd_waiting : no_lost_wakeup (device_world (kern s) b (Syscalls.world s)) console i
}.

(** The requests that wait at a console. *)
Definition waiting (s : kstate) (console : Z) : list Z := default [] (io_requests (kw_io (Syscalls.world s)) !! console).

(** Nothing but the states of threads, the input and the requests of consoles differs. *)
Record undisturbed (s s' : kstate) : Prop := {
  un_kern : kern s' = with_threads (kern s) (threads (kern s'));
  un_thread : ∀ pid tid, get_thread (kern s') pid tid = get_thread (kern s) pid tid;
  un_world : ∃ drivers requests, Syscalls.world s' = with_io (Syscalls.world s) (kw_contexts (Syscalls.world s))
    (mkIo (io_devices (kw_io (Syscalls.world s))) drivers requests (io_list (kw_io (Syscalls.world s))) (io_fresh (kw_io (Syscalls.world s))));
  un_files : files s' = files s;
  un_statistics : m_statistics s' = m_statistics s;
  un_calls : calls s' = calls s
}.

(** The threads after the key [c] was pressed, when the requests [rs] wait. *)
Definition woken_by (c : Z) (s s' : kstate) (console : Z) : Prop :=
  (c ≠ carriage_return → threads (kern s') = threads (kern s) ∧ waiting s' console = waiting s console) ∧
  (c = carriage_return → waiting s' console = [] ∧ ∀ p t, threads (kern s) !! p = Some t →
     let w := woken (kw_contexts (Syscalls.world s)) (kern s) (waiting s console) p in
     (w ∧ threads (kern s') !! p = Some (with_state t Running)) ∨ (¬ w ∧ threads (kern s') !! p = Some t)).

Lemma unblock_requests_threads cs l : ∀ k k', unblock_requests cs k l = Ret k' → k' = with_threads k (threads k').
Proof.
  induction l as [|r l IH]; intros k k' Hu; cbn [unblock_requests] in Hu; [injection Hu as <-; by destruct k|].
  apply obind_Ret in Hu as (k1 & H1 & H2). apply IH in H2. rewrite H2. unfold unblock_request, unblock, set_thread_state in H1.
  inv_outcome. destruct x0; inv_outcome; done.
Qed.

(** The board after the interrupt of a key. *)
Definition served (b : board) (u : uart) (n : nat) : board :=
  mkBoard (b_base b) (b_line b) u (b_plic b) false (completed b ++ replicate n (b_line b)).

Lemma press_delegates plic_base s b console driver d i c cs :
  ready plic_base s b console driver d i → rx (b_uart b) = c :: cs → is_byte c →
  ∃ s', delegate_to_devices (b_line b) s (claimed b) =
      Ret (Value tt, (s', with_uart (claimed b) (sent (received (b_uart b) cs) [echo c]))) ∧
    ready plic_base s' (served b (sent (received (b_uart b) cs) [echo c]) 1) console driver d (typed i c) ∧
    undisturbed s s' ∧ woken_by c s s' console.
Proof.
  intros [Hcon Hty (pre & post & Hlist & Hh & Hpre) (Hb & Hz & Hap & Hdel & Hsv) [Hla Hier] Htab [Hctx Hno]] Hrx Hc.
  unfold delegate_to_devices. rewrite Hlist.
  set (w := device_world (kern s) (claimed b) (Syscalls.world s)).
  assert (console_at w console driver d i (Console.base (b_uart b))) as Hw by (destruct Hcon; by constructor).
  rewrite (delegate_first (H := world_virtuals block_interrupt) w pre console d post) by (done || apply Hw).
  cbn [device_handle_interrupt world_virtuals]. unfold world_handle_interrupt. rewrite (at_device _ _ _ _ _ _ Hw). cbn [defined obind].
  rewrite Hty. pose proof (console_interrupt_spec w console driver d i _ (b_line b) Hw Htab Hctx) as Hint.
  change (w_bus w) with (claimed b) in Hint. change (b_uart b) with (b_uart (claimed b)) in Hint at 1.
  rewrite (board_takes (claimed b) i c cs) in Hint by done.
  destruct Hint as (w' & Hi & Hbus & Hdev & Hdrv & Hcx & Hfr & Hrq & Hk). rewrite Hi. cbn [obind fst snd]. rewrite Hbus.
  assert (undisturbed s (mkState (w_kernel w') (put_devices w' (Syscalls.world s)) (files s) (m_statistics s) (calls s))) as Hun.
  { constructor; try done; cbn [kern Syscalls.world].
    - destruct (line_available _); [by apply unblock_requests_threads in Hk|rewrite Hk; by destruct (kern s)].
    - intros pid tid. destruct (line_available _); [|by rewrite Hk].
      destruct (unblock_requests_spec (w_contexts w) (requests_of w console) (w_kernel w) Htab Hctx) as (k' & Hk' & _ & Hg & _).
      rewrite Hk' in Hk. injection Hk as <-. apply Hg.
    - exists (w_drivers w'), (w_requests w'). unfold put_devices. by rewrite Hcx, Hdev, Hfr. }
  assert (woken_by c s (mkState (w_kernel w') (put_devices w' (Syscalls.world s)) (files s) (m_statistics s) (calls s)) console) as Hwk.
  { rewrite typed_available in Hrq, Hk. split; cbn [kern Syscalls.world].
    - intros Hne. rewrite (proj2 (Z.eqb_neq _ _) Hne), orb_false_r in Hrq, Hk. unfold line_available in *.
      case_bool_decide as Hl; cbn [negb] in *; [by rewrite Hk|].
      assert (requests_of w console = []) as Hr.
      { destruct (decide (requests_of w console = [])) as [|Hr]; [done|]. by apply Hno in Hr. }
      rewrite Hr in Hk. injection Hk as Hk. rewrite <- Hk. split; [done|]. unfold waiting. cbn. unfold requests_of in Hrq, Hr. cbn in Hrq, Hr.
      by rewrite Hrq, Hr.
    - intros ->. rewrite orb_true_r in Hrq, Hk. split; [exact Hrq|]. intros p t Ht.
      destruct (unblock_requests_spec (w_contexts w) (requests_of w console) (w_kernel w) Htab Hctx) as (k' & Hk' & _ & _ & Hthreads).
      rewrite Hk' in Hk. injection Hk as <-. by apply Hthreads. }
  eexists. split; [reflexivity|]. split; [|by split].
  pose proof Hcon as [Hd Hdn Hin Hu]. constructor; cbn [kern Syscalls.world].
  - constructor; cbn; [by rewrite Hdev|done|by rewrite Hdrv, lookup_insert_eq|done].
  - done.
  - exists pre, post. cbn. rewrite Hdev. done.
  - done.
  - done.
  - destruct (line_available _); [|by rewrite Hk].
    destruct (unblock_requests_spec (w_contexts w) (requests_of w console) (w_kernel w) Htab Hctx) as (k' & Hk' & Hkt & _).
    rewrite Hk' in Hk. by injection Hk as <-.
  - split.
    + change (Forall (λ r, is_Some (w_contexts w' !! r)) (requests_of w' console)). rewrite Hrq, Hcx. by destruct (line_available _).
    + change (requests_of w' console ≠ [] → m_lines (typed i c) = []). rewrite Hrq. unfold line_available.
      case_bool_decide; [done|]. simpl. by intros ?.
Qed.

Section Traps.
Variables (m_frequency plic_base : Z) (fuel : nat) (file : Z).
Abbreviation trap := (handle_interrupt m_frequency plic_base delegate_to_devices fuel file).

(** The interrupt of a key, whatever was interrupted. *)
Lemma press (m : kmachine) tf f console driver d i c cs :
  ready plic_base (sys m) (bus m) console driver d i → frame_at m tf = Ret f → scause f = ExternalInterrupt →
  rx (b_uart (bus m)) = c :: cs → is_byte c →
  ∃ s', trap tf m = Ret (tf, mkMachine s' (served (bus m) (sent (received (b_uart (bus m)) cs) [echo c]) 1) (deadlines m)) ∧
    ready plic_base s' (served (bus m) (sent (received (b_uart (bus m)) cs) [echo c]) 1) console driver d (typed i c) ∧
    undisturbed (sys m) s' ∧ woken_by c (sys m) s' console.
Proof using Type.
  intros Hr Hf Hcause Hrx Hc. destruct (press_delegates plic_base _ _ console driver d i c cs Hr Hrx Hc) as (s' & Hd & Hr' & Hun & Hwk).
  exists s'. split; [|done]. destruct Hr as [_ _ _ (Hb & Hz & _ & Hdel & Hsv) [_ Hier] _ _].
  assert (handle_external_interrupt plic_base delegate_to_devices tf m =
    Ret (tf, mkMachine s' (served (bus m) (sent (received (b_uart (bus m)) cs) [echo c]) 1) (deadlines m))) as Hh.
  { unfold handle_external_interrupt. rewrite <- Hb, board_claims by (done || by rewrite Hrx). rewrite Hd. cbn [obind fst snd].
    set (b1 := with_uart (claimed (bus m)) _). change (b_base (bus m)) with (b_base b1). rewrite board_completes.
    unfold done_with, served. cbn. by rewrite Z.eqb_refl. }
  unfold handle_interrupt. rewrite Hf. cbn [obind]. rewrite Hcause. change (is_fault ExternalInterrupt) with false. rewrite Z.eqb_refl.
  destruct (is_kernel_trap f); [done|]. change (ExternalInterrupt =? SoftwareInterrupt) with false.
  change (ExternalInterrupt =? TimerInterrupt) with false. cbn iota. rewrite Hh. cbn [obind fst snd sys].
  destruct Hun as [_ _ (drs & rqs & Hw) _ _ _]. unfold used_size. rewrite Hw. cbn. by rewrite !Z.sub_diag.
Qed.

(** ** A line of keys

    The frames with which the trap entry enters the kernel, one after the other. *)
Fixpoint run_traps (tf : Z) (entries : list TrapFrame) (m : kmachine) : outcome kmachine :=
  match entries with
  | [] => Ret m
  | f :: entries' => let! r := trap tf (write_frame m tf f) in run_traps r.1 entries' r.2
  end.

(** Of the frames, at most the one at [tf] differs. *)
Record undisturbed_but (tf : Z) (s s' : kstate) : Prop := {
  ub_kern : ∃ fr, (∀ a, a ≠ tf → fr !! a = frames (kern s) !! a) ∧ (is_Some (frames (kern s) !! tf) → is_Some (fr !! tf)) ∧
    kern s' = with_frames (with_threads (kern s) (threads (kern s'))) fr;
  ub_thread : ∀ pid tid, get_thread (kern s') pid tid = get_thread (kern s) pid tid;
  ub_world : ∃ drivers requests, Syscalls.world s' = with_io (Syscalls.world s) (kw_contexts (Syscalls.world s))
    (mkIo (io_devices (kw_io (Syscalls.world s))) drivers requests (io_list (kw_io (Syscalls.world s))) (io_fresh (kw_io (Syscalls.world s))));
  ub_files : files s' = files s;
  ub_statistics : m_statistics s' = m_statistics s
}.

Lemma undisturbed_but_refl tf s : undisturbed_but tf s s.
Proof using Type.
  constructor; try done.
  - exists (frames (kern s)). split; [done|]. split; [done|]. by destruct (kern s).
  - exists (io_drivers (kw_io (Syscalls.world s))), (io_requests (kw_io (Syscalls.world s))).
    destruct s as [k w fl st cl]. by destruct w as [me cs [] op ino pa he lo ti].
Qed.

Lemma undisturbed_but_trans tf s1 s2 s3 : undisturbed_but tf s1 s2 → undisturbed_but tf s2 s3 → undisturbed_but tf s1 s3.
Proof using Type.
  intros [(f1 & Hf1 & Hs1 & Hk1) Ht1 (d1 & r1 & Hw1) Hfl1 Hst1] [(f2 & Hf2 & Hs2 & Hk2) Ht2 (d2 & r2 & Hw2) Hfl2 Hst2].
  constructor; [|by intros; rewrite Ht2, Ht1| |congruence..].
  - exists f2. split; [|split].
    + intros a Ha. rewrite Hf2, Hk1 by done. cbn. by apply Hf1.
    + intros Hs. apply Hs2. rewrite Hk1. by apply Hs1.
    + rewrite Hk2 at 1. by rewrite Hk1.
  - exists d2, r2. by rewrite Hw2, Hw1.
Qed.

(** The trap entry fills the frame of the running thread. *)
Lemma entered_frame (m : kmachine) tf f : tf ≠ (kernel_frame (kern (sys m))).1 →
  frame_at (write_frame m tf f) tf = Ret f ∧ undisturbed_but tf (sys m) (sys (write_frame m tf f)) ∧
  kern (sys (write_frame m tf f)) = with_frames (kern (sys m)) (<[tf := f]> (frames (kern (sys m)))) ∧
  Syscalls.world (sys (write_frame m tf f)) = Syscalls.world (sys m) ∧
  bus (write_frame m tf f) = bus m ∧ deadlines (write_frame m tf f) = deadlines m.
Proof using Type.
  intros Hne. unfold frame_at, write_frame. rewrite (proj2 (Z.eqb_neq _ _) Hne). cbn.
  rewrite (proj2 (Z.eqb_neq _ _) Hne), lookup_insert_eq. split; [done|]. split; [|done].
  constructor; cbn; try done.
  - exists (<[tf := f]> (frames (kern (sys m)))). split; [intros a Ha; by rewrite lookup_insert_ne|].
    split; [rewrite lookup_insert_eq; by eexists|]. by destruct (kern (sys m)).
  - destruct (undisturbed_but_refl tf (sys m)) as [_ _ Hw _ _]. exact Hw.
Qed.

Lemma undisturbed_weaken tf s s' : undisturbed s s' → undisturbed_but tf s s'.
Proof using Type.
  intros [Hk Ht Hw Hf Hs _]. constructor; try done. exists (frames (kern s)). split; [done|]. split; [done|].
  rewrite Hk at 1. by destruct (kern s).
Qed.

Lemma ready_moved s s' b console driver d i :
  ready plic_base s b console driver d i → table_ok (kern s') → Syscalls.world s' = Syscalls.world s →
  ready plic_base s' b console driver d i.
Proof using Type. intros [[] Hty Hl Hb Hu Ht Hw] Hk Hw'. by constructor; rewrite ?Hw'. Qed.

(** What keys do to the threads, by what was typed. *)
Definition woken_after (cs : bytes) (s s' : kstate) (console : Z) : Prop :=
  (carriage_return ∉ cs → threads (kern s') = threads (kern s) ∧ waiting s' console = waiting s console) ∧
  (carriage_return ∈ cs → waiting s' console = [] ∧ ∀ p t, threads (kern s) !! p = Some t →
     let w := woken (kw_contexts (Syscalls.world s)) (kern s) (waiting s console) p in
     (w ∧ threads (kern s') !! p = Some (with_state t Running)) ∨ (¬ w ∧ threads (kern s') !! p = Some t)).

Lemma woken_nobody cs k p : ¬ woken cs k [] p.
Proof. intros (r & c & Hr & _). by apply not_elem_of_nil in Hr. Qed.

Lemma woken_after_cons c cs s s1 s2 console :
  undisturbed s s1 → woken_by c s s1 console → woken_after cs s1 s2 console → woken_after (c :: cs) s s2 console.
Proof using Type.
  intros [Hk _ (drs & rqs & Hw) _ _ _] [Hno Hyes] [Hno' Hyes'].
  assert (kw_contexts (Syscalls.world s1) = kw_contexts (Syscalls.world s)) as Hcx by by rewrite Hw. rewrite Hcx in *.
  destruct (decide (c = carriage_return)) as [->|Hne].
  - split; [intros Hin; by destruct Hin; left|]. intros _. destruct (Hyes eq_refl) as [Hw1 Ht1]. rewrite Hw1 in *.
    destruct (decide (carriage_return ∈ cs)) as [Hin|Hin].
    + destruct (Hyes' Hin) as [Hw2 Ht2]. split; [done|]. intros p t Ht. destruct (Ht1 p t Ht) as [[Hy H1]|[Hn H1]].
      * left. split; [done|]. destruct (Ht2 p _ H1) as [[Hx _]|[_ H2]]; [by apply woken_nobody in Hx|done].
      * right. split; [done|]. destruct (Ht2 p _ H1) as [[Hx _]|[_ H2]]; [by apply woken_nobody in Hx|done].
    + destruct (Hno' Hin) as [-> ->]. split; done.
  - destruct (Hno Hne) as [Ht1 Hw1]. rewrite Ht1, Hw1 in *.
    assert (kern s1 = kern s) as Hk1 by (rewrite Hk; by destruct (kern s)). rewrite Hk1 in *. split.
    + intros Hin. apply Hno'. intros ?. apply Hin. by right.
    + intros Hin. apply Hyes'. by apply elem_of_cons in Hin as [Heq|].
Qed.

Lemma served_cons b c cs rest (u1 := sent (received (b_uart b) (cs ++ rest)) [echo c]) :
  served (served b u1 1) (sent (received (b_uart (served b u1 1)) rest) (echo <$> cs)) (length cs) =
    served b (sent (received (b_uart b) rest) (echo <$> c :: cs)) (length (c :: cs)).
Proof using Type. unfold served, sent, received, u1. cbn. by rewrite <- !app_assoc. Qed.

Lemma presses tf console driver d rest cs : ∀ entries (m : kmachine) i,
  length entries = length cs → Forall (λ f, scause f = ExternalInterrupt) entries → Forall is_byte cs →
  rx (b_uart (bus m)) = cs ++ rest → tf ≠ (kernel_frame (kern (sys m))).1 →
  ready plic_base (sys m) (bus m) console driver d i →
  ∃ s', run_traps tf entries m =
      Ret (mkMachine s' (served (bus m) (sent (received (b_uart (bus m)) rest) (echo <$> cs)) (length cs)) (deadlines m)) ∧
    ready plic_base s' (served (bus m) (sent (received (b_uart (bus m)) rest) (echo <$> cs)) (length cs)) console driver d (foldl typed i cs) ∧
    undisturbed_but tf (sys m) s' ∧ woken_after cs (sys m) s' console.
Proof using Type.
  induction cs as [|c cs IH]; intros [|f entries] m i Hlen Hcause Hcs Hrx Hne Hr; try discriminate.
  - assert (served (bus m) (sent (received (b_uart (bus m)) rest) (echo <$> [])) (length (@nil Z)) = bus m) as Hb.
    { pose proof (rd_board _ _ _ _ _ _ _ Hr) as (_ & _ & _ & _ & Hsv). unfold served, sent, received. cbn in *.
      rewrite !app_nil_r, <- Hrx. destruct (bus m) as [pb pl u pr sv co]; cbn in *. by destruct u; cbn in *; subst. }
    exists (sys m). rewrite Hb. cbn. split; [by destruct m|]. split; [done|]. split; [apply undisturbed_but_refl|].
    split; [done|]. intros Hin. by apply not_elem_of_nil in Hin.
  - apply Forall_cons in Hcause as [Hf Hcause]. apply Forall_cons in Hcs as [Hc Hcs].
    destruct (entered_frame m tf f Hne) as (Hfr & Hun0 & Hk0 & Hw0 & Hb0 & Hd0). set (m0 := write_frame m tf f) in *.
    assert (ready plic_base (sys m0) (bus m0) console driver d i) as Hr0 by (rewrite Hb0; eapply ready_moved; [exact Hr|rewrite Hk0; exact (rd_table _ _ _ _ _ _ _ Hr)|done]).
    destruct (press m0 tf f console driver d i c (cs ++ rest) Hr0 Hfr Hf) as (s1 & Htrap & Hr1 & Hun1 & Hwk); [by rewrite Hb0|done|].
    cbn [run_traps]. fold m0. rewrite Htrap. cbn [obind fst snd]. rewrite Hb0, Hd0 in *.
    destruct (IH entries (mkMachine s1 (served (bus m) (sent (received (b_uart (bus m)) (cs ++ rest)) [echo c]) 1) (deadlines m)) (typed i c))
      as (s' & Hrun & Hr' & Hun' & Hwk'); [by injection Hlen|exact Hcause|exact Hcs|reflexivity| |exact Hr1|].
    { cbn. destruct Hun1 as [Hk1 _ _ _ _ _]. by rewrite Hk1, Hk0. }
    cbn [bus deadlines sys] in *. rewrite served_cons in Hrun, Hr'. exists s'. split; [exact Hrun|]. split; [exact Hr'|]. split.
    + eapply undisturbed_but_trans; [exact Hun0|]. eapply undisturbed_but_trans; [by apply undisturbed_weaken|exact Hun'].
    + pose proof (woken_after_cons c cs (sys m0) s1 s' console Hun1 Hwk Hwk') as [Ha Hb]. unfold waiting in *. rewrite Hk0, Hw0 in *.
      split; [exact Ha|exact Hb].
Qed.

(** * The system call [read] on the console

    What the thread [t] at [tp] asks for in its frame [f]: to read from an open
    file of /dev whose device is the console. *)
Definition arg (f : TrapFrame) (i : nat) : Z := default 0 (arguments f !! i).

Record reading (m : kmachine) (tf process tp : Z) (p : Process) (t : Thread) (f : TrapFrame) (descriptors : list Z)
    (k : nat) (number : Z) (F : File.t) (inode : Z) (n : Ram.RamInode) (a : Z) (counters : list Z) : Prop := {
  re_trapped : trapped m tf process tp p t f;
  re_call : is_kernel_trap f = false ∧ scause f = SystemCall ∧ call_number f = 3;
  re_table : FileDescriptorTable.holds (m_fd_table p) descriptors ∧ int_index (arg f 0) = Z.of_nat k ∧ descriptors !! k = Some number;
  re_file : files (sys m) !! number = Some F ∧ kw_open (Syscalls.world (sys m)) !! File.m_open_file_descriptor F = Some inode;
  re_inode : kw_inodes (Syscalls.world (sys m)) !! inode = Some n ∧ Ram.m_type n = Ram.Device;
  re_buffer : translate (kw_memory (Syscalls.world (sys m))) (m_page_table p) (arg f 1) = Ret (Value a);
  re_thread : table_ok (kern (sys m)) ∧ tp ≠ 0 ∧ get_thread (kern (sys m)) (p_pid p) (m_tid t) = Ret (Value tp);
  re_counts : counts (m_statistics (sys m)) counters ∧ length counters = 10%nat
}.

(** The world when the reader sleeps: its request is on the list of the console. *)
Definition slept (w : kernel_world) (console pid tid : Z) : kernel_world :=
  let x := kw_io w in
  with_io w (<[Zpos (io_fresh x) := Request.mkContext pid tid]> (kw_contexts w))
    (mkIo (io_devices x) (io_drivers x)
       (<[console := default [] (io_requests x !! console) ++ [Zpos (io_fresh x)]]> (io_requests x)) (io_list x) (Pos.succ (io_fresh x))).

(** The world when the reader has got the line [l], and [m] is the memory. *)
Definition answered_line (w : kernel_world) (console driver : Z) (i : input) (m : memory) : kernel_world :=
  let x := kw_io w in
  with_kw_memory (with_io w (kw_contexts w)
    (mkIo (io_devices x) (<[driver := NS16550ADriver console i]> (io_drivers x)) (io_requests x) (io_list x) (io_fresh x))) m.

Section ReadInode.
Variables (w : kernel_world) (console driver : Z) (d : Device) (i : input) (address : Z) (b : board) (k : kernel).
Hypothesis Hconsole : console_at (device_world k b w) console driver d i address.
Hypothesis Htype : m_device_type d = Console.
Variables (descriptor inode : Z) (n : Ram.RamInode).
Hypothesis Hopen : kw_open w !! descriptor = Some inode.
Hypothesis Hinode : kw_inodes w !! inode = Some n.
Hypothesis Hdevice : Ram.m_type n = Ram.Device.
Hypothesis Hn : Ram.m_device n = console.

Lemma console_elsewhere {D} (k' : kernel) (d' : D) : console_at (device_world k' d' w) console driver d i address.
Proof using Hconsole. destruct Hconsole. by constructor. Qed.

Lemma read_inode_waits offset a size :
  m_lines i = [] →
  read_inode descriptor offset a size w =
    Ret (Value (Request.mk Optional.empty (Zpos (io_fresh (kw_io w))) Request.Blocked), slept w console 0 0).
Proof using All.
  intros Hl. unfold read_inode. rewrite Hopen. cbn [defined obind]. rewrite Hinode. cbn [defined obind]. rewrite Hdevice, Hn.
  pose proof (at_device _ _ _ _ _ _ Hconsole) as Hd. cbn in Hd. rewrite Hd. cbn [defined obind]. rewrite (bool_decide_true _ Htype).
  rewrite (read_async_waits _ console driver d i address (console_elsewhere _ _) Hl). reflexivity.
Qed.

Lemma read_inode_line offset a size l ls m :
  m_lines i = l :: ls →
  write_bytes (kw_memory w) a (take (Z.to_nat (Z.min size (Z.of_nat (length l) + 1))) (l ++ [0])) = Ret m →
  read_inode descriptor offset a size w =
    Ret (Value (Request.create_finalized (Z.min size (Z.of_nat (length l) + 1))),
         answered_line w console driver (mkInput (m_buffer i) ls) m).
Proof using All.
  intros Hl Hm. unfold read_inode. rewrite Hopen. cbn [defined obind]. rewrite Hinode. cbn [defined obind]. rewrite Hdevice, Hn.
  pose proof (at_device _ _ _ _ _ _ Hconsole) as Hd. cbn in Hd. rewrite Hd. cbn [defined obind]. rewrite (bool_decide_true _ Htype).
  rewrite (read_async_line _ console driver d i address l ls (console_elsewhere _ _) Hl). cbn [obind fst snd].
  unfold Ram.dev_read. change (Request.is_blocked (Request.create_finalized l)) with false.
  change (Request.release_value (Request.create_finalized l)) with (Ret l). cbn [obind fst snd].
  change (kw_memory (put_devices _ w)) with (kw_memory w). rewrite Hm. reflexivity.
Qed.
End ReadInode.

Section Reader.
Variables (m : kmachine) (tf process tp : Z) (p : Process) (t : Thread) (f : TrapFrame) (descriptors : list Z).
Variables (k : nat) (number : Z) (F : File.t) (inode : Z) (n : Ram.RamInode) (a : Z) (counters : list Z).
Hypothesis Hreading : reading m tf process tp p t f descriptors k number F inode n a counters.
Variables (console driver : Z) (d : Device) (i : input).
Hypothesis Hready : ready plic_base (sys m) (bus m) console driver d i.
Hypothesis Hn : Ram.m_device n = console.

Let w : kernel_world := Syscalls.world (sys m).

(** The call up to the answer of the inode. *)
Lemma read_call_reaches stats answer F' w' (s := entered (sys m) p 3 stats (arguments f)) :
  File.read (λ offset w, read_inode (File.m_open_file_descriptor F) offset a (arg f 2) w) F w = Ret (answer, F', w') →
  call_handler fuel file s process 3 (arg f 0) (arg f 1) (arg f 2) =
    let s := with_files (with_world s w') (<[number := F']> (files s)) in
    match answer with
    | Failure e =>
        Ret (Failure SysFailed,
             add_call s (Logln (characters "Syscalls::handle_read: Read operation failed: {}") [ArgString (characters (m_message e))]))
    | Value request =>
          if Request.is_blocked request then
             let! cs := Request.assign (kw_contexts (Syscalls.world s)) request (p_pid p) (m_tid t) in
             let! k := block (kern s) (p_pid p) (m_tid t) in
             Ret (Failure SysBlocked, with_kern (with_world s (with_io (Syscalls.world s) cs (kw_io (Syscalls.world s)))) k)
           else
             let! n := Request.release_value request in Ret (Value n, s)
    end.
Proof using Hreading.
  intros Hread. destruct Hreading as [(_ & Hp & Htp & Ht & _) _ (Hl & Hk & Hnum) [Hf _] _ Ha [_ [Hz _]] _].
  change (call_handler fuel file s process 3 (arg f 0) (arg f 1) (arg f 2)) with (handle_read s process (arg f 0) (arg f 1) (arg f 2)).
  rewrite (read_reaches (H := kernel_syscalls) s process p descriptors (arg f 0) (arg f 1) (arg f 2) k number a F answer F' w' Hp Hl Hk Hnum Ha Hf Hread).
  cbv zeta. destruct answer as [request|e]; [|reflexivity]. change (kern (with_files _ _)) with (kern (sys m)) at 1. rewrite Htp.
  cbn [obind]. rewrite (proj2 (Z.eqb_neq _ _) Hz). cbn [negb runtime_assert]. destruct (Request.is_blocked request); [|reflexivity].
  unfold thread_at. change (kern (with_files _ _)) with (kern (sys m)) at 1. by rewrite Ht.
Qed.

Lemma increment_ok : ∃ stats counters', increment (m_statistics (sys m)) 3 = Ret stats ∧ counts stats counters' ∧ length counters' = 10%nat.
Proof using Hreading.
  destruct Hreading as [_ _ _ _ _ _ _ [Hc Hl]]. destruct (counters !! 3%nat) as [x|] eqn:Hx; [|apply lookup_ge_None in Hx; lia].
  destruct (increment_counts _ _ 3 x Hc Hx) as (stats & Hs & Hc'). exists stats, (<[3%nat := u64 (x + 1)]> counters).
  split; [exact Hs|]. split; [exact Hc'|]. by rewrite length_insert.
Qed.

(** Without a line the reader goes to sleep and another thread goes on. *)
Lemma read_sleeps pre q post t' f' :
  m_lines i = [] →
  next_is (with_threads (kern (sys m)) (<[tp := with_state t Blocked]> (threads (kern (sys m))))) pre q post t' f' →
  (length pre < fuel)%nat → m_trap_frame t' ≠ tf →
  ∃ m' counters', trap tf m = Ret (m_trap_frame t', m') ∧
    kern (sys m') = switched (with_threads (kern (sys m)) (<[tp := with_state t Blocked]> (threads (kern (sys m))))) (q :: post ++ pre) t' f' ∧
    Syscalls.world (sys m') = slept w console (p_pid p) (m_tid t) ∧ files (sys m') = files (sys m) ∧
    counts (m_statistics (sys m')) counters' ∧ length counters' = 10%nat ∧ bus m' = bus m ∧ deadlines m' = deadlines m.
Proof using Hreading Hready Hn.
  intros Hl Hnext Hfuel Hne. destruct increment_ok as (stats & counters' & Hst & Hc' & Hlen).
  pose proof Hreading as [Htr (Hkt & Hcause & Hcall) _ [Hf Hopen] [Hin Hty] _ (Htab & Hz & Hg) _].
  destruct (set_thread_state_found _ _ _ _ Blocked Htab Hg) as (t0 & Ht0 & _ & Hb).
  assert (t0 = t) as -> by (destruct Htr as (_ & _ & _ & Ht & _); congruence).
  destruct (waiting_call m_frequency plic_base delegate_to_devices fuel file m tf process tp p t f 3%nat stats
    (with_kern (with_world (with_files (with_world (entered (sys m) p 3 stats (arguments f)) (slept w console 0 0))
       (<[number := F]> (files (sys m)))) (slept w console (p_pid p) (m_tid t)))
       (with_threads (kern (sys m)) (<[tp := with_state t Blocked]> (threads (kern (sys m))))))
    pre q post t' f' Htr Hkt Hcause ltac:(lia) Hcall Hst) as (m' & Htrap & _ & _ & _ & Hd & _ & Hk & Hw & Hfl & Hs & Hbus); [|exact Hnext|exact Hfuel|exact Hne|].
  - change (call_handler fuel file (entered (sys m) p 3 stats (arguments f)) process 3 (arg f 0) (arg f 1) (arg f 2) = Ret (Failure SysBlocked,
     with_kern (with_world (with_files (with_world (entered (sys m) p 3 stats (arguments f)) (slept w console 0 0))
       (<[number := F]> (files (sys m)))) (slept w console (p_pid p) (m_tid t)))
       (with_threads (kern (sys m)) (<[tp := with_state t Blocked]> (threads (kern (sys m))))))).
    rewrite (read_call_reaches stats (Value (Request.mk Optional.empty (Zpos (io_fresh (kw_io w))) Request.Blocked)) F (slept w console 0 0)).
    + cbv zeta. change (Request.is_blocked _) with true. cbn [runtime_assert]. unfold Request.assign. cbn [Request.m_context Z.eqb].
      change (kw_contexts (Syscalls.world (with_files _ _))) with (<[Zpos (io_fresh (kw_io w)) := Request.mkContext 0 0]> (kw_contexts w)).
      rewrite lookup_insert_eq. cbn [defined obind]. change (Request.assign_context (Request.mkContext 0 0) (p_pid p) (m_tid t)) with (Request.mkContext (p_pid p) (m_tid t)).
      rewrite insert_insert_eq. change (kern (with_files _ _)) with (kern (sys m)). unfold block. rewrite Hb. reflexivity.
    + unfold File.read. rewrite (read_inode_waits w console driver d i _ (bus m) (kern (sys m)) (rd_console _ _ _ _ _ _ _ Hready)
        (rd_type _ _ _ _ _ _ _ Hready) _ inode n Hopen Hin Hty Hn) by done. reflexivity.
  - exists m', counters'. split; [exact Htrap|]. split; [exact Hk|]. split; [exact Hw|]. split; [|by rewrite Hs].
    rewrite Hfl. cbn. by rewrite insert_id.
Qed.

(** With a line it gets the line and goes on behind the call. *)
Lemma read_gets l ls mem :
  m_lines i = l :: ls →
  let got := Z.min (arg f 2) (Z.of_nat (length l) + 1) in
  write_bytes (kw_memory w) a (take (Z.to_nat got) (l ++ [0])) = Ret mem →
  ∃ m', trap tf m = Ret (tf, m') ∧
    frames (kern (sys m')) = <[tf := with_sepc (with_regs f (<[GP0 := u64 got]> (regs f))) (u64 (sepc f + 4))]> (frames (kern (sys m))) ∧
    threads (kern (sys m')) = threads (kern (sys m)) ∧ m_run_queue (kern (sys m')) = m_run_queue (kern (sys m)) ∧
    Syscalls.world (sys m') = answered_line w console driver (mkInput (m_buffer i) ls) mem ∧
    files (sys m') = <[number := File.mk (File.m_open_file_descriptor F) (u64 (File.m_offset F + got)) (File.m_mode F)]> (files (sys m)) ∧
    bus m' = bus m ∧ deadlines m' = deadlines m.
Proof using Hreading Hready Hn.
  intros Hl got Hmem. destruct increment_ok as (stats & counters' & Hst & Hc' & Hlen).
  pose proof Hreading as [Htr (Hkt & Hcause & Hcall) _ [Hf Hopen] [Hin Hty] _ (Htab & Hz & Hg) _].
  destruct (answered_call m_frequency plic_base delegate_to_devices fuel file m tf process tp p t f 3%nat stats (Value got)
    (with_files (with_world (entered (sys m) p 3 stats (arguments f)) (answered_line w console driver (mkInput (m_buffer i) ls) mem))
       (<[number := File.mk (File.m_open_file_descriptor F) (u64 (File.m_offset F + got)) (File.m_mode F)]> (files (sys m))))
    Htr Hkt Hcause ltac:(lia) Hcall Hst) as (m' & Htrap & Hfr & Hth & Hq & Hw & Hd & Hk & Hfl & Hs & Hbus); [|done|].
  - change (call_handler fuel file (entered (sys m) p 3 stats (arguments f)) process 3 (arg f 0) (arg f 1) (arg f 2) = Ret (Value got,
      with_files (with_world (entered (sys m) p 3 stats (arguments f)) (answered_line w console driver (mkInput (m_buffer i) ls) mem))
       (<[number := File.mk (File.m_open_file_descriptor F) (u64 (File.m_offset F + got)) (File.m_mode F)]> (files (sys m))))).
    rewrite (read_call_reaches stats (Value (Request.create_finalized got))
      (File.mk (File.m_open_file_descriptor F) (u64 (File.m_offset F + got)) (File.m_mode F)) (answered_line w console driver (mkInput (m_buffer i) ls) mem)).
    + reflexivity.
    + unfold File.read. rewrite (read_inode_line w console driver d i _ (bus m) (kern (sys m)) (rd_console _ _ _ _ _ _ _ Hready)
        (rd_type _ _ _ _ _ _ _ Hready) _ inode n Hopen Hin Hty Hn (File.m_offset F) a (arg f 2) l ls mem Hl Hmem). reflexivity.
  - exists m'. split; [exact Htrap|]. split; [exact Hfr|]. split; [rewrite Hth; reflexivity|]. split; [exact Hq|].
    split; [rewrite Hw; reflexivity|]. split; [rewrite Hfl; reflexivity|]. split; [exact Hbus|exact Hd].
Qed.
End Reader.

(** * From the call to the line *)

(** The keys [cs] are pressed. *)
Definition keys (cs : bytes) (m : kmachine) : kmachine :=
  mkMachine (sys m) (with_uart (bus m) (received (b_uart (bus m)) cs)) (deadlines m).

Lemma typed_line l i : carriage_return ∉ l → m_lines i = [] →
  foldl typed i (l ++ [carriage_return]) = mkInput [] [m_buffer i ++ l].
Proof using Type.
  intros Hl Hi. rewrite foldl_app. cbn [foldl]. unfold typed at 1. rewrite Z.eqb_refl.
  enough (foldl typed i l = mkInput (m_buffer i ++ l) (m_lines i)) as -> by by rewrite Hi. clear Hi. revert i.
  induction l as [|c l IH]; intros i; cbn [foldl]; [rewrite app_nil_r; by destruct i|].
  apply not_elem_of_cons in Hl as [Hc Hl]. rewrite IH by done. unfold typed. rewrite (proj2 (Z.eqb_neq _ _)) by done.
  cbn. by rewrite <- app_assoc.
Qed.

(** The console when the reader sleeps and keys were pressed. *)
Lemma ready_asleep (m m1 : kmachine) console driver d i pid tid cs :
  ready plic_base (sys m) (bus m) console driver d i → m_lines i = [] →
  kw_contexts (Syscalls.world (sys m)) !! Zpos (io_fresh (kw_io (Syscalls.world (sys m)))) = None →
  table_ok (kern (sys m1)) → Syscalls.world (sys m1) = slept (Syscalls.world (sys m)) console pid tid → bus m1 = bus m →
  ready plic_base (sys (keys cs m1)) (bus (keys cs m1)) console driver d i.
Proof using Type.
  intros [Hcon Hty Hl Hb Hu _ [Hctx Hno]] Hlines Hfresh Htab Hw Hbus. unfold keys. cbn [sys bus]. rewrite Hbus.
  constructor; rewrite ?Hw; try done.
  - destruct Hcon. by constructor.
  - split; [|done]. unfold requests_of. cbn. rewrite lookup_insert_eq. cbn.
    apply Forall_app. split; [|apply Forall_singleton; rewrite lookup_insert_eq; by eexists].
    eapply Forall_impl; [exact Hctx|]. intros r [x Hx]. cbn in *. rewrite lookup_insert_ne by congruence. by eexists.
Qed.

(** The board when the keys [cs] were typed, served and echoed. *)
Definition typed_out (b : board) (cs : bytes) : board := served b (sent (received (b_uart b) []) (echo <$> cs)) (length cs).

Lemma reader_wakes (m m1 : kmachine) tf' tp t p console driver d i l entries qs t' f' :
  ready plic_base (sys m) (bus m) console driver d i → m_lines i = [] → waiting (sys m) console = [] →
  kw_contexts (Syscalls.world (sys m)) !! Zpos (io_fresh (kw_io (Syscalls.world (sys m)))) = None →
  table_ok (kern (sys m)) → get_thread (kern (sys m)) (p_pid p) (m_tid t) = Ret (Value tp) → threads (kern (sys m)) !! tp = Some t →
  kern (sys m1) = switched (with_threads (kern (sys m)) (<[tp := with_state t Blocked]> (threads (kern (sys m))))) qs t' f' →
  Syscalls.world (sys m1) = slept (Syscalls.world (sys m)) console (p_pid p) (m_tid t) → bus m1 = bus m →
  tf' ≠ (kernel_frame (kern (sys m))).1 → Forall is_byte l → carriage_return ∉ l →
  length entries = S (length l) → Forall (λ f, scause f = ExternalInterrupt) entries →
  ∃ s2, run_traps tf' entries (keys (l ++ [carriage_return]) m1) = Ret (mkMachine s2 (typed_out (bus m) (l ++ [carriage_return])) (deadlines m1)) ∧
    ready plic_base s2 (typed_out (bus m) (l ++ [carriage_return])) console driver d (mkInput [] [m_buffer i ++ l]) ∧
    undisturbed_but tf' (sys m1) s2 ∧ threads (kern s2) !! tp = Some (with_state t Running) ∧
    (∀ x y, x ≠ tp → threads (kern (sys m)) !! x = Some y → threads (kern s2) !! x = Some y).
Proof using Type.
  intros Hready Hlines Hwait Hfresh Htab Hg Ht Hk1 Hw1 Hb1 Hne Hbytes Hcr Hlen Hcause.
  assert (table_ok (kern (sys m1))) as Htab1.
  { rewrite Hk1. destruct (set_thread_state_found _ _ _ _ Blocked Htab Hg) as (t0 & Ht0 & _ & Hb).
    assert (t0 = t) as -> by congruence. exact (set_thread_state_table _ _ _ _ _ Hb Htab). }
  assert (∀ pid tid, get_thread (kern (sys m1)) pid tid = get_thread (kern (sys m)) pid tid) as Hgets.
  { intros pid tid. rewrite Hk1. exact (get_thread_state _ tp t Blocked pid tid Ht). }
  destruct (presses tf' console driver d [] (l ++ [carriage_return]) entries (keys (l ++ [carriage_return]) m1) i)
    as (s2 & Hrun & Hr2 & Hun & [_ Hyes]).
  - rewrite length_app. cbn. lia.
  - exact Hcause.
  - apply Forall_app. split; [exact Hbytes|]. apply Forall_singleton. by unfold carriage_return.
  - cbn. by rewrite app_nil_r.
  - cbn. rewrite Hk1. exact Hne.
  - by eapply ready_asleep.
  - exists s2. change (bus (keys _ m1)) with (with_uart (bus m1) (received (b_uart (bus m1)) (l ++ [carriage_return]))) in Hrun, Hr2.
    rewrite Hb1 in Hrun, Hr2. rewrite typed_line in Hr2 by done. split; [exact Hrun|]. split; [exact Hr2|]. split; [exact Hun|].
    destruct Hyes as [_ Hth]; [apply elem_of_app; right; by left|]. cbn [sys keys] in Hth.
    assert (∀ x, woken (kw_contexts (Syscalls.world (sys m1))) (kern (sys m1)) (waiting (sys m1) console) x ↔ x = tp) as Hwoken.
    { intros x. unfold woken, waiting. rewrite Hw1. cbn. rewrite lookup_insert_eq. cbn. unfold waiting in Hwait. rewrite Hwait. cbn.
      setoid_rewrite Hgets. split.
      - intros (r & c & ->%list_elem_of_singleton & Hc & Hx). rewrite lookup_insert_eq in Hc. injection Hc as <-. cbn in Hx. congruence.
      - intros ->. eexists _, _. split; [by left|]. split; [apply lookup_insert_eq|done]. }
    split.
    + destruct (Hth tp (with_state t Blocked)) as [[_ Hy]|[Hx _]]; [rewrite Hk1; apply lookup_insert_eq|exact Hy|].
      destruct Hx. by apply Hwoken.
    + intros x y Hx Hy. destruct (Hth x y) as [[Hz _]|[_ Hz]]; [rewrite Hk1; cbn; by rewrite lookup_insert_ne|by apply Hwoken in Hz|exact Hz].
Qed.

(** Who runs while the reader sleeps, and that it is the reader's turn then. *)
Record sleeper (m : kmachine) (tf tp : Z) (p : Process) (t : Thread) (pre : list Z) (q : Z) (post : list Z) (t' : Thread)
    (f' : TrapFrame) (pre2 post2 : list Z) : Prop := {
  sl_numbers : current_process_id (kernel_frame (kern (sys m))).2 = m_pid t ∧
    current_thread_id (kernel_frame (kern (sys m))).2 = m_tid t ∧ p_pid p = m_pid t;
  sl_next : next_is (with_threads (kern (sys m)) (<[tp := with_state t Blocked]> (threads (kern (sys m))))) pre q post t' f';
  sl_apart : m_trap_frame t' ≠ tf ∧ m_trap_frame t' ≠ (kernel_frame (kern (sys m))).1;
  sl_after : post ++ pre ++ [q] = pre2 ++ tp :: post2 ∧ Forall (waits (kern (sys m))) pre2 ∧ tp ∉ pre2;
  sl_fuel : (length pre < fuel)%nat ∧ (length pre2 < fuel)%nat
}.

(** The timer gives the woken reader its turn, in the frame of its call. *)
Lemma reader_resumes (m m1 m2 : kmachine) tf process tp p t f descriptors k number F inode n a counters counters' pre q post t' f' pre2 post2 ft :
  reading m tf process tp p t f descriptors k number F inode n a counters →
  sleeper m tf tp p t pre q post t' f' pre2 post2 →
  kern (sys m1) = switched (with_threads (kern (sys m)) (<[tp := with_state t Blocked]> (threads (kern (sys m))))) (q :: post ++ pre) t' f' →
  files (sys m1) = files (sys m) → counts (m_statistics (sys m1)) counters' → length counters' = 10%nat →
  kw_open (Syscalls.world (sys m1)) = kw_open (Syscalls.world (sys m)) → kw_inodes (Syscalls.world (sys m1)) = kw_inodes (Syscalls.world (sys m)) →
  kw_memory (Syscalls.world (sys m1)) = kw_memory (Syscalls.world (sys m)) →
  undisturbed_but (m_trap_frame t') (sys m1) (sys m2) → table_ok (kern (sys m2)) →
  threads (kern (sys m2)) !! tp = Some (with_state t Running) →
  (∀ x y, x ≠ tp → threads (kern (sys m)) !! x = Some y → threads (kern (sys m2)) !! x = Some y) →
  is_kernel_trap ft = false → scause ft = TimerInterrupt →
  ∃ m3 sp ptr, trap (m_trap_frame t') (write_frame m2 (m_trap_frame t') ft) = Ret (tf, m3) ∧
    reading m3 tf process tp p (with_state t Running) (Processes.with_kernel f sp ptr) descriptors k number F inode n a counters' ∧
    frames (kern (sys m3)) !! tf = Some (Processes.with_kernel f sp ptr) ∧ Syscalls.world (sys m3) = Syscalls.world (sys m2) ∧ bus m3 = bus m2 ∧
    table_ok (kern (sys m3)) ∧
    deadlines m3 = deadlines m2 ++ [u64 (kw_time (Syscalls.world (sys m2)) + u64 (m_frequency / 1000 * 100))].
Proof using Type.
  intros [Htr Hcall Htab Hfile Hin Hbuf (Hk & Hz & Hg) _] [(Hn1 & Hn2 & Hn3) (_ & _ & _ & _ & _ & _ & Hregs) [Hap Hap'] (Hq & Hw & Hnot) [_ Hfuel]]
    Hk1 Hf1 Hc1 Hl1 Ho1 Hi1 Hm1 [(fr & Hfr & _ & Hk2) Hgt (drs & rqs & Hw2) Hf2 Hs2] Htab2 Hth Hother Hkt Hcause.
  pose proof Htr as (Hgp & Hp & Htp & Ht & Htf & Hf & Hlen & Hkf).
  set (tf' := m_trap_frame t') in *. set (m2' := write_frame m2 tf' ft).
  assert (tf' ≠ (kernel_frame (kern (sys m2))).1) as Hne by (rewrite Hk2; cbn; rewrite Hk1; exact Hap').
  destruct (entered_frame m2 tf' ft Hne) as (Hfa & _ & Hkw & Hww & Hbw & Hdw). fold m2' in Hfa, Hkw, Hww, Hbw, Hdw.
  destruct (timer_trap m_frequency plic_base delegate_to_devices fuel file m2' tf' ft pre2 tp post2 (with_state t Running) f Hfa Hkt Hcause)
    as (m3 & Htrap & Hk3 & Hd3 & [Hw3 Hf3 Hs3] & Hb3); [|exact Hfuel|].
  - rewrite Hkw. split_and!.
    + rewrite Hk2, Hk1. reflexivity.
    + rewrite Hk2, Hk1. cbn. by rewrite <- app_assoc.
    + rewrite Forall_forall in Hw |- *. intros x Hx. destruct (Hw x Hx) as (st & Hst & Hrun).
      destruct (threads (kern (sys m)) !! x) as [y|] eqn:Hy; [|discriminate]. exists st. split; [|done].
      cbn. rewrite (Hother x y); [done|by intros ->|done].
    + unfold runs. cbn. by rewrite Hth.
    + exact Hth.
    + cbn [frames with_frames m_trap_frame with_state]. rewrite Htf, lookup_insert_ne by done. rewrite Hk2. cbn. rewrite Hfr by done.
      rewrite Hk1. cbn. by rewrite lookup_insert_ne.
    + rewrite Hk2, Hk1. exact Hregs.
  - cbn [m_trap_frame with_state] in Htrap. rewrite Htf in Htrap.
    set (sp := default 0 (regs (Processes.base (kernel_frame (kern (sys m2'))).2) !! SP)) in *.
    set (ptr := (kernel_frame (kern (sys m2'))).1) in *.
    assert (frames (kern (sys m3)) !! tf = Some (Processes.with_kernel f sp ptr)) as Hfr3.
    { rewrite Hk3. unfold switched. cbn [frames m_trap_frame with_state]. rewrite Htf. apply lookup_insert_eq. }
    assert (∀ pid tid, get_thread (kern (sys m3)) pid tid = get_thread (kern (sys m)) pid tid) as Hgets.
    { intros pid tid. rewrite Hk3, Hkw. change (get_thread (kern (sys m2)) pid tid = get_thread (kern (sys m)) pid tid).
      rewrite Hgt, Hk1. exact (get_thread_state _ tp t Blocked pid tid Ht). }
    assert (table_ok (kern (sys m3))) as Htab3 by (rewrite Hk3, Hkw; exact Htab2).
    exists m3, sp, ptr. split; [exact Htrap|].
    assert (processes (kern (sys m3)) = processes (kern (sys m)) ∧ m_process_list (kern (sys m3)) = m_process_list (kern (sys m)) ∧
      threads (kern (sys m3)) = threads (kern (sys m2)) ∧ (kernel_frame (kern (sys m3))).1 = (kernel_frame (kern (sys m))).1 ∧
      current_process_id (kernel_frame (kern (sys m3))).2 = m_pid t ∧ current_thread_id (kernel_frame (kern (sys m3))).2 = m_tid t)
      as (Hps & Hpl & Hts & Hkf3 & Hc3 & Hc3').
    { rewrite Hk3, Hkw. cbn. rewrite Hk2. cbn. by rewrite Hk1. }
    split; [|by rewrite Hd3, Hdw, Hw3, Hww, Hb3, Hbw; unfold current_time; rewrite Hww].
    constructor; [|done|done| | | | |].
    + split_and!; [| | | | |done|exact Hlen|by rewrite Hkf3].
      * unfold get_current_process, get_process. rewrite Hc3, Hps, Hpl. unfold get_current_process, get_process in Hgp. by rewrite Hn1 in Hgp.
      * by rewrite Hps.
      * unfold get_current_thread. rewrite Hc3, Hc3', Hgets. unfold get_current_thread in Htp. by rewrite Hn1, Hn2 in Htp.
      * by rewrite Hts.
      * exact Htf.
    + rewrite Hf3. unfold m2', write_frame. rewrite (proj2 (Z.eqb_neq _ _) Hne). cbn. rewrite Hf2, Hf1, Hw3, Hww, Hw2. cbn. by rewrite Ho1.
    + rewrite Hw3, Hww, Hw2. cbn. by rewrite Hi1.
    + rewrite Hw3, Hww, Hw2. cbn. by rewrite Hm1.
    + split; [exact Htab3|]. split; [exact Hz|]. rewrite Hgets. exact Hg.
    + rewrite Hs3. unfold m2', write_frame. rewrite (proj2 (Z.eqb_neq _ _) Hne). cbn. by rewrite Hs2.
Qed.

(** * Property *)

(** C28: a process reads a line from the keyboard.  A thread that reads from a
    console without a complete line is blocked, and another thread goes on in its
    own frame.  While that one runs, every key is a trap: the controller hands out
    the interrupt, the device manager finds the console, the driver takes one
    character and echoes it, and the interrupt is completed, once for every key and
    with its number; the interrupted frame goes on.  The return key makes the reader
    run again, and the reader alone; the next timer interrupt that comes to it goes on
    in the frame of the reader, as it was at the call, so that the call is made once more.  This time it returns: the line, with a zero
    behind it and cut to the size of the buffer, is in the memory of the process,
    its length is the result, the call is not repeated, the offset of the file has
    moved, and nothing else in the memory or in the frame of the reader has
    changed. *)
Theorem key_to_line (m : kmachine) tf process tp p t f descriptors k number F inode n a counters
    console driver d i pre q post t' f' pre2 post2 l entries ft mem :
  reading m tf process tp p t f descriptors k number F inode n a counters →
  ready plic_base (sys m) (bus m) console driver d i → Ram.m_device n = console →
  m_lines i = [] → waiting (sys m) console = [] →
  kw_contexts (Syscalls.world (sys m)) !! Zpos (io_fresh (kw_io (Syscalls.world (sys m)))) = None →
  sleeper m tf tp p t pre q post t' f' pre2 post2 →
  Forall is_byte l → carriage_return ∉ l → length entries = S (length l) → Forall (λ f, scause f = ExternalInterrupt) entries →
  is_kernel_trap ft = false → scause ft = TimerInterrupt →
  let line := m_buffer i ++ l in
  let got := Z.min (arg f 2) (Z.of_nat (length line) + 1) in
  write_bytes (kw_memory (Syscalls.world (sys m))) a (take (Z.to_nat got) (line ++ [0])) = Ret mem →
  let tf' := m_trap_frame t' in
  ∃ m1 m2 m3 m4 sp ptr,
    trap tf m = Ret (tf', m1) ∧ threads (kern (sys m1)) !! tp = Some (with_state t Blocked) ∧
    run_traps tf' entries (keys (l ++ [carriage_return]) m1) = Ret m2 ∧
    bus m2 = typed_out (bus m) (l ++ [carriage_return]) ∧ threads (kern (sys m2)) !! tp = Some (with_state t Running) ∧
    (∀ x y, x ≠ tp → threads (kern (sys m)) !! x = Some y → threads (kern (sys m2)) !! x = Some y) ∧
    trap tf' (write_frame m2 tf' ft) = Ret (tf, m3) ∧ frames (kern (sys m3)) !! tf = Some (Processes.with_kernel f sp ptr) ∧
    trap tf m3 = Ret (tf, m4) ∧
    frames (kern (sys m4)) !! tf =
      Some (with_sepc (with_regs (Processes.with_kernel f sp ptr) (<[GP0 := u64 got]> (regs f))) (u64 (sepc f + 4))) ∧
    kw_memory (Syscalls.world (sys m4)) = mem ∧
    files (sys m4) !! number = Some (File.mk (File.m_open_file_descriptor F) (u64 (File.m_offset F + got)) (File.m_mode F)) ∧
    threads (kern (sys m4)) !! tp = Some (with_state t Running) ∧ bus m4 = bus m2 ∧
    deadlines m4 = deadlines m ++ [u64 (kw_time (Syscalls.world (sys m)) + u64 (m_frequency / 1000 * 100))].
Proof using Type.
  intros Hre Hrd Hn Hl Hwait Hfresh Hsl Hbytes Hcr Hlen Hcause Hkt Htimer line got Hmem tf'.
  pose proof Hsl as [_ Hnext [Hap Hap'] _ [Hfuel _]]. pose proof Hre as [Htr _ _ _ _ _ (Htab & Hz & Hg) _].
  pose proof Htr as (_ & _ & _ & Ht & _).
  destruct (read_sleeps m tf process tp p t f descriptors k number F inode n a counters Hre console driver d i Hrd Hn pre q post t' f' Hl Hnext Hfuel Hap)
    as (m1 & counters' & T1 & Hk1 & Hw1 & Hf1 & Hc1 & Hl1 & Hb1 & Hd1).
  destruct (reader_wakes m m1 tf' tp t p console driver d i l entries (q :: post ++ pre) t' f') as (s2 & T2 & Hrd2 & Hun & Hth & Hother); try done.
  set (m2 := mkMachine s2 (typed_out (bus m) (l ++ [carriage_return])) (deadlines m1)) in *.
  assert (table_ok (kern s2)) as Htab2 by exact (rd_table _ _ _ _ _ _ _ Hrd2).
  destruct (reader_resumes m m1 m2 tf process tp p t f descriptors k number F inode n a counters counters' pre q post t' f' pre2 post2 ft
    Hre Hsl Hk1 Hf1 Hc1 Hl1) as (m3 & sp & ptr & T3 & Hre3 & Hfr3 & Hw3 & Hb3 & Htab3 & Hd3); try done; [by rewrite Hw1..|].
  pose proof Hun as [(fr & _ & _ & Hk2) _ (drs & rqs & Hw2) _ _].
  assert (ready plic_base (sys m3) (bus m3) console driver d (mkInput [] [line])) as Hrd3.
  { rewrite Hb3. by eapply ready_moved. }
  destruct (read_gets m3 tf process tp p _ _ descriptors k number F inode n a counters' Hre3 console driver d (mkInput [] [line]) Hrd3 Hn line [] mem eq_refl)
    as (m4 & T4 & Hfr4 & Hth4 & _ & Hw4 & Hf4 & Hb4 & Hd4).
  { rewrite Hw3. change (sys m2) with s2. rewrite Hw2, Hw1. exact Hmem. }
  pose proof (re_trapped _ _ _ _ _ _ _ _ _ _ _ _ _ _ _ Hre3) as (_ & _ & _ & Hth3 & _).
  exists m1, m2, m3, m4, sp, ptr. split; [exact T1|]. split; [rewrite Hk1; apply lookup_insert_eq|]. split; [exact T2|].
  split; [done|]. split; [exact Hth|]. split; [exact Hother|]. split; [exact T3|]. split; [exact Hfr3|]. split; [exact T4|].
  split; [rewrite Hfr4; apply lookup_insert_eq|]. split; [by rewrite Hw4|]. split; [rewrite Hf4; apply lookup_insert_eq|].
  split; [by rewrite Hth4|]. split; [by rewrite Hb4, Hb3|].
  rewrite Hd4, Hd3. change (deadlines m2) with (deadlines m1). change (sys m2) with s2. by rewrite Hd1, Hw2, Hw1.
Qed.
End Traps.
End World.

(** ** Witness: a console that echoes "hi", with a second process *)
Section Example_.
Definition no_open (path : bytes) (flags : Z) (w : kernel_world) : outcome (ErrorOr Z Error * kernel_world) := Ret (fail_with "Not found", w).
Definition no_list (path : bytes) (w : kernel_world) : outcome (ErrorOr (list bytes) Error * kernel_world) := Ret (Value [], w).
Definition no_block (device : Z) (w : Console.world (D := board)) : outcome (ErrorOr unit Error * Console.world (D := board)) := Ret (Value tt, w).

#[local] Instance example_syscalls : SyscallWorld kernel_world := kernel_syscalls no_open no_list.

Definition read_frame : TrapFrame :=
  mkTrapFrame (list_inserts GP0 [0; 0x200; 64] (<[SyscallId := 3]> (replicate 32 0))) (replicate 32 0) 0x400 0 SystemCall 0 0 0 0 101.

Definition read_table : FileDescriptorTable.t := FileDescriptorTable.mk (Array.mk (<[0%nat := Some 200]> (replicate 256 (Some 0))) 256).
Definition read_process : Process := mkProcess 1 1 0x1000 ProcessRunning read_table [1].

Definition typing_board : board :=
  mkBoard 0xc000000 10 (mkUart 0x10000000 [] [] 3 0 3 1 7 15) (enable_device_interrupt 0xc000000 ∅ 10) false [].

Definition typing_world : kernel_world :=
  mkKernelWorld {[0x1000 := 3; 0x200 := 0]} ∅ (mkIo {[10 := desk]} {[11 := NS16550ADriver 10 (mkInput [] [])]} ∅ [10] 100)
    {[77 := 60]} {[60 := Ram.mkInode empty_map 0 Ram.Device 10]} (4, 3, 1) (64, 32, 32) 0 7.

Definition typing_kernel : kernel :=
  mkKernel {[101 := read_frame; 102 := zero_frame]} {[1 := mkThread 101 0 1 Running; 2 := mkThread 102 0 2 Running]}
    {[50 := read_process; 51 := new_process 2 2 0x1000 ProcessRunning]} [1; 2] [50; 51] 0 3 (500, mkKernelFrame zero_frame 0 0 1).

Definition typing_machine : machine (W := kernel_world) (D := board) :=
  mkMachine (mkState typing_kernel typing_world {[200 := File.mk 77 0 0]} (Array.new 0 Count) []) typing_board [].

Lemma typing_table : table_ok typing_kernel.
Proof.
  split; [|split; [discriminate|reflexivity]]. repeat constructor.
  - eexists. split; [reflexivity|]. split; [simpl; lia|]. repeat constructor. eexists. reflexivity.
  - eexists. split; [reflexivity|]. split; [simpl; lia|]. repeat constructor. eexists. reflexivity.
Qed.

Lemma typing_reads :
  reading typing_machine 101 50 1 read_process (mkThread 101 0 1 Running) read_frame (<[0%nat := 200]> (replicate 256 0))
    0 200 (File.mk 77 0 0) 60 (Ram.mkInode empty_map 0 Ram.Device 10) 0x200 (replicate 10 0).
Proof.
  constructor.
  - split_and!; try reflexivity. discriminate.
  - split_and!; reflexivity.
  - split; [constructor; reflexivity|]. split; reflexivity.
  - split; reflexivity.
  - split; reflexivity.
  - vm_compute. reflexivity.
  - split; [exact typing_table|]. split; [discriminate|reflexivity].
  - split; [split_and!; reflexivity|reflexivity].
Qed.

Lemma typing_ready : ready 0xc000000 (sys typing_machine) (bus typing_machine) 10 11 desk (mkInput [] []).
Proof.
  constructor.
  - constructor; [reflexivity|split; [reflexivity|discriminate]|reflexivity|]. eexists _, _, _, _. reflexivity.
  - reflexivity.
  - exists [], []. split; [reflexivity|]. split; [reflexivity|constructor].
  - split_and!; [reflexivity|discriminate|reflexivity|vm_compute; reflexivity|reflexivity].
  - split; reflexivity.
  - exact typing_table.
  - split; [constructor|reflexivity].
Qed.

Lemma typing_sleeper :
  sleeper 5 typing_machine 101 1 read_process (mkThread 101 0 1 Running) [] 2 [1] (mkThread 102 0 2 Running) zero_frame [] [2].
Proof.
  constructor; try (split_and!; reflexivity).
  - split_and!; try reflexivity. constructor.
  - split; discriminate.
  - split; [reflexivity|]. split; [constructor|apply not_elem_of_nil].
  - split; simpl; lia.
Qed.

Lemma key_to_line_witness :
  let trap := handle_interrupt 10000000 0xc000000 (delegate_to_devices no_block) 5 300 in
  ∃ m1 m2 m3 m4, trap 101 typing_machine = Ret (102, m1) ∧
    run_traps no_open no_list no_block 10000000 0xc000000 5 300 102 (replicate 3 (user_frame ExternalInterrupt 0)) (keys [104; 105; 13] m1) = Ret m2 ∧
    trap 102 (write_frame m2 102 (user_frame TimerInterrupt 0)) = Ret (101, m3) ∧ trap 101 m3 = Ret (101, m4) ∧
    kw_memory (Syscalls.world (sys m4)) = {[0x1000 := 3; 0x200 := 104 + 256 * 105]} ∧ tx (b_uart (bus m4)) = [104; 105; 10] ∧
    completed (bus m4) = [10; 10; 10].
Proof.
  intros trap.
  destruct (key_to_line no_open no_list no_block 10000000 0xc000000 5 300 typing_machine 101 50 1 read_process (mkThread 101 0 1 Running) read_frame
    (<[0%nat := 200]> (replicate 256 0)) 0 200 (File.mk 77 0 0) 60 (Ram.mkInode empty_map 0 Ram.Device 10) 0x200 (replicate 10 0)
    10 11 desk (mkInput [] []) [] 2 [1] (mkThread 102 0 2 Running) zero_frame [] [2] [104; 105] (replicate 3 (user_frame ExternalInterrupt 0))
    (user_frame TimerInterrupt 0) {[0x1000 := 3; 0x200 := 104 + 256 * 105]})
    as (m1 & m2 & m3 & m4 & sp & ptr & T1 & _ & T2 & B2 & _ & _ & T3 & _ & T4 & _ & Hm & _ & _ & B4 & _).
  - exact typing_reads.
  - exact typing_ready.
  - reflexivity.
  - reflexivity.
  - reflexivity.
  - reflexivity.
  - exact typing_sleeper.
  - repeat constructor; unfold in_word; lia.
  - rewrite !not_elem_of_cons. split_and!; [done..|apply not_elem_of_nil].
  - reflexivity.
  - repeat constructor.
  - reflexivity.
  - reflexivity.
  - vm_compute. reflexivity.
  - exists m1, m2, m3, m4. split; [exact T1|]. split; [exact T2|]. split; [exact T3|]. split; [exact T4|]. split; [exact Hm|].
    rewrite B4, B2. split; reflexivity.
Defined.
End Example_.
