(* ===== verification/UserCalls.v ===== *)
(** System calls as a user program sees them: the wrappers [syscall] of
    [API/Syscall.h] around the instruction [ecall], which takes the way of
    [Trap.v] into the kernel, through [handle_interrupt] of [Interrupts.v] and the
    dispatch of [Syscalls.v], and back.

    [Interrupts.v] runs on frames that are named by their addresses, [Trap.v] on
    the words of the frames in memory.  The compiled [handle_interrupt] is a
    parameter; [compiled] says that it leaves in memory what the model says. *)
From S2P Require Import Prelude Bits Machine Containers Files Processes Logger Mmio Plic Syscalls Interrupts.
From S2P Require Import Paging AddressSpace Trap.

(** * The wrappers *)
Definition a7 : nat := 17.

(** [a0], [a1], ... get the arguments, [a7] the number. *)
Fixpoint set_arguments (rd : nat) (args : list Z) (h : hart) : hart :=
  match args with
  | [] => h
  | arg :: args' => set_arguments (S rd) args' (set_reg rd arg h)
  end.

Definition call_registers (number : Z) (args : list Z) (h : hart) : hart :=
  set_reg a7 number (set_arguments a0 args h).

(** The register that the program takes for the result.  With three or four
    arguments the variable [value] is tied to none: the compiler chooses one. *)
Definition result_register (args : list Z) (chosen : nat) : nat :=
  if (length args <=? 2)%nat then a0 else chosen.

(** [syscall(number, args...)], at an [ecall]: the result, the hart and the memory. *)
Definition syscall (chosen : nat) (code : Z) (handler : hart * memory → option (hart * memory)) (number : Z) (args : list Z)
    (s : hart * memory) : option (Z * (hart * memory)) :=
  s ← Trap.trap code handler SystemCall 0 (call_registers number args s.1, s.2);
  Some (reg s.1 (result_register args chosen), s).

(** What the program gets for the answer of a handler. *)
Definition result_of (r : ErrorOr Z SysError) : Z :=
  match r with Value v => u64 v | Failure _ => 2 ^ 64 - 1 end.

(** * The kernel in memory *)

(** A frame from which a thread can go on in user mode. *)
Record suspended (g : Z) (G : TrapFrame) : Prop := {
  sus_frame : frame_ok G;
  sus_addr : kernel_addr G = g;
  sus_fs : bf_get 13 2 (sstatus G) ≠ 0;
  sus_mode : Z.testbit (sstatus G) 8 = false
}.

(** ** The registers of a call *)
Lemma set_arguments_facts args : ∀ rd h, (0 < rd)%nat → (rd + length args ≤ 32)%nat → hart_ok h →
  hart_ok (set_arguments rd args h) ∧ fpr (set_arguments rd args h) = fpr h ∧ csrs (set_arguments rd args h) = csrs h ∧
  pc (set_arguments rd args h) = pc h ∧ supervisor (set_arguments rd args h) = supervisor h ∧
  gpr (set_arguments rd args h) = list_inserts rd args (gpr h).
Proof.
  induction args as [|arg args IH]; intros rd h Hrd Hlen Hh; cbn [set_arguments list_inserts]; [by split_and!|].
  cbn [length] in Hlen. assert (hart_ok (set_reg rd arg h)) as Hh'.
  { destruct Hh as [[Hl H0] Hf]. unfold set_reg. rewrite decide_False by lia. constructor; [|done]. cbn [gpr].
    split; [by rewrite length_insert|]. rewrite list_lookup_insert_ne by lia. exact H0. }
  destruct (IH (S rd) (set_reg rd arg h) ltac:(lia) ltac:(lia) Hh') as (H1 & H2 & H3 & H4 & H5 & H6).
  rewrite H2, H3, H4, H5, H6. split; [done|]. unfold set_reg. rewrite decide_False by lia. cbn. split_and!; try done.
  revert Hrd. clear. generalize (gpr h) as l. revert rd. intros rd l Hrd.
  assert (∀ n l, (rd < n)%nat → list_inserts n args (<[rd := arg]> l) = <[rd := arg]> (list_inserts n args l)) as Hc.
  { clear. induction args as [|x args IH]; intros n l Hn; cbn [list_inserts]; [done|].
    rewrite IH by lia. by rewrite list_insert_insert_ne by lia. }
  apply Hc. lia.
Qed.

Lemma call_registers_running code m f F number args h :
  running code m f F h → (length args ≤ 7)%nat → running code m f F (call_registers number args h).
Proof.
  intros [Hh Hm Hs Hfs Hf Hu Hk] Hlen.
  destruct (set_arguments_facts args a0 h) as (H1 & H2 & H3 & H4 & H5 & H6); [unfold a0; lia|unfold a0; lia|done|].
  unfold call_registers, set_reg. rewrite decide_False by done. constructor; cbn; rewrite ?H3, ?H5; try done.
  destruct H1 as [[Hl H0] Hfl]. constructor; [|done]. cbn. split; [by rewrite length_insert|]. by rewrite list_lookup_insert_ne.
Qed.
Section UserCalls.
Context {W D : Type} `{SyscallWorld W} `{Bus D}.
Variables (m_frequency plic_base : Z) (delegate : Z → state (W := W) → D → outcome (ErrorOr unit Error * (state (W := W) * D))).
Variables (fuel : nat) (file : Z).

Abbreviation kernel := (handle_interrupt m_frequency plic_base delegate fuel file).

(** The compiled handler does, from the hart and memory [s], what the kernel does
    from [M] with the frame at [f]: it returns the frame that the kernel names, with
    the words that the kernel gives it, in an address space that still shows the
    frame and the code of the trap vector. *)
Definition compiled (code K : Z) (handler : hart * memory → option (hart * memory)) (M : machine (W := W) (D := D)) (f : Z)
    (s : hart * memory) : Prop :=
  ∀ g M' G, kernel f M = Ret (g, M') → frames (kern (sys M')) !! g = Some G →
    ∃ k m1, handler s = Some (k, m1) ∧ returning K g k ∧ words_at m1 g (frame_words G) ∧
      shows m1 (kernel_satp G) code TRAP_FRAME_ALIAS g ∧ shows m1 K code g g.


(** The frame that the thread leaves in the kernel. *)
Lemma saved_call code m f F h : running code m f F h →
  let S := saved (take_trap SystemCall 0 h) F in
  frame_ok S ∧ kernel_addr S = f ∧ bf_get 13 2 (sstatus S) ≠ 0 ∧ is_kernel_trap S = false ∧ scause S = SystemCall ∧
  regs S = gpr h ∧ fregs S = fpr h ∧ sepc S = pc h ∧ kernel_satp S = c_satp (csrs h) ∧
  sstatus S = trap_status false (c_sstatus (csrs h)).
Proof.
  intros [[[Hl Hz] Hfl] Hm _ Hfs (HF & Hf & _) _ _] S.
  assert (sstatus S = trap_status false (c_sstatus (csrs h))) as HS by (unfold S; cbn; by rewrite Hm).
  split; [by repeat split|]. split; [exact Hf|]. split; [by rewrite HS, trap_status_fs|]. split; [|by split_and!].
  unfold is_kernel_trap. rewrite HS. apply negb_false_iff, Z.eqb_eq, Z.bits_inj'. intros i Hi.
  rewrite Z.land_spec, Z.bits_0. change (Z.shiftl 1 8) with (2 ^ 8). rewrite Z.pow2_bits_eqb by lia.
  destruct (Z.eqb_spec 8 i) as [<-|]; [by rewrite trap_status_user|by rewrite andb_false_r].
Qed.

(** The kernel goes back to a suspended thread. *)
Lemma call_returns code handler m f F h M g M' G :
  running code m f F h →
  let h' := take_trap SystemCall 0 h in
  compiled code (kernel_satp F) handler M f (Trap.entered h' F, with_frame m f (saved h' F)) →
  kernel f M = Ret (g, M') → frames (kern (sys M')) !! g = Some G → suspended g G →
  ∃ k m2, Trap.trap code handler SystemCall 0 (h, m) = Some (resumed G k, m2) ∧
    running code m2 g (with_satp G (kernel_satp F)) (resumed G k).
Proof.
  intros Hrun h' Hc HM HG [HGok Ha Hfs Hmode]. destruct (Hc g M' G HM HG) as (k & m1 & Hh & Hret & Hw & Hu & Hk).
  destruct (trap_goes_on code handler SystemCall 0 m f F h k m1 g G Hrun Hh Hret) as [Ht Hr]; [by constructor|].
  exists k. eexists. split; [exact Ht|exact Hr].
Qed.

(** The argument registers of the saved frame. *)
Lemma saved_arguments h F i : (i < 7)%nat → default 0 (arguments (saved h F) !! i) = reg h (10 + i).
Proof. intros Hi. unfold arguments. rewrite lookup_take_lt, lookup_drop by done. reflexivity. Qed.

Lemma saved_number number args h F : hart_ok h → (length args ≤ 7)%nat →
  call_number (saved (take_trap SystemCall 0 (call_registers number args h)) F) = number.
Proof.
  intros Hh Hlen. destruct (set_arguments_facts args a0 h) as ([[Hl _] _] & _); [unfold a0; lia|unfold a0; lia|done|].
  unfold call_number, call_registers, set_reg. rewrite decide_False by done. cbn.
  rewrite list_lookup_insert_eq; [done|]. rewrite Hl. unfold a7. lia.
Qed.

(** The thread at its [ecall] with the registers of the call. *)
Lemma call_registers_keep number args h : hart_ok h → (length args ≤ 7)%nat →
  let h0 := call_registers number args h in csrs h0 = csrs h ∧ fpr h0 = fpr h ∧ pc h0 = pc h.
Proof.
  intros Hh Hlen. destruct (set_arguments_facts args a0 h) as (_ & Hf & Hc & Hp & _); [unfold a0; lia|unfold a0; lia|done|].
  unfold call_registers, set_reg. rewrite decide_False by done. by split_and!.
Qed.

Lemma suspended_kernel g G sp ptr : suspended g G → suspended g (with_kernel G sp ptr).
Proof. intros [[Hr Hf] Ha Hfs Hm]. constructor; try done. Qed.

(** The frame of an answered call. *)
Lemma answered_suspended f S r : frame_ok S → kernel_addr S = f → bf_get 13 2 (sstatus S) ≠ 0 → Z.testbit (sstatus S) 8 = false →
  r ≠ Failure SysBlocked →
  let G := with_sepc (answered S r) (u64 (sepc S + 4)) in
  suspended f G ∧ regs G = <[a0 := result_of r]> (regs S) ∧ fregs G = fregs S ∧ kernel_satp G = kernel_satp S ∧ sstatus G = sstatus S.
Proof.
  intros [[Hl Hz] Hfl] Ha Hfs Hm Hr. destruct S as [rs fl pc_ st ca tv sa sp_ ptr ad]; cbn in *.
  destruct r as [v|[]]; try done; cbn.
  - split; [|by split_and!]. constructor; try done. constructor; [split|done]; cbn [regs with_sepc with_regs]; [by rewrite length_insert|by rewrite list_lookup_insert_ne].
  - split; [|by split_and!]. constructor; try done. constructor; [split|done]; cbn [regs with_sepc with_regs]; [by rewrite length_insert|by rewrite list_lookup_insert_ne].
Qed.
End UserCalls.

(** * Properties *)

(** C39: a system call of a user program, from its wrapper to the kernel and back.
    The program puts the number and the arguments into registers and executes
    [ecall]; the handler of that number runs with these arguments.  If it answers,
    the program goes on behind the [ecall], in user mode and in its own address
    space, with the answer (all ones for an error) as the result of the wrapper and
    in [a0], and every other register, integer or floating point, as it was before
    the [ecall].  If the thread must wait, the thread that the scheduler finds runs
    on from its frame, and the frame of the caller holds its registers at the
    [ecall], so that the call is made again. *)
Theorem user_syscall `{SyscallWorld W} `{Bus D} m_frequency plic_base
    (delegate : Z → state (W := W) → D → outcome (ErrorOr unit Error * (state (W := W) * D))) fuel file
    chosen code handler m f F h (M : machine (W := W) (D := D)) process tp p t (id : nat) args stats r s2 :
  let kernel := handle_interrupt m_frequency plic_base delegate fuel file in
  let h0 := call_registers (Z.of_nat id) args h in
  let h' := take_trap SystemCall 0 h0 in
  let S := saved h' F in
  running code m f F h → Z.testbit (c_sstatus (csrs h)) 5 = true → Z.testbit (c_sstatus (csrs h)) 8 = false →
  (length args ≤ 4)%nat → (id < 10)%nat →
  trapped M f process tp p t S → increment (m_statistics (sys M)) (Z.of_nat id) = Ret stats →
  compiled m_frequency plic_base delegate fuel file code (kernel_satp F) handler M f (Trap.entered h' F, with_frame m f S) →
  call_handler fuel file (Syscalls.entered (sys M) p (Z.of_nat id) stats (arguments S)) process (Z.of_nat id)
    (reg h0 10) (reg h0 11) (reg h0 12) = Ret (r, s2) →
  (r ≠ Failure SysBlocked →
     ∃ h2 m2 M', kernel f M = Ret (f, M') ∧ world (sys M') = world s2 ∧
       ((length args ≤ 2)%nat ∨ chosen = a0 →
          syscall chosen code handler (Z.of_nat id) args (h, m) = Some (result_of r, (h2, m2))) ∧
       gpr h2 = <[a0 := result_of r]> (gpr h0) ∧ fpr h2 = fpr h ∧ pc h2 = u64 (pc h + 4) ∧ supervisor h2 = false ∧
       c_sstatus (csrs h2) = c_sstatus (csrs h) ∧ c_satp (csrs h2) = c_satp (csrs h) ∧
       ∃ F', running code m2 f F' h2) ∧
  (r = Failure SysBlocked → ∀ pre q post t' f',
     next_is (with_threads (kern (sys M)) (threads (kern s2))) pre q post t' f' → (length pre < fuel)%nat →
     m_trap_frame t' ≠ f → suspended (m_trap_frame t') f' →
     ∃ h2 m2 M', kernel f M = Ret (m_trap_frame t', M') ∧
       Trap.trap code handler SystemCall 0 (h0, m) = Some (h2, m2) ∧
       gpr h2 = regs f' ∧ pc h2 = sepc f' ∧ c_satp (csrs h2) = kernel_satp f' ∧
       frames (kern (sys M')) !! f = Some S ∧ regs S = gpr h0 ∧ sepc S = pc h ∧
       ∃ F', running code m2 (m_trap_frame t') F' h2).
Proof.
  intros kernel h0 h' S Hrun H5 H8 Hlen Hid Htr Hst Hc Hr.
  pose proof (call_registers_running code m f F (Z.of_nat id) args h Hrun ltac:(lia)) as Hrun0. fold h0 in Hrun0.
  destruct (call_registers_keep (Z.of_nat id) args h (run_hart _ _ _ _ _ Hrun) ltac:(lia)) as (Hcs & Hfp & Hpc). fold h0 in Hcs, Hfp, Hpc.
  pose proof (saved_call code m f F h0 Hrun0) as Hsaved. fold h' in Hsaved. cbv zeta in Hsaved. fold S in Hsaved.
  destruct Hsaved as (HS & Ha & Hfs & Hk & Hcause & Hregs & Hfregs & Hsepc & Hsatp & Hstatus).
  pose proof (saved_number (Z.of_nat id) args h F (run_hart _ _ _ _ _ Hrun) ltac:(lia)) as Hn. fold h0 in Hn. fold h' in Hn. fold S in Hn.
  assert (∀ i, (i < 7)%nat → default 0 (arguments S !! i) = reg h0 (10 + i)) as Harg.
  { intros i Hi. unfold S. by rewrite saved_arguments. }
  assert (call_handler fuel file (Syscalls.entered (sys M) p (Z.of_nat id) stats (arguments S)) process (Z.of_nat id)
    (default 0 (arguments S !! 0%nat)) (default 0 (arguments S !! 1%nat)) (default 0 (arguments S !! 2%nat)) = Ret (r, s2)) as Hr'.
  { rewrite !Harg by lia. exact Hr. }
  assert (Z.testbit (sstatus S) 8 = false) as Hmode by (rewrite Hstatus; apply trap_status_user).
  split.
  - intros Hne. destruct (answered_call m_frequency plic_base delegate fuel file M f process tp p t S id stats r s2 Htr Hk Hcause Hid Hn Hst Hr' Hne)
      as (M' & HM & Hfr & _ & _ & Hw & _).
    destruct (answered_suspended f S r HS Ha Hfs Hmode Hne) as (Hsus & Gr & Gf & Gs & Gst).
    destruct (call_returns m_frequency plic_base delegate fuel file code handler m f F h0 M f M'
      (with_sepc (answered S r) (u64 (sepc S + 4))) Hrun0 Hc HM) as (k & m2 & Ht & Hrun2); [rewrite Hfr; apply lookup_insert_eq|exact Hsus|].
    exists (resumed (with_sepc (answered S r) (u64 (sepc S + 4))) k), m2, M'. split; [exact HM|]. split; [exact Hw|].
    split; [|split; [|split; [|split; [|split; [|split; [|split]]]]]].
    + intros Hres. unfold syscall. cbn [fst snd]. fold h0. rewrite Ht. cbn [mbind option_bind fst snd]. f_equal. f_equal.
      assert (result_register args chosen = a0) as ->.
      { unfold result_register. destruct Hres as [Hle| ->]; [by rewrite (proj2 (Nat.leb_le _ _) Hle)|by destruct (_ <=? _)%nat]. }
      unfold reg. cbn [resumed gpr]. rewrite Gr. rewrite list_lookup_insert_eq; [done|].
      destruct HS as [[Hl _] _]. rewrite Hl. unfold a0. lia.
    + cbn [resumed gpr]. by rewrite Gr, Hregs.
    + cbn [resumed fpr]. by rewrite Gf, Hfregs.
    + change (u64 (sepc S + 4) = u64 (pc h + 4)). by rewrite Hsepc, Hpc.
    + cbn [resumed supervisor]. by rewrite Gst, Hmode.
    + cbn [resumed csrs c_sstatus]. rewrite Gst, Hstatus, Hcs. by apply status_back.
    + cbn [resumed csrs c_satp]. by rewrite Gs, Hsatp, Hcs.
    + eexists. exact Hrun2.
  - intros -> pre q post t' f' Hnext Hfuel Hne Hsus.
    destruct (waiting_call m_frequency plic_base delegate fuel file M f process tp p t S id stats s2 pre q post t' f'
      Htr Hk Hcause Hid Hn Hst Hr' Hnext Hfuel Hne) as (M' & HM & HfS & _ & _ & _ & Hf' & _).
    destruct (call_returns m_frequency plic_base delegate fuel file code handler m f F h0 M _ M' _ Hrun0 Hc HM Hf') as (k & m2 & Ht & Hrun2);
      [by apply suspended_kernel|].
    eexists _, m2, M'. split; [exact HM|]. split; [exact Ht|]. split; [done|]. split; [done|]. split; [done|].
    split; [exact HfS|]. split; [exact Hregs|]. split; [by rewrite Hsepc|]. by eexists.
Qed.

(** ** Witness: a program calls exit with 7

    The thread of the example of [Trap.v], as the only one of the kernel. *)
#[local] Existing Instance pair_world.

Definition example_args : list Z := [7].
Definition example_call : hart := call_registers 5 example_args example_thread.
Definition example_left : TrapFrame := saved (take_trap SystemCall 0 example_call) example_saved.
Definition example_answer : TrapFrame := with_sepc (answered example_left (Value 7)) (u64 (sepc example_left + 4)).

Definition example_machine : machine (W := Request.contexts) (D := registers) :=
  mkMachine
    (mkState
      (mkKernel {[example_frame_page := example_left]} {[1 := mkThread example_frame_page 0 1 Running]}
         {[50 := new_process 1 1 0x1000 ProcessRunning]} [1] [50] 0 3 (500, mkKernelFrame zero_frame 0 0 1))
      ∅ ∅ (Array.new 0 Count) []) ∅ [].

(** The compiled handler of the example: it writes the answer into the frame. *)
Definition example_handler (s : hart * memory) : option (hart * memory) :=
  Some (s.1, with_frame s.2 example_frame_page example_answer).

Definition example_process : Process := new_process 1 1 0x1000 ProcessRunning.
Definition example_thread_object : Thread := mkThread example_frame_page 0 1 Running.

Lemma example_trapped : trapped example_machine example_frame_page 50 1 example_process example_thread_object example_left.
Proof. split_and!; try reflexivity. discriminate. Qed.

Definition example_stats : Array.t Z := default (Array.new 0 Count) (match increment (Array.new 0 Count) 5 with Ret a => Some a | _ => None end).

Definition example_result : outcome (ErrorOr Z SysError * state (W := Request.contexts)) :=
  call_handler 5 200 (Syscalls.entered (sys example_machine) example_process 5 example_stats (arguments example_left)) 50 5 7 0 0.

Definition example_after : state (W := Request.contexts) := match example_result with Ret (_, s) => s | _ => sys example_machine end.

Lemma example_exits : example_result = Ret (Value 7, example_after).
Proof. vm_compute. reflexivity. Qed.

Lemma example_compiled :
  compiled 10000000 0 no_devices 5 200 example_code kernel_root_satp example_handler example_machine example_frame_page
    (Trap.entered (take_trap SystemCall 0 example_call) example_saved, with_frame example_memory example_frame_page example_left).
Proof.
  intros g M' G HM HG.
  destruct (answered_call 10000000 0 no_devices 5 200 example_machine example_frame_page 50 1 example_process example_thread_object
    example_left 5 example_stats (Value 7) example_after) as (M1 & HM1 & Hfr & _);
    [exact example_trapped|vm_compute; reflexivity|reflexivity|lia|vm_compute; reflexivity|vm_compute; reflexivity|exact example_exits|discriminate|].
  rewrite HM1 in HM. injection HM as <- <-. rewrite Hfr, lookup_insert_eq in HG. injection HG as <-.
  eexists _, _. split; [reflexivity|]. split; [by repeat split|]. split; [apply words_at_stored|].
  destruct (example_shown example_left ltac:(by repeat split)) as [Hu Hk].
  split; (apply shows_store; [|apply frame_in_page; by repeat split]);
    (apply shows_store; [|apply frame_in_page; by repeat split]);
    (apply shows_store; [|apply frame_in_page; by repeat split]); [exact example_user_base|exact example_kernel_base].
Qed.

Lemma user_syscall_witness :
  ∃ h2 m2, syscall a0 example_code example_handler 5 [7] (example_thread, example_memory) = Some (7, (h2, m2)) ∧
    pc h2 = 0x80000104 ∧ reg h2 sp = STACK_ADDRESS ∧ supervisor h2 = false.
Proof.
  destruct (user_syscall 10000000 0 no_devices 5 200 a0 example_code example_handler example_memory example_frame_page example_saved
    example_thread example_machine 50 1 example_process example_thread_object 5 [7] example_stats (Value 7) example_after
    example_running eq_refl eq_refl ltac:(cbn; lia) ltac:(lia) example_trapped ltac:(vm_compute; reflexivity) example_compiled example_exits)
    as [(h2 & m2 & M' & _ & _ & Hs & Hg & _ & Hp & Hm & _) _]; [discriminate|].
  exists h2, m2. split; [apply Hs; left; cbn; lia|]. split; [exact Hp|]. split; [|exact Hm].
  unfold reg. rewrite Hg. vm_compute. reflexivity.
Defined.
