(* ===== verification/Shell.v ===== *)
(** The two programs that the kernel starts: [console_main] of
    [Process/Console/Console.cpp] and [dummy_process_main] of
    [Process/ProcessManager.cpp].  They run in user mode and talk to the kernel
    through the system calls of [API/Syscall.h].

    A program is an interaction tree whose events are its system calls; neither
    of them ends.  A buffer that is passed to the kernel is an argument of the event,
    and the bytes that the kernel stored into it, from its start, a part of the
    answer.  [Fault] is an access outside of a buffer. *)
From ITree Require Import ITree ITreeFacts Core.KTreeFacts Eq.UpToTaus Basics.HeterogeneousRelations.
From S2P Require Import Prelude Bytes Strings Logger.

(** Sequencing of interaction trees. *)
Notation "'run!' x := t 'in' k" := (ITree.bind t (fun x => k))
  (at level 10, x binder, t at level 200, k at level 200) : matte_scope.

(** * The system calls that the program makes *)
Variant syscallE : Type → Type :=
| Sys_open (path : bytes) (mode : Z) : syscallE Z
| Sys_dbgln (message : bytes) : syscallE Z
| Sys_read (fd : Z) (buffer : bytes) (size : Z) : syscallE (Z * bytes)
| Sys_dmesg : syscallE Z
| Sys_stats : syscallE Z
| Sys_ls : syscallE Z
| Sys_mem : syscallE Z
| Fault : syscallE Empty_set.

Definition fault {R : Type} : itree syscallE R := run! x := ITree.trigger Fault in match x : Empty_set with end.

(** An outcome of C code in the program. *)
Definition lift {A : Type} (o : outcome A) : itree syscallE A :=
  match o with Prelude.Ret a => ITreeDefinition.Ret a | _ => fault end.

(** A string literal, with its NUL. *)
Definition literal (s : string) : bytes := characters s ++ [0].

Definition newline : bytes := [10].

Definition help_message : bytes :=
  characters "Available commands:" ++ newline ++
  characters "1. dmesg - Print the kernel log" ++ newline ++
  characters "2. stats - Print the system stats" ++ newline ++
  characters "3. excel - Print a message to Excel@FIT" ++ newline ++
  characters "4. ls - List files in the / directory (FAT32)" ++ newline ++
  characters "5. mem - Print memory statistics" ++ newline ++
  characters "6. help - Show this help message" ++ newline ++ [0].

Definition print_help : itree syscallE Z := ITree.trigger (Sys_dbgln help_message).

Definition BUFFER_SIZE : Z := 512.

(** The chain of comparisons of one line. *)
Definition execute_line (buffer : bytes) : itree syscallE Z :=
  run! c := lift (strcmp buffer (literal "dmesg")) in
  if c =? 0 then ITree.trigger Sys_dmesg else
  run! c := lift (strcmp buffer (literal "stats")) in
  if c =? 0 then ITree.trigger Sys_stats else
  run! c := lift (strcmp buffer (literal "excel")) in
  if c =? 0 then ITree.trigger (Sys_dbgln (literal "Hi, Excel@FIT!")) else
  run! c := lift (strcmp buffer (literal "ls")) in
  if c =? 0 then ITree.trigger Sys_ls else
  run! c := lift (strcmp buffer (literal "mem")) in
  if c =? 0 then ITree.trigger Sys_mem else
  run! c := lift (strcmp buffer (literal "help")) in
  if c =? 0 then print_help else
  ITree.trigger (Sys_dbgln (literal "Unknown command. Try help to see the list of commands.")).

(** What a buffer of [size] bytes holds after the kernel stored [written] into it. *)
Definition after_read (buffer written : bytes) (size : nat) : bytes :=
  take size written ++ drop (length (take size written)) buffer.

(** One pass of the loop.  The result of [syscall] is unsigned. *)
Definition console_round (fd : Z) (buffer : bytes) : itree syscallE (bytes + Z) :=
  run! r := ITree.trigger (Sys_read fd buffer BUFFER_SIZE) in
  let buffer := after_read buffer r.2 (Z.to_nat BUFFER_SIZE) in
  run! _ := (if 0 <? r.1 then execute_line buffer else ITreeDefinition.Ret 0) in
  run! buffer := lift (memset buffer 0 0 BUFFER_SIZE) in
  ITreeDefinition.Ret (inl buffer).

Definition console_loop (fd : Z) (buffer : bytes) : itree syscallE Z := ITree.iter (console_round fd) buffer.

Section Console.
(** The text of the logo. *)
Context (matte_os_logo : bytes).

Definition console_main : itree syscallE Z :=
  run! r := ITree.trigger (Sys_open (literal "/dev/tty0") 0) in
  let fd := to_int r in
  if fd <? 0 then run! _ := ITree.trigger (Sys_dbgln (literal "Couldn't open the tty.")) in ITree.spin
  else run! _ := ITree.trigger (Sys_dbgln matte_os_logo) in console_loop fd (replicate 512 0).
End Console.

(** * The other program: [dummy_process_main] of [Process/ProcessManager.cpp] *)
Definition dbgln (message : string) : itree syscallE Z := ITree.trigger (Sys_dbgln (literal message)).

(** The counter of the loop is a [u32]. *)
Definition heartbeat_step (time : Z) : itree syscallE (Z + Z) :=
  if time =? 1000000000 then run! _ := dbgln "Process 1 is alive!" in ITreeDefinition.Ret (inl 0)
  else ITreeDefinition.Ret (inl (u32 (time + 1))).

Definition read_hello (fd : Z) : itree syscallE Z :=
  run! _ := dbgln "Opened file successfully" in
  let buffer := replicate 128 0 in
  run! r := ITree.trigger (Sys_read fd buffer 127) in
  let buffer := after_read buffer r.2 127 in
  let bytes_read := to_int r.1 in
  if 0 <? bytes_read then run! _ := dbgln "Read from file:" in ITree.trigger (Sys_dbgln buffer)
  else dbgln "Failed to read from file".

Definition dummy_process_main : itree syscallE Z :=
  run! _ := dbgln "Hello from dummy process!" in
  run! r := ITree.trigger (Sys_open (literal "/hello.txt") 0) in
  let fd := to_int r in
  run! _ := (if negb (fd =? -1) then read_hello fd else dbgln "Failed to open file") in
  ITree.iter heartbeat_step 0.

(** * What the program does

    The text of a line ends at its first NUL, or with the buffer. *)
Fixpoint line (buffer : bytes) : bytes :=
  match buffer with
  | [] => []
  | c :: buffer' => if c =? 0 then [] else c :: line buffer'
  end.

(** The table of the commands, and a session: a loop that keeps nothing between
    the lines and never faults. *)
Module Spec.
Definition commands : list (string * syscallE Z) :=
  [("dmesg", Sys_dmesg); ("stats", Sys_stats); ("excel", Sys_dbgln (literal "Hi, Excel@FIT!")); ("ls", Sys_ls);
   ("mem", Sys_mem); ("help", Sys_dbgln help_message)]%string.

Definition unknown : syscallE Z := Sys_dbgln (literal "Unknown command. Try help to see the list of commands.").

Definition command (text : bytes) : syscallE Z :=
  match list_find (λ entry, characters entry.1 = text) commands with
  | Some (_, entry) => entry.2
  | None => unknown
  end.

Definition empty : bytes := replicate 512 0.

Definition session (fd : Z) : itree syscallE Z :=
  ITree.iter (λ _ : unit,
    run! r := ITree.trigger (Sys_read fd empty BUFFER_SIZE) in
    run! _ := (if 0 <? r.1 then ITree.trigger (command (line (take 512 r.2))) else ITreeDefinition.Ret 0) in
    ITreeDefinition.Ret (inl tt)) tt.

Definition main (logo : bytes) : itree syscallE Z :=
  run! r := ITree.trigger (Sys_open (literal "/dev/tty0") 0) in
  if to_int r <? 0 then run! _ := ITree.trigger (Sys_dbgln (literal "Couldn't open the tty.")) in ITree.spin
  else run! _ := ITree.trigger (Sys_dbgln logo) in session (to_int r).
End Spec.

(** ** The comparisons *)
Lemma strcmp_literal s : ∀ b, Forall (λ c, c ≠ 0) s → (length s < length b)%nat →
  ∃ r, strcmp b (s ++ [0]) = Prelude.Ret r ∧ (r = 0 ↔ line b = s).
Proof.
  induction s as [|d s IH]; intros [|c b] Hs Hlen; cbn [length] in Hlen; try lia; cbn [app strcmp line].
  - rewrite andb_false_r. exists (c - 0). split; [reflexivity|].
    destruct (Z.eqb_spec c 0) as [->|Hc]; [done|]. split; [lia|done].
  - apply Forall_cons in Hs as [Hd Hs]. rewrite (proj2 (Z.eqb_neq d 0)) by done.
    destruct (Z.eqb_spec c 0) as [->|Hc]; cbn [negb andb].
    { exists (0 - d). split; [reflexivity|]. split; [lia|done]. }
    destruct (Z.eqb_spec c d) as [->|Hne]; cbn [negb].
    + destruct (IH b Hs ltac:(lia)) as (r & -> & Hr). exists r. split; [reflexivity|]. rewrite Hr. split; congruence.
    + exists (c - d). split; [reflexivity|]. split; [lia|congruence].
Qed.

Lemma line_zeros b n : line (b ++ replicate n 0) = line b.
Proof. induction b as [|c b IH]; simpl; [by destruct n|]. by rewrite IH. Qed.

Lemma after_read_length b w n : length b = n → length (after_read b w n) = n.
Proof. intros Hb. unfold after_read. rewrite length_app, length_drop, length_take. lia. Qed.

Lemma after_read_empty w : line (after_read Spec.empty w 512) = line (take 512 w).
Proof. unfold after_read, Spec.empty. rewrite drop_replicate. apply line_zeros. Qed.

Lemma clear_buffer b : length b = 512%nat → memset b 0 0 BUFFER_SIZE = Prelude.Ret Spec.empty.
Proof.
  intros Hb. pose proof (memset_spec [] b [] 0) as H. rewrite Hb in H. rewrite !app_nil_r in H. exact H.
Qed.

(** One comparison of the chain. *)
Lemma compare_with (name : string) b (t e : itree syscallE Z) :
  Forall (λ c, c ≠ 0) (characters name) → (length (characters name) < length b)%nat →
  (run! c := lift (strcmp b (literal name)) in if c =? 0 then t else e) ≈
    (if decide (characters name = line b) then t else e).
Proof.
  intros Hn Hlen. destruct (strcmp_literal _ b Hn Hlen) as (r & Hr & Heq). unfold literal. rewrite Hr.
  cbn [lift]. rewrite bind_ret_l. destruct (Z.eqb_spec r 0) as [->|Hne]; destruct (decide _) as [Hd|Hd]; try reflexivity.
  - destruct Hd. symmetry. by apply Heq.
  - destruct Hne. by apply Heq.
Qed.

Lemma execute_line_spec b : length b = 512%nat → execute_line b ≈ ITree.trigger (Spec.command (line b)).
Proof.
  intros Hb. unfold execute_line, Spec.command, Spec.commands. cbn [list_find].
  repeat match goal with
  | |- context [compare_with] => idtac
  | |- (run! c := lift (strcmp b (literal ?name)) in if c =? 0 then ?t else ?e) ≈ _ =>
      rewrite (compare_with name b t e) by first [by apply (bool_decide_unpack _)|rewrite Hb; by apply Nat.ltb_lt];
      cbn [fst]; destruct (decide (characters name = line b)); [reflexivity|]
  end.
  reflexivity.
Qed.

(** ** One round from an empty buffer leaves an empty buffer *)
Lemma round_spec fd :
  eutt (sum_rel (λ b (_ : unit), b = Spec.empty) eq) (console_round fd Spec.empty)
    (run! r := ITree.trigger (Sys_read fd Spec.empty BUFFER_SIZE) in
     run! _ := (if 0 <? r.1 then ITree.trigger (Spec.command (line (take 512 r.2))) else ITreeDefinition.Ret 0) in
     ITreeDefinition.Ret (inl tt)).
Proof.
  unfold console_round. apply eutt_clo_bind with (UU := eq); [reflexivity|]. intros r ? <-.
  set (b := after_read Spec.empty r.2 (Z.to_nat BUFFER_SIZE)).
  assert (Hb : length b = 512%nat) by (apply after_read_length; reflexivity).
  rewrite (clear_buffer b Hb). apply eutt_clo_bind with (UU := eq).
  - destruct (0 <? r.1); [|reflexivity]. rewrite (execute_line_spec b Hb). unfold b.
    change (Z.to_nat BUFFER_SIZE) with 512%nat. rewrite after_read_empty. reflexivity.
  - intros _ _ _. cbn [lift]. rewrite bind_ret_l. apply eutt_Ret. by constructor.
Qed.

(** ** The loop of the other program *)
Definition heartbeat : itree syscallE Z :=
  ITree.iter (λ _ : unit, run! _ := dbgln "Process 1 is alive!" in ITreeDefinition.Ret (inl tt)) tt.

(** Counting up takes no system call. *)
Lemma heartbeat_counts n : ∀ time, 0 ≤ time → time + Z.of_nat n = 1000000000 →
  euttge eq (ITree.iter heartbeat_step time) (run! _ := dbgln "Process 1 is alive!" in ITree.iter heartbeat_step 0).
Proof.
  induction n as [|n IH]; intros time H0 Hn; rewrite unfold_iter; unfold heartbeat_step at 1.
  - replace time with 1000000000 by lia. rewrite Z.eqb_refl. rewrite bind_bind. apply eqit_bind; [reflexivity|]. intros _.
    rewrite bind_ret_l. apply tau_euttge.
  - rewrite (proj2 (Z.eqb_neq _ _)) by lia. rewrite bind_ret_l. rewrite tau_euttge.
    rewrite wrap_small by (unfold in_word; lia). apply IH; lia.
Qed.

Lemma heartbeat_unfold : euttge eq heartbeat (run! _ := dbgln "Process 1 is alive!" in heartbeat).
Proof.
  unfold heartbeat at 1. rewrite unfold_iter, bind_bind. apply eqit_bind; [reflexivity|]. intros _.
  rewrite bind_ret_l. apply tau_euttge.
Qed.

Lemma heartbeat_loop : ITree.iter heartbeat_step 0 ≈ heartbeat.
Proof.
  einit. ecofix CIH. rewrite (heartbeat_counts (Z.to_nat 1000000000) 0) by (clear; lia). rewrite heartbeat_unfold.
  unfold dbgln, ITree.trigger. rewrite !bind_vis. evis. intros v. rewrite !bind_ret_l. ebase.
Qed.

(** * Properties *)

(** C40: The console program is the session of its table of commands, for every
    behaviour of the kernel: it opens the tty, waits for ever when that fails, and
    otherwise shows the logo and then, for each read that reports something, makes
    exactly the call that the text of the line names (a message when it names
    none).  The text is what the kernel stored up to the first NUL, so nothing of
    an earlier line is left in the buffer, and no access leaves the buffer or a
    literal, even when a line fills the whole buffer. *)
Theorem console_session logo : console_main logo ≈ Spec.main logo.
Proof.
  unfold console_main, Spec.main. apply eutt_eq_bind. intros r. destruct (to_int r <? 0); [reflexivity|].
  apply eutt_eq_bind. intros _. unfold console_loop, Spec.session.
  eapply (eutt_iter' (λ b (_ : unit), b = Spec.empty)); [|reflexivity]. intros ? [] ->. apply round_spec.
Qed.

(** A failed system call answers with all ones, which the program takes for a line:
    the empty one, which names no command. *)
Lemma failed_read_is_a_line : (0 <? Prelude.u64 (-1)) = true ∧ Spec.command (line (take 512 [])) = Spec.unknown.
Proof. split; vm_compute; reflexivity. Qed.

(** The message of the file is a C string for every answer of the kernel: the last
    byte of the buffer is not given to the kernel. *)
Lemma read_buffer_terminated written : text (after_read (replicate 128 0) written 127) (line (take 127 written)).
Proof.
  unfold after_read. set (w := take 127 written). assert (length w ≤ 127)%nat as Hw by (unfold w; rewrite length_take; lia).
  rewrite drop_replicate. replace (128 - length w)%nat with (S (127 - length w)) by lia. cbn [replicate].
  generalize (replicate (127 - length w) 0). intros rest. clearbody w. clear Hw written.
  induction w as [|c w IH]; cbn [line app]; [by exists rest|].
  destruct (Z.eqb_spec c 0) as [->|Hc]; [by exists (w ++ 0 :: rest)|].
  destruct IH as (r & Hr & Hn). exists r. split; [cbn [app]; congruence|by constructor].
Qed.

(** The other program says hello, shows what it could read of a file, and then only
    makes one call again and again, with nothing but counting in between. *)
Theorem dummy_process :
  dummy_process_main ≈
    (run! _ := dbgln "Hello from dummy process!" in
     run! r := ITree.trigger (Sys_open (literal "/hello.txt") 0) in
     run! _ := (if to_int r =? -1 then dbgln "Failed to open file" else read_hello (to_int r)) in heartbeat).
Proof.
  unfold dummy_process_main. apply eutt_eq_bind. intros _. apply eutt_eq_bind. intros r.
  cbv zeta. destruct (to_int r =? -1); cbn [negb]; (apply eutt_eq_bind; intros _; exact heartbeat_loop).
Qed.
